(** * Paint catalogue scrapers: colour sampling, SKU normalisation,
      catalogue assembly and merge

    A shallow embedding of the brand scrapers
    [ak-interactive/ak_paint_scraper.py], [vallejo/vallejo_paint_scraper.py]
    and [games-workshop/citadel_paint_scraper.py], followed by the properties
    of their normalisers, assemblers, merge engines, samplers and scrape
    loops.

    Conventions of the embedding.
    - A Python [str] is a [string]; the alphabet is ASCII.  [upper], [lower],
      [\s], [\d] and [\w] are the ASCII restrictions of the Python ones (the
      whitespace class keeps the separators 0x1c-0x1f that Python counts as
      whitespace); a non-ASCII character is carried by its UTF-8 bytes, which
      none of these classes contains and no case mapping touches.
    - A paint [dict] is a [gmap string value]; [d.get(k)] is [get d k] and
      [d.get(k, v)] is [get_or d k v].
    - A record produced by a scraper holds [str] or [None] under every key the
      code reads; a catalogue entry loaded from a JSON file may hold any JSON
      value, and a string method applied to a non-string raises, which is
      modelled by [None] in the [option] monad. *)

From stdpp Require Import gmap strings list fin_maps sorting pretty.
From Stdlib Require Import Ascii ZArith Lia QArith Qabs.

#[local] Set Warnings "-clear-no-such-hyp".
Local Open Scope Z_scope.

(** ** Python strings *)

Module Py.

Definition code (c : ascii) : N := Ascii.N_of_ascii c.

(** [str.isspace] on ASCII, which is also the class [\s] of [re]. *)
Definition is_space (c : ascii) : bool :=
  let n := code c in
  ((9 <=? n) && (n <=? 13) || (28 <=? n) && (n <=? 32))%N.

(** The class [\d] of [re] on ASCII. *)
Definition is_digit (c : ascii) : bool :=
  let n := code c in ((48 <=? n) && (n <=? 57))%N.

Definition is_lower (c : ascii) : bool :=
  let n := code c in ((97 <=? n) && (n <=? 122))%N.

Definition is_upper (c : ascii) : bool :=
  let n := code c in ((65 <=? n) && (n <=? 90))%N.

Definition is_alpha (c : ascii) : bool := is_lower c || is_upper c.

(** The class [\w] of [re] on ASCII: letters, digits and the underscore. *)
Definition is_word (c : ascii) : bool :=
  is_alpha c || is_digit c || (code c =? 95)%N.

Definition is_hexdigit (c : ascii) : bool :=
  let n := code c in
  (is_digit c || (65 <=? n) && (n <=? 70) || (97 <=? n) && (n <=? 102))%N.

Definition upper_char (c : ascii) : ascii :=
  if is_lower c then Ascii.ascii_of_N (code c - 32) else c.

Definition lower_char (c : ascii) : ascii :=
  if is_upper c then Ascii.ascii_of_N (code c + 32) else c.

Fixpoint smap (f : ascii → ascii) (s : string) : string :=
  match s with
  | EmptyString => EmptyString
  | String c s' => String (f c) (smap f s')
  end.

Fixpoint sfilter (p : ascii → bool) (s : string) : string :=
  match s with
  | EmptyString => EmptyString
  | String c s' => if p c then String c (sfilter p s') else sfilter p s'
  end.

Fixpoint sforall (p : ascii → bool) (s : string) : bool :=
  match s with
  | EmptyString => true
  | String c s' => p c && sforall p s'
  end.

(** [s.upper()] and [s.lower()], on ASCII letters: a character outside of
    ASCII (here the bytes of its UTF-8 form) is left as it is, where Python
    maps the letters of every alphabet. *)
Definition upper : string → string := smap upper_char.
Definition lower : string → string := smap lower_char.

(** Truth value of a string: [not s] is [negb (truthy s)]. *)
Definition truthy (s : string) : bool :=
  match s with EmptyString => false | _ => true end.

(** [re.sub(r'\s+', '', s)]: every maximal run of whitespace is deleted,
    which deletes every whitespace character. *)
Definition remove_ws : string → string := sfilter (λ c, negb (is_space c)).

(** [s.lstrip()], [s.rstrip()] and [s.strip()]. *)
Fixpoint lstrip (s : string) : string :=
  match s with
  | String c s' => if is_space c then lstrip s' else s
  | EmptyString => EmptyString
  end.

Fixpoint rstrip (s : string) : string :=
  match s with
  | EmptyString => EmptyString
  | String c s' =>
      match rstrip s' with
      | EmptyString => if is_space c then EmptyString else String c EmptyString
      | r => String c r
      end
  end.

Definition strip (s : string) : string := lstrip (rstrip s).

(** [s.startswith(p)]. *)
Fixpoint startswith (p s : string) : bool :=
  match p, s with
  | EmptyString, _ => true
  | String a p', String b s' => bool_decide (a = b) && startswith p' s'
  | String _ _, EmptyString => false
  end.

(** [p in s] for strings. *)
Fixpoint contains (p s : string) : bool :=
  startswith p s ||
  match s with
  | EmptyString => false
  | String _ s' => contains p s'
  end.

(** [s.endswith(p)]. *)
Fixpoint endswith (p s : string) : bool :=
  bool_decide (s = p) ||
  match s with
  | EmptyString => false
  | String _ s' => endswith p s'
  end.

(** [s[:n]] and [s[n:]] for [0 <= n]. *)
Fixpoint take (n : nat) (s : string) : string :=
  match n, s with
  | S n', String c s' => String c (take n' s')
  | _, _ => EmptyString
  end.

Fixpoint drop (n : nat) (s : string) : string :=
  match n, s with
  | S n', String _ s' => drop n' s'
  | _, _ => s
  end.

(** [s.replace(a, b)] for single characters. *)
Definition replace_char (a b : ascii) : string → string :=
  smap (λ c, if bool_decide (c = a) then b else c).

(** [s.rstrip(c)] for a single character. *)
Fixpoint rstrip_char (a : ascii) (s : string) : string :=
  match s with
  | EmptyString => EmptyString
  | String c s' =>
      match rstrip_char a s' with
      | EmptyString =>
          if bool_decide (c = a) then EmptyString else String c EmptyString
      | r => String c r
      end
  end.

(** [s.split(c)[-1]] for a single character: the text after the last [c]. *)
Fixpoint last_field (a : ascii) (s : string) : string :=
  match s with
  | EmptyString => EmptyString
  | String c s' =>
      if sforall (λ x, negb (bool_decide (x = a))) s'
      then (if bool_decide (c = a) then s' else s)
      else last_field a s'
  end.

(** [s.split()]: the maximal runs of non-whitespace characters. *)
Fixpoint split_go (cur : string) (s : string) : list string :=
  match s with
  | EmptyString =>
      match cur with EmptyString => [] | _ => [String.rev cur] end
  | String c s' =>
      if is_space c
      then match cur with
           | EmptyString => split_go EmptyString s'
           | _ => String.rev cur :: split_go EmptyString s'
           end
      else split_go (String c cur) s'
  end.
Definition split : string → list string := split_go EmptyString.

(** [sep.join(l)]. *)
Fixpoint join (sep : string) (l : list string) : string :=
  match l with
  | [] => EmptyString
  | [x] => x
  | x :: l' => x +:+ sep +:+ join sep l'
  end.

(** [s.title()]: a letter that follows a letter is lowercased, any other
    letter is uppercased.  The letters are those of ASCII, as for [upper]
    and [lower]. *)
Fixpoint title_go (prev_cased : bool) (s : string) : string :=
  match s with
  | EmptyString => EmptyString
  | String c s' =>
      if is_alpha c
      then String (if prev_cased then lower_char c else upper_char c)
                  (title_go true s')
      else String c (title_go false s')
  end.
Definition title : string → string := title_go false.

(** [s.rsplit(sep, 1)] when [sep in s]: the text before and after the last
    occurrence of [sep]. *)
Fixpoint rsplit1 (sep s : string) : option (string * string) :=
  match s with
  | EmptyString => None
  | String c s' =>
      match rsplit1 sep s' with
      | Some (a, b) => Some (String c a, b)
      | None =>
          if startswith sep s
          then Some (EmptyString, drop (String.length sep) s)
          else None
      end
  end.

(** [re.sub(r'\s+', ' ', s)]: every maximal run of whitespace becomes one
    space. *)
Fixpoint collapse_go (in_run : bool) (s : string) : string :=
  match s with
  | EmptyString => EmptyString
  | String c s' =>
      if is_space c
      then (if in_run then collapse_go true s'
            else String " "%char (collapse_go true s'))
      else String c (collapse_go false s')
  end.
Definition collapse_ws : string → string := collapse_go false.

(** [re.sub(r'\bword\b', '', s)] for a [word] made of word characters: an
    occurrence is deleted when no word character precedes it and none
    follows it; the scan goes on after the occurrence.  [prev] is the
    character before the current position. *)
Definition boundary_after (s : string) : bool :=
  match s with
  | EmptyString => true
  | String c _ => negb (is_word c)
  end.

Definition last_char (dflt : option ascii) (s : string) : option ascii :=
  match String.rev s with
  | String c _ => Some c
  | EmptyString => dflt
  end.

Fixpoint remove_word_go (word : string) (fuel : nat) (prev : option ascii)
    (s : string) : string :=
  match fuel with
  | O => s
  | S fuel' =>
      if negb (match prev with Some c => is_word c | None => false end)
         && startswith word s
         && boundary_after (drop (String.length word) s)
         && truthy word
      then remove_word_go word fuel' (last_char prev word)
             (drop (String.length word) s)
      else match s with
           | EmptyString => EmptyString
           | String c s' => String c (remove_word_go word fuel' (Some c) s')
           end
  end.

Definition remove_word (word s : string) : string :=
  remove_word_go word (S (String.length s)) None s.

(** [re.sub(pat + '$', '', s)] for a pattern [pat] that cannot match the
    empty string and whose language is closed under appended whitespace:
    the leftmost position whose whole remainder matches [pat] is where the
    text is cut.  [full] decides whether a whole string matches [pat]. *)
Fixpoint cut_suffix (full : string → bool) (s : string) : string :=
  if full s then EmptyString
  else match s with
       | EmptyString => EmptyString
       | String c s' => String c (cut_suffix full s')
       end.

(** Matchers for the pieces of the size-suffix patterns: each consumes a
    prefix and returns the rest. *)
Definition skip_ws : string → string := lstrip.

Fixpoint skip_digits (s : string) : string :=
  match s with
  | String c s' => if is_digit c then skip_digits s' else s
  | EmptyString => EmptyString
  end.

(** [\d+]: at least one digit. *)
Definition digits1 (s : string) : option string :=
  match s with
  | String c s' => if is_digit c then Some (skip_digits s') else None
  | EmptyString => None
  end.

(** [\s+]: at least one whitespace character. *)
Definition ws1 (s : string) : option string :=
  match s with
  | String c s' => if is_space c then Some (skip_ws s') else None
  | EmptyString => None
  end.

(** A literal, compared case-insensitively ([re.IGNORECASE]); [lit] is
    given in lower case. *)
Definition lit_ci (lit s : string) : option string :=
  if startswith lit (lower (take (String.length lit) s))
  then Some (drop (String.length lit) s) else None.

End Py.

(** ** Values and dictionaries *)

(** A JSON value as [json.load] yields it and as the scrapers build it. *)
#[local] Set Warnings "-register-all".
Inductive value :=
| VNone
| VBool (b : bool)
| VNum (z : Z)
| VStr (s : string)
| VList (l : list value)
| VDict (kvs : list (string * value)).

Abbreviation dict := (gmap string value).

(** Truth value of a Python object: [if v] and [not v]. *)
Definition truthy (v : value) : bool :=
  match v with
  | VNone => false
  | VBool b => b
  | VNum z => negb (z =? 0)
  | VStr s => Py.truthy s
  | VList l => match l with [] => false | _ => true end
  | VDict kvs => match kvs with [] => false | _ => true end
  end.

(** [d.get(k)] and [d.get(k, dflt)]. *)
Definition get (d : dict) (k : string) : value := default VNone (d !! k).
Definition get_or (d : dict) (k : string) (dflt : value) : value :=
  default dflt (d !! k).

(** Calling a function written for [str] on a value.  Each of the functions
    below starts with [if not x: return ''], which any false value takes; a
    true value that is not a string then raises [AttributeError] or
    [TypeError] at the first string operation. *)
Definition on_str (f : string → string) (v : value) : option string :=
  if truthy v then
    match v with VStr s => Some (f s) | _ => None end
  else Some EmptyString.

(** A record built by a scraper ([extract_paints_from_page] and the scrape
    loops): each key holds a [str] or [None]. *)
Abbreviation record := (gmap string (option string)).

Definition rget (p : record) (k : string) : option string := default None (p !! k).
Definition rget_or (p : record) (k : string) (dflt : option string) : option string :=
  default dflt (p !! k).

Definition otruthy (v : option string) : bool :=
  match v with Some s => Py.truthy s | None => false end.

(** The [str] behind a value that passed a truth test. *)
Definition ostr (v : option string) : string := default EmptyString v.

Definition of_opt (v : option string) : value :=
  match v with Some s => VStr s | None => VNone end.

(** [v == s] for a string [s]: only the same string is equal to it. *)
Definition eq_str (v : value) (s : string) : bool :=
  match v with VStr t => bool_decide (t = s) | _ => false end.

(** The string under key [k] of a catalogue entry, as a sort key. *)
Definition entry_str (k : string) (e : dict) : string :=
  match e !! k with Some (VStr s) => s | _ => EmptyString end.

(** [l.sort(key=...)] on string keys: Python's sort is stable, so its result
    is the one of insertion sort, which places an element before the first
    later element whose key is not smaller. *)
Fixpoint insert_by {A} (key : A → string) (x : A) (l : list A) : list A :=
  match l with
  | [] => [x]
  | y :: l' =>
      if String.leb (key x) (key y) then x :: l else y :: insert_by key x l'
  end.

Definition sort_by {A} (key : A → string) (l : list A) : list A :=
  foldr (insert_by key) [] l.

(** The dedup rule in the words of the specification: walking the records in
    order, a record without key is skipped, a record whose normalised key was
    met before is dropped, and the first record of each key is kept (with its
    key). *)
Fixpoint first_seen {A} (key : A → option string) (seen : gset string)
    (l : list A) : list (A * string) :=
  match l with
  | [] => []
  | x :: l' =>
      match key x with
      | None => first_seen key seen l'
      | Some k =>
          if bool_decide (k ∈ seen) then first_seen key seen l'
          else (x, k) :: first_seen key ({[k]} ∪ seen) l'
      end
  end.

(** The first record of [l] with key [k] satisfies [P]. *)
Definition first_record {A} (key : A → option string) (l : list A)
    (k : string) (P : A → Prop) : Prop :=
  ∃ l1 x l2, l = l1 ++ x :: l2 ∧ key x = Some k
             ∧ Forall (λ y, key y ≠ Some k) l1 ∧ P x.

Definition no_space (s : string) : bool := Py.sforall (λ c, negb (Py.is_space c)) s.

(** ** Decoded images and the colour sampler *)

(** A decoded RGB bitmap (what [Image.open(...).convert('RGB')] returns): its
    size and the colour of each pixel. *)
Record image := {
  width : Z;
  height : Z;
  pixel : Z → Z → Z * Z * Z
}.

(** [img.getpixel((x, y))]; outside of the image it raises [IndexError],
    which is the result [None].  The samplers never pass a negative
    coordinate. *)
Definition getpixel (img : image) (x y : Z) : option (Z * Z * Z) :=
  if (0 <=? x) && (x <? width img) && (0 <=? y) && (y <? height img)
  then Some (pixel img x y) else None.

(** The format [{:02X}] of a number that is not negative. *)
Definition hex_digit (n : Z) : ascii :=
  match n with
  | 0 => "0" | 1 => "1" | 2 => "2" | 3 => "3" | 4 => "4" | 5 => "5"
  | 6 => "6" | 7 => "7" | 8 => "8" | 9 => "9" | 10 => "A" | 11 => "B"
  | 12 => "C" | 13 => "D" | 14 => "E" | _ => "F"
  end%char.

Fixpoint hex_go (fuel : nat) (n : Z) : string :=
  match fuel with
  | O => EmptyString
  | S fuel' =>
      if n <? 16 then String (hex_digit n) EmptyString
      else hex_go fuel' (n / 16) +:+ String (hex_digit (n mod 16)) EmptyString
  end.

Definition format_02X (n : Z) : string :=
  let digits := hex_go (S (Z.to_nat (Z.log2 n))) n in
  if (String.length digits <? 2)%nat then String "0"%char digits else digits.

(** [#{:02X}{:02X}{:02X}] of a colour. *)
Definition hex_color (c : Z * Z * Z) : string :=
  let '(r, g, b) := c in
  String "#"%char (format_02X r +:+ format_02X g +:+ format_02X b).

(** A [#] followed by six hexadecimal digits. *)
Definition is_hex_color (s : string) : bool :=
  match s with
  | String "#"%char digits =>
      (String.length digits =? 6)%nat && Py.sforall Py.is_hexdigit digits
  | _ => false
  end.

(** The sampling loop shared by the image samplers.  Scores are rational
    numbers here: the rounding of the floating-point scores of the source is
    not modelled; the brightness gate compares a third of an integer with an
    integer, which floating point does exactly. *)
Module Sampler.

(** [range(-5, 6, 2)]. *)
Definition offsets : list Z := [-5; -3; -1; 1; 3; 5].

(** The pixels of the neighbourhood of [(x, y)], clamped to the image. *)
Definition neighbourhood (img : image) (x y : Z) : option (list (Z * Z * Z)) :=
  mapM (λ d : Z * Z,
          getpixel img
            (Z.max 0 (Z.min (x + d.1) (width img - 1)))
            (Z.max 0 (Z.min (y + d.2) (height img - 1))))
       (dx ← offsets; dy ← offsets; [(dx, dy)]).

(** The channel-wise mean of the pixels, with integer division. *)
Definition mean_color (colors : list (Z * Z * Z)) : Z * Z * Z :=
  let n := Z.of_nat (length colors) in
  (foldr Z.add 0 ((λ c, c.1.1) <$> colors) / n,
   foldr Z.add 0 ((λ c, c.1.2) <$> colors) / n,
   foldr Z.add 0 (snd <$> colors) / n).

Definition saturation (c : Z * Z * Z) : Q :=
  let '(r, g, b) := c in
  let max_c := Z.max (Z.max r g) b in
  let min_c := Z.min (Z.min r g) b in
  if 0 <? max_c
  then (inject_Z (max_c - min_c) / inject_Z (Z.max max_c 1))%Q
  else 0%Q.

Definition brightness (c : Z * Z * Z) : Q :=
  let '(r, g, b) := c in (inject_Z (r + g + b) / 3)%Q.

(** [brightness > 245 or brightness < 10]. *)
Definition gated (c : Z * Z * Z) : bool :=
  negb (Qle_bool (brightness c) 245) || negb (Qle_bool 10 (brightness c)).

(** [saturation * (1 - brightness_penalty * weight) + bonus], in exact
    rationals where the code has floats: two scores closer than the
    rounding of a float can compare differently here. *)
Definition score (weight bonus : Q) (c : Z * Z * Z) : Q :=
  let brightness_penalty := (Qabs (brightness c - 127) / 127)%Q in
  (saturation c * (1 - brightness_penalty * weight) + bonus)%Q.

(** One iteration of the loop over the sample regions, on the state
    [(best_color, best_score)]. *)
Definition region_step (weight bonus : Q) (img : image)
    (st : option (Z * Z * Z) * Q) (xy : Z * Z)
    : option (option (Z * Z * Z) * Q) :=
  match neighbourhood img xy.1 xy.2 with
  | None => None
  | Some colors =>
      let c := mean_color colors in
      if gated c then Some st
      else if negb (Qle_bool (score weight bonus c) st.2)
           then Some (Some c, score weight bonus c)
           else Some st
  end.

Fixpoint region_loop (weight bonus : Q) (img : image)
    (st : option (Z * Z * Z) * Q) (regions : list (Z * Z))
    : option (option (Z * Z * Z) * Q) :=
  match regions with
  | [] => Some st
  | xy :: rest =>
      match region_step weight bonus img st xy with
      | None => None
      | Some st' => region_loop weight bonus img st' rest
      end
  end.

(** The body of the [try] block after decoding: the best candidate, or the
    raw pixel at the fallback position when every candidate is gated; any
    exception gives [None]. *)
Definition sample (weight bonus : Q) (regions : list (Z * Z)) (fallback : Z * Z)
    (img : image) : option string :=
  match region_loop weight bonus img (None, (-1)%Q) regions with
  | None => None
  | Some (Some best_color, _) => Some (hex_color best_color)
  | Some (None, _) =>
      match getpixel img fallback.1 fallback.2 with
      | Some c => Some (hex_color c)
      | None => None
      end
  end.

(** The three channels of a colour lie between [lo] and [hi]. *)
Definition channels_within (lo hi : Z) (c : Z * Z * Z) : Prop :=
  lo ≤ c.1.1 ≤ hi ∧ lo ≤ c.1.2 ≤ hi ∧ lo ≤ c.2 ≤ hi.

(** Every channel of every pixel is in the range of a byte. *)
Definition valid_pixels (img : image) : Prop :=
  ∀ x y, 0 ≤ x < width img → 0 ≤ y < height img →
    channels_within 0 255 (pixel img x y).

(** Every channel of every pixel is above the near-white threshold. *)
Definition near_white (img : image) : Prop :=
  ∀ x y, 0 ≤ x < width img → 0 ≤ y < height img →
    channels_within 246 255 (pixel img x y).

End Sampler.

(** ** The merge engine *)

(** A catalogue file as [json.load] returns it: a list of entries, an object
    with a [paints] list besides its other keys, or anything else. *)
Inductive catalogue_file :=
| FlatList (paints : list dict)
| Wrapper (meta : dict) (paints : list dict)
| Unrecognized (data : value).

Definition paint_list (f : catalogue_file) : option (list dict) :=
  match f with
  | FlatList paints | Wrapper _ paints => Some paints
  | Unrecognized _ => None
  end.

Definition with_paints (f : catalogue_file) (paints : list dict) : catalogue_file :=
  match f with
  | FlatList _ => FlatList paints
  | Wrapper meta _ => Wrapper meta paints
  | Unrecognized data => Unrecognized data
  end.

(** [v != o] for an entry value and a scraped string or [None]. *)
Definition differs (v : value) (o : option string) : bool :=
  match o with
  | Some s => negb (eq_str v s)
  | None => match v with VNone => false | _ => true end
  end.

(** What the batch merge prints for one file. *)
Inductive file_report :=
| Skipped
| Merged (updated sku_changes : nat) (not_found : list value).

(** [batch_update_json_files] is the same code in the AK Interactive and the
    Vallejo scraper but for the two normalisers it calls. *)
Module Merge.
Section merge.
Variable normalize_sku : string → string.
Variable normalize_name : string → string.

(** The loop that builds the lookups [(sku_to_data, name_to_data)]. *)
Definition lookup_step (lk : gmap string record * gmap string record)
    (paint : record) : gmap string record * gmap string record :=
  let '(sku_to_data, name_to_data) := lk in
  if otruthy (rget paint "sku") && otruthy (rget paint "hex") then
    let norm_sku := normalize_sku (ostr (rget paint "sku")) in
    let sku_to_data := <[norm_sku := paint]> sku_to_data in
    let title := rget_or paint "title" (Some EmptyString) in
    if otruthy title then
      let norm_name := normalize_name (ostr title) in
      if Py.truthy norm_name && bool_decide (name_to_data !! norm_name = None)
      then (sku_to_data, <[norm_name := paint]> name_to_data)
      else (sku_to_data, name_to_data)
    else (sku_to_data, name_to_data)
  else lk.

Definition build_lookups (scraped_data : list record)
    : gmap string record * gmap string record :=
  foldl lookup_step (∅, ∅) scraped_data.

(** The keys under which a fresh record enters the two lookups, [None]
    when it does not enter. *)
Definition fresh_sku_key (paint : record) : option string :=
  if otruthy (rget paint "sku") && otruthy (rget paint "hex")
  then Some (normalize_sku (ostr (rget paint "sku"))) else None.

Definition fresh_name_key (paint : record) : option string :=
  if otruthy (rget paint "sku") && otruthy (rget paint "hex")
     && otruthy (rget_or paint "title" (Some EmptyString))
     && Py.truthy (normalize_name (ostr (rget_or paint "title" (Some EmptyString))))
  then Some (normalize_name (ostr (rget_or paint "title" (Some EmptyString))))
  else None.

(** The fresh records that carry a SKU and a colour have pairwise distinct
    normalised SKUs. *)
Definition distinct_skus (scraped_data : list record) : Prop :=
  NoDup (omap fresh_sku_key scraped_data).

(** The fresh records that share a normalised SKU carry the same colour. *)
Definition agreeing_hex (scraped_data : list record) : Prop :=
  ∀ x y k, x ∈ scraped_data → y ∈ scraped_data →
    fresh_sku_key x = Some k → fresh_sku_key y = Some k →
    rget x "hex" = rget y "hex".

(** The two lookups agree on the colours: the record that the name lookup
    keeps under a name and the record that the SKU lookup keeps under the
    normalised SKU of that record carry the same colour. *)
Definition lookups_agree (lk : gmap string record * gmap string record) : Prop :=
  ∀ n d, lk.2 !! n = Some d →
    ∃ d', lk.1 !! normalize_sku (ostr (rget d "sku")) = Some d'
          ∧ rget d' "hex" = rget d "hex".

(** The two match attempts of the loop body: the record found and whether
    it was found by SKU ([match_type] is 'sku'); [None] is an exception. *)
Definition find_match (lk : gmap string record * gmap string record)
    (paint : dict) (sku : string) : option (option (record * bool)) :=
  match lk.1 !! sku with
  | Some d => Some (Some (d, true))
  | None =>
      match on_str normalize_name (get_or paint "name" (VStr EmptyString)) with
      | None => None
      | Some norm_name =>
          if Py.truthy norm_name
          then Some (match lk.2 !! norm_name with
                     | Some d => Some (d, false)
                     | None => None
                     end)
          else Some None
      end
  end.

(** What the loop body does with a matched record. *)
Definition apply_match (paint : dict) (matched_data : record) (by_sku : bool)
    : dict * bool * bool :=
  let changed1 := differs (get paint "hex") (rget matched_data "hex") in
  let paint1 :=
    if changed1 then <["hex" := of_opt (rget matched_data "hex")]> paint
    else paint in
  if by_sku then (paint1, changed1, false)
  else
    let old_sku := get_or paint1 "sku" (VStr EmptyString) in
    let new_sku := rget_or matched_data "sku" (Some EmptyString) in
    if differs old_sku new_sku && otruthy new_sku then
      let paint2 := <["sku" := of_opt new_sku]> paint1 in
      let paint3 :=
        if otruthy (rget matched_data "product_url")
        then <["url" := of_opt (rget matched_data "product_url")]> paint2
        else paint2 in
      (paint3, true, true)
    else (paint1, changed1, false).

(** The body of the loop over the entries of one file.  The result is the
    entry after the iteration, whether it counts as updated, whether its
    SKU changed, and what the iteration appends to [not_found]; [None] is
    an exception. *)
Definition merge_paint (lk : gmap string record * gmap string record)
    (paint : dict) : option (dict * bool * bool * list value) :=
  match on_str normalize_sku (get_or paint "sku" (VStr EmptyString)) with
  | None => None
  | Some sku =>
      match find_match lk paint sku with
      | None => None
      | Some (Some (matched_data, by_sku)) =>
          if bool_decide (matched_data = ∅)
          then Some (paint, false, false,
                     if Py.truthy sku
                     then [get_or paint "sku" (VStr EmptyString)] else [])
          else Some (apply_match paint matched_data by_sku, [])
      | Some None =>
          Some (paint, false, false,
                if Py.truthy sku
                then [get_or paint "sku" (VStr EmptyString)] else [])
      end
  end.

(** The loop over the entries of one file, with its counters. *)
Fixpoint merge_paints (lk : gmap string record * gmap string record)
    (paints : list dict) : option (list dict * nat * nat * list value) :=
  match paints with
  | [] => Some ([], 0%nat, 0%nat, [])
  | paint :: rest =>
      match merge_paint lk paint with
      | None => None
      | Some (paint', changed, sku_changed, nf) =>
          match merge_paints lk rest with
          | None => None
          | Some (rest', updated, sku_changes, not_found) =>
              Some (paint' :: rest',
                    ((if changed then 1 else 0) + updated)%nat,
                    ((if sku_changed then 1 else 0) + sku_changes)%nat,
                    nf ++ not_found)
          end
      end
  end.

(** One file of the directory: a file of unrecognised shape is skipped, an
    exception while merging is caught and the file is left as it was, and
    otherwise the merged data is what the file holds afterwards (it is
    written back when something was updated, and equal to the old content
    when nothing was). *)
Definition merge_file (lk : gmap string record * gmap string record)
    (f : catalogue_file) : catalogue_file * file_report :=
  match paint_list f with
  | None => (f, Skipped)
  | Some paints =>
      match merge_paints lk paints with
      | None => (f, Skipped)
      | Some (paints', updated, sku_changes, not_found) =>
          (with_paints f paints', Merged updated sku_changes not_found)
      end
  end.

Definition report_updated (r : file_report) : nat :=
  match r with Merged updated _ _ => updated | Skipped => 0%nat end.
Definition report_sku_changes (r : file_report) : nat :=
  match r with Merged _ sku_changes _ => sku_changes | Skipped => 0%nat end.

(** [batch_update_json_files]: the files of the directory after the run,
    the report of each, and the totals [(total_updated,
    total_sku_updated)]. *)
Definition batch_update_json_files (directory : list catalogue_file)
    (scraped_data : list record)
    : list (catalogue_file * file_report) * (nat * nat) :=
  let lk := build_lookups scraped_data in
  let results := merge_file lk <$> directory in
  (results,
   (sum_list (report_updated ∘ snd <$> results),
    sum_list (report_sku_changes ∘ snd <$> results))).

End merge.
End Merge.

(** ** AK Interactive *)

Module AK.

(** The pattern of [get_paint_type] for a standalone medium,
    [\bmedium\s+(for|gen|paint)|medium$], tried at one position: [prev] is
    the character before it.  The first alternative needs a word boundary
    before the word; the second one accepts the end of the string or a final
    newline after it. *)
Definition medium_here (prev : option ascii) (s : string) : bool :=
  negb (match prev with Some c => Py.is_word c | None => false end)
  && Py.startswith "medium" s
  && match Py.ws1 (Py.drop 6 s) with
     | Some r => Py.startswith "for" r || Py.startswith "gen" r
                 || Py.startswith "paint" r
     | None => false
     end
  || bool_decide (s = "medium")
  || bool_decide (s = String.append "medium" (String "010"%char EmptyString)).

(** [re.search] of that pattern. *)
Fixpoint medium_search (prev : option ascii) (s : string) : bool :=
  medium_here prev s
  || match s with
     | EmptyString => false
     | String c s' => medium_search (Some c) s'
     end.

(** [get_paint_type]: keywords of the name first, then the type of the
    range. *)
Definition get_paint_type (paint : record) (range_type : string) : string :=
  let title := rget paint "title" in
  let name := Py.lower (if otruthy title then ostr title else EmptyString) in
  if Py.contains "varnish" name then "varnish"
  else if Py.contains "thinner" name then "thinner"
  else if Py.contains "primer" name then "primer"
  else if medium_search None name then "technical"
  else if Py.contains "metallic" name || Py.contains "metal" name then "metallic"
  else range_type.

(** The sample regions of [sample_color_from_image] for each range. *)
Definition sample_regions (range_hint : string) (width height : Z) : list (Z * Z) :=
  if bool_decide (range_hint = "acrylic-wash") then
    [(245, 610); (200, 580); (280, 620); (220, 550); (260, 650)]
  else if bool_decide (range_hint = "deep-shades") then
    [(width / 2, 4 * height / 5); (width / 2, 3 * height / 4);
     (width / 3, 4 * height / 5); (2 * width / 3, 4 * height / 5);
     (width / 2, 7 * height / 10)]
  else if bool_decide (range_hint = "playmarkers") then
    [(4 * width / 5, height / 2); (7 * width / 8, height / 2);
     (4 * width / 5, 2 * height / 5); (7 * width / 8, 2 * height / 5);
     (4 * width / 5, 3 * height / 5); (7 * width / 8, 3 * height / 5)]
  else if bool_decide (range_hint = "rc-markers") then
    [(width / 2, height / 3); (width / 2, height / 4);
     (width / 3, height / 3); (2 * width / 3, height / 3);
     (width / 2, height / 2)]
  else
    [(width / 2, height / 5); (width / 3, height / 5); (2 * width / 3, height / 5);
     (width / 2, height / 4); (width / 3, height / 4); (2 * width / 3, height / 4);
     (width / 2, height / 3); (width / 3, height / 3); (2 * width / 3, height / 3)].

(** The position of the fallback pixel. *)
Definition fallback_position (width height : Z) : Z * Z := (width / 2, height / 4).

(** [sample_color_from_image] on a decoded image. *)
Definition sample_image (img : image) (range_hint : string) : option string :=
  Sampler.sample (1 # 2) 0
    (sample_regions range_hint (width img) (height img))
    (fallback_position (width img) (height img)) img.

(** [sample_color_from_image]: [fetch] is the download and the decoding of
    the image, [None] when either raises. *)
Definition sample_color_from_image (fetch : string → option image)
    (img_url range_hint : string) : option string :=
  match fetch img_url with
  | Some img => sample_image img range_hint
  | None => None
  end.

(** [normalize_sku]: uppercase, then delete whitespace. *)
Definition normalize_sku (sku : string) : string :=
  if negb (Py.truthy sku) then EmptyString
  else Py.remove_ws (Py.upper sku).

(** [to_sentence_case]: a word that is all upper or all lower case is
    title-cased, a mixed-case word is kept. *)
Definition to_sentence_case (name : string) : string :=
  if negb (Py.truthy name) then name
  else
    Py.join " "
      (map (λ word,
              if bool_decide (Py.upper word = word)
                 || bool_decide (Py.lower word = word)
              then Py.title word else word)
           (Py.split name)).

Definition separators : list string := [" – "; "- "; " - "; " — "; "— "].

Definition strip_suffixes : list string :=
  ["color"; "gen"; "shade"; "ink"; "wash"; "marker"; "real";
   "figures"; "afv"; "air";
   "standard"; "intense"; "metallic"; "pastel"; "auxiliary";
   "efecto"; "lino"; "wargame"].

(** The loop over the separators of [clean_paint_name]. *)
Fixpoint strip_range_suffix (seps : list string) (name : string) : string :=
  match seps with
  | [] => name
  | sep :: seps' =>
      if Py.contains sep name then
        match Py.rsplit1 sep name with
        | Some (before, suffix) =>
            if existsb (λ x, Py.contains x (Py.lower suffix)) strip_suffixes
            then Py.strip before
            else strip_range_suffix seps' name
        | None => strip_range_suffix seps' name
        end
      else strip_range_suffix seps' name
  end.

(** Whole-string match of [\s*\(\d+\s*ml\)\s*]. *)
Definition size_in_parens (s : string) : bool :=
  match Py.skip_ws s with
  | String "("%char s1 =>
      match Py.digits1 s1 with
      | Some s2 =>
          match Py.lit_ci "ml" (Py.skip_ws s2) with
          | Some (String ")"%char s3) =>
              bool_decide (Py.skip_ws s3 = EmptyString)
          | _ => false
          end
      | None => false
      end
  | _ => false
  end.

(** Whole-string match of [\s+\d+\s*ml\s*]. *)
Definition size_bare (s : string) : bool :=
  match Py.ws1 s with
  | Some s1 =>
      match Py.digits1 s1 with
      | Some s2 =>
          match Py.lit_ci "ml" (Py.skip_ws s2) with
          | Some s3 => bool_decide (Py.skip_ws s3 = EmptyString)
          | None => false
          end
      | None => false
      end
  | None => false
  end.

(** [clean_paint_name]: drop a range suffix after the last dash, then a
    size suffix. *)
Definition clean_paint_name (name : string) : string :=
  if negb (Py.truthy name) then name
  else
    let name := strip_range_suffix separators name in
    let name := Py.strip (Py.cut_suffix size_in_parens name) in
    Py.strip (Py.cut_suffix size_bare name).

(** The display name of [generate_catalogue]: the title, or the last path
    segment of the product URL, then sentence case and suffix cleaning. *)
Definition display_name (paint : record) : option string :=
  let name := rget paint "title" in
  let name :=
    if negb (otruthy name) && otruthy (rget paint "product_url")
    then Some (Py.title (Py.replace_char "-" " "
                 (Py.last_field "/" (Py.rstrip_char "/" (ostr (rget paint "product_url"))))))
    else name in
  if otruthy name
  then Some (clean_paint_name (to_sentence_case (ostr name)))
  else name.

(** The entry that [generate_catalogue] builds for a record whose SKU
    normalises to [sku_clean]. *)
Definition make_entry (range_name : string) (paint : record) (sku_clean : string) : dict :=
  list_to_map
    [("brand", VStr "AK Interactive");
     ("brandData", VDict []);
     ("category", of_opt (rget_or paint "category" (Some EmptyString)));
     ("discontinued", VBool false);
     ("hex", of_opt (rget_or paint "hex" (Some EmptyString)));
     ("id", VStr ("ak-interactive-" +:+ Py.lower sku_clean));
     ("impcat", VDict [("layerId", VNone); ("shadeId", VNone)]);
     ("name", of_opt (display_name paint));
     ("range", VStr range_name);
     ("sku", VStr sku_clean);
     ("type", of_opt (rget_or paint "paint_type" (Some EmptyString)));
     ("url", of_opt (rget_or paint "product_url" (Some EmptyString)))].

(** One iteration of the loop of [generate_catalogue] over the state
    [(catalogue, seen_skus)]. *)
Definition catalogue_step (range_name : string)
    (st : list dict * gmap string nat) (paint : record)
    : list dict * gmap string nat :=
  let '(catalogue, seen_skus) := st in
  let sku := rget_or paint "sku" (Some EmptyString) in
  if negb (otruthy sku) then st
  else
    let sku_clean := normalize_sku (ostr sku) in
    match seen_skus !! sku_clean with
    | Some existing_idx =>
        match catalogue !! existing_idx with
        | Some existing =>
            let existing_cat := get_or existing "category" (VStr EmptyString) in
            let new_cat := rget_or paint "category" (Some EmptyString) in
            if eq_str existing_cat "General"
               && otruthy new_cat
               && negb (bool_decide (new_cat = Some "General"))
            then (<[existing_idx := <["category" := of_opt new_cat]> existing]> catalogue,
                  seen_skus)
            else st
        | None => st
        end
    | None =>
        (catalogue ++ [make_entry range_name paint sku_clean],
         <[sku_clean := length catalogue]> seen_skus)
    end.

(** [generate_catalogue]: the loop, then the sort by SKU. *)
Definition generate_catalogue (scraped_data : list record) (range_name : string)
    : list dict :=
  sort_by (entry_str "sku")
    (foldl (catalogue_step range_name) ([], ∅) scraped_data).1.

Definition filler_words : list string :=
  ["ak"; "interactive"; "acrylic"; "paint"; "color"; "colour"].

(** [normalize_name]: lower case, punctuation deleted, whitespace
    collapsed, filler words deleted. *)
Definition normalize_name (name : string) : string :=
  if negb (Py.truthy name) then EmptyString
  else
    let name := Py.lower name in
    let name := Py.sfilter (λ c, Py.is_word c || Py.is_space c) name in
    let name := Py.strip (Py.collapse_ws name) in
    let name := foldl (λ name word, Py.remove_word word name) name filler_words in
    Py.strip (Py.collapse_ws name).

Definition COLOR_RANGES_3GEN : list (string * string) :=
  [("3gen-color-punch", "Color Punch"); ("general", "General"); ("afv", "AFV");
   ("air", "AIR"); ("acrylic-effect", "Effect"); ("fantasy", "Fantasy");
   ("figures", "Figures"); ("intense", "Intense"); ("metallic", "Metallic");
   ("pastel", "Pastel"); ("standard", "Standard"); ("wargame", "Wargame")].

Definition RANGE_TO_TYPE : list (string * string) :=
  [("standard", "opaque"); ("general", "opaque"); ("afv", "opaque");
   ("figures", "opaque"); ("intense", "opaque"); ("pastel", "opaque");
   ("wargame", "opaque"); ("3gen-color-punch", "opaque");
   ("acrylic-effect", "opaque"); ("fantasy", "opaque"); ("air", "air");
   ("metallic", "metallic"); ("quick-gen", "contrast");
   ("real-colors", "opaque"); ("rc-markers", "opaque");
   ("playmarkers", "opaque"); ("deep-shades", "wash"); ("the-inks", "ink");
   ("acrylic-wash", "wash")].

(** [table.get(key, dflt)] on a constant table. *)
Fixpoint table_get (table : list (string * string)) (key dflt : string) : string :=
  match table with
  | [] => dflt
  | (k, v) :: rest => if bool_decide (k = key) then v else table_get rest key dflt
  end.

Definition get_category (color_range : string) : string :=
  table_get COLOR_RANGES_3GEN color_range EmptyString.

(** [re.match(r'^(AK\d+|RCS\d+|RCM\d+|RC\d+|AKM\d+)$', sku,
    re.IGNORECASE)]: one of the prefixes, digits, and the end of the string or
    a final newline. *)
Definition sku_prefixes : list string := ["ak"; "rcs"; "rcm"; "rc"; "akm"].

Definition valid_sku_format (sku : string) : bool :=
  existsb
    (λ prefix,
       match Py.lit_ci prefix sku with
       | Some rest =>
           match Py.digits1 rest with
           | Some r => bool_decide (r = EmptyString)
                       || bool_decide (r = String "010"%char EmptyString)
           | None => false
           end
       | None => false
       end)
    sku_prefixes.

(** [is_set_sku]; [set_skus] is the content of the cache [_SET_SKUS_CACHE]. *)
Definition is_set_sku (set_skus : gset string) (sku : string) : bool :=
  if negb (Py.truthy sku) then false
  else bool_decide (Py.upper sku ∈ set_skus).

Definition is_paint_product (set_skus : gset string) (paint : record) : bool :=
  let sku := Py.upper (if otruthy (rget paint "sku")
                       then ostr (rget paint "sku") else EmptyString) in
  if negb (valid_sku_format sku) then false
  else if is_set_sku set_skus sku then false
  else true.

(** The loop of [dedupe_by_name] on the state [(seen_skus, result)]. *)
Definition dedupe_step (st : gset string * list record) (paint : record)
    : gset string * list record :=
  let '(seen_skus, result) := st in
  let sku := if otruthy (rget paint "sku")
             then ostr (rget paint "sku") else EmptyString in
  if Py.truthy sku && bool_decide (sku ∈ seen_skus) then st
  else ((if Py.truthy sku then {[sku]} ∪ seen_skus else seen_skus),
        result ++ [paint]).

Definition dedupe_by_name (paints : list record) : list record :=
  (foldl dedupe_step (∅, []) paints).2.

(** [sample_paint_color]. *)
Definition sample_paint_color (fetch : string → option image)
    (range_hint : string) (paint : record) : record :=
  let img_url := rget paint "img_url" in
  let img_url :=
    if bool_decide (range_hint = "rc-markers") && otruthy (rget paint "sku")
    then Some ("https://ak-interactive.com/wp-content/uploads/2024/06/"
               +:+ Py.upper (ostr (rget paint "sku")) +:+ "_detail.jpg")
    else img_url in
  if otruthy img_url
  then <["hex" := sample_color_from_image fetch (ostr img_url) range_hint]> paint
  else paint.

(** One listing page as the scrape loop sees it: what
    [extract_paints_from_page] finds on it and what [has_next_page] says. *)
Record listing := {
  items : list record;
  has_next : bool
}.

(** What the loop does with the paints of one page that passed the filter:
    the colours (sampled on a thread pool, each paint on its own), then the
    category and the type. *)
Definition annotate (fetch_image : string → option image) (color_range : string)
    (sample_colors : bool) (paints : list record) : list record :=
  let paints :=
    if sample_colors then sample_paint_color fetch_image color_range <$> paints
    else paints in
  (λ paint,
     let paint := <["category" := Some (get_category color_range)]> paint in
     <["paint_type" :=
         Some (get_paint_type paint (table_get RANGE_TO_TYPE color_range EmptyString))]>
       paint) <$> paints.

(** The loop of [scrape_color_range]: [fetch_page page] is the listing at
    the URL of that page number, [None] when the request or the parsing
    raises; [fuel] counts the pages up to the limit of fifty. *)
Fixpoint scrape_loop (fetch_page : nat → option listing)
    (fetch_image : string → option image) (set_skus : gset string)
    (color_range : string) (sample_colors : bool)
    (fuel page : nat) (all_paints : list record) : list record :=
  match fuel with
  | O => all_paints
  | S fuel' =>
      match fetch_page page with
      | None => all_paints
      | Some soup =>
          let paints := items soup in
          let before_filter := length paints in
          let paints := filter (λ p, is_paint_product set_skus p = true) paints in
          let paints := dedupe_by_name paints in
          if (before_filter =? 0)%nat then all_paints
          else
            let all_paints :=
              match paints with
              | [] => all_paints
              | _ => all_paints ++ annotate fetch_image color_range sample_colors paints
              end in
            if negb (has_next soup) then all_paints
            else scrape_loop fetch_page fetch_image set_skus color_range
                   sample_colors fuel' (S page) all_paints
      end
  end.

Definition scrape_color_range (fetch_page : nat → option listing)
    (fetch_image : string → option image) (set_skus : gset string)
    (color_range : string) (sample_colors : bool) : list record :=
  scrape_loop fetch_page fetch_image set_skus color_range sample_colors 50 1 [].

(** The lookup [sku_to_hex] of [update_existing_json]. *)
Definition sku_to_hex (scraped_data : list record) : gmap string string :=
  foldl (λ m paint,
           if otruthy (rget paint "sku") && otruthy (rget paint "hex")
           then <[normalize_sku (ostr (rget paint "sku")) := ostr (rget paint "hex")]> m
           else m)
        ∅ scraped_data.

(** The loop of [update_existing_json] over the entries, with its counter;
    [None] is an exception. *)
Fixpoint update_paints (lk : gmap string string) (paints : list dict)
    : option (list dict * nat) :=
  match paints with
  | [] => Some ([], 0%nat)
  | paint :: rest =>
      match on_str normalize_sku (get_or paint "sku" (VStr EmptyString)) with
      | None => None
      | Some sku =>
          let '(paint', n) :=
            match lk !! sku with
            | Some h => (<["hex" := VStr h]> paint, 1%nat)
            | None => (paint, 0%nat)
            end in
          match update_paints lk rest with
          | None => None
          | Some (rest', updated) => Some (paint' :: rest', (n + updated)%nat)
          end
      end
  end.

(** [update_existing_json]: the data it returns (which [main] writes back)
    and the count it prints, if it prints one. *)
Definition update_existing_json (existing : catalogue_file)
    (scraped_data : list record) : option (catalogue_file * option nat) :=
  match paint_list existing with
  | None => Some (existing, None)
  | Some paints =>
      match update_paints (sku_to_hex scraped_data) paints with
      | None => None
      | Some (paints', updated) =>
          Some (with_paints existing paints', Some updated)
      end
  end.

Definition batch_update_json_files :=
  Merge.batch_update_json_files normalize_sku normalize_name.

(** The normalised SKU under which the assembler files a record, [None]
    when it skips the record. *)
Definition sku_key (paint : record) : option string :=
  let sku := rget_or paint "sku" (Some EmptyString) in
  if otruthy sku then Some (normalize_sku (ostr sku)) else None.

(** Two entries that agree on every key but [category]. *)
Definition same_but_category (e1 e2 : dict) : Prop :=
  ∀ k, k ≠ "category" → e1 !! k = e2 !! k.

(** [OTHER_PRODUCTS]: the key of a product line, its name and the URL of
    its first listing page. *)
Definition OTHER_PRODUCTS : list (string * (string * string)) :=
  [("quick-gen", ("Quick Gen",
      "https://ak-interactive.com/product-category/paints/paints-acrylics/quick-gen/"));
   ("real-colors", ("Real Colors",
      "https://ak-interactive.com/product-category/real-colors-en/"));
   ("rc-markers", ("Real Colors Markers",
      "https://ak-interactive.com/product-category/paints/rc-markers/"));
   ("playmarkers", ("Playmarkers",
      "https://ak-interactive.com/product-category/ak-playmarkers/"));
   ("deep-shades", ("Deep Shades",
      "https://ak-interactive.com/product-category/paints/paints-acrylics/deep-shades/"));
   ("the-inks", ("The Inks",
      "https://ak-interactive.com/product-category/paints/paints-acrylics-paints-for-modeling/paint-acrylic-inks/"));
   ("acrylic-wash", ("Acrylic Wash",
      "https://ak-interactive.com/product-category/paints/paints-acrylics/acrylic-wash/"))].

Definition BASE_URL_3GEN : string :=
  "https://ak-interactive.com/product-category/paints/paints-acrylics/3rd-acrylics/".

(** [COLOR_RANGES]: the 3rd Gen ranges, then the other product lines. *)
Definition COLOR_RANGES : list (string * string) :=
  COLOR_RANGES_3GEN ++ ((λ kv, (kv.1, kv.2.1)) <$> OTHER_PRODUCTS).

(** [get_page_url]; the page number is written in decimal. *)
Definition get_page_url (color_range : string) (page : nat) : string :=
  match list_find (λ kv, kv.1 = color_range) OTHER_PRODUCTS with
  | Some (_, (_, (_, base))) =>
      if (page =? 1)%nat then base
      else base +:+ "page/" +:+ pretty page +:+ "/"
  | None =>
      if (page =? 1)%nat
      then BASE_URL_3GEN +:+ "?pa_3rd-color-range=" +:+ color_range
      else BASE_URL_3GEN +:+ "page/" +:+ pretty page
           +:+ "/?pa_3rd-color-range=" +:+ color_range
  end.

(** The name under which [cross_reference_rc_markers] files a paint:
    [clean_paint_name((paint.get('title') or '').lower().strip()).lower()]. *)
Definition rc_stripped_title (paint : record) : string :=
  Py.strip (Py.lower (if otruthy (rget paint "title")
                      then ostr (rget paint "title") else EmptyString)).

Definition rc_name (paint : record) : string :=
  Py.lower (clean_paint_name (rc_stripped_title paint)).

(** The lookup [rc_name_to_hex] of [cross_reference_rc_markers]. *)
Definition rc_name_to_hex (real_colors_paints : list record) : gmap string string :=
  foldl (λ m paint,
           if Py.truthy (rc_stripped_title paint) && otruthy (rget paint "hex")
           then <[rc_name paint := ostr (rget paint "hex")]> m
           else m)
        ∅ real_colors_paints.

(** What the loop of [cross_reference_rc_markers] does with one marker, and
    whether it counts it as matched. *)
Definition cross_reference_marker (lk : gmap string string) (marker : record)
    : record * bool :=
  if negb (otruthy (rget marker "hex")) then
    match lk !! rc_name marker with
    | Some hex => (<["hex" := Some hex]> marker, true)
    | None => (marker, false)
    end
  else (marker, false).

(** [cross_reference_rc_markers]: the markers it returns and the count
    [matched]. *)
Definition cross_reference_rc_markers (marker_paints real_colors_paints : list record)
    : list record * nat :=
  let results :=
    cross_reference_marker (rc_name_to_hex real_colors_paints) <$> marker_paints in
  (results.*1, length (filter (λ r, r.2 = true) results)).

(** A [dict] with string keys in the order of insertion, as [all_data] of
    [scrape_all_ranges], which [main] reads in that order: [d.get(k)] and
    [d[k] = v], which keeps the place of a key that is there and appends a
    new key. *)
Definition dict_get {V} (d : list (string * V)) (k : string) : option V :=
  snd <$> head (filter (λ kv, kv.1 = k) d).

Definition dict_set {V} (k : string) (v : V) (d : list (string * V))
    : list (string * V) :=
  if bool_decide (k ∈ d.*1)
  then (λ kv, if bool_decide (kv.1 = k) then (k, v) else kv) <$> d
  else d ++ [(k, v)].

(** The cross-reference of [scrape_all_ranges], done when both ranges
    were scraped: the markers are updated in their list, in place. *)
Definition cross_reference_all (all_data : list (string * (string * list record)))
    : list (string * (string * list record)) :=
  match dict_get all_data "rc-markers", dict_get all_data "real-colors" with
  | Some (name, markers), Some (_, real_colors) =>
      dict_set "rc-markers"
        (name, (cross_reference_rc_markers markers real_colors).1) all_data
  | _, _ => all_data
  end.

(** [scrape_all_ranges]: [fetch] is the request and the parsing of the
    listing page at a URL.  With one range worker the ranges are scraped
    and entered in the order of [COLOR_RANGES].  With more the ranges are
    scraped on a thread pool and entered as their futures complete:
    [completion] is that order, some order of the keys of [COLOR_RANGES];
    the handler around [future.result()] is never entered, since
    [scrape_color_range] catches what its loop raises.  That branch
    cross-references the markers, and the cross-reference after the
    branches runs in both cases. *)
Definition scrape_all_ranges (fetch : string → option listing)
    (fetch_image : string → option image) (set_skus : gset string)
    (sample_colors : bool) (range_workers : Z) (completion : list string)
    : list (string * (string * list record)) :=
  let scrape range_key :=
    scrape_color_range (λ page, fetch (get_page_url range_key page))
      fetch_image set_skus range_key sample_colors in
  let all_data :=
    if 1 <? range_workers
    then cross_reference_all
           (foldl (λ all_data range_key,
                     dict_set range_key
                       (table_get COLOR_RANGES range_key EmptyString,
                        scrape range_key) all_data)
                  [] completion)
    else foldl (λ all_data kv, dict_set kv.1 (kv.2, scrape kv.1) all_data)
               [] COLOR_RANGES in
  cross_reference_all all_data.

(** What a later record with the SKU of an entry does to that entry in
    [generate_catalogue] ([# Handle duplicates - prefer non-"General"
    category]): when the category of the entry is [General] and the record
    has another category that is not empty, the entry takes it; nothing
    else of the record is kept. *)
Definition upgrade_category (existing : dict) (paint : record) : dict :=
  let existing_cat := get_or existing "category" (VStr EmptyString) in
  let new_cat := rget_or paint "category" (Some EmptyString) in
  if eq_str existing_cat "General"
     && otruthy new_cat
     && negb (bool_decide (new_cat = Some "General"))
  then <["category" := of_opt new_cat]> existing
  else existing.

End AK.

(** ** Vallejo *)

Module Vallejo.

Definition TYPE_OVERRIDES : list (string * string) :=
  [("varnish", "varnish"); ("barniz", "varnish");
   ("thinner", "thinner"); ("diluyente", "thinner");
   ("primer", "primer"); ("imprimación", "primer");
   ("medium", "technical"); ("retarder", "technical");
   ("retardante", "technical"); ("glaze", "transparent");
   ("ink", "ink"); ("tinta", "ink"); ("wash", "wash");
   ("metallic", "metallic"); ("metal", "metallic"); ("chrome", "metallic");
   ("gold", "metallic"); ("silver", "metallic"); ("copper", "metallic");
   ("bronze", "metallic")].

(** The loop of [get_paint_type] over [TYPE_OVERRIDES.items()]. *)
Fixpoint override_loop (name default_type : string)
    (overrides : list (string * string)) : string :=
  match overrides with
  | [] => default_type
  | (keyword, paint_type) :: rest =>
      if Py.contains keyword name then
        if bool_decide (paint_type = "metallic")
           && negb (bool_decide (default_type = "metallic"))
        then
          if existsb (λ m, Py.contains m name)
               ["metallic"; "metal color"; "liquid metal"; "chrome"]
          then "metallic"
          else override_loop name default_type rest
        else paint_type
      else override_loop name default_type rest
  end.

(** [get_paint_type]: the name is the title or, without one, the value under
    [name]; when that value is [None] the call of [lower] raises, which is
    the result [None]. *)
Definition get_paint_type (paint : record) (default_type : string) : option string :=
  let title := rget paint "title" in
  let name :=
    if otruthy title then title else rget_or paint "name" (Some EmptyString) in
  match name with
  | None => None
  | Some name => Some (override_loop (Py.lower name) default_type TYPE_OVERRIDES)
  end.

(** [int(size * f)] for a fraction [f] of hundredths; the product is taken
    exactly here, in floating point in the source. *)
Definition frac (size hundredths : Z) : Z := size * hundredths / 100.

Definition sample_regions (width height : Z) : list (Z * Z) :=
  [(frac width 10, frac height 50); (frac width 15, frac height 50);
   (frac width 12, frac height 45); (frac width 12, frac height 55);
   (frac width 8, frac height 48); (frac width 18, frac height 52);
   (frac width 10, frac height 40); (frac width 10, frac height 60)].

Definition fallback_position (width height : Z) : Z * Z :=
  (frac width 12, frac height 50).

(** [sample_color_from_image] on a decoded image. *)
Definition sample_image (img : image) : option string :=
  Sampler.sample (3 # 10) (1 # 10)
    (sample_regions (width img) (height img))
    (fallback_position (width img) (height img)) img.

Definition sample_color_from_image (fetch : string → option image)
    (img_url : string) : option string :=
  match fetch img_url with
  | Some img => sample_image img
  | None => None
  end.

(** [re.match(r'^\d{5}$', s)]: five digits, then the end of the string or a
    final newline. *)
Definition match_five_digits (s : string) : bool :=
  Py.sforall Py.is_digit (Py.take 5 s) && (String.length (Py.take 5 s) =? 5)%nat
  && (bool_decide (Py.drop 5 s = EmptyString)
      || bool_decide (Py.drop 5 s = String "010"%char EmptyString)).

(** [normalize_sku]: delete whitespace, force the XX.XXX format. *)
Definition normalize_sku (sku : string) : string :=
  if negb (Py.truthy sku) then EmptyString
  else
    let sku := Py.strip (Py.remove_ws sku) in
    if match_five_digits sku
    then Py.take 2 sku +:+ "." +:+ Py.drop 2 sku
    else sku.

(** [to_sentence_case]. *)
Definition to_sentence_case (name : string) : string :=
  if negb (Py.truthy name) then name
  else
    Py.join " "
      (map (λ word,
              if bool_decide (Py.upper word = word)
                 || bool_decide (Py.lower word = word)
              then Py.title word else word)
           (Py.split name)).

Definition separators : list string := [" – "; " - "; " — "].

Definition range_words : list string :=
  ["color"; "air"; "metal"; "xpress"; "game"; "model"].

Fixpoint strip_range_suffix (seps : list string) (name : string) : string :=
  match seps with
  | [] => name
  | sep :: seps' =>
      if Py.contains sep name then
        match Py.rsplit1 sep name with
        | Some (before, suffix) =>
            if existsb (λ r, Py.contains r (Py.lower suffix)) range_words
            then Py.strip before
            else strip_range_suffix seps' name
        | None => strip_range_suffix seps' name
        end
      else strip_range_suffix seps' name
  end.

(** [clean_paint_name]; the size patterns are those of AK Interactive. *)
Definition clean_paint_name (name : string) : string :=
  if negb (Py.truthy name) then name
  else
    let name := strip_range_suffix separators name in
    let name := Py.strip (Py.cut_suffix AK.size_in_parens name) in
    Py.strip (Py.cut_suffix AK.size_bare name).

Definition display_name (paint : record) : option string :=
  let name := rget paint "title" in
  let name :=
    if negb (otruthy name) && otruthy (rget paint "product_url")
    then Some (Py.title (Py.replace_char "-" " "
                 (Py.last_field "/" (Py.rstrip_char "/" (ostr (rget paint "product_url"))))))
    else name in
  if otruthy name
  then Some (clean_paint_name (to_sentence_case (ostr name)))
  else name.

Definition make_entry (range_name : string) (paint : record) (sku_clean : string) : dict :=
  list_to_map
    [("brand", VStr "Vallejo");
     ("brandData", VDict []);
     ("category", VStr EmptyString);
     ("discontinued", VBool false);
     ("hex", of_opt (rget_or paint "hex" (Some EmptyString)));
     ("id", VStr ("vallejo-" +:+ Py.lower (Py.replace_char "." "-" sku_clean)));
     ("impcat", VDict [("layerId", VNone); ("shadeId", VNone)]);
     ("name", of_opt (display_name paint));
     ("range", of_opt (rget_or paint "range_name" (Some range_name)));
     ("sku", VStr sku_clean);
     ("type", of_opt (rget_or paint "paint_type" (Some "opaque")));
     ("url", of_opt (rget_or paint "product_url" (Some EmptyString)))].

(** One iteration of the loop of [generate_catalogue]. *)
Definition catalogue_step (range_name : string)
    (st : list dict * gmap string nat) (paint : record)
    : list dict * gmap string nat :=
  let '(catalogue, seen_skus) := st in
  let sku := rget_or paint "sku" (Some EmptyString) in
  if negb (otruthy sku) then st
  else
    let sku_clean := normalize_sku (ostr sku) in
    match seen_skus !! sku_clean with
    | Some _ => st
    | None =>
        (catalogue ++ [make_entry range_name paint sku_clean],
         <[sku_clean := length catalogue]> seen_skus)
    end.

Definition generate_catalogue (scraped_data : list record) (range_name : string)
    : list dict :=
  sort_by (entry_str "sku")
    (foldl (catalogue_step range_name) ([], ∅) scraped_data).1.

Definition sku_key (paint : record) : option string :=
  let sku := rget_or paint "sku" (Some EmptyString) in
  if otruthy sku then Some (normalize_sku (ostr sku)) else None.

(** [VALLEJO_RANGES]: the key of a range, its name for the catalogue, its
    default type and the URL of its first listing page. *)
Definition VALLEJO_RANGES : list (string * (string * string * string)) :=
  [("model-color-en", ("Model Color", "opaque",
      "https://acrylicosvallejo.com/en/category/hobby/model-color-en/"));
   ("model-air-en", ("Model Air", "air",
      "https://acrylicosvallejo.com/en/category/model-air-en/"));
   ("game-color-en", ("Game Color", "opaque",
      "https://acrylicosvallejo.com/en/category/hobby/game-color-en/"));
   ("game-air-en", ("Game Air", "air",
      "https://acrylicosvallejo.com/en/category/hobby/game-air-en/"));
   ("xpress-color-en", ("Xpress Color", "contrast",
      "https://acrylicosvallejo.com/en/category/hobby/xpress-color-en/"));
   ("mecha-color-en", ("Mecha Color", "opaque",
      "https://acrylicosvallejo.com/en/category/hobby/mecha-color-en/"));
   ("metal-color-en", ("Metal Color", "metallic",
      "https://acrylicosvallejo.com/en/category/hobby/metal-color-en/"));
   ("liquid-metal-en", ("Liquid Metal", "metallic",
      "https://acrylicosvallejo.com/en/category/hobby/liquid-metal-en/"));
   ("true-metallic-metal-en", ("True Metallic Metal", "metallic",
      "https://acrylicosvallejo.com/en/category/hobby/true-metallic-metal-en/"));
   ("wash-fx-en", ("Wash FX", "wash",
      "https://acrylicosvallejo.com/en/category/hobby/wash-fx-en/"));
   ("primers-en", ("Primers", "primer",
      "https://acrylicosvallejo.com/en/category/hobby/primers-en/"));
   ("premium-color-en", ("Premium Color", "opaque",
      "https://acrylicosvallejo.com/en/category/hobby/premium-color-en/"));
   ("hobby-paint", ("Hobby Paint", "opaque",
      "https://acrylicosvallejo.com/en/category/hobby/hobby-paint/"))].

Definition EXCLUDE_KEYWORDS : list string :=
  ["brush"; "pincel"; "guide"; "guía"; "cleaner"; "limpiador";
   " set"; "pack"; "bundle"; "kit"; "book"; "magazine"; "revista";
   "full range"; "combo"; "collection"; "colección"; "colors set";
   "colours set"; "paint set"; "color set"; "colour set"; "range box";
   "case"; "suitcase"; "maleta"; "all colors"; "all colours"; "complete range";
   "super pack"; "display"; "expositor"; "stand"; "rack";
   "airbrush"; "aerógrafo"; "compressor"; "stencil"; "plantilla";
   "tool"; "herramienta"; "knife"; "cutter"; "tweezer"; "pinza";
   "scenery"; "scenics"; "grass"; "hierba"; "flock"; "tuft"].

Definition RANGE_SKU_EXCLUSIONS : list (string * list string) :=
  [("metal-color-en", ["77.660"])].

(** [RANGE_SKU_EXCLUSIONS.get(range_key, [])]. *)
Definition excluded_skus (range_key : string) : list string :=
  match list_find (λ kv, kv.1 = range_key) RANGE_SKU_EXCLUSIONS with
  | Some (_, (_, skus)) => skus
  | None => []
  end.

Definition is_paint_product (paint : record) : bool :=
  let title := Py.lower (if otruthy (rget paint "title")
                         then ostr (rget paint "title") else EmptyString) in
  let url := Py.lower (if otruthy (rget paint "product_url")
                       then ostr (rget paint "product_url") else EmptyString) in
  negb (existsb (λ keyword, Py.contains keyword title || Py.contains keyword url)
          EXCLUDE_KEYWORDS).

Definition sample_paint_color (fetch : string → option image) (paint : record)
    : record :=
  let img_url := rget paint "img_url" in
  if otruthy img_url
  then <["hex" := sample_color_from_image fetch (ostr img_url)]> paint
  else paint.

(** One listing page as the scrape loop sees it: what
    [extract_paints_from_page] finds on it and what [get_next_page_url]
    returns. *)
Record listing := {
  items : list record;
  next_url : option string
}.

(** The type and the range name given to the paints of a page; [None] when
    [get_paint_type] raises on one of them. *)
Definition annotate (default_type range : string) (paints : list record)
    : option (list record) :=
  mapM (λ paint,
          match get_paint_type paint default_type with
          | None => None
          | Some t => Some (<["range_name" := Some range]>
                              (<["paint_type" := Some t]> paint))
          end)
       paints.

(** The loop of [scrape_range] from [current_url] on.  [fetch_page] is the
    request and the parsing of a listing page, [None] when they raise.  The
    loop of the source follows next links without bound; [fuel] bounds the
    pages here, and the result is [None] when it runs out. *)
Fixpoint scrape_loop (fetch_page : string → option listing)
    (fetch_image : string → option image) (range_key default_type range : string)
    (sample_colors filter_products : bool)
    (fuel : nat) (current_url : string) (all_paints : list record)
    : option (list record) :=
  match fuel with
  | O => None
  | S fuel' =>
      match fetch_page current_url with
      | None => Some all_paints
      | Some soup =>
          let paints :=
            (λ paint, if otruthy (rget paint "sku")
                      then <["sku" := Some (normalize_sku (ostr (rget paint "sku")))]> paint
                      else paint) <$> items soup in
          let paints :=
            if filter_products
            then filter (λ p, is_paint_product p = true) paints else paints in
          let paints :=
            match excluded_skus range_key with
            | [] => paints
            | excluded => filter (λ p, rget p "sku" ∉ (Some <$> excluded)) paints
            end in
          match paints with
          | [] => Some all_paints
          | _ =>
              let paints :=
                if sample_colors then sample_paint_color fetch_image <$> paints
                else paints in
              match annotate default_type range paints with
              | None => Some all_paints
              | Some paints =>
                  let all_paints := all_paints ++ paints in
                  if otruthy (next_url soup)
                  then scrape_loop fetch_page fetch_image range_key default_type
                         range sample_colors filter_products fuel'
                         (ostr (next_url soup)) all_paints
                  else Some all_paints
              end
          end
      end
  end.

Definition scrape_range (fetch_page : string → option listing)
    (fetch_image : string → option image) (range_key : string)
    (sample_colors filter_products : bool) (fuel : nat) : option (list record) :=
  match list_find (λ kv, kv.1 = range_key) VALLEJO_RANGES with
  | None => Some []
  | Some (_, (_, (range, default_type, base_url))) =>
      scrape_loop fetch_page fetch_image range_key default_type range
        sample_colors filter_products fuel base_url []
  end.

Definition filler_words : list string :=
  ["vallejo"; "acrylic"; "paint"; "color"; "colour"].

Definition normalize_name (name : string) : string :=
  if negb (Py.truthy name) then EmptyString
  else
    let name := Py.lower name in
    let name := Py.sfilter (λ c, Py.is_word c || Py.is_space c) name in
    let name := Py.strip (Py.collapse_ws name) in
    let name := foldl (λ name word, Py.remove_word word name) name filler_words in
    Py.strip (Py.collapse_ws name).

Definition batch_update_json_files :=
  Merge.batch_update_json_files normalize_sku normalize_name.

(** The lookup [sku_to_data] of [update_existing_json]. *)
Definition sku_to_data (scraped_data : list record) : gmap string record :=
  foldl (λ m paint,
           if otruthy (rget paint "sku") && otruthy (rget paint "hex")
           then <[normalize_sku (ostr (rget paint "sku")) := paint]> m
           else m)
        ∅ scraped_data.

(** The body of the loop of [update_existing_json]: the entry after the
    iteration and what it adds to the counter; [None] is an exception. *)
Definition update_paint (lk : gmap string record) (paint : dict)
    : option (dict * nat) :=
  match on_str normalize_sku (get_or paint "sku" (VStr EmptyString)) with
  | None => None
  | Some sku =>
      match lk !! sku with
      | Some scraped =>
          let '(paint1, n) :=
            if otruthy (rget scraped "hex")
            then (<["hex" := of_opt (rget scraped "hex")]> paint, 1%nat)
            else (paint, 0%nat) in
          Some (if otruthy (rget scraped "product_url")
                   && negb (truthy (get paint1 "url"))
                then <["url" := of_opt (rget scraped "product_url")]> paint1
                else paint1,
                n)
      | None => Some (paint, 0%nat)
      end
  end.

Fixpoint update_paints (lk : gmap string record) (paints : list dict)
    : option (list dict * nat) :=
  match paints with
  | [] => Some ([], 0%nat)
  | paint :: rest =>
      match update_paint lk paint with
      | None => None
      | Some (paint', n) =>
          match update_paints lk rest with
          | None => None
          | Some (rest', updated) => Some (paint' :: rest', (n + updated)%nat)
          end
      end
  end.

(** [update_existing_json]: the data it returns and the count it prints, if
    it prints one. *)
Definition update_existing_json (existing : catalogue_file)
    (scraped_data : list record) : option (catalogue_file * option nat) :=
  match paint_list existing with
  | None => Some (existing, None)
  | Some paints =>
      match update_paints (sku_to_data scraped_data) paints with
      | None => None
      | Some (paints', updated) =>
          Some (with_paints existing paints', Some updated)
      end
  end.

End Vallejo.

(** ** Citadel (Games Workshop) *)

Module Citadel.

(** [re.search(r'(\d{11})', s)]: the leftmost run of eleven digits. *)
Definition eleven_digits_here (s : string) : bool :=
  Py.sforall Py.is_digit (Py.take 11 s) && (String.length (Py.take 11 s) =? 11)%nat.

Fixpoint search_eleven_digits (s : string) : option string :=
  if eleven_digits_here s then Some (Py.take 11 s)
  else match s with
       | EmptyString => None
       | String _ s' => search_eleven_digits s'
       end.

(** [normalize_sku]: the eleven-digit product code when there is one,
    otherwise the SKU without whitespace. *)
Definition normalize_sku (sku : string) : string :=
  if negb (Py.truthy sku) then EmptyString
  else match search_eleven_digits sku with
       | Some m => m
       | None => Py.strip (Py.remove_ws sku)
       end.

(** *** The colour of an SVG *)

(** The double quote. *)
Definition dq : string := String "034"%char EmptyString.

(** [#[0-9A-Fa-f]{6}] at the head of [s]: the text matched and the rest. *)
Definition hex6_here (s : string) : option (string * string) :=
  match s with
  | String "#"%char r =>
      if (String.length (Py.take 6 r) =? 6)%nat
         && Py.sforall Py.is_hexdigit (Py.take 6 r)
      then Some (String "#"%char (Py.take 6 r), Py.drop 6 r)
      else None
  | _ => None
  end.

(** [fill=], a double quote, [(#[0-9A-Fa-f]{6})] and a double quote at the
    head of [s]: the group and the rest. *)
Definition fill_here (s : string) : option (string * string) :=
  if Py.startswith ("fill=" +:+ dq) s then
    match hex6_here (Py.drop 6 s) with
    | Some (color, String "034"%char rest) => Some (color, rest)
    | _ => None
    end
  else None.

(** [[^>]*] followed by that fill pattern, from the head of [s]: the greedy
    star gives the last fill before the next [>]. *)
Fixpoint last_fill_in_tag (s : string) : option (string * string) :=
  match s with
  | EmptyString => None
  | String c s' =>
      if bool_decide (c = ">"%char) then None
      else match last_fill_in_tag s' with
           | Some m => Some m
           | None => fill_here s
           end
  end.

(** The pattern [rect_fill_pattern] at the head of [s]. *)
Definition rect_here (s : string) : option (string * string) :=
  if Py.startswith "<rect" s then last_fill_in_tag (Py.drop 5 s) else None.

(** [re.findall] for a pattern with one group that cannot match the empty
    string: the matches from left to right, each search starting where the
    match before it ended.  [fuel] bounds the number of steps by the length
    of the text. *)
Fixpoint findall_go (here : string → option (string * string)) (fuel : nat)
    (s : string) : list string :=
  match fuel with
  | O => []
  | S fuel' =>
      match here s with
      | Some (group, rest) => group :: findall_go here fuel' rest
      | None =>
          match s with
          | EmptyString => []
          | String _ s' => findall_go here fuel' s'
          end
      end
  end.

Definition findall (here : string → option (string * string)) (s : string)
    : list string :=
  findall_go here (S (String.length s)) s.

(** The head of [pot_pattern]: [clip-path=], a double quote, [url(#pot)] or
    [url(#spray)], a double quote. *)
Definition clip_here (s : string) : option string :=
  let pot := "clip-path=" +:+ dq +:+ "url(#pot)" +:+ dq in
  let spray := "clip-path=" +:+ dq +:+ "url(#spray)" +:+ dq in
  if Py.startswith pot s then Some (Py.drop (String.length pot) s)
  else if Py.startswith spray s then Some (Py.drop (String.length spray) s)
  else None.

(** [[^>]*>]: the text after the next [>]. *)
Fixpoint after_gt (s : string) : option string :=
  match s with
  | EmptyString => None
  | String c s' => if bool_decide (c = ">"%char) then Some s' else after_gt s'
  end.

(** The lazy [.*?] (with [re.DOTALL]) followed by the rect pattern: the first
    position from which the rect pattern matches. *)
Fixpoint first_rect_fill (s : string) : option string :=
  match rect_here s with
  | Some (color, _) => Some color
  | None =>
      match s with
      | EmptyString => None
      | String _ s' => first_rect_fill s'
      end
  end.

(** [pot_pattern] at the head of [s], and [re.search] of it. *)
Definition pot_here (s : string) : option string :=
  match clip_here s with
  | Some rest =>
      match after_gt rest with
      | Some rest' => first_rect_fill rest'
      | None => None
      end
  | None => None
  end.

Fixpoint pot_search (s : string) : option string :=
  match pot_here s with
  | Some color => Some color
  | None =>
      match s with
      | EmptyString => None
      | String _ s' => pot_search s'
      end
  end.

(** [hex_pattern] at the head of [s]: a [#] followed by a run of exactly six
    or exactly three hexadecimal digits; the group is the run. *)
Fixpoint hex_run (s : string) : nat :=
  match s with
  | String c s' => if Py.is_hexdigit c then S (hex_run s') else O
  | EmptyString => O
  end.

Definition hex_token_here (s : string) : option (string * string) :=
  match s with
  | String "#"%char r =>
      let n := hex_run r in
      if bool_decide (n = 6%nat) || bool_decide (n = 3%nat)
      then Some (Py.take n r, Py.drop n r) else None
  | _ => None
  end.

(** [m.lstrip('#')]. *)
Fixpoint lstrip_hash (s : string) : string :=
  match s with
  | String "#"%char s' => lstrip_hash s'
  | _ => s
  end.

(** [''.join(c + c for c in color)]. *)
Fixpoint double_chars (s : string) : string :=
  match s with
  | EmptyString => EmptyString
  | String c s' => String c (String c (double_chars s'))
  end.

(** One colour of the list [normalized]. *)
Definition normalize_color (m : string) : string :=
  let color := lstrip_hash m in
  let color := if (String.length color =? 3)%nat then double_chars color else color in
  Py.upper color.

(** The number of times [c] occurs in [l]. *)
Definition occurrences (c : string) (l : list string) : nat :=
  length (filter (λ x, x = c) l).

(** The distinct elements of [l] in the order in which they first occur. *)
Fixpoint first_occurrences (l : list string) : list string :=
  match l with
  | [] => []
  | x :: l' => x :: filter (λ y, y ≠ x) (first_occurrences l')
  end.

(** [Counter(l)]: a dict from each element to the number of its occurrences,
    its keys in the order in which they first occur. *)
Definition Counter (l : list string) : list (string * nat) :=
  (λ c, (c, occurrences c l)) <$> first_occurrences l.

(** [counts.most_common()]: sorted by count, the highest first; the sort is
    stable, so equal counts stay in the order of the counter. *)
Fixpoint insert_desc (x : string * nat) (l : list (string * nat)) : list (string * nat) :=
  match l with
  | [] => [x]
  | y :: l' => if (y.2 <=? x.2)%nat then x :: l else y :: insert_desc x l'
  end.

Definition most_common (counts : list (string * nat)) : list (string * nat) :=
  foldr insert_desc [] counts.

Definition ignore_colors : list string :=
  ["FFFFFF"; "FEFEFE"; "FDFDFD"; "FCFCFC"; "FAFAFA";
   "000000"; "010101"; "020202"; "030303";
   "F5F5F5"; "EFEFEF"; "E0E0E0"; "D0D0D0"; "C0C0C0";
   "808080"; "888888"; "999999"; "AAAAAA"; "B0B0B0";
   "292929"; "333333"; "444444"; "555555"; "666666"; "1A1A1A"].

(** The order of [most_common]: the count of [a] is not below the one of
    [b]. *)
Definition count_ge (a b : string * nat) : Prop := (b.2 ≤ a.2)%nat.

Definition ignored (color : string) : bool :=
  bool_decide (color ∈ ignore_colors).

(** The colours that strategies 2 and 3 count: the fills of the rects when
    there is one, all the colour tokens otherwise. *)
Definition candidates (svg_content : string) : list string :=
  let rect_matches := findall rect_here svg_content in
  let all_matches := findall hex_token_here svg_content in
  normalize_color <$> (match rect_matches with [] => all_matches | _ => rect_matches end).

(** [extract_hex_from_svg]. *)
Definition extract_hex_from_svg (svg_content : string) : option string :=
  match pot_search svg_content with
  | Some color => Some (Py.upper color)
  | None =>
      let rect_matches := findall rect_here svg_content in
      let all_matches := findall hex_token_here svg_content in
      match all_matches, rect_matches with
      | [], [] => None
      | _, _ =>
          let color_counts := Counter (candidates svg_content) in
          match list_find (λ cn : string * nat, ignored cn.1 = false)
                  (most_common color_counts) with
          | Some (_, (color, _)) => Some (String "#"%char color)
          | None =>
              match most_common color_counts with
              | (color, _) :: _ => Some (String "#"%char color)
              | [] => None
              end
          end
      end
  end.

(** A paint hit of the search results stored in the HAR file, with the
    keys the assembler reads; [None] is an absent key (for [colourRange]
    and [hex], also [None] itself). *)
Record hit := {
  hit_sku : option string;
  hit_name : option string;
  hit_paintType : option (list string);
  hit_paintColourRange : option string;
  hit_isAvailable : option bool;
  hit_hex : option string;
  hit_slug : option string
}.

Definition VARNISH_PAINTS : list string :=
  ["'Ardcoat"; "Ardcoat"; "Stormshield"; "Munitorum Varnish"].
Definition THINNER_PAINTS : list string :=
  ["Lahmian Medium"; "Contrast Medium"; "Air Caste Thinner"].
Definition TYPE_OVERRIDES : list (string * string) :=
  [("varnish", "varnish"); ("thinner", "thinner"); ("medium", "thinner");
   ("primer", "primer"); ("undercoat", "primer"); ("glaze", "transparent");
   ("ink", "ink")].
Definition METALLIC_RANGES : list string :=
  ["Gold"; "Silver"; "Bronze"; "Brass"; "Copper"].
Definition metallic_keywords : list string :=
  ["gold"; "silver"; "brass"; "bronze"; "copper"; "steel";
   "iron"; "leadbelcher"; "runefang"; "stormhost"; "retributor";
   "balthasar"; "gehenna"; "auric"; "liberator"; "sycorax";
   "canoptek"; "runelord"; "castellax"; "hashut"; "fulgurite";
   "skullcrusher"; "brass scorpion"; "ironbreaker"; "necron compound";
   "golden griffon"; "sigmarite"; "thallax"; "valdor"].
(** The [type] column of [CITADEL_CATEGORIES]. *)
Definition CITADEL_CATEGORIES : list (string * string) :=
  [("Base", "opaque"); ("Layer", "opaque"); ("Shade", "wash");
   ("Dry", "opaque"); ("Contrast", "contrast"); ("Technical", "technical");
   ("Spray", "spray"); ("Air", "air")].

Definition mem (x : string) (l : list string) : bool :=
  existsb (λ y, bool_decide (x = y)) l.

(** The first pair whose key satisfies [p], as a [for] loop over
    [dict.items()] that returns at the first hit finds it. *)
Fixpoint first_override (p : string → bool) (l : list (string * string)) : option string :=
  match l with
  | [] => None
  | (k, v) :: l' => if p k then Some v else first_override p l'
  end.

Definition get_paint_type (name category : string) (colour_range : option string) : string :=
  if mem name VARNISH_PAINTS then "varnish"
  else if mem name THINNER_PAINTS then "thinner"
  else
    let name_lower := Py.lower name in
    match first_override (λ keyword, Py.contains keyword name_lower) TYPE_OVERRIDES with
    | Some paint_type => paint_type
    | None =>
        if match colour_range with Some r => mem r METALLIC_RANGES | None => false end
        then "metallic"
        else if existsb (λ kw, Py.contains kw name_lower) metallic_keywords
        then "metallic"
        else default "opaque"
               (first_override (λ k, bool_decide (k = category)) CITADEL_CATEGORIES)
    end.

Definition make_entry (category : option string) (paint : hit) (sku : string) : dict :=
  let name := default "Unknown" (hit_name paint) in
  let paint_types := default [] (hit_paintType paint) in
  let paint_category :=
    match paint_types with
    | t :: _ => t
    | [] => if otruthy category then ostr category else "Unknown"
    end in
  let colour_range := hit_paintColourRange paint in
  list_to_map
    [("brand", VStr "Games Workshop");
     ("brandData", VDict []);
     ("category", VStr paint_category);
     ("discontinued", VBool (negb (default true (hit_isAvailable paint))));
     ("hex", of_opt (hit_hex paint));
     ("id", VStr ("citadel-" +:+ sku));
     ("impcat", VDict [("layerId", VNone); ("shadeId", VNone)]);
     ("name", VStr name);
     ("range", VStr "Citadel");
     ("sku", VStr sku);
     ("type", VStr (get_paint_type name paint_category colour_range));
     ("url", VStr ("https://www.warhammer.com/en-GB/shop/"
                   +:+ default EmptyString (hit_slug paint)))].

(** One iteration of the loop of [generate_catalogue]. *)
Definition catalogue_step (category : option string)
    (st : list dict * gmap string nat) (paint : hit)
    : list dict * gmap string nat :=
  let '(catalogue, seen_skus) := st in
  let raw_sku := default EmptyString (hit_sku paint) in
  let sku := normalize_sku raw_sku in
  if negb (Py.truthy sku) then st
  else
    match seen_skus !! sku with
    | Some _ => st
    | None =>
        (catalogue ++ [make_entry category paint sku],
         <[sku := length catalogue]> seen_skus)
    end.

(** [generate_catalogue]: the loop, then the sort by name. *)
Definition generate_catalogue (scraped_data : list hit) (category : option string)
    : list dict :=
  sort_by (entry_str "name")
    (foldl (catalogue_step category) ([], ∅) scraped_data).1.

Definition sku_key (paint : hit) : option string :=
  let sku := normalize_sku (default EmptyString (hit_sku paint)) in
  if Py.truthy sku then Some sku else None.

(** A well-formed Citadel SKU: a token without whitespace, or any text
    that carries the eleven-digit product code. *)
Definition valid_sku (sku : string) : bool :=
  match search_eleven_digits sku with Some _ => true | None => false end
  || no_space sku.

Definition filler_words : list string :=
  ["citadel"; "paint"; "color"; "colour"; "games workshop"].

(** [normalize_name]: lower case, punctuation deleted, whitespace
    collapsed, filler words deleted. *)
Definition normalize_name (name : string) : string :=
  if negb (Py.truthy name) then EmptyString
  else
    let name := Py.lower name in
    let name := Py.sfilter (λ c, Py.is_word c || Py.is_space c) name in
    let name := Py.strip (Py.collapse_ws name) in
    let name := foldl (λ name word, Py.remove_word word name) name filler_words in
    Py.strip (Py.collapse_ws name).

Definition EXCLUDE_KEYWORDS : list string :=
  ["brush"; "guide"; "cleaner"; " set"; "pack"; "bundle"; "kit";
   "book"; "magazine"; "full range"; "combo"; "collection";
   "colors set"; "colours set"; "paint set"; "color set"; "colour set";
   "case"; "suitcase"; "all colors"; "all colours"; "complete range";
   "super pack"; "display"; "stand"; "rack"; "airbrush"; "compressor";
   "stencil"; "tool"; "knife"; "cutter"; "tweezer"; "scenery"; "scenics";
   "grass"; "flock"; "tuft"; "palette"; "holder"; "handle"].

Definition is_paint_product (paint : hit) : bool :=
  let name := Py.lower (default EmptyString (hit_name paint)) in
  negb (existsb (λ keyword, Py.contains keyword name) EXCLUDE_KEYWORDS).

(** The key under which a scraped paint enters the SKU lookup of the merge
    functions, [None] when it does not enter. *)
Definition hex_key (paint : hit) : option string :=
  let sku := normalize_sku (default EmptyString (hit_sku paint)) in
  if Py.truthy sku && otruthy (hit_hex paint) then Some sku else None.

(** The lookup [sku_to_data] of [update_existing_json]. *)
Definition sku_to_data (scraped_data : list hit) : gmap string hit :=
  foldl (λ m paint,
           match hex_key paint with Some sku => <[sku := paint]> m | None => m end)
        ∅ scraped_data.

(** The loop of [update_existing_json] over the entries, with its counter;
    [None] is an exception. *)
Fixpoint update_paints (lk : gmap string hit) (paints : list dict)
    : option (list dict * nat) :=
  match paints with
  | [] => Some ([], 0%nat)
  | paint :: rest =>
      match on_str normalize_sku (get_or paint "sku" (VStr EmptyString)) with
      | None => None
      | Some sku =>
          let '(paint', n) :=
            match lk !! sku with
            | Some scraped =>
                if otruthy (hit_hex scraped)
                then (<["hex" := of_opt (hit_hex scraped)]> paint, 1%nat)
                else (paint, 0%nat)
            | None => (paint, 0%nat)
            end in
          match update_paints lk rest with
          | None => None
          | Some (rest', updated) => Some (paint' :: rest', (n + updated)%nat)
          end
      end
  end.

Definition update_existing_json (existing : catalogue_file)
    (scraped_data : list hit) : option (catalogue_file * option nat) :=
  match paint_list existing with
  | None => Some (existing, None)
  | Some paints =>
      match update_paints (sku_to_data scraped_data) paints with
      | None => None
      | Some (paints', updated) =>
          Some (with_paints existing paints', Some updated)
      end
  end.

(** The loop of [batch_update_json_files] that builds the lookups
    [(sku_to_data, name_to_data)]. *)
Definition lookup_step (lk : gmap string hit * gmap string hit) (paint : hit)
    : gmap string hit * gmap string hit :=
  let '(sku_to_data, name_to_data) := lk in
  match hex_key paint with
  | Some sku =>
      let sku_to_data := <[sku := paint]> sku_to_data in
      let name := default EmptyString (hit_name paint) in
      if Py.truthy name then
        let norm_name := normalize_name name in
        if Py.truthy norm_name && bool_decide (name_to_data !! norm_name = None)
        then (sku_to_data, <[norm_name := paint]> name_to_data)
        else (sku_to_data, name_to_data)
      else (sku_to_data, name_to_data)
  | None => lk
  end.

Definition build_lookups (scraped_data : list hit)
    : gmap string hit * gmap string hit :=
  foldl lookup_step (∅, ∅) scraped_data.

(** The match attempts of the loop body of [batch_update_json_files]: by
    SKU, then by name; the outer [None] is an exception. *)
Definition find_match (lk : gmap string hit * gmap string hit)
    (paint : dict) (sku : string) : option (option hit) :=
  match lk.1 !! sku with
  | Some d => Some (Some d)
  | None =>
      match on_str normalize_name (get_or paint "name" (VStr EmptyString)) with
      | None => None
      | Some norm_name =>
          if Py.truthy norm_name then Some (lk.2 !! norm_name) else Some None
      end
  end.

(** The body of the loop over the entries of one file: the entry after the
    iteration, whether it counts as updated, and what the iteration appends
    to [not_found]; [None] is an exception. *)
Definition merge_paint (lk : gmap string hit * gmap string hit) (paint : dict)
    : option (dict * bool * list string) :=
  match on_str normalize_sku (get_or paint "sku" (VStr EmptyString)) with
  | None => None
  | Some sku =>
      match find_match lk paint sku with
      | None => None
      | Some (Some matched_data) =>
          if otruthy (hit_hex matched_data)
             && differs (get paint "hex") (hit_hex matched_data)
          then Some (<["hex" := of_opt (hit_hex matched_data)]> paint, true, [])
          else Some (paint, false, [])
      | Some None => Some (paint, false, if Py.truthy sku then [sku] else [])
      end
  end.

Fixpoint merge_paints (lk : gmap string hit * gmap string hit)
    (paints : list dict) : option (list dict * nat * list string) :=
  match paints with
  | [] => Some ([], 0%nat, [])
  | paint :: rest =>
      match merge_paint lk paint with
      | None => None
      | Some (paint', changed, nf) =>
          match merge_paints lk rest with
          | None => None
          | Some (rest', updated, not_found) =>
              Some (paint' :: rest', ((if changed then 1 else 0) + updated)%nat,
                    nf ++ not_found)
          end
      end
  end.

(** One file of the directory: the data the file holds afterwards and the
    count reported for it; a file of unrecognised shape and a file on which
    the merge raises are skipped ([None]) and left as they were. *)
Definition merge_file (lk : gmap string hit * gmap string hit)
    (f : catalogue_file) : catalogue_file * option nat :=
  match paint_list f with
  | None => (f, None)
  | Some paints =>
      match merge_paints lk paints with
      | None => (f, None)
      | Some (paints', updated, _) => (with_paints f paints', Some updated)
      end
  end.

(** [batch_update_json_files]: the files of the directory after the run
    with the count of each, and [total_updated]. *)
Definition batch_update_json_files (directory : list catalogue_file)
    (scraped_data : list hit) : list (catalogue_file * option nat) * nat :=
  let lk := build_lookups scraped_data in
  let results := merge_file lk <$> directory in
  (results, sum_list (default 0%nat ∘ snd <$> results)).

(** *** Reading the HAR file *)

Definition BASE_URL : string := "https://www.warhammer.com".

(** A hit as the HAR file holds it: the keys of [hit], and the keys
    [productType], [images] and [_image_url] that the extraction and the
    colour sampler read and set. *)
Record har_hit := {
  hh_productType : option string;
  hh_images : option (list string);
  hh_image_url : option string;
  hh_hit : hit
}.

(** An entry of [har['log']['entries']], by what the body of the loop does
    with it.
    - [Undecodable]: the entry has no [response], [content] or [text]
      ([KeyError]) or the text is not JSON ([JSONDecodeError]); the
      handler catches both and the entry is skipped.
    - [NoResults]: the text is JSON and [results] is not in it: an object
      without that key, or an array or a string that does not hold
      [results]; the entry is skipped.
    - [Results]: an object whose [results] are objects, each with its list
      of hits ([result.get('hits', [])]); [results] or [hits] that hold
      nothing, whatever they are, count as empty lists.
    - [Raises]: anything else, where the body raises an exception that
      the handler does not catch ([TypeError], [AttributeError]) and the
      run ends: a [response] or [content] that is not an object; a text
      that is [null] or not a string; a text that is the JSON [null], a
      number or a boolean; an array or a string that holds [results];
      [results] or [hits] that are not empty and not a list of objects;
      a paint whose [sku] is a list or an object. *)
Inductive har_entry :=
| Undecodable
| NoResults
| Results (results : list (list har_hit))
| Raises.


(** The innermost loop of [extract_paints_from_har]; the state is
    [(paints, seen_skus)], and a hit without [sku] has the SKU [None]. *)
Definition har_step (st : list har_hit * gset (option string)) (h : har_hit)
    : list har_hit * gset (option string) :=
  let '(paints, seen_skus) := st in
  if negb (bool_decide (hh_productType h = Some "paint")) then st
  else
    let sku := hit_sku (hh_hit h) in
    if bool_decide (sku ∈ seen_skus) then st
    else (paints ++ [h], {[sku]} ∪ seen_skus).

(** The body of the loop over the entries; [None] when it raises. *)
Definition har_entry_step (st : list har_hit * gset (option string))
    (entry : har_entry) : option (list har_hit * gset (option string)) :=
  match entry with
  | Results results => Some (foldl (λ st hits, foldl har_step st hits) st results)
  | Raises => None
  | Undecodable | NoResults => Some st
  end.

(** [extract_paints_from_har], from the entries of the file: [None] when
    the loop raises at an entry, which ends the run. *)
Definition extract_paints_from_har (entries : list har_entry)
    : option (list har_hit) :=
  fst <$> foldl (λ st entry, st ≫= λ st, har_entry_step st entry)
                (Some ([], ∅)) entries.

Definition set_hex (paint : hit) (hex : option string) : hit :=
  {| hit_sku := hit_sku paint; hit_name := hit_name paint;
     hit_paintType := hit_paintType paint;
     hit_paintColourRange := hit_paintColourRange paint;
     hit_isAvailable := hit_isAvailable paint;
     hit_hex := hex; hit_slug := hit_slug paint |}.

(** [sample_paint_color]; [fetch_svg] is the download, [None] when it
    fails. *)
Definition sample_paint_color (fetch_svg : string → option string)
    (paint : har_hit) : har_hit :=
  match default [] (hh_images paint) with
  | [] => paint
  | image_path :: _ =>
      if negb (Py.endswith ".svg" image_path) then paint
      else
        let image_url := BASE_URL +:+ image_path in
        let svg_content := fetch_svg image_url in
        {| hh_productType := hh_productType paint;
           hh_images := hh_images paint;
           hh_image_url := Some image_url;
           hh_hit := if otruthy svg_content
                     then set_hex (hh_hit paint)
                            (extract_hex_from_svg (ostr svg_content))
                     else hh_hit paint |}
  end.

(** [(p.get('paintType') or [''])[0]]. *)
Definition first_paint_type (p : har_hit) : string :=
  match default [] (hit_paintType (hh_hit p)) with
  | t :: _ => t
  | [] => EmptyString
  end.

(** [scrape_category]. *)
Definition scrape_category (fetch_svg : string → option string)
    (paints : list har_hit) (category : string)
    (sample_colors filter_products : bool) : list har_hit :=
  let category_paints :=
    filter (λ p, first_paint_type p = category) paints in
  match category_paints with
  | [] => []
  | _ =>
      let category_paints :=
        if filter_products
        then filter (λ p, is_paint_product (hh_hit p) = true) category_paints
        else category_paints in
      if sample_colors then sample_paint_color fetch_svg <$> category_paints
      else category_paints
  end.

(** [scrape_all_categories]: the categories that have paints, in the order
    of [CITADEL_CATEGORIES], each with its type and its paints; [None] when
    [extract_paints_from_har] raises. *)
Definition scrape_all_categories (fetch_svg : string → option string)
    (entries : list har_entry) (sample_colors filter_products : bool)
    : option (list (string * (string * list har_hit))) :=
  all_paints ← extract_paints_from_har entries;
  Some (omap (λ ct : string * string,
                match scrape_category fetch_svg all_paints ct.1
                        sample_colors filter_products with
                | [] => None
                | category_paints => Some (ct.1, (ct.2, category_paints))
                end)
             CITADEL_CATEGORIES).

(** The hits of the file, in the order in which the loops of
    [extract_paints_from_har] meet them. *)
Definition har_hits (entries : list har_entry) : list har_hit :=
  entries ≫= (λ entry, match entry with
                        | Results results => concat results
                        | _ => []
                        end).

End Citadel.

(** ** Predicates of the statements *)

(** [p'] holds what [p] holds under every key outside of [keys]. *)
Definition same_but {V} (keys : list string) (p p' : gmap string V) : Prop :=
  ∀ k, k ∉ keys → p' !! k = p !! k.

(** Two catalogue files of the same shape, with the same keys besides
    [paints], whose entries agree pairwise outside of [keys]. *)
Definition file_frame (keys : list string) (f f' : catalogue_file) : Prop :=
  match f, f' with
  | FlatList ps, FlatList ps' => Forall2 (same_but keys) ps ps'
  | Wrapper meta ps, Wrapper meta' ps' =>
      meta = meta' ∧ Forall2 (same_but keys) ps ps'
  | Unrecognized d, Unrecognized d' => d = d'
  | _, _ => False
  end.

(** The normalised SKU of an entry is a key of the lookup [lk]. *)
Definition sku_in_lookup {V} (normalize_sku : string → string)
    (lk : gmap string V) (paint : dict) : bool :=
  match on_str normalize_sku (get_or paint "sku" (VStr EmptyString)) with
  | Some sku => bool_decide (is_Some (lk !! sku))
  | None => false
  end.

(** A text of ASCII characters.  On such a text the case functions of
    [Py] are those of Python; a character outside of ASCII is here the bytes
    of its UTF-8 form, which [Py] leaves as they are, where Python maps the
    letters of other alphabets too. *)
Definition ascii_only (s : string) : bool :=
  Py.sforall (λ c, (Py.code c <? 128)%N) s.

(** [paint.get('sku') or '']. *)
Definition sku_or_empty (paint : record) : string :=
  if otruthy (rget paint "sku") then ostr (rget paint "sku") else EmptyString.

(** Every pixel of the image has the colour [c]. *)
Definition uniform (img : image) (c : Z * Z * Z) : Prop :=
  ∀ x y, 0 ≤ x < width img → 0 ≤ y < height img → pixel img x y = c.

(** The words of a string, read from its end: the word that [s] begins
    with (empty when [s] begins with whitespace) and the words after it. *)
Definition cons_word (w : string) (l : list string) : list string :=
  if Py.truthy w then w :: l else l.

Fixpoint scan_words (s : string) : string * list string :=
  match s with
  | EmptyString => (EmptyString, [])
  | String c s' =>
      if Py.is_space c
      then (EmptyString, cons_word (scan_words s').1 (scan_words s').2)
      else (String c (scan_words s').1, (scan_words s').2)
  end.

(** What [normalize_name] keeps of a name, said without regular
    expressions: the words of the name in lower case and without
    punctuation that are not filler words. *)
Definition name_words (fillers : list string) (name : string) : list string :=
  filter (λ w, w ∉ fillers)
    (Py.split (Py.sfilter (λ c, Py.is_word c || Py.is_space c) (Py.lower name))).

(** What [sample_paint_color] may do to a paint: it touches no key but
    [_image_url] and [_hex], and the [_hex] it leaves is the one that was
    there, [None], or a colour in the form [#RRGGBB] with upper-case
    digits. *)
Definition sampled (p p' : Citadel.har_hit) : Prop :=
  Citadel.hh_productType p' = Citadel.hh_productType p
  ∧ Citadel.hh_images p' = Citadel.hh_images p
  ∧ Citadel.set_hex (Citadel.hh_hit p') None
    = Citadel.set_hex (Citadel.hh_hit p) None
  ∧ (Citadel.hit_hex (Citadel.hh_hit p') = Citadel.hit_hex (Citadel.hh_hit p)
     ∨ Citadel.hit_hex (Citadel.hh_hit p') = None
     ∨ ∃ hex, Citadel.hit_hex (Citadel.hh_hit p') = Some hex
              ∧ is_hex_color hex = true ∧ Py.upper hex = hex).

(** [r] is the beginning of [name], with the whitespace around it taken
    off. *)
Definition trimmed_prefix (r name : string) : Prop :=
  ∃ p rest, name = p +:+ rest ∧ r = Py.strip p.

(** The entry [e] is what [generate_catalogue] makes of the records of [l]
    with the normalised SKU [k]: [first] builds the entry from the first of
    them, and [later] folds the later ones into it, in their order. *)
Definition kept_entry {A} (key : A → option string) (first : A → string → dict)
    (later : dict → A → dict) (l : list A) (k : string) (e : dict) : Prop :=
  ∃ l1 x l2, l = l1 ++ x :: l2 ∧ key x = Some k
             ∧ Forall (λ y, key y ≠ Some k) l1
             ∧ e = foldl later (first x k) (filter (λ y, key y = Some k) l2).


(** The ranges after the cross-reference, when [g] gives what was entered
    for each key. *)
Definition referenced (g : string → string * list record) (range_key : string)
    : string * list record :=
  if bool_decide (range_key = "rc-markers")
  then ((g "rc-markers").1,
        (AK.cross_reference_rc_markers (g "rc-markers").2 (g "real-colors").2).1)
  else g range_key.

(** ** Sample data *)

Module Sample.

Definition wood_brown : record :=
  list_to_map [("title", Some "Wood Brown"); ("sku", Some "AK11002");
               ("product_url", Some "https://ak-interactive.com/product/wood-brown/");
               ("hex", Some "#6F4E37"); ("category", Some "General");
               ("paint_type", Some "opaque")].

(** The same product listed again in another sub-range, with its SKU
    written in lower case. *)
Definition wood_brown_figures : record :=
  list_to_map [("title", Some "Wood Brown - Figures"); ("sku", Some "ak11002");
               ("hex", Some "#705038"); ("category", Some "Figures");
               ("paint_type", Some "opaque")].

Definition ivory : record :=
  list_to_map [("title", Some "IVORY"); ("sku", Some "AK11001");
               ("hex", None); ("category", Some "Standard");
               ("paint_type", Some "opaque")].



Definition zandri_dust : Citadel.hit :=
  {| Citadel.hit_sku := Some "prod-99189950001";
     Citadel.hit_name := Some "Zandri Dust";
     Citadel.hit_paintType := Some ["Base"];
     Citadel.hit_paintColourRange := Some "Brown";
     Citadel.hit_isAvailable := Some true;
     Citadel.hit_hex := Some "#9E915C";
     Citadel.hit_slug := Some "base-zandri-dust" |}.

Definition abaddon_black : Citadel.hit :=
  {| Citadel.hit_sku := Some "99189950002";
     Citadel.hit_name := Some "Abaddon Black";
     Citadel.hit_paintType := Some ["Base"];
     Citadel.hit_paintColourRange := Some "Black";
     Citadel.hit_isAvailable := Some true;
     Citadel.hit_hex := None;
     Citadel.hit_slug := Some "base-abaddon-black" |}.

(** A near-white photograph, a little darker at one pixel, and a plain red
    one. *)
Definition pale_photo : image :=
  {| width := 100; height := 100;
     pixel := λ x y, if (x =? 50) && (y =? 25)
                     then (250, 250, 250) else (254, 254, 254) |}.

Definition red_photo : image :=
  {| width := 100; height := 100; pixel := λ _ _, (200, 30, 10) |}.

(** A Vallejo listing whose first page shows accessories only and whose
    second page shows a paint. *)
Definition brush_set : record :=
  list_to_map [("title", Some "Brush Set"); ("sku", Some "PM01");
               ("img_url", None);
               ("product_url", Some "https://acrylicosvallejo.com/en/product/brush-set/")].

Definition dark_red : record :=
  list_to_map [("title", Some "Dark Red"); ("sku", Some "70946");
               ("img_url", None);
               ("product_url", Some "https://acrylicosvallejo.com/en/product/dark-red/")].

Definition vallejo_site (url : string) : option Vallejo.listing :=
  if bool_decide (url = "https://acrylicosvallejo.com/en/category/hobby/model-color-en/")
  then Some {| Vallejo.items := [brush_set];
               Vallejo.next_url :=
                 Some "https://acrylicosvallejo.com/en/category/hobby/model-color-en/page/2/" |}
  else if bool_decide (url = "https://acrylicosvallejo.com/en/category/hobby/model-color-en/page/2/")
  then Some {| Vallejo.items := [dark_red]; Vallejo.next_url := None |}
  else None.

(** The same for AK Interactive: a page of products without a paint SKU,
    then a page with a paint, then an empty page. *)
Definition paint_rack : record :=
  list_to_map [("title", Some "Paint Rack"); ("sku", Some "AK-RACK");
               ("img_url", None); ("product_url", None)].

Definition ak_ivory : record :=
  list_to_map [("title", Some "Ivory"); ("sku", Some "AK11001");
               ("img_url", None); ("product_url", None)].

Definition ak_site (page : nat) : option AK.listing :=
  match page with
  | 1%nat => Some {| AK.items := [paint_rack]; AK.has_next := true |}
  | 2%nat => Some {| AK.items := [ak_ivory]; AK.has_next := true |}
  | _ => Some {| AK.items := []; AK.has_next := true |}
  end.

Definition no_image (url : string) : option image := None.

(** SVG sources, written with single quotes for the double quotes of the
    markup. *)
Definition markup (s : string) : string :=
  Py.replace_char "'"%char "034"%char s.

(** A pot drawn the usual way: the colour is the fill of the rect under the
    clip path. *)
Definition pot_svg : string :=
  markup "<svg><defs><clipPath id='pot'><path d='M0 0'/></clipPath></defs><path fill='#333333' d='M1 1'/><g clip-path='url(#pot)'><rect width='10' height='10' fill='#8f7c68'/></g></svg>".

(** One red rect among three green paths. *)
Definition rect_and_paths_svg : string :=
  markup "<svg><rect x='0' fill='#FF0000'/><path fill='#00FF00'/><path fill='#00FF00'/><path fill='#00FF00'/></svg>".

(** No rect: short and long colour tokens, most of them of the ignore set. *)
Definition paths_svg : string :=
  markup "<svg><path fill='#fff'/><path fill='#FFFFFF'/><path stroke='#a1b2c3'/><path fill='#000'/></svg>".

Definition grey_svg : string :=
  markup "<svg><path fill='#333'/><path fill='#fff'/><path fill='#333333'/></svg>".

Definition no_color_svg : string := markup "<svg><path d='M0 0h10'/></svg>".

(** A colour whose name starts with the word Medium, and two mediums. *)
Definition medium_blue : record :=
  list_to_map [("title", Some "Medium Blue"); ("sku", Some "70.963")].
Definition glaze_medium : record :=
  list_to_map [("title", Some "Glaze Medium"); ("sku", Some "AK11233")].
Definition medium_for_washes : record :=
  list_to_map [("title", Some "3Gen Medium For Washes"); ("sku", Some "AK11234")].

(** The catalogue entry of the SKU-rename scenario and the fresh records
    that carry its name under a new SKU, with and without a product URL. *)
Definition old_entry : dict :=
  list_to_map [("sku", VStr "09701"); ("name", VStr "Old Name");
               ("hex", VStr ""); ("url", VStr "https://example.com/old");
               ("discontinued", VBool false)].

Definition renumbered : record :=
  list_to_map [("sku", Some "09703"); ("title", Some "Old Name");
               ("hex", Some "#112233");
               ("product_url", Some "https://example.com/new")].

(** The same paint listed in a second range: the SKU and the colour of
    [renumbered], another title. *)
Definition renumbered_figures : record :=
  list_to_map [("sku", Some "09703"); ("title", Some "Old Name – Figures");
               ("hex", Some "#112233");
               ("product_url", Some "https://example.com/figures")].

Definition renumbered_no_url : record :=
  list_to_map [("sku", Some "09703"); ("title", Some "Old Name");
               ("hex", Some "#112233"); ("product_url", None)].

(** The entry and the fresh record of the hex-update scenario. *)
Definition ak123_entry : dict :=
  list_to_map [("sku", VStr "AK123"); ("name", VStr "Wood Brown");
               ("hex", VStr "")].

Definition ak123_fresh : record :=
  list_to_map [("sku", Some "ak 123"); ("title", Some "Wood Brown");
               ("hex", Some "#112233")].

(** Two fresh records with the same SKU and different names and colours. *)
Definition red_ak1 : record :=
  list_to_map [("sku", Some "AK1"); ("title", Some "Red"); ("hex", Some "#111111")].
Definition blue_ak1 : record :=
  list_to_map [("sku", Some "AK1"); ("title", Some "Blue"); ("hex", Some "#222222")].
Definition red_entry : dict :=
  list_to_map [("sku", VStr "AK9"); ("name", VStr "Red"); ("hex", VStr "")].

(** Two hits of a HAR file for the same paint, and a hit of a product that
    is not a paint. *)
Definition zandri_dust_hit : Citadel.har_hit :=
  {| Citadel.hh_productType := Some "paint";
     Citadel.hh_images := Some ["/app/resources/catalog/product/zandri-dust.svg"];
     Citadel.hh_image_url := None;
     Citadel.hh_hit := Sample.zandri_dust |}.

Definition zandri_dust_again : Citadel.har_hit :=
  {| Citadel.hh_productType := Some "paint";
     Citadel.hh_images := None;
     Citadel.hh_image_url := None;
     Citadel.hh_hit := Sample.zandri_dust |}.

Definition brush_hit : Citadel.har_hit :=
  {| Citadel.hh_productType := Some "brush";
     Citadel.hh_images := None;
     Citadel.hh_image_url := None;
     Citadel.hh_hit := Sample.abaddon_black |}.

End Sample.

(** * Properties *)

(** ** Strings *)

Lemma upper_char_idemp c : Py.upper_char (Py.upper_char c) = Py.upper_char c.
Proof. by destruct c as [[] [] [] [] [] [] [] []]. Qed.

Lemma upper_char_space c : Py.is_space (Py.upper_char c) = Py.is_space c.
Proof. by destruct c as [[] [] [] [] [] [] [] []]. Qed.

Lemma upper_idemp s : Py.upper (Py.upper s) = Py.upper s.
Proof.
  unfold Py.upper. induction s as [|c s IH]; simpl; [done|].
  by rewrite upper_char_idemp, IH.
Qed.

Lemma upper_remove_ws s : Py.upper (Py.remove_ws s) = Py.remove_ws (Py.upper s).
Proof.
  unfold Py.upper, Py.remove_ws.
  induction s as [|c s IH]; simpl; [done|].
  rewrite upper_char_space. destruct (Py.is_space c); simpl; by rewrite IH.
Qed.

Lemma sfilter_idemp p s : Py.sfilter p (Py.sfilter p s) = Py.sfilter p s.
Proof.
  induction s as [|c s IH]; simpl; [done|].
  destruct (p c) eqn:E; simpl; [rewrite E, IH|]; done.
Qed.

Lemma sforall_sfilter p s : Py.sforall p (Py.sfilter p s) = true.
Proof.
  induction s as [|c s IH]; simpl; [done|].
  destruct (p c) eqn:E; simpl; [rewrite E|]; done.
Qed.

Lemma sfilter_id p s : Py.sforall p s = true → Py.sfilter p s = s.
Proof.
  induction s as [|c s IH]; simpl; [done|].
  intros [-> ?]%andb_true_iff. by rewrite IH.
Qed.

Lemma no_space_remove_ws s : no_space (Py.remove_ws s) = true.
Proof. apply sforall_sfilter. Qed.

Lemma remove_ws_id s : no_space s = true → Py.remove_ws s = s.
Proof. apply sfilter_id. Qed.

Lemma lstrip_id s : no_space s = true → Py.lstrip s = s.
Proof.
  destruct s as [|c s]; simpl; [done|].
  intros [Hc _]%andb_true_iff. by destruct (Py.is_space c).
Qed.

Lemma rstrip_id s : no_space s = true → Py.rstrip s = s.
Proof.
  induction s as [|c s IH]; simpl; [done|].
  intros [Hc Hs]%andb_true_iff. rewrite IH by done.
  destruct s; [|done]. by destruct (Py.is_space c).
Qed.

Lemma strip_id s : no_space s = true → Py.strip s = s.
Proof. intros H. unfold Py.strip. by rewrite rstrip_id, lstrip_id. Qed.

(** ** SKU normalisation *)

Lemma AK_normalize_sku_idemp s :
  AK.normalize_sku (AK.normalize_sku s) = AK.normalize_sku s.
Proof.
  unfold AK.normalize_sku. destruct s as [|c s]; [done|].
  cbn [Py.truthy negb].
  destruct (Py.remove_ws (Py.upper (String c s))) as [|c' s'] eqn:E; [done|].
  cbn [Py.truthy negb]. rewrite <- E.
  rewrite (upper_remove_ws (Py.upper (String c s))), upper_idemp.
  apply sfilter_idemp.
Qed.

Lemma sforall_app p a b :
  Py.sforall p (a +:+ b) = Py.sforall p a && Py.sforall p b.
Proof.
  induction a as [|c a IH]; [done|].
  change (String c a +:+ b) with (String c (a +:+ b)). simpl.
  by rewrite IH, andb_assoc.
Qed.

Lemma sforall_take p n s : Py.sforall p s = true → Py.sforall p (Py.take n s) = true.
Proof.
  revert s. induction n as [|n IH]; intros [|c s]; simpl; try done.
  intros [-> ?]%andb_true_iff. by apply IH.
Qed.

Lemma sforall_drop p n s : Py.sforall p s = true → Py.sforall p (Py.drop n s) = true.
Proof.
  revert s. induction n as [|n IH]; intros [|c s]; simpl; try done.
  intros [_ ?]%andb_true_iff. by apply IH.
Qed.

Lemma no_space_dotted t :
  no_space t = true → no_space (Py.take 2 t +:+ "." +:+ Py.drop 2 t) = true.
Proof.
  unfold no_space. intros H.
  by rewrite !sforall_app, sforall_take, sforall_drop.
Qed.

Lemma match_five_digits_dotted t :
  Vallejo.match_five_digits t = true →
  Vallejo.match_five_digits (Py.take 2 t +:+ "." +:+ Py.drop 2 t) = false.
Proof.
  unfold Vallejo.match_five_digits.
  destruct t as [|a [|b [|c [|d [|e t]]]]];
    try (cbn; rewrite ?andb_false_r; done).
  intros _. cbv [String.append Py.take Py.drop Py.sforall].
  change (Py.is_digit ".") with false. by rewrite !andb_false_r.
Qed.

Lemma Vallejo_normalize_sku_idemp s :
  Vallejo.normalize_sku (Vallejo.normalize_sku s) = Vallejo.normalize_sku s.
Proof.
  unfold Vallejo.normalize_sku. destruct s as [|c0 s0]; [done|].
  cbn [Py.truthy negb]. set (s := String c0 s0).
  rewrite (strip_id (Py.remove_ws s)) by apply no_space_remove_ws.
  pose proof (no_space_remove_ws s) as Hns. set (t := Py.remove_ws s) in *.
  destruct (Vallejo.match_five_digits t) eqn:E5.
  - pose proof (no_space_dotted t Hns) as Hd.
    destruct (Py.take 2 t +:+ "." +:+ Py.drop 2 t) as [|x r] eqn:Er.
    { destruct t as [|a [|b t']]; done. }
    cbn [Py.truthy negb]. rewrite <- Er in *.
    rewrite remove_ws_id, strip_id by done.
    by rewrite match_five_digits_dotted.
  - destruct t as [|x r] eqn:Et; [done|]. cbn [Py.truthy negb].
    rewrite remove_ws_id, strip_id by done. by rewrite E5.
Qed.

Lemma take_take n s : Py.take n (Py.take n s) = Py.take n s.
Proof.
  revert s. induction n as [|n IH]; intros [|c s]; simpl; [done..|].
  by rewrite IH.
Qed.

Lemma search_eleven_digits_Some s m :
  Citadel.search_eleven_digits s = Some m →
  Citadel.eleven_digits_here m = true ∧ Py.take 11 m = m.
Proof.
  induction s as [|c s IH]; cbn [Citadel.search_eleven_digits].
  - destruct (Citadel.eleven_digits_here EmptyString) eqn:E; [|done].
    by vm_compute in E.
  - destruct (Citadel.eleven_digits_here (String c s)) eqn:E; [|done].
    intros Hm. assert (m = Py.take 11 (String c s)) as -> by congruence.
    clear Hm IH. unfold Citadel.eleven_digits_here in *.
    by rewrite !take_take.
Qed.

Lemma search_eleven_digits_here s :
  Citadel.eleven_digits_here s = true →
  Citadel.search_eleven_digits s = Some (Py.take 11 s).
Proof. intros H. destruct s; cbn [Citadel.search_eleven_digits]; by rewrite H. Qed.

Lemma Citadel_normalize_sku_idemp s :
  Citadel.valid_sku s = true →
  Citadel.normalize_sku (Citadel.normalize_sku s) = Citadel.normalize_sku s.
Proof.
  unfold Citadel.valid_sku, Citadel.normalize_sku.
  destruct s as [|c0 s0]; [done|]. cbn [Py.truthy negb]. set (s := String c0 s0).
  destruct (Citadel.search_eleven_digits s) as [m|] eqn:Es.
  - intros _. apply search_eleven_digits_Some in Es as [Hm Ht].
    rewrite (search_eleven_digits_here m Hm), Ht.
    destruct m; [by vm_compute in Hm|done].
  - rewrite orb_false_l. intros Hns.
    rewrite remove_ws_id, strip_id by done.
    subst s. cbn [Py.truthy negb]. by rewrite Es, remove_ws_id, strip_id.
Qed.

(** C8: SKU normalisation is a projection.  For AK Interactive (uppercase,
    whitespace removed) and Vallejo (whitespace removed, dot inserted into
    five bare digits) normalising twice equals normalising once on every
    string; for Citadel (eleven-digit extraction) it does so on every valid
    SKU, that is a token without whitespace or a text carrying the
    eleven-digit product code. *)
Theorem normalize_sku_projection :
  (∀ s, AK.normalize_sku (AK.normalize_sku s) = AK.normalize_sku s) ∧
  (∀ s, Vallejo.normalize_sku (Vallejo.normalize_sku s) = Vallejo.normalize_sku s) ∧
  (∀ s, Citadel.valid_sku s = true →
        Citadel.normalize_sku (Citadel.normalize_sku s) = Citadel.normalize_sku s).
Proof.
  split; [exact AK_normalize_sku_idemp|].
  split; [exact Vallejo_normalize_sku_idemp|exact Citadel_normalize_sku_idemp].
Qed.

Lemma normalize_sku_projection_witness :
  Citadel.valid_sku "prod-99189950001 " = true ∧
  Citadel.normalize_sku (Citadel.normalize_sku "prod-99189950001 ")
  = Citadel.normalize_sku "prod-99189950001 ".
Proof.
  split; [reflexivity|].
  apply (proj2 (proj2 normalize_sku_projection)). reflexivity.
Defined.

(** Outside the valid SKUs the Citadel normaliser is not a projection: two
    digit groups that whitespace removal joins into twelve digits are cut to
    eleven by the second pass. *)
Example Citadel_normalize_sku_joined_groups :
  Citadel.normalize_sku "123456 789012" = "123456789012" ∧
  Citadel.normalize_sku "123456789012" = "12345678901".
Proof. split; reflexivity. Qed.

Example AK_normalize_sku_example : AK.normalize_sku "ak 123" = "AK123".
Proof. reflexivity. Qed.

Example Vallejo_normalize_sku_example :
  Vallejo.normalize_sku "76109" = "76.109" ∧ Vallejo.normalize_sku "76.109" = "76.109".
Proof. split; reflexivity. Qed.

(** ** Stable sort on string keys *)

Section sorting.
Context {A : Type} (key : A → string).

Lemma insert_by_Permutation x (l : list A) : insert_by key x l ≡ₚ x :: l.
Proof.
  induction l as [|y l IH]; simpl; [done|].
  destruct (String.leb (key x) (key y)); [done|].
  by rewrite IH, Permutation_swap.
Qed.

Lemma sort_by_Permutation (l : list A) : sort_by key l ≡ₚ l.
Proof.
  induction l as [|x l IH]; simpl; [done|].
  by rewrite insert_by_Permutation, IH.
Qed.

Lemma insert_by_fmap x (l : list A) :
  key <$> insert_by key x l = insert_by id (key x) (key <$> l).
Proof.
  induction l as [|y l IH]; [done|].
  rewrite fmap_cons. cbn [insert_by]. change (id (key x)) with (key x).
  change (id (key y)) with (key y).
  destruct (String.leb (key x) (key y)); [done|].
  by rewrite fmap_cons, IH.
Qed.

Lemma sort_by_fmap (l : list A) : key <$> sort_by key l = sort_by id (key <$> l).
Proof.
  induction l as [|x l IH]; [done|].
  rewrite fmap_cons. cbn [sort_by foldr]. fold (sort_by key l).
  fold (sort_by id (key <$> l)). by rewrite insert_by_fmap, IH.
Qed.

(** Insertion sort moves two lists with the same keys in the same way. *)
Lemma insert_by_Forall2 (R : relation A) x1 x2 l1 l2 :
  key x1 = key x2 → R x1 x2 →
  Forall2 (λ a b, key a = key b ∧ R a b) l1 l2 →
  Forall2 (λ a b, key a = key b ∧ R a b) (insert_by key x1 l1) (insert_by key x2 l2).
Proof.
  intros Hk Hx. induction 1 as [|y1 y2 l1 l2 [Hy HR] Hl IH]; simpl.
  - by repeat constructor.
  - rewrite Hk, Hy. destruct (String.leb (key x2) (key y2)).
    + constructor; [done|]. by constructor.
    + by constructor.
Qed.

Lemma sort_by_Forall2 (R : relation A) l1 l2 :
  Forall2 (λ a b, key a = key b ∧ R a b) l1 l2 →
  Forall2 (λ a b, key a = key b ∧ R a b) (sort_by key l1) (sort_by key l2).
Proof.
  induction 1 as [|x1 x2 l1 l2 [Hk HR] Hl IH]; simpl; [constructor|].
  by apply insert_by_Forall2.
Qed.
End sorting.

Lemma insert_by_sorted x (l : list string) :
  StronglySorted String.le l → StronglySorted String.le (insert_by id x l).
Proof.
  induction l as [|y l IH]; simpl; intros Hl.
  - by repeat constructor.
  - apply StronglySorted_cons in Hl as [Hy Hl].
    destruct (String.leb x y) eqn:E.
    + apply StronglySorted_cons. split; [|by apply StronglySorted_cons].
      assert (String.le x y) as Hxy by (unfold String.le; by rewrite E).
      constructor; [done|].
      eapply Forall_impl; [exact Hy|]. intros z Hz. by etrans.
    + apply StronglySorted_cons. split; [|by apply IH].
      assert (String.le y x) as Hyx.
      { destruct (total String.le x y) as [H|H]; [|done].
        unfold String.le in H. by rewrite E in H. }
      rewrite (insert_by_Permutation id x l). by constructor.
Qed.

Lemma sort_by_sorted (l : list string) : StronglySorted String.le (sort_by id l).
Proof.
  induction l as [|x l IH]; simpl; [constructor|]. by apply insert_by_sorted.
Qed.

(** The keys of a list sorted by [key] come out in ascending order. *)
Lemma sort_by_key_sorted {A} (key : A → string) (l : list A) :
  StronglySorted String.le (key <$> sort_by key l).
Proof. rewrite sort_by_fmap. apply sort_by_sorted. Qed.

(** Sorting lists of pairwise distinct keys that hold the same keys gives the
    same sequence of keys. *)
Lemma sort_by_keys_unique (l1 l2 : list string) :
  NoDup l1 → NoDup l2 → (∀ k, k ∈ l1 ↔ k ∈ l2) → sort_by id l1 = sort_by id l2.
Proof.
  intros H1 H2 H. apply (StronglySorted_unique String.le).
  - apply sort_by_sorted.
  - apply sort_by_sorted.
  - rewrite !sort_by_Permutation. by apply NoDup_Permutation.
Qed.

(** ** The dedup rule *)

Section first_seen.
Context {A : Type} (key : A → option string).

Lemma first_seen_keys seen (l : list A) x k :
  (x, k) ∈ first_seen key seen l → key x = Some k ∧ x ∈ l ∧ k ∉ seen.
Proof.
  revert seen. induction l as [|y l IH]; intros seen; simpl.
  - by intros ?%elem_of_nil.
  - destruct (key y) as [ky|] eqn:Ey.
    + case_bool_decide as Hin.
      * intros (?&?&?)%IH. set_solver.
      * intros [[= -> ->]|(?&?&?)%IH]%elem_of_cons; set_solver.
    + intros (?&?&?)%IH. set_solver.
Qed.

Lemma first_seen_NoDup seen (l : list A) : NoDup (first_seen key seen l).*2.
Proof.
  revert seen. induction l as [|y l IH]; intros seen; simpl; [constructor|].
  destruct (key y) as [ky|]; [|done].
  case_bool_decide; [done|]. simpl. constructor; [|done].
  intros ([x k]&Hk&Hin)%list_elem_of_fmap. simpl in Hk. subst k.
  apply first_seen_keys in Hin. set_solver.
Qed.

Lemma first_seen_complete seen (l : list A) x k :
  x ∈ l → key x = Some k → k ∉ seen → k ∈ (first_seen key seen l).*2.
Proof.
  revert seen. induction l as [|y l IH]; intros seen; simpl.
  - by intros ?%elem_of_nil.
  - intros Hx Hk Hs. destruct (key y) as [ky|] eqn:Ey.
    + case_bool_decide as Hin.
      * apply IH; [|done..]. apply elem_of_cons in Hx as [->|]; [|done].
        congruence.
      * simpl. destruct (decide (k = ky)) as [->|Hne]; [set_solver|].
        apply list_elem_of_further, IH; [|done|set_solver].
        apply elem_of_cons in Hx as [->|]; [|done]. congruence.
    + apply IH; [|done..]. apply elem_of_cons in Hx as [->|]; [|done].
      congruence.
Qed.

(** The keys kept are exactly the keys that occur. *)
Lemma first_seen_elem_of (l : list A) k :
  k ∈ (first_seen key ∅ l).*2 ↔ ∃ x, x ∈ l ∧ key x = Some k.
Proof.
  split.
  - intros ([x k']&Hk&Hin)%list_elem_of_fmap. simpl in Hk. subst k'.
    apply first_seen_keys in Hin. naive_solver.
  - intros (x&?&?). eapply first_seen_complete; [done..|set_solver].
Qed.

(** The record kept for a key is the first one in the list with that key. *)
Lemma first_seen_first seen (l : list A) x k :
  (x, k) ∈ first_seen key seen l →
  ∃ l1 l2, l = l1 ++ x :: l2 ∧ ∀ y, y ∈ l1 → key y ≠ Some k.
Proof.
  revert seen. induction l as [|y l IH]; intros seen; simpl.
  - by intros ?%elem_of_nil.
  - destruct (key y) as [ky|] eqn:Ey.
    + case_bool_decide as Hin.
      * intros Hx. pose proof (first_seen_keys _ _ _ _ Hx) as (?&?&?).
        apply IH in Hx as (l1&l2&->&Hl1). exists (y :: l1), l2.
        split; [done|]. intros z [->|?]%elem_of_cons; [|by apply Hl1].
        rewrite Ey. intros [= ->]. done.
      * intros [[= -> ->]|Hx]%elem_of_cons.
        { exists [], l. split; [done|]. by intros ? ?%elem_of_nil. }
        pose proof (first_seen_keys _ _ _ _ Hx) as (?&?&?).
        apply IH in Hx as (l1&l2&->&Hl1). exists (y :: l1), l2.
        split; [done|]. intros z [->|?]%elem_of_cons; [|by apply Hl1].
        rewrite Ey. intros [= ->]. set_solver.
    + intros Hx. apply IH in Hx as (l1&l2&->&Hl1). exists (y :: l1), l2.
      split; [done|]. intros z [->|?]%elem_of_cons; [|by apply Hl1].
      by rewrite Ey.
Qed.

(** The generic assembler loop: a step that skips keyless records, leaves
    the catalogue related by [R] on a duplicate, and appends on a new key,
    computes the dedup rule up to [R]. *)
Context (mk : A → string → dict) (R : relation dict) `{!PreOrder R}.
Context (step : list dict * gmap string nat → A → list dict * gmap string nat).
Hypothesis step_skip : ∀ st x, key x = None → step st x = st.
Hypothesis step_dup : ∀ cat seen x k,
  key x = Some k → is_Some (seen !! k) →
  ∃ cat', step (cat, seen) x = (cat', seen) ∧ Forall2 R cat' cat.
Hypothesis step_new : ∀ cat seen x k,
  key x = Some k → seen !! k = None →
  step (cat, seen) x = (cat ++ [mk x k], <[k := length cat]> seen).

Lemma loop_first_seen (l : list A) cat seen ideal :
  Forall2 R cat ideal →
  Forall2 R (foldl step (cat, seen) l).1
            (ideal ++ ((λ xk, mk xk.1 xk.2) <$> first_seen key (dom seen) l)).
Proof.
  revert cat seen ideal. induction l as [|x l IH]; intros cat seen ideal HR; simpl.
  - by rewrite app_nil_r.
  - destruct (key x) as [k|] eqn:Ek.
    + case_bool_decide as Hin.
      * apply elem_of_dom in Hin.
        destruct (step_dup cat seen x k Ek Hin) as (cat'&->&HR').
        apply IH. by etrans.
      * apply not_elem_of_dom in Hin. rewrite (step_new _ _ _ _ Ek Hin).
        rewrite fmap_cons. cbn [fst snd].
        rewrite (cons_middle (mk x k) ideal), (assoc_L (++) ideal).
        replace ({[k]} ∪ dom seen) with (dom (<[k:=length cat]> seen))
          by (by rewrite dom_insert_L).
        apply IH. apply Forall2_app; [done|]. by repeat constructor.
    + rewrite step_skip by done. by apply IH.
Qed.
End first_seen.

(** ** Catalogue assembly *)

Global Instance same_but_category_preorder : PreOrder AK.same_but_category.
Proof.
  split.
  - by intros e k _.
  - intros e1 e2 e3 H12 H23 k Hk. by rewrite H12, H23.
Qed.

Lemma same_but_category_sku e1 e2 :
  AK.same_but_category e1 e2 → entry_str "sku" e1 = entry_str "sku" e2.
Proof. intros H. unfold entry_str. by rewrite (H "sku"). Qed.

Lemma AK_make_entry_sku rn p k : entry_str "sku" (AK.make_entry rn p k) = k.
Proof. reflexivity. Qed.

Lemma Vallejo_make_entry_sku rn p k : entry_str "sku" (Vallejo.make_entry rn p k) = k.
Proof. reflexivity. Qed.

Lemma Citadel_make_entry_sku c p k : entry_str "sku" (Citadel.make_entry c p k) = k.
Proof. reflexivity. Qed.

Lemma AK_step_skip rn st x :
  AK.sku_key x = None → AK.catalogue_step rn st x = st.
Proof.
  unfold AK.sku_key, AK.catalogue_step. destruct st as [cat seen].
  by destruct (otruthy (rget_or x "sku" (Some EmptyString))).
Qed.

Lemma AK_step_dup rn cat seen x k :
  AK.sku_key x = Some k → is_Some (seen !! k) →
  ∃ cat', AK.catalogue_step rn (cat, seen) x = (cat', seen)
          ∧ Forall2 AK.same_but_category cat' cat.
Proof.
  unfold AK.sku_key, AK.catalogue_step. intros Hk [idx Hidx].
  destruct (otruthy (rget_or x "sku" (Some EmptyString))); [|done].
  injection Hk as Hk. cbn [negb]. rewrite Hk, Hidx.
  destruct (cat !! idx) as [e|] eqn:He; [|by eexists].
  match goal with |- context [if ?b then _ else _] => destruct b end;
    [|by eexists].
  eexists. split; [done|].
  apply Forall2_same_length_lookup. split; [by rewrite length_insert|].
  intros i e1 e2 H1 H2. destruct (decide (i = idx)) as [->|Hne].
  - rewrite list_lookup_insert_eq in H1 by (by eapply lookup_lt_Some).
    injection H1 as <-. rewrite He in H2. injection H2 as <-.
    intros j Hj. by rewrite lookup_insert_ne.
  - rewrite list_lookup_insert_ne in H1 by done.
    rewrite H1 in H2. by injection H2 as <-.
Qed.

Lemma AK_step_new rn cat seen x k :
  AK.sku_key x = Some k → seen !! k = None →
  AK.catalogue_step rn (cat, seen) x
  = (cat ++ [AK.make_entry rn x k], <[k := length cat]> seen).
Proof.
  unfold AK.sku_key, AK.catalogue_step. intros Hk Hs.
  destruct (otruthy (rget_or x "sku" (Some EmptyString))); [|done].
  injection Hk as Hk. cbn [negb]. by rewrite Hk, Hs.
Qed.

(** The AK assembler computes the dedup rule, up to the category upgrade. *)
Lemma AK_generate_catalogue_spec l rn :
  Forall2 (λ a b, entry_str "sku" a = entry_str "sku" b ∧ AK.same_but_category a b)
    (AK.generate_catalogue l rn)
    (sort_by (entry_str "sku")
       ((λ xk, AK.make_entry rn xk.1 xk.2) <$> first_seen AK.sku_key ∅ l)).
Proof.
  unfold AK.generate_catalogue. apply sort_by_Forall2.
  pose proof (loop_first_seen AK.sku_key (AK.make_entry rn) AK.same_but_category
                (AK.catalogue_step rn) (AK_step_skip rn) (AK_step_dup rn)
                (AK_step_new rn) l [] ∅ [] ltac:(constructor)) as H.
  rewrite dom_empty_L in H. simpl in H.
  eapply Forall2_impl; [exact H|]. intros a b Hab. split; [|done].
  by apply same_but_category_sku.
Qed.

Lemma Vallejo_step_skip rn st x :
  Vallejo.sku_key x = None → Vallejo.catalogue_step rn st x = st.
Proof.
  unfold Vallejo.sku_key, Vallejo.catalogue_step. destruct st as [cat seen].
  by destruct (otruthy (rget_or x "sku" (Some EmptyString))).
Qed.

Lemma Vallejo_step_dup rn cat seen x k :
  Vallejo.sku_key x = Some k → is_Some (seen !! k) →
  ∃ cat', Vallejo.catalogue_step rn (cat, seen) x = (cat', seen) ∧ Forall2 eq cat' cat.
Proof.
  unfold Vallejo.sku_key, Vallejo.catalogue_step. intros Hk [idx Hidx].
  destruct (otruthy (rget_or x "sku" (Some EmptyString))); [|done].
  injection Hk as Hk. cbn [negb]. rewrite Hk, Hidx. eexists. split; [done|].
  by apply list_eq_Forall2.
Qed.

Lemma Vallejo_step_new rn cat seen x k :
  Vallejo.sku_key x = Some k → seen !! k = None →
  Vallejo.catalogue_step rn (cat, seen) x
  = (cat ++ [Vallejo.make_entry rn x k], <[k := length cat]> seen).
Proof.
  unfold Vallejo.sku_key, Vallejo.catalogue_step. intros Hk Hs.
  destruct (otruthy (rget_or x "sku" (Some EmptyString))); [|done].
  injection Hk as Hk. cbn [negb]. by rewrite Hk, Hs.
Qed.

(** The Vallejo assembler computes the dedup rule. *)
Lemma Vallejo_generate_catalogue_spec l rn :
  Vallejo.generate_catalogue l rn
  = sort_by (entry_str "sku")
      ((λ xk, Vallejo.make_entry rn xk.1 xk.2) <$> first_seen Vallejo.sku_key ∅ l).
Proof.
  unfold Vallejo.generate_catalogue. f_equal.
  pose proof (loop_first_seen Vallejo.sku_key (Vallejo.make_entry rn) eq
                (Vallejo.catalogue_step rn) (Vallejo_step_skip rn)
                (Vallejo_step_dup rn) (Vallejo_step_new rn) l [] ∅ []
                ltac:(constructor)) as H.
  rewrite dom_empty_L in H. simpl in H. by apply list_eq_Forall2 in H.
Qed.

Lemma Citadel_step_skip c st x :
  Citadel.sku_key x = None → Citadel.catalogue_step c st x = st.
Proof.
  unfold Citadel.sku_key, Citadel.catalogue_step. destruct st as [cat seen].
  by destruct (Py.truthy _).
Qed.

Lemma Citadel_step_dup c cat seen x k :
  Citadel.sku_key x = Some k → is_Some (seen !! k) →
  ∃ cat', Citadel.catalogue_step c (cat, seen) x = (cat', seen) ∧ Forall2 eq cat' cat.
Proof.
  unfold Citadel.sku_key, Citadel.catalogue_step. intros Hk [idx Hidx].
  destruct (Py.truthy _); [|done].
  injection Hk as Hk. cbn [negb]. rewrite Hk, Hidx. eexists. split; [done|].
  by apply list_eq_Forall2.
Qed.

Lemma Citadel_step_new c cat seen x k :
  Citadel.sku_key x = Some k → seen !! k = None →
  Citadel.catalogue_step c (cat, seen) x
  = (cat ++ [Citadel.make_entry c x k], <[k := length cat]> seen).
Proof.
  unfold Citadel.sku_key, Citadel.catalogue_step. intros Hk Hs.
  destruct (Py.truthy _); [|done].
  injection Hk as Hk. cbn [negb]. by rewrite Hk, Hs.
Qed.

(** The Citadel assembler computes the dedup rule, sorted by name. *)
Lemma Citadel_generate_catalogue_spec l c :
  Citadel.generate_catalogue l c
  = sort_by (entry_str "name")
      ((λ xk, Citadel.make_entry c xk.1 xk.2) <$> first_seen Citadel.sku_key ∅ l).
Proof.
  unfold Citadel.generate_catalogue. f_equal.
  pose proof (loop_first_seen Citadel.sku_key (Citadel.make_entry c) eq
                (Citadel.catalogue_step c) (Citadel_step_skip c)
                (Citadel_step_dup c) (Citadel_step_new c) l [] ∅ []
                ltac:(constructor)) as H.
  rewrite dom_empty_L in H. simpl in H. by apply list_eq_Forall2 in H.
Qed.

Lemma Forall2_fmap_eq {A} (f : A → string) (R : relation A) (l1 l2 : list A) :
  Forall2 (λ a b, f a = f b ∧ R a b) l1 l2 → f <$> l1 = f <$> l2.
Proof.
  induction 1 as [|a b l1 l2 [Hf _] _ IH]; [done|]. by rewrite !fmap_cons, Hf, IH.
Qed.

Lemma first_seen_fmap_key {A} (key : A → option string) (mk : A → string → dict)
    (f : dict → string) (l : list (A * string)) :
  (∀ x k, f (mk x k) = k) →
  f <$> ((λ xk, mk xk.1 xk.2) <$> l) = l.*2.
Proof.
  intros Hf. rewrite <- list_fmap_compose. apply list_fmap_ext.
  intros i [x k] _. simpl. apply Hf.
Qed.

(** The SKUs of the assembled catalogues, in output order: the keys the dedup
    rule keeps, sorted. *)
Lemma AK_generate_catalogue_skus l rn :
  entry_str "sku" <$> AK.generate_catalogue l rn
  = sort_by id (first_seen AK.sku_key ∅ l).*2.
Proof.
  rewrite (Forall2_fmap_eq _ _ _ _ (AK_generate_catalogue_spec l rn)).
  rewrite sort_by_fmap. f_equal.
  by apply (first_seen_fmap_key AK.sku_key).
Qed.

Lemma Vallejo_generate_catalogue_skus l rn :
  entry_str "sku" <$> Vallejo.generate_catalogue l rn
  = sort_by id (first_seen Vallejo.sku_key ∅ l).*2.
Proof.
  rewrite Vallejo_generate_catalogue_spec, sort_by_fmap. f_equal.
  by apply (first_seen_fmap_key Vallejo.sku_key).
Qed.

Lemma first_seen_keys_Permutation {A} (key : A → option string) (l l' : list A) :
  l ≡ₚ l' →
  sort_by id (first_seen key ∅ l).*2 = sort_by id (first_seen key ∅ l').*2.
Proof.
  intros Hp. apply sort_by_keys_unique; [apply first_seen_NoDup..|].
  intros k. rewrite !first_seen_elem_of. by setoid_rewrite Hp.
Qed.

(** C3, as the code has it: the AK Interactive and the Vallejo assembler
    return their entries in ascending order of the normalised SKU, compared
    as strings, and the sequence of SKUs they return does not depend on the
    order (or the range name) of the input records; the Citadel assembler
    returns its entries in ascending order of the name. *)
Theorem generate_catalogue_order (l l' : list record) (rn rn' : string)
    (hits : list Citadel.hit) (category : option string) :
  StronglySorted String.le (entry_str "sku" <$> AK.generate_catalogue l rn) ∧
  (l ≡ₚ l' →
   entry_str "sku" <$> AK.generate_catalogue l rn
   = entry_str "sku" <$> AK.generate_catalogue l' rn') ∧
  StronglySorted String.le (entry_str "sku" <$> Vallejo.generate_catalogue l rn) ∧
  (l ≡ₚ l' →
   entry_str "sku" <$> Vallejo.generate_catalogue l rn
   = entry_str "sku" <$> Vallejo.generate_catalogue l' rn') ∧
  StronglySorted String.le
    (entry_str "name" <$> Citadel.generate_catalogue hits category).
Proof.
  split; [apply sort_by_key_sorted|].
  split; [intros Hp; rewrite !AK_generate_catalogue_skus;
          by apply first_seen_keys_Permutation|].
  split; [apply sort_by_key_sorted|].
  split; [intros Hp; rewrite !Vallejo_generate_catalogue_skus;
          by apply first_seen_keys_Permutation|].
  apply sort_by_key_sorted.
Qed.

Lemma generate_catalogue_order_witness :
  entry_str "sku" <$> AK.generate_catalogue [Sample.wood_brown; Sample.ivory] "3rd Generation"
  = entry_str "sku" <$> AK.generate_catalogue [Sample.ivory; Sample.wood_brown] "3rd Generation"
  ∧ entry_str "sku" <$> Vallejo.generate_catalogue [Sample.wood_brown; Sample.ivory] "Model Color"
  = entry_str "sku" <$> Vallejo.generate_catalogue [Sample.ivory; Sample.wood_brown] "Model Color".
Proof.
  pose proof (generate_catalogue_order [Sample.wood_brown; Sample.ivory]
                [Sample.ivory; Sample.wood_brown] "3rd Generation" "3rd Generation"
                [] None) as (_ & Hak & _).
  pose proof (generate_catalogue_order [Sample.wood_brown; Sample.ivory]
                [Sample.ivory; Sample.wood_brown] "Model Color" "Model Color"
                [] None) as (_ & _ & _ & Hv & _).
  split; [apply Hak|apply Hv]; apply Permutation_swap.
Defined.

(** The order is the one of strings, not of numbers. *)
Example generate_catalogue_lexicographic :
  entry_str "sku" <$>
    AK.generate_catalogue
      [list_to_map [("sku", Some "AK9")]; list_to_map [("sku", Some "AK10")]] ""
  = ["AK10"; "AK9"].
Proof. reflexivity. Qed.

(** C3 fails for the Citadel assembler, which sorts by name: Abaddon Black
    (SKU ...002) is returned before Zandri Dust (SKU ...001). *)
Lemma generate_catalogue_order_counterexample :
  (Citadel.normalize_sku ∘ entry_str "sku") <$>
    Citadel.generate_catalogue [Sample.zandri_dust; Sample.abaddon_black] None
  = ["99189950002"; "99189950001"]
  ∧ ¬ StronglySorted String.le
        ((Citadel.normalize_sku ∘ entry_str "sku") <$>
           Citadel.generate_catalogue [Sample.zandri_dust; Sample.abaddon_black] None).
Proof.
  assert ((Citadel.normalize_sku ∘ entry_str "sku") <$>
            Citadel.generate_catalogue [Sample.zandri_dust; Sample.abaddon_black] None
          = ["99189950002"; "99189950001"]) as E by reflexivity.
  split; [exact E|]. rewrite E.
  intros [H _]%StronglySorted_cons. apply Forall_cons in H as [H _].
  by vm_compute in H.
Qed.

Lemma sku_key_normalized_AK x k :
  AK.sku_key x = Some k → AK.normalize_sku k = k.
Proof.
  unfold AK.sku_key. destruct (otruthy _); [|done].
  intros [= <-]. apply AK_normalize_sku_idemp.
Qed.

Lemma sku_key_normalized_Vallejo x k :
  Vallejo.sku_key x = Some k → Vallejo.normalize_sku k = k.
Proof.
  unfold Vallejo.sku_key. destruct (otruthy _); [|done].
  intros [= <-]. apply Vallejo_normalize_sku_idemp.
Qed.

Lemma first_seen_first_record {A} (key : A → option string) (l : list A) x k :
  (x, k) ∈ first_seen key ∅ l → first_record key l k (λ y, y = x).
Proof.
  intros Hin. pose proof (first_seen_keys _ _ _ _ _ Hin) as (Hk&_&_).
  apply first_seen_first in Hin as (l1&l2&->&Hl1).
  exists l1, x, l2. split; [done|]. split; [done|].
  split; [by apply Forall_forall|done].
Qed.

Lemma AK_generate_catalogue_first l rn :
  Forall (λ e, AK.normalize_sku (entry_str "sku" e) = entry_str "sku" e
               ∧ first_record AK.sku_key l (entry_str "sku" e)
                   (λ x, AK.same_but_category e (AK.make_entry rn x (entry_str "sku" e))))
    (AK.generate_catalogue l rn).
Proof.
  apply Forall_forall. intros e He.
  pose proof (AK_generate_catalogue_spec l rn) as H.
  apply list_elem_of_lookup in He as [i Hi].
  destruct (Forall2_lookup_l _ _ _ _ _ H Hi) as (e'&Hi'&Hsku&HR).
  apply list_elem_of_lookup_2 in Hi'. rewrite sort_by_Permutation in Hi'.
  apply list_elem_of_fmap in Hi' as ([x k]&->&Hin). cbn [fst snd] in *.
  rewrite AK_make_entry_sku in Hsku. rewrite Hsku.
  pose proof (first_seen_keys _ _ _ _ _ Hin) as (Hk&_&_).
  split; [by eapply sku_key_normalized_AK|].
  destruct (first_seen_first_record _ _ _ _ Hin) as (l1&y&l2&?&?&?&->).
  by exists l1, x, l2.
Qed.

Lemma Vallejo_generate_catalogue_first l rn :
  Forall (λ e, Vallejo.normalize_sku (entry_str "sku" e) = entry_str "sku" e
               ∧ first_record Vallejo.sku_key l (entry_str "sku" e)
                   (λ x, e = Vallejo.make_entry rn x (entry_str "sku" e)))
    (Vallejo.generate_catalogue l rn).
Proof.
  apply Forall_forall. intros e He.
  rewrite Vallejo_generate_catalogue_spec, sort_by_Permutation in He.
  apply list_elem_of_fmap in He as ([x k]&->&Hin). cbn [fst snd] in *.
  rewrite Vallejo_make_entry_sku.
  pose proof (first_seen_keys _ _ _ _ _ Hin) as (Hk&_&_).
  split; [by eapply sku_key_normalized_Vallejo|].
  destruct (first_seen_first_record _ _ _ _ Hin) as (l1&y&l2&?&?&?&->).
  by exists l1, x, l2.
Qed.

Lemma fmap_normalized {A} (f : A → string) (g : string → string) (l : list A) :
  Forall (λ e, g (f e) = f e) l → (g ∘ f) <$> l = f <$> l.
Proof.
  intros H. apply list_fmap_ext. intros i e Hi. simpl.
  eapply Forall_lookup_1 in H; [|done]. done.
Qed.

Section first_seen_snoc.
Context {A : Type} (key : A → option string).

Lemma first_seen_snoc seen (l : list A) y :
  first_seen key seen (l ++ [y])
  = first_seen key seen l
    ++ match key y with
       | Some k => if bool_decide (k ∈ seen ∨ k ∈ (first_seen key seen l).*2)
                   then [] else [(y, k)]
       | None => []
       end.
Proof.
  revert seen. induction l as [|x l IH]; intros seen.
  - simpl. destruct (key y) as [k|]; [|done].
    rewrite (bool_decide_ext (k ∈ seen ∨ k ∈ []) (k ∈ seen)) by set_solver.
    by case_bool_decide.
  - cbn [app first_seen]. destruct (key x) as [kx|] eqn:Ex; [|apply IH].
    case_bool_decide as Hx; [apply IH|].
    rewrite IH. cbn [app]. f_equal. f_equal.
    destruct (key y) as [k|]; [|done].
    rewrite fmap_cons. cbn [snd].
    by rewrite (bool_decide_ext (k ∈ {[kx]} ∪ seen ∨ k ∈ (first_seen key ({[kx]} ∪ seen) l).*2)
                  (k ∈ seen ∨ k ∈ kx :: (first_seen key ({[kx]} ∪ seen) l).*2))
      by set_solver.
Qed.
End first_seen_snoc.

Lemma AK_step_dup_exact rn cat seen y k i e :
  AK.sku_key y = Some k → seen !! k = Some i → cat !! i = Some e →
  AK.catalogue_step rn (cat, seen) y
  = (<[i := AK.upgrade_category e y]> cat, seen).
Proof.
  unfold AK.sku_key, AK.catalogue_step, AK.upgrade_category. intros Hk Hs He.
  destruct (otruthy (rget_or y "sku" (Some EmptyString))); [|done].
  injection Hk as Hk. cbn [negb]. rewrite Hk, Hs, He.
  destruct (_ && _); [done|]. by rewrite list_insert_id.
Qed.

Lemma AK_loop_inv rn (l : list record) :
  length (foldl (AK.catalogue_step rn) ([], ∅) l).1
  = length (first_seen AK.sku_key ∅ l)
  ∧ (∀ k i, (foldl (AK.catalogue_step rn) ([], ∅) l).2 !! k = Some i →
            (first_seen AK.sku_key ∅ l).*2 !! i = Some k)
  ∧ (∀ k, k ∈ (first_seen AK.sku_key ∅ l).*2 →
          is_Some ((foldl (AK.catalogue_step rn) ([], ∅) l).2 !! k))
  ∧ (∀ i x k, first_seen AK.sku_key ∅ l !! i = Some (x, k) →
       ∃ l1 l2, l = l1 ++ x :: l2
         ∧ Forall (λ y, AK.sku_key y ≠ Some k) l1
         ∧ (foldl (AK.catalogue_step rn) ([], ∅) l).1 !! i
           = Some (foldl AK.upgrade_category (AK.make_entry rn x k)
                     (filter (λ y, AK.sku_key y = Some k) l2))).
Proof.
  induction l as [|y l IH] using rev_ind.
  - simpl. split; [done|]. split; [by intros k i; rewrite lookup_empty|].
    split; [by intros k ?%elem_of_nil|]. by intros i x k; rewrite lookup_nil.
  - rewrite foldl_app, first_seen_snoc. cbn [foldl].
    destruct (foldl (AK.catalogue_step rn) ([], ∅) l) as [cat seen] eqn:Est.
    cbn [fst snd] in IH. destruct IH as (I1&I2a&I2b&I3).
    set (fs := first_seen AK.sku_key ∅ l) in *.
    pose proof (first_seen_NoDup AK.sku_key ∅ l) as Hnd. fold fs in Hnd.
    destruct (AK.sku_key y) as [k'|] eqn:Ey.
    + rewrite (bool_decide_ext (k' ∈ (∅ : gset string) ∨ k' ∈ fs.*2) (k' ∈ fs.*2))
        by set_solver.
      destruct (seen !! k') as [i|] eqn:Hs.
      * (* a later record of a SKU met before *)
        pose proof (I2a _ _ Hs) as Hi.
        rewrite bool_decide_true by (by eapply list_elem_of_lookup_2).
        rewrite app_nil_r.
        pose proof Hi as Hi'. rewrite list_lookup_fmap in Hi'.
        destruct (fs !! i) as [[xi ki]|] eqn:Hfi; [|done].
        injection Hi' as ->.
        destruct (I3 _ _ _ Hfi) as (l1&l2&->&Hl1&Hcat).
        rewrite (AK_step_dup_exact _ _ _ _ _ _ _ Ey Hs Hcat). cbn [fst snd].
        split; [by rewrite length_insert|]. split; [done|]. split; [done|].
        intros j x k Hj. destruct (decide (j = i)) as [->|Hne].
        -- rewrite Hfi in Hj. injection Hj as <- <-.
           exists l1, (l2 ++ [y]). split; [by rewrite <- app_assoc|].
           split; [done|].
           rewrite list_lookup_insert_eq by (by eapply lookup_lt_Some).
           rewrite filter_app, filter_cons_True, filter_nil by done.
           by rewrite foldl_app.
        -- destruct (I3 _ _ _ Hj) as (m1&m2&Hl&Hm1&Hcj).
           exists m1, (m2 ++ [y]). split; [by rewrite Hl, <- app_assoc|].
           split; [done|].
           rewrite list_lookup_insert_ne by done.
           rewrite filter_app, filter_cons_False, filter_nil, app_nil_r; [done|].
           intros Hk. apply Hne. eapply NoDup_lookup; [exact Hnd| |exact Hi].
           rewrite list_lookup_fmap, Hj. simpl. congruence.
      * (* the first record of a SKU *)
        assert (k' ∉ fs.*2) as Hk' by (intros [? ?]%I2b; congruence).
        rewrite bool_decide_false by done.
        rewrite (AK_step_new _ _ _ _ _ Ey Hs). cbn [fst snd].
        split; [by rewrite !length_app, I1|].
        split; [|split].
        -- intros k i. destruct (decide (k = k')) as [->|Hne].
           ++ rewrite lookup_insert_eq. intros [= <-].
              rewrite fmap_app, lookup_app_r by (by rewrite length_fmap, I1).
              by rewrite length_fmap, I1, Nat.sub_diag.
           ++ rewrite lookup_insert_ne by done. intros Hi%I2a.
              rewrite fmap_app. by apply lookup_app_l_Some.
        -- intros k. rewrite fmap_app. intros [Hk|Hk%list_elem_of_singleton]%elem_of_app.
           ++ destruct (decide (k = k')) as [->|Hne]; [done|].
              rewrite lookup_insert_ne by done. by apply I2b.
           ++ simpl in Hk. subst k. rewrite lookup_insert_eq. by eexists.
        -- intros j x k [Hj|[Hlen Hj]]%lookup_app_Some.
           ++ destruct (I3 _ _ _ Hj) as (m1&m2&Hl&Hm1&Hcj).
              exists m1, (m2 ++ [y]). split; [by rewrite Hl, <- app_assoc|].
              split; [done|].
              rewrite (lookup_app_l_Some _ _ _ _ Hcj).
              rewrite filter_app, filter_cons_False, filter_nil, app_nil_r; [done|].
              intros Hk. apply Hk'. apply list_elem_of_lookup. exists j.
              rewrite list_lookup_fmap, Hj. simpl. congruence.
           ++ destruct (j - length fs)%nat as [|?] eqn:Ej; [|done].
              simpl in Hj. injection Hj as <- <-.
              exists l, []. split; [done|]. split.
              ** apply Forall_forall. intros z Hz Hzk. apply Hk'.
                 apply first_seen_elem_of. by exists z.
              ** assert (j = length cat) as -> by lia.
                 rewrite lookup_app_r, Nat.sub_diag by done. done.
    + rewrite AK_step_skip by done. rewrite app_nil_r. cbn [fst snd].
      split; [done|]. split; [done|]. split; [done|].
      intros j x k Hj. destruct (I3 _ _ _ Hj) as (m1&m2&Hl&Hm1&Hcj).
      exists m1, (m2 ++ [y]). split; [by rewrite Hl, <- app_assoc|].
      split; [done|].
      rewrite filter_app, filter_cons_False, filter_nil, app_nil_r; [done|].
      congruence.
Qed.

Lemma upgrade_category_keys e y k :
  k ≠ "category" → AK.upgrade_category e y !! k = e !! k.
Proof.
  intros Hk. unfold AK.upgrade_category. destruct (_ && _); [|done].
  by rewrite lookup_insert_ne.
Qed.

Lemma foldl_upgrade_category_keys e dups k :
  k ≠ "category" → foldl AK.upgrade_category e dups !! k = e !! k.
Proof.
  intros Hk. revert e. induction dups as [|y dups IH]; intros e; [done|].
  cbn [foldl]. by rewrite IH, upgrade_category_keys.
Qed.

Lemma foldl_keep {A} (e : dict) (dups : list A) : foldl (λ e _, e) e dups = e.
Proof. induction dups as [|y dups IH]; [done|]. apply IH. Qed.

(** The entries of the AK Interactive assembler, exactly. *)
Lemma AK_generate_catalogue_kept l rn :
  Forall (λ e, kept_entry AK.sku_key (AK.make_entry rn) AK.upgrade_category l
                 (entry_str "sku" e) e)
    (AK.generate_catalogue l rn).
Proof.
  apply Forall_forall. intros e He. unfold AK.generate_catalogue in He.
  rewrite sort_by_Permutation in He.
  destruct (AK_loop_inv rn l) as (I1&_&_&I3).
  apply list_elem_of_lookup in He as [i Hi].
  destruct (lookup_lt_is_Some_2 (first_seen AK.sku_key ∅ l) i) as [[x k] Hx].
  { rewrite <- I1. by eapply lookup_lt_Some. }
  destruct (I3 _ _ _ Hx) as (l1&l2&Hl&Hl1&He'). rewrite Hi in He'.
  injection He' as He'.
  assert (entry_str "sku" e = k) as ->.
  { rewrite He'. transitivity (entry_str "sku" (AK.make_entry rn x k));
      [|apply AK_make_entry_sku].
    unfold entry_str. by rewrite foldl_upgrade_category_keys. }
  exists l1, x, l2. split; [done|]. split; [|done].
  apply list_elem_of_lookup_2, first_seen_keys in Hx. tauto.
Qed.

Lemma Vallejo_generate_catalogue_kept l rn :
  Forall (λ e, kept_entry Vallejo.sku_key (Vallejo.make_entry rn) (λ e _, e) l
                 (entry_str "sku" e) e)
    (Vallejo.generate_catalogue l rn).
Proof.
  eapply Forall_impl; [apply (Vallejo_generate_catalogue_first l rn)|].
  intros e [_ (l1&x&l2&->&Hk&Hl1&->)].
  exists l1, x, l2. rewrite Vallejo_make_entry_sku in *.
  by rewrite foldl_keep.
Qed.

Lemma AK_generate_catalogue_complete l rn x k :
  x ∈ l → AK.sku_key x = Some k →
  k ∈ entry_str "sku" <$> AK.generate_catalogue l rn.
Proof.
  intros Hx Hk. rewrite AK_generate_catalogue_skus, sort_by_Permutation.
  apply first_seen_elem_of. by exists x.
Qed.

Lemma Vallejo_generate_catalogue_complete l rn x k :
  x ∈ l → Vallejo.sku_key x = Some k →
  k ∈ entry_str "sku" <$> Vallejo.generate_catalogue l rn.
Proof.
  intros Hx Hk. rewrite Vallejo_generate_catalogue_skus, sort_by_Permutation.
  apply first_seen_elem_of. by exists x.
Qed.

(** C9, as the code has it.  No two entries of an assembled catalogue share
    a normalised SKU, every normalised SKU of a record has its entry, and
    the entry of a SKU is the one built from the first record with that
    SKU.  Vallejo keeps nothing of a later record with the same SKU.  AK
    Interactive keeps one thing: a later record gives the entry its
    category when the category of the entry is [General] and the one of
    the record is another, non-empty one. *)
Theorem generate_catalogue_dedup (l : list record) (rn : string) :
  (NoDup ((AK.normalize_sku ∘ entry_str "sku") <$> AK.generate_catalogue l rn)
   ∧ (∀ x k, x ∈ l → AK.sku_key x = Some k →
             k ∈ entry_str "sku" <$> AK.generate_catalogue l rn)
   ∧ Forall (λ e, kept_entry AK.sku_key (AK.make_entry rn) AK.upgrade_category l
                    (entry_str "sku" e) e)
       (AK.generate_catalogue l rn))
  ∧ (NoDup ((Vallejo.normalize_sku ∘ entry_str "sku")
              <$> Vallejo.generate_catalogue l rn)
     ∧ (∀ x k, x ∈ l → Vallejo.sku_key x = Some k →
               k ∈ entry_str "sku" <$> Vallejo.generate_catalogue l rn)
     ∧ Forall (λ e, kept_entry Vallejo.sku_key (Vallejo.make_entry rn) (λ e _, e) l
                      (entry_str "sku" e) e)
         (Vallejo.generate_catalogue l rn)).
Proof.
  pose proof (AK_generate_catalogue_first l rn) as Hak.
  pose proof (Vallejo_generate_catalogue_first l rn) as Hv.
  apply Forall_and in Hak as [Hak1 _]. apply Forall_and in Hv as [Hv1 _].
  split; (split; [|split]).
  - rewrite (fmap_normalized _ _ _ Hak1).
    rewrite AK_generate_catalogue_skus, sort_by_Permutation.
    apply first_seen_NoDup.
  - apply AK_generate_catalogue_complete.
  - apply AK_generate_catalogue_kept.
  - rewrite (fmap_normalized _ _ _ Hv1).
    rewrite Vallejo_generate_catalogue_skus, sort_by_Permutation.
    apply first_seen_NoDup.
  - apply Vallejo_generate_catalogue_complete.
  - apply Vallejo_generate_catalogue_kept.
Qed.

(** C9 fails on what is kept of a duplicate: Wood Brown is listed under
    [General] first and under [Figures] later, and the entry of AK
    Interactive has the category of the later record; without the later
    record the catalogue is another one. *)
Lemma generate_catalogue_dedup_counterexample :
  (λ e, (e !! "sku", e !! "category")) <$>
    AK.generate_catalogue [Sample.wood_brown; Sample.wood_brown_figures]
      "3rd Generation"
  = [(Some (VStr "AK11002"), Some (VStr "Figures"))]
  ∧ (λ e, (e !! "sku", e !! "category")) <$>
      AK.generate_catalogue [Sample.wood_brown] "3rd Generation"
    = [(Some (VStr "AK11002"), Some (VStr "General"))]
  ∧ AK.generate_catalogue [Sample.wood_brown; Sample.wood_brown_figures]
      "3rd Generation"
    ≠ AK.generate_catalogue [Sample.wood_brown] "3rd Generation".
Proof.
  assert ((λ e, (e !! "sku", e !! "category")) <$>
            AK.generate_catalogue [Sample.wood_brown; Sample.wood_brown_figures]
              "3rd Generation"
          = [(Some (VStr "AK11002"), Some (VStr "Figures"))]) as E1
    by (vm_compute; reflexivity).
  assert ((λ e, (e !! "sku", e !! "category")) <$>
            AK.generate_catalogue [Sample.wood_brown] "3rd Generation"
          = [(Some (VStr "AK11002"), Some (VStr "General"))]) as E2
    by (vm_compute; reflexivity).
  split; [exact E1|]. split; [exact E2|].
  intros H. rewrite H, E2 in E1. discriminate E1.
Qed.

(** The duplicate of Wood Brown is dropped; its more specific category
    replaces the generic one of the first record, and nothing else of it is
    kept. *)
Example generate_catalogue_category_upgrade :
  (λ e, (e !! "sku", e !! "category", e !! "hex", e !! "name")) <$>
    AK.generate_catalogue [Sample.wood_brown; Sample.ivory; Sample.wood_brown_figures] "3rd Generation"
  = [(Some (VStr "AK11001"), Some (VStr "Standard"), Some VNone, Some (VStr "Ivory"));
     (Some (VStr "AK11002"), Some (VStr "Figures"), Some (VStr "#6F4E37"),
      Some (VStr "Wood Brown"))].
Proof. reflexivity. Qed.

(** A record without SKU makes no entry: every entry comes from a record
    whose [sku] passed the truth test. *)
Lemma generate_catalogue_needs_sku (l : list record) (rn : string) :
  Forall (λ e, ∃ x, x ∈ l ∧ otruthy (rget_or x "sku" (Some EmptyString)) = true
                    ∧ entry_str "sku" e = AK.normalize_sku (ostr (rget_or x "sku" (Some EmptyString))))
    (AK.generate_catalogue l rn).
Proof.
  eapply Forall_impl; [apply (AK_generate_catalogue_first l rn)|].
  intros e [_ (l1&x&l2&->&Hk&_&_)]. exists x. split; [set_solver|].
  unfold AK.sku_key in Hk. destruct (otruthy _); [|done].
  by injection Hk as <-.
Qed.












(** ** Values and entries *)

Lemma get_insert_eq (p : dict) k v : get (<[k:=v]> p) k = v.
Proof. unfold get. by rewrite lookup_insert_eq. Qed.

Lemma get_insert_ne (p : dict) k k' v : k ≠ k' → get (<[k:=v]> p) k' = get p k'.
Proof. intros. unfold get. by rewrite lookup_insert_ne. Qed.

Lemma get_or_insert_eq (p : dict) k v d : get_or (<[k:=v]> p) k d = v.
Proof. unfold get_or. by rewrite lookup_insert_eq. Qed.

Lemma get_or_insert_ne (p : dict) k k' v d :
  k ≠ k' → get_or (<[k:=v]> p) k' d = get_or p k' d.
Proof. intros. unfold get_or. by rewrite lookup_insert_ne. Qed.

Lemma differs_of_opt o : differs (of_opt o) o = false.
Proof. destruct o as [s|]; simpl; [|done]. by rewrite bool_decide_true. Qed.

Lemma differs_false_str v s : differs v (Some s) = false → v = VStr s.
Proof.
  destruct v; simpl; try done. case_bool_decide; [|done]. by intros _; subst.
Qed.

Lemma on_str_truthy f s : Py.truthy s = true → on_str f (VStr s) = Some (f s).
Proof. intros H. unfold on_str. simpl. by rewrite H. Qed.

(** ** The lookups of the batch merge *)

Section first_record.
Context {A : Type} (key : A → option string).

Lemma first_record_nil k P : ¬ first_record key [] k P.
Proof. intros ([|??]&?&?&?&_); done. Qed.

Lemma first_record_here x l k (P : A → Prop) :
  key x = Some k → first_record key (x :: l) k P ↔ P x.
Proof.
  intros Hk. split.
  - intros ([|y l1]&z&l2&Heq&Hz&Hl1&HP).
    + by injection Heq as -> _.
    + injection Heq as -> _. by apply Forall_cons in Hl1 as [? _].
  - intros HP. exists [], x, l. by repeat split.
Qed.

Lemma first_record_later x l k (P : A → Prop) :
  key x ≠ Some k → first_record key (x :: l) k P ↔ first_record key l k P.
Proof.
  intros Hk. split.
  - intros ([|y l1]&z&l2&Heq&Hz&Hl1&HP).
    + injection Heq as -> _. done.
    + injection Heq as -> ->. apply Forall_cons in Hl1 as [_ Hl1].
      by exists l1, z, l2.
  - intros (l1&z&l2&->&Hz&Hl1&HP). exists (x :: l1), z, l2.
    split; [done|]. split; [done|]. split; [by constructor|done].
Qed.

Lemma first_record_elem_of l k (P : A → Prop) :
  first_record key l k P → ∃ x, x ∈ l ∧ key x = Some k ∧ P x.
Proof. intros (l1&x&l2&->&?&_&?). exists x. set_solver. Qed.
End first_record.

Section lookups.
Variable normalize_sku : string → string.
Variable normalize_name : string → string.

Abbreviation lookup_step := (Merge.lookup_step normalize_sku normalize_name).
Abbreviation build_lookups := (Merge.build_lookups normalize_sku normalize_name).
Abbreviation sku_key := (Merge.fresh_sku_key normalize_sku).
Abbreviation name_key := (Merge.fresh_name_key normalize_name).

Lemma lookup_step_fst lk x :
  (lookup_step lk x).1
  = match sku_key x with Some k => <[k:=x]> lk.1 | None => lk.1 end.
Proof.
  unfold Merge.lookup_step, Merge.fresh_sku_key. destruct lk as [m1 m2].
  destruct (otruthy (rget x "sku") && otruthy (rget x "hex")); [|done].
  destruct (otruthy _); [|done]. by destruct (_ && _).
Qed.

Lemma lookup_step_snd lk x :
  (lookup_step lk x).2
  = match name_key x with
    | Some n => match lk.2 !! n with Some _ => lk.2 | None => <[n:=x]> lk.2 end
    | None => lk.2
    end.
Proof.
  unfold Merge.lookup_step, Merge.fresh_name_key. destruct lk as [m1 m2].
  destruct (otruthy (rget x "sku") && otruthy (rget x "hex")); [|done].
  cbn [andb]. destruct (otruthy _); [|done]. cbn [andb].
  destruct (Py.truthy _); [|done]. cbn [andb fst snd].
  destruct (m2 !! _) eqn:E.
  - by rewrite bool_decide_false.
  - by rewrite bool_decide_true.
Qed.

Lemma name_key_sku_key x n : name_key x = Some n → is_Some (sku_key x).
Proof.
  unfold Merge.fresh_name_key, Merge.fresh_sku_key.
  destruct (otruthy (rget x "sku") && otruthy (rget x "hex")); [by eauto|done].
Qed.

(** The SKU lookup holds the last record of each key. *)
Lemma sku_lookup_snoc l x :
  (build_lookups (l ++ [x])).1
  = match sku_key x with
    | Some k => <[k:=x]> (build_lookups l).1
    | None => (build_lookups l).1
    end.
Proof. unfold Merge.build_lookups. by rewrite foldl_app, <- lookup_step_fst. Qed.

Lemma sku_lookup_Some l k d :
  (build_lookups l).1 !! k = Some d → d ∈ l ∧ sku_key d = Some k.
Proof.
  induction l as [|x l IH] using rev_ind; [done|].
  rewrite sku_lookup_snoc. destruct (sku_key x) as [k'|] eqn:Ek.
  - destruct (decide (k' = k)) as [->|Hne].
    + rewrite lookup_insert_eq. intros [= <-]. set_solver.
    + rewrite lookup_insert_ne by done. intros H%IH. set_solver.
  - intros H%IH. set_solver.
Qed.

Lemma sku_lookup_is_Some l d k :
  d ∈ l → sku_key d = Some k → is_Some ((build_lookups l).1 !! k).
Proof.
  induction l as [|x l IH] using rev_ind; [by intros ?%elem_of_nil|].
  rewrite sku_lookup_snoc. intros Hd Hk.
  destruct (sku_key x) as [k'|] eqn:Ek.
  - destruct (decide (k' = k)) as [->|Hne].
    + rewrite lookup_insert_eq. by eauto.
    + rewrite lookup_insert_ne by done. apply IH; [|done].
      apply elem_of_app in Hd as [?|?%list_elem_of_singleton]; [done|].
      subst. congruence.
  - apply IH; [|done].
    apply elem_of_app in Hd as [?|?%list_elem_of_singleton]; [done|].
    subst. congruence.
Qed.

Lemma sku_lookup_distinct l d k :
  Merge.distinct_skus normalize_sku l →
  d ∈ l → sku_key d = Some k → (build_lookups l).1 !! k = Some d.
Proof.
  unfold Merge.distinct_skus.
  induction l as [|x l IH] using rev_ind; [by intros _ ?%elem_of_nil|].
  rewrite omap_app, sku_lookup_snoc. simpl. intros Hnd Hd Hk.
  destruct (sku_key x) as [k'|] eqn:Ek.
  - apply NoDup_app in Hnd as (Hnd&Hdisj&_).
    apply elem_of_app in Hd as [Hd|Hd%list_elem_of_singleton].
    + destruct (decide (k' = k)) as [->|Hne].
      * exfalso. apply (Hdisj k); [|set_solver].
        apply list_elem_of_omap. eauto.
      * rewrite lookup_insert_ne by done. by apply IH.
    + subst. assert (k' = k) as -> by congruence. by rewrite lookup_insert_eq.
  - rewrite app_nil_r in Hnd.
    apply elem_of_app in Hd as [Hd|Hd%list_elem_of_singleton];
      [|subst; congruence].
    by apply IH.
Qed.

(** The name lookup holds the first record of each key. *)
Lemma name_lookup_foldl l lk n d :
  (foldl lookup_step lk l).2 !! n = Some d ↔
  lk.2 !! n = Some d ∨ (lk.2 !! n = None ∧ first_record name_key l n (λ x, x = d)).
Proof.
  revert lk. induction l as [|x l IH]; intros lk; simpl.
  - pose proof (first_record_nil name_key n (λ x, x = d)). naive_solver.
  - rewrite IH, lookup_step_snd. destruct (name_key x) as [n'|] eqn:En.
    + destruct (decide (n' = n)) as [->|Hne].
      * rewrite (first_record_here name_key x l n _ En).
        destruct (lk.2 !! n) as [d'|] eqn:E.
        -- rewrite E. naive_solver.
        -- rewrite lookup_insert_eq. naive_solver.
      * rewrite (first_record_later name_key x l n); [|congruence].
        destruct (lk.2 !! n') as [d'|] eqn:E; [done|].
        by rewrite lookup_insert_ne.
    + rewrite (first_record_later name_key x l n); [done|congruence].
Qed.

Lemma name_lookup_Some l n d :
  (build_lookups l).2 !! n = Some d ↔ first_record name_key l n (λ x, x = d).
Proof.
  unfold Merge.build_lookups. rewrite name_lookup_foldl. simpl.
  rewrite lookup_empty. naive_solver.
Qed.

Lemma sku_lookup_None l k :
  (build_lookups l).1 !! k = None ↔ Forall (λ x, sku_key x ≠ Some k) l.
Proof.
  split.
  - intros Hn. apply Forall_forall. intros x Hx Hk.
    destruct (sku_lookup_is_Some l x k Hx Hk) as [? ?]. congruence.
  - intros Hall. destruct (_ !! k) as [d|] eqn:E; [|done].
    apply sku_lookup_Some in E as [Hd Hk].
    rewrite Forall_forall in Hall. by destruct (Hall d Hd).
Qed.
End lookups.

(** ** Re-running the merge *)

Section rerun.
Variable normalize_sku : string → string.
Variable normalize_name : string → string.
Variable scraped_data : list record.

Abbreviation lk := (Merge.build_lookups normalize_sku normalize_name scraped_data).

Hypothesis agree : Merge.lookups_agree normalize_sku lk.
Abbreviation merge_paint := (Merge.merge_paint normalize_sku normalize_name lk).
Abbreviation merge_paints := (Merge.merge_paints normalize_sku normalize_name lk).
Abbreviation merge_file := (Merge.merge_file normalize_sku normalize_name lk).

Lemma sku_key_fields d k :
  Merge.fresh_sku_key normalize_sku d = Some k →
  ∃ s h, rget d "sku" = Some s ∧ Py.truthy s = true ∧ rget d "hex" = Some h
         ∧ k = normalize_sku s ∧ d ≠ ∅.
Proof.
  unfold Merge.fresh_sku_key.
  destruct (rget d "sku") as [s|] eqn:Es; [|done].
  destruct (rget d "hex") as [h|] eqn:Eh; [|by rewrite andb_false_r].
  simpl. destruct (Py.truthy s) eqn:Ets; [|done].
  destruct (Py.truthy h); [|done]. intros [= <-].
  exists s, h. repeat split; try done.
  intros ->. unfold rget in Es. by rewrite lookup_empty in Es.
Qed.

(** An entry whose colour already is the one of the record it matches by
    SKU is left alone. *)
Lemma apply_match_settled (p : dict) d :
  differs (get p "hex") (rget d "hex") = false →
  Merge.apply_match p d true = (p, false, false).
Proof. intros H. unfold Merge.apply_match. by rewrite H. Qed.

Lemma merge_paint_by_sku (p : dict) s d :
  get_or p "sku" (VStr EmptyString) = VStr s → Py.truthy s = true →
  lk.1 !! normalize_sku s = Some d → d ≠ ∅ →
  merge_paint p = Some (Merge.apply_match p d true, []).
Proof.
  intros Hs Ht Hd Hne. unfold Merge.merge_paint, Merge.find_match.
  rewrite Hs, on_str_truthy by done. rewrite Hd.
  by rewrite bool_decide_false.
Qed.

(** One entry: a second pass changes nothing and counts nothing. *)
Lemma merge_paint_rerun (p p' : dict) c sc nf :
  merge_paint p = Some (p', c, sc, nf) →
  merge_paint p' = Some (p', false, false, nf).
Proof.
  unfold Merge.merge_paint at 1.
  destruct (on_str normalize_sku (get_or p "sku" (VStr EmptyString)))
    as [sku|] eqn:Hsku; [|done].
  unfold Merge.find_match.
  destruct (lk.1 !! sku) as [d|] eqn:Hd.
  - (* matched by SKU *)
    case_bool_decide as Hempty.
    { intros [= <- <- <- <-]. unfold Merge.merge_paint, Merge.find_match.
      by rewrite Hsku, Hd, bool_decide_true. }
    unfold Merge.apply_match.
    destruct (differs (get p "hex") (rget d "hex")) eqn:Hdiff.
    + intros [= <- <- <- <-]. unfold Merge.merge_paint, Merge.find_match.
      rewrite get_or_insert_ne, Hsku, Hd, bool_decide_false by done.
      rewrite apply_match_settled; [done|].
      by rewrite get_insert_eq, differs_of_opt.
    + intros [= <- <- <- <-]. unfold Merge.merge_paint, Merge.find_match.
      rewrite Hsku, Hd, bool_decide_false by done.
      by rewrite apply_match_settled.
  - (* not matched by SKU *)
    destruct (on_str normalize_name (get_or p "name" (VStr EmptyString)))
      as [nn|] eqn:Hnn; [|done].
    destruct (Py.truthy nn) eqn:Htn;
      [destruct (lk.2 !! nn) as [d|] eqn:Hn|];
      try (intros [= <- <- <- <-]; unfold Merge.merge_paint, Merge.find_match;
           by rewrite Hsku, Hd, Hnn, Htn, ?Hn).
    (* matched by name *)
    destruct (agree _ _ Hn) as (d2&Hlk&Hhex).
    apply name_lookup_Some in Hn.
    apply first_record_elem_of in Hn as (d'&Hin&Hnk&Heq). subst d'.
    destruct (name_key_sku_key normalize_sku normalize_name _ _ Hnk) as [k Hk].
    destruct (sku_key_fields _ _ Hk) as (s&h&Es&Ets&Eh&->&Hne).
    rewrite Es in Hlk. cbn [ostr default from_option id] in Hlk.
    rewrite Eh in Hhex.
    assert (d2 ≠ ∅) as Hne2.
    { intros ->. unfold rget in Hhex. by rewrite lookup_empty in Hhex. }
    rewrite (bool_decide_false _ Hne).
    unfold Merge.apply_match. rewrite Eh.
    set (p1 := if differs (get p "hex") (Some h)
               then <["hex" := of_opt (Some h)]> p else p).
    assert (get_or p1 "sku" (VStr EmptyString) = get_or p "sku" (VStr EmptyString)) as Hp1.
    { unfold p1. destruct (differs _ _); [|done]. by rewrite get_or_insert_ne. }
    assert (differs (get p1 "hex") (Some h) = false) as Hh1.
    { unfold p1. destruct (differs (get p "hex") (Some h)) eqn:E; [|done].
      rewrite get_insert_eq. apply (differs_of_opt (Some h)). }
    unfold rget_or. unfold rget in Es. destruct (d !! "sku") as [o|] eqn:Eo; [|done].
    simpl in Es. subst o. cbn [default from_option id].
    assert (differs (get_or p1 "sku" (VStr EmptyString)) (Some s) = true) as Hds.
    { destruct (differs (get_or p1 "sku" (VStr EmptyString)) (Some s)) eqn:E;
        [done|]. apply differs_false_str in E.
      rewrite Hp1 in E. rewrite E, on_str_truthy in Hsku by done.
      injection Hsku as <-. congruence. }
    rewrite Hds. cbn [andb otruthy]. rewrite Ets.
    intros [= <- <- <- <-].
    set (p2 := <["sku" := of_opt (Some s)]> p1).
    assert (∀ p3, (p3 = p2 ∨ ∃ u, p3 = <["url" := u]> p2) →
                  merge_paint p3 = Some (p3, false, false, [])) as Hfin.
    { intros p3 Hp3. erewrite (merge_paint_by_sku p3 s d2); [|..|done|done|done].
      - rewrite apply_match_settled; [done|]. rewrite Hhex.
        destruct Hp3 as [->|[u ->]]; unfold p2;
          rewrite ?(get_insert_ne _ "url" "hex"), (get_insert_ne _ "sku" "hex");
          done.
      - destruct Hp3 as [->|[u ->]]; unfold p2;
          rewrite ?(get_or_insert_ne _ "url" "sku") by done;
          by rewrite get_or_insert_eq. }
    destruct (otruthy (rget d "product_url")); apply Hfin; eauto.
Qed.

Lemma merge_paints_rerun (ps ps' : list dict) u s nf :
  merge_paints ps = Some (ps', u, s, nf) →
  merge_paints ps' = Some (ps', 0%nat, 0%nat, nf).
Proof.
  revert ps' u s nf. induction ps as [|p ps IH]; intros ps' u s nf; simpl.
  - by intros [= <- <- <- <-].
  - destruct (merge_paint p) as [[[[p' c] sc] nf1]|] eqn:Hp; [|done].
    destruct (merge_paints ps) as [[[[rest' u'] s'] nf2]|] eqn:Hps; [|done].
    intros [= <- <- <- <-]. simpl.
    by rewrite (merge_paint_rerun _ _ _ _ _ Hp), (IH _ _ _ _ eq_refl).
Qed.

(** One file: after a first pass, a second pass leaves the file as it is
    and reports no update and no SKU change. *)
Lemma merge_file_rerun f :
  (merge_file (merge_file f).1).1 = (merge_file f).1 ∧
  Merge.report_updated (merge_file (merge_file f).1).2 = 0%nat ∧
  Merge.report_sku_changes (merge_file (merge_file f).1).2 = 0%nat.
Proof.
  destruct (merge_file f) as [f1 r1] eqn:E1. cbn [fst].
  unfold Merge.merge_file in E1.
  destruct (paint_list f) as [ps|] eqn:Hf.
  - destruct (merge_paints ps) as [[[[ps' u] s] nf]|] eqn:Hps;
      injection E1 as <- <-.
    + unfold Merge.merge_file.
      assert (paint_list (with_paints f ps') = Some ps') as ->
        by (destruct f; done).
      rewrite (merge_paints_rerun _ _ _ _ _ Hps). cbn [fst snd].
      by destruct f.
    + unfold Merge.merge_file. by rewrite Hf, Hps.
  - injection E1 as <- <-. unfold Merge.merge_file. by rewrite Hf.
Qed.

Lemma sum_list_zero (l : list nat) : Forall (λ n, n = 0%nat) l → sum_list l = 0%nat.
Proof. induction 1 as [|n l -> _ IH]; simpl; [done|]. by rewrite IH. Qed.

(** The directory: after a first run, a second run with the same fresh
    records leaves every file as it is and reports zero updates and zero
    SKU changes. *)
Lemma batch_rerun directory :
  let first := Merge.batch_update_json_files normalize_sku normalize_name
                 directory scraped_data in
  let second := Merge.batch_update_json_files normalize_sku normalize_name
                  first.1.*1 scraped_data in
  second.1.*1 = first.1.*1 ∧ second.2 = (0%nat, 0%nat).
Proof.
  unfold Merge.batch_update_json_files. cbn [fst snd].
  rewrite <- !list_fmap_compose. split.
  - apply list_fmap_ext. intros i f _. simpl. apply merge_file_rerun.
  - f_equal; apply sum_list_zero, Forall_fmap, Forall_forall; intros f _;
      simpl; apply merge_file_rerun.
Qed.
End rerun.

Lemma AK_update_paints_rerun lk (ps ps' : list dict) n :
  AK.update_paints lk ps = Some (ps', n) → AK.update_paints lk ps' = Some (ps', n).
Proof.
  revert ps' n. induction ps as [|p ps IH]; intros ps' n; simpl.
  - by intros [= <- <-].
  - destruct (on_str AK.normalize_sku (get_or p "sku" (VStr EmptyString)))
      as [sku|] eqn:Hsku; [|done].
    destruct (AK.update_paints lk ps) as [[rest' u]|] eqn:Hps;
      [|by destruct (lk !! sku)].
    specialize (IH _ _ eq_refl).
    destruct (lk !! sku) as [h|] eqn:Hh; intros [= <- <-]; simpl.
    + by rewrite get_or_insert_ne, Hsku, Hh, IH, insert_insert_eq.
    + by rewrite Hsku, Hh, IH.
Qed.

Lemma agreeing_hex_lookups_agree normalize_sku normalize_name scraped_data :
  Merge.agreeing_hex normalize_sku scraped_data →
  Merge.lookups_agree normalize_sku
    (Merge.build_lookups normalize_sku normalize_name scraped_data).
Proof.
  intros Hagree n d Hn. apply name_lookup_Some in Hn.
  apply first_record_elem_of in Hn as (d'&Hin&Hnk&Heq). subst d'.
  destruct (name_key_sku_key normalize_sku normalize_name _ _ Hnk) as [k Hk].
  destruct (sku_key_fields normalize_sku _ _ Hk) as (s&h&Es&Ets&Eh&->&Hne).
  destruct (sku_lookup_is_Some normalize_sku normalize_name _ _ _ Hin Hk) as [d2 Hd2].
  exists d2. rewrite Es. split; [done|].
  apply sku_lookup_Some in Hd2 as [Hin2 Hk2]. by eapply Hagree.
Qed.

Lemma distinct_skus_agreeing_hex normalize_sku scraped_data :
  Merge.distinct_skus normalize_sku scraped_data →
  Merge.agreeing_hex normalize_sku scraped_data.
Proof.
  intros Hd x y k Hx Hy Hkx Hky.
  pose proof (sku_lookup_distinct normalize_sku (λ s, s) _ _ _ Hd Hx Hkx) as Ex.
  pose proof (sku_lookup_distinct normalize_sku (λ s, s) _ _ _ Hd Hy Hky) as Ey.
  congruence.
Qed.

(** The count of the single-file merge: one for each entry whose
    normalised SKU is in the lookup. *)
Lemma AK_update_paints_count lk (ps ps' : list dict) n :
  AK.update_paints lk ps = Some (ps', n) →
  n = length (filter (λ p, sku_in_lookup AK.normalize_sku lk p = true) ps).
Proof.
  revert ps' n. induction ps as [|p ps IH]; intros ps' n; simpl.
  - by intros [= <- <-].
  - destruct (on_str AK.normalize_sku (get_or p "sku" (VStr EmptyString)))
      as [sku|] eqn:Hsku; [|done].
    destruct (AK.update_paints lk ps) as [[rest' u]|] eqn:Hps;
      [|by destruct (lk !! sku)].
    specialize (IH _ _ eq_refl).
    destruct (lk !! sku) as [h|] eqn:Hh; intros [= <- <-].
    + rewrite filter_cons_True; [simpl; by rewrite <- IH|].
      unfold sku_in_lookup. rewrite Hsku, Hh. by apply bool_decide_eq_true.
    + rewrite filter_cons_False; [done|].
      unfold sku_in_lookup. rewrite Hsku, Hh. intros H%bool_decide_eq_true.
      by destruct H.
Qed.

(** C1, as the code has it.  Single-file merge: when a first run returns, a
    second run with the same fresh records returns the same catalogue and
    prints the same count as the first, and that count is the number of
    entries whose normalised SKU is in the lookup, not the number of
    changes.  Batch merge: when the record that the name lookup keeps under
    a name and the record that the SKU lookup keeps under the SKU of that
    record carry the same colour, a second run leaves every file of the
    directory as the first run left it and reports zero updates and zero
    SKU changes.  Both hold for the flat and for the wrapped shape of a
    catalogue file. *)
Theorem merge_rerun :
  (∀ existing scraped_data after count,
     AK.update_existing_json existing scraped_data = Some (after, count) →
     AK.update_existing_json after scraped_data = Some (after, count)
     ∧ ∀ paints, paint_list existing = Some paints →
         count = Some (length (filter (λ p, sku_in_lookup AK.normalize_sku
                                              (AK.sku_to_hex scraped_data) p = true)
                                 paints))) ∧
  (∀ directory scraped_data,
     Merge.lookups_agree AK.normalize_sku
       (Merge.build_lookups AK.normalize_sku AK.normalize_name scraped_data) →
     let first := AK.batch_update_json_files directory scraped_data in
     let second := AK.batch_update_json_files first.1.*1 scraped_data in
     second.1.*1 = first.1.*1 ∧ second.2 = (0%nat, 0%nat)).
Proof.
  split.
  - intros existing scraped_data after count. unfold AK.update_existing_json.
    destruct (paint_list existing) as [ps|] eqn:Hf.
    + destruct (AK.update_paints _ ps) as [[ps' u]|] eqn:Hps; [|done].
      intros [= <- <-]. split.
      * assert (paint_list (with_paints existing ps') = Some ps') as ->
          by (destruct existing; done).
        rewrite (AK_update_paints_rerun _ _ _ _ Hps). by destruct existing.
      * intros paints [= <-]. f_equal. by eapply AK_update_paints_count.
    + intros [= <- <-]. by rewrite Hf.
  - intros directory scraped_data Hd. by apply batch_rerun.
Qed.

(** The witness of the batch part has two fresh records of the same
    normalised SKU, a listing of the paint in two ranges, with one colour. *)
Lemma merge_rerun_witness :
  (AK.update_existing_json
     (Wrapper {["range" := VStr "3rd Generation"]}
        [<["hex" := VStr "#112233"]> Sample.ak123_entry])
     [Sample.ak123_fresh]
   = Some (Wrapper {["range" := VStr "3rd Generation"]}
             [<["hex" := VStr "#112233"]> Sample.ak123_entry], Some 1%nat)
   ∧ ∀ paints,
       paint_list (Wrapper {["range" := VStr "3rd Generation"]} [Sample.ak123_entry])
       = Some paints →
       Some 1%nat
       = Some (length (filter (λ p, sku_in_lookup AK.normalize_sku
                                      (AK.sku_to_hex [Sample.ak123_fresh]) p = true)
                         paints)))
  ∧ (let first := AK.batch_update_json_files
                    [FlatList [Sample.old_entry; Sample.ak123_entry]]
                    [Sample.renumbered; Sample.ak123_fresh; Sample.renumbered_figures] in
     let second := AK.batch_update_json_files first.1.*1
                     [Sample.renumbered; Sample.ak123_fresh; Sample.renumbered_figures] in
     second.1.*1 = first.1.*1 ∧ second.2 = (0%nat, 0%nat)).
Proof.
  split.
  - apply (proj1 merge_rerun
             (Wrapper {["range" := VStr "3rd Generation"]} [Sample.ak123_entry])).
    vm_compute. reflexivity.
  - apply (proj2 merge_rerun). apply agreeing_hex_lookups_agree.
    intros x y k Hx Hy Hkx Hky.
    repeat (apply elem_of_cons in Hx as [->|Hx]); [..|by apply elem_of_nil in Hx];
      repeat (apply elem_of_cons in Hy as [->|Hy]); try (by apply elem_of_nil in Hy);
      vm_compute in Hkx, Hky |- *; congruence.
Defined.

(** C1 fails on the count of the single-file merge: the second run over an
    entry whose colour the first run has set reports one update again. *)
Lemma merge_rerun_counterexample :
  let after := FlatList [<["hex" := VStr "#112233"]> Sample.ak123_entry] in
  AK.update_existing_json (FlatList [Sample.ak123_entry]) [Sample.ak123_fresh]
  = Some (after, Some 1%nat)
  ∧ AK.update_existing_json after [Sample.ak123_fresh] = Some (after, Some 1%nat)
  ∧ AK.update_existing_json after [Sample.ak123_fresh] ≠ Some (after, Some 0%nat).
Proof.
  cbv zeta.
  assert (AK.update_existing_json
            (FlatList [<["hex" := VStr "#112233"]> Sample.ak123_entry])
            [Sample.ak123_fresh]
          = Some (FlatList [<["hex" := VStr "#112233"]> Sample.ak123_entry], Some 1%nat))
    as E by (vm_compute; reflexivity).
  split; [vm_compute; reflexivity|]. split; [exact E|].
  rewrite E. intros [=].
Qed.

(** When two fresh records share a SKU the two lookups can point at
    different records, and the batch merge does not settle in one run: the
    entry renumbered to AK1 through the name Red takes the colour of the
    other record of AK1 in the second run. *)
Example batch_rerun_shared_sku :
  let first := AK.batch_update_json_files [FlatList [Sample.red_entry]]
                 [Sample.red_ak1; Sample.blue_ak1] in
  let second := AK.batch_update_json_files first.1.*1
                  [Sample.red_ak1; Sample.blue_ak1] in
  first.1.*1 = [FlatList [<["hex" := VStr "#111111"]> (<["sku" := VStr "AK1"]> Sample.red_entry)]]
  ∧ second.1.*1 = [FlatList [<["hex" := VStr "#222222"]> (<["sku" := VStr "AK1"]> Sample.red_entry)]]
  ∧ second.2 = (1%nat, 0%nat).
Proof. vm_compute. done. Qed.

(** ** SKU renumbering *)

(** C2, as the code has it (the batch merge of AK Interactive and of Vallejo
    is [Merge.merge_paint] at their normalisers).  Take an entry whose
    normalised SKU is under no fresh record that carries a SKU and a colour,
    and whose normalised name is the one of such a record [d], the first
    with that name.  Then the SKU of [d] differs from the SKU of the entry, and
    the merge sets the colour of the entry to the one of [d], rewrites its
    [sku] to the SKU of [d], sets its [url] to the product URL of [d] when
    [d] has a non-empty one and leaves it alone otherwise, changes no other
    key, and counts one update and one SKU change. *)
Theorem batch_merge_renumbered (normalize_sku normalize_name : string → string)
    (scraped_data : list record) (paint : dict) (d : record) (sku norm_name : string) :
  on_str normalize_sku (get_or paint "sku" (VStr EmptyString)) = Some sku →
  Forall (λ x, Merge.fresh_sku_key normalize_sku x ≠ Some sku) scraped_data →
  on_str normalize_name (get_or paint "name" (VStr EmptyString)) = Some norm_name →
  first_record (Merge.fresh_name_key normalize_name) scraped_data norm_name (λ x, x = d) →
  ∃ paint' new_sku new_hex,
    Merge.merge_paint normalize_sku normalize_name
      (Merge.build_lookups normalize_sku normalize_name scraped_data) paint
    = Some (paint', true, true, [])
    ∧ rget d "sku" = Some new_sku ∧ rget d "hex" = Some new_hex
    ∧ get_or paint "sku" (VStr EmptyString) ≠ VStr new_sku
    ∧ paint' !! "sku" = Some (VStr new_sku)
    ∧ paint' !! "hex" = Some (VStr new_hex)
    ∧ paint' !! "url"
      = (if otruthy (rget d "product_url")
         then Some (of_opt (rget d "product_url")) else paint !! "url")
    ∧ ∀ k, k ≠ "sku" → k ≠ "hex" → k ≠ "url" → paint' !! k = paint !! k.
Proof.
  intros Hsku Habsent Hnn Hfirst.
  apply sku_lookup_None with (normalize_name := normalize_name) in Habsent.
  pose proof Hfirst as Hname. apply name_lookup_Some with (normalize_sku := normalize_sku) in Hname.
  apply first_record_elem_of in Hfirst as (d'&Hin&Hnk&Heq). subst d'.
  destruct (name_key_sku_key normalize_sku normalize_name _ _ Hnk) as [k Hk].
  destruct (sku_key_fields normalize_sku _ _ Hk) as (s&h&Es&Ets&Eh&->&Hne).
  assert (Py.truthy norm_name = true) as Htn.
  { unfold Merge.fresh_name_key in Hnk.
    destruct (otruthy (rget d "sku") && otruthy (rget d "hex")
              && otruthy (rget_or d "title" (Some EmptyString))); [|done].
    cbn [andb] in Hnk.
    destruct (Py.truthy (normalize_name (ostr (rget_or d "title" (Some EmptyString)))))
      eqn:E; [|done].
    by injection Hnk as <-. }
  assert (get_or paint "sku" (VStr EmptyString) ≠ VStr s) as Hds.
  { intros E. rewrite E, on_str_truthy in Hsku by done. injection Hsku as <-.
    destruct (sku_lookup_is_Some normalize_sku normalize_name _ _ _ Hin Hk) as [? ?].
    congruence. }
  unfold Merge.merge_paint, Merge.find_match.
  rewrite Hsku, Habsent, Hnn, Htn, Hname, (bool_decide_false _ Hne).
  unfold Merge.apply_match. rewrite Eh.
  set (p1 := if differs (get paint "hex") (Some h)
             then <["hex" := of_opt (Some h)]> paint else paint).
  assert (p1 !! "hex" = Some (VStr h) ∧ ∀ k, k ≠ "hex" → p1 !! k = paint !! k)
    as [Hp1h Hp1].
  { unfold p1. destruct (differs (get paint "hex") (Some h)) eqn:E.
    - split; [by rewrite lookup_insert_eq|]. intros k ?. by rewrite lookup_insert_ne.
    - split; [|done]. apply differs_false_str in E. unfold get in E.
      by destruct (paint !! "hex") as [?|]; simplify_eq/=. }
  assert (rget_or d "sku" (Some EmptyString) = Some s) as ->.
  { unfold rget_or. unfold rget in Es. by destruct (d !! "sku"); simplify_eq/=. }
  assert (differs (get_or p1 "sku" (VStr EmptyString)) (Some s) = true) as ->.
  { destruct (differs (get_or p1 "sku" (VStr EmptyString)) (Some s)) eqn:E; [done|].
    apply differs_false_str in E. unfold get_or in E, Hds.
    rewrite Hp1 in E by done. by destruct Hds. }
  cbn [andb otruthy]. rewrite Ets.
  eexists _, s, h. split; [reflexivity|]. split; [done|]. split; [done|].
  split; [done|].
  destruct (otruthy (rget d "product_url")).
  - rewrite lookup_insert_eq, !(lookup_insert_ne _ "url") by done.
    rewrite lookup_insert_eq, (lookup_insert_ne _ "sku") by done.
    repeat split; try done.
    intros k ???. rewrite !lookup_insert_ne by done. by apply Hp1.
  - rewrite lookup_insert_eq, !(lookup_insert_ne _ "sku") by done.
    rewrite (Hp1 "url") by done. repeat split; try done.
    intros k ???. rewrite !lookup_insert_ne by done. by apply Hp1.
Qed.

Lemma batch_merge_renumbered_witness :
  ∃ paint',
    Merge.merge_paint AK.normalize_sku AK.normalize_name
      (Merge.build_lookups AK.normalize_sku AK.normalize_name [Sample.renumbered])
      Sample.old_entry
    = Some (paint', true, true, [])
    ∧ paint' !! "sku" = Some (VStr "09703")
    ∧ paint' !! "hex" = Some (VStr "#112233")
    ∧ paint' !! "url" = Some (VStr "https://example.com/new").
Proof.
  destruct (batch_merge_renumbered AK.normalize_sku AK.normalize_name
              [Sample.renumbered] Sample.old_entry Sample.renumbered
              "09701" "old name")
    as (paint'&new_sku&new_hex&Hm&Hs&Hh&_&Hsku&Hhex&Hurl&_).
  - reflexivity.
  - constructor; [|constructor]. vm_compute. intros [=].
  - reflexivity.
  - exists [], Sample.renumbered, []. split; [reflexivity|].
    split; [reflexivity|]. split; [constructor|reflexivity].
  - exists paint'. split; [exact Hm|].
    assert (new_sku = "09703") as -> by (vm_compute in Hs; congruence).
    assert (new_hex = "#112233") as -> by (vm_compute in Hh; congruence).
    split; [exact Hsku|]. split; [exact Hhex|exact Hurl].
Defined.

(** The renumbering scenario through the whole batch merge of both brands:
    one file, one entry, one update and one SKU change. *)
Example batch_merge_renumbered_scenario :
  let after := <["url" := VStr "https://example.com/new"]>
                 (<["sku" := VStr "09703"]>
                    (<["hex" := VStr "#112233"]> Sample.old_entry)) in
  AK.batch_update_json_files [FlatList [Sample.old_entry]] [Sample.renumbered]
  = ([(FlatList [after], Merged 1 1 [])], (1%nat, 1%nat))
  ∧ Vallejo.batch_update_json_files [Wrapper ∅ [Sample.old_entry]] [Sample.renumbered]
    = ([(Wrapper ∅ [after], Merged 1 1 [])], (1%nat, 1%nat)).
Proof. vm_compute. done. Qed.

(** C2 fails on the URL: a fresh record scraped without a product link
    renumbers the entry, and the entry keeps the URL it had. *)
Lemma batch_merge_renumbered_counterexample :
  let after := <["sku" := VStr "09703"]>
                 (<["hex" := VStr "#112233"]> Sample.old_entry) in
  AK.batch_update_json_files [FlatList [Sample.old_entry]] [Sample.renumbered_no_url]
  = ([(FlatList [after], Merged 1 1 [])], (1%nat, 1%nat))
  ∧ Vallejo.batch_update_json_files [FlatList [Sample.old_entry]] [Sample.renumbered_no_url]
    = ([(FlatList [after], Merged 1 1 [])], (1%nat, 1%nat))
  ∧ after !! "url" = Sample.old_entry !! "url"
  ∧ after !! "url" = Some (VStr "https://example.com/old").
Proof. vm_compute. done. Qed.

(** The hex-update scenario: the SKUs agree after normalisation. *)
Example batch_merge_hex_scenario :
  AK.batch_update_json_files [FlatList [Sample.ak123_entry]] [Sample.ak123_fresh]
  = ([(FlatList [<["hex" := VStr "#112233"]> Sample.ak123_entry], Merged 1 0 [])],
     (1%nat, 0%nat)).
Proof. vm_compute. done. Qed.


(** ** Paint types *)

(** The AK Interactive chain in its order: a keyword of the name decides
    before the type of the range does. *)
Lemma AK_get_paint_type_chain (paint : record) (range_type : string) :
  let title := rget paint "title" in
  let name := Py.lower (if otruthy title then ostr title else EmptyString) in
  (Py.contains "varnish" name = true → AK.get_paint_type paint range_type = "varnish") ∧
  (Py.contains "varnish" name = false → Py.contains "thinner" name = true →
   AK.get_paint_type paint range_type = "thinner") ∧
  (Py.contains "varnish" name = false → Py.contains "thinner" name = false →
   Py.contains "primer" name = true →
   AK.get_paint_type paint range_type = "primer") ∧
  (Py.contains "varnish" name = false → Py.contains "thinner" name = false →
   Py.contains "primer" name = false → AK.medium_search None name = true →
   AK.get_paint_type paint range_type = "technical") ∧
  (Py.contains "varnish" name = false → Py.contains "thinner" name = false →
   Py.contains "primer" name = false → AK.medium_search None name = false →
   AK.get_paint_type paint range_type
   = if Py.contains "metallic" name || Py.contains "metal" name
     then "metallic" else range_type).
Proof.
  cbv zeta. unfold AK.get_paint_type.
  repeat split; intros; repeat match goal with H : _ = _ |- _ => rewrite H end; done.
Qed.

(** The word Medium at the head of a colour name is no standalone medium for
    AK Interactive, whatever follows it but one of the three words of the
    pattern; at the end of the name it is one. *)
Example AK_get_paint_type_medium :
  AK.get_paint_type Sample.medium_blue "opaque" = "opaque"
  ∧ AK.get_paint_type Sample.glaze_medium "opaque" = "technical"
  ∧ AK.get_paint_type Sample.medium_for_washes "opaque" = "technical".
Proof. repeat split; reflexivity. Qed.

(** C6 at its failing input: the Vallejo chain looks for the keyword medium
    anywhere in the name, so the colour Medium Blue of an opaque range comes
    out as technical (and the Citadel chain, which looks for it the same way,
    makes it a thinner), where the AK Interactive chain returns the type of
    the range. *)
Theorem get_paint_type_medium_blue :
  Vallejo.get_paint_type Sample.medium_blue "opaque" = Some "technical"
  ∧ Citadel.get_paint_type "Medium Blue" "Layer" None = "thinner"
  ∧ AK.get_paint_type Sample.medium_blue "opaque" = "opaque".
Proof. repeat split; reflexivity. Qed.


(** ** The colour sampler *)

Lemma clamp_in_range v size :
  0 < size → 0 ≤ Z.max 0 (Z.min v (size - 1)) < size.
Proof. lia. Qed.

Lemma getpixel_clamped (img : image) x y :
  0 < width img → 0 < height img →
  getpixel img (Z.max 0 (Z.min x (width img - 1))) (Z.max 0 (Z.min y (height img - 1)))
  = Some (pixel img (Z.max 0 (Z.min x (width img - 1)))
                    (Z.max 0 (Z.min y (height img - 1)))).
Proof.
  intros Hw Hh. unfold getpixel.
  pose proof (clamp_in_range x _ Hw). pose proof (clamp_in_range y _ Hh).
  repeat (rewrite (proj2 (Z.leb_le _ _)) by lia).
  repeat (rewrite (proj2 (Z.ltb_lt _ _)) by lia). done.
Qed.

(** In an image that is not empty the neighbourhood of any point is read
    without exception: thirty-six pixels of the image. *)
Lemma neighbourhood_Some (img : image) x y :
  0 < width img → 0 < height img →
  ∃ colors, Sampler.neighbourhood img x y = Some colors
            ∧ length colors = 36%nat
            ∧ Forall (λ c, ∃ px py, 0 ≤ px < width img ∧ 0 ≤ py < height img
                                    ∧ c = pixel img px py) colors.
Proof.
  intros Hw Hh. unfold Sampler.neighbourhood.
  set (ds := dx ← Sampler.offsets; dy ← Sampler.offsets; [(dx, dy)]).
  exists ((λ d : Z * Z, pixel img (Z.max 0 (Z.min (x + d.1) (width img - 1)))
                               (Z.max 0 (Z.min (y + d.2) (height img - 1)))) <$> ds).
  split; [|split].
  - apply mapM_Some. apply Forall2_fmap_r, Forall_Forall2_diag, Forall_forall.
    intros d _. by apply getpixel_clamped.
  - by rewrite length_fmap.
  - apply Forall_fmap, Forall_forall. intros d _. simpl.
    eexists _, _. split; [|split; [|done]]; by apply clamp_in_range.
Qed.

Lemma sum_bounds (lo hi : Z) (l : list Z) :
  Forall (λ v, lo ≤ v ≤ hi) l →
  lo * Z.of_nat (length l) ≤ foldr Z.add 0 l ≤ hi * Z.of_nat (length l).
Proof.
  induction 1 as [|v l Hv _ IH]; simpl; [lia|].
  rewrite Nat2Z.inj_succ. lia.
Qed.

Lemma mean_bounds (lo hi : Z) (l : list Z) :
  l ≠ [] → Forall (λ v, lo ≤ v ≤ hi) l →
  lo ≤ foldr Z.add 0 l / Z.of_nat (length l) ≤ hi.
Proof.
  intros Hne Hall. pose proof (sum_bounds _ _ _ Hall) as [H1 H2].
  assert (0 < Z.of_nat (length l)) by (destruct l; [done|simpl; lia]).
  split.
  - apply Z.div_le_lower_bound; lia.
  - apply Z.div_le_upper_bound; lia.
Qed.

(** The mean of colours whose channels lie between [lo] and [hi] has its
    channels between [lo] and [hi]. *)
Lemma mean_color_within lo hi (colors : list (Z * Z * Z)) :
  colors ≠ [] → Forall (Sampler.channels_within lo hi) colors →
  Sampler.channels_within lo hi (Sampler.mean_color colors).
Proof.
  intros Hne Hall. unfold Sampler.mean_color, Sampler.channels_within. cbn [fst snd].
  split; [|split].
  all: match goal with
       | |- context [foldr Z.add 0 (?f <$> ?l)] =>
           rewrite <- (length_fmap f l);
           apply mean_bounds;
           [by destruct l
           |apply Forall_fmap; eapply Forall_impl; [exact Hall|];
            intros c (?&?&?); simpl; lia]
       end.
Qed.

Lemma gated_near_white (c : Z * Z * Z) :
  Sampler.channels_within 246 255 c → Sampler.gated c = true.
Proof.
  destruct c as [[r g] b]. intros (?&?&?). simpl in *.
  unfold Sampler.gated, Sampler.brightness.
  destruct (Qle_bool (inject_Z (r + g + b) / 3) 245) eqn:E; [|done].
  apply Qle_bool_iff in E. unfold Qle in E. simpl in E. lia.
Qed.

Lemma format_02X_byte n :
  0 ≤ n ≤ 255 →
  String.length (format_02X n) = 2%nat
  ∧ Py.sforall Py.is_hexdigit (format_02X n) = true.
Proof.
  intros Hn.
  assert (forallb (λ n, (String.length (format_02X n) =? 2)%nat
                        && Py.sforall Py.is_hexdigit (format_02X n))
                  (seqZ 0 256) = true) as H by (by vm_compute).
  rewrite forallb_forall in H.
  assert (n ∈ seqZ 0 256) as Hin by (apply elem_of_seqZ; lia).
  apply list_elem_of_In, H, andb_true_iff in Hin as [H1 H2].
  by apply Nat.eqb_eq in H1.
Qed.

Lemma string_length_app (a b : string) :
  String.length (a +:+ b) = (String.length a + String.length b)%nat.
Proof.
  induction a as [|c a IH]; [done|].
  change (String c a +:+ b) with (String c (a +:+ b)). simpl. by rewrite IH.
Qed.

(** The colour of a pixel is written as a [#] and six hexadecimal digits. *)
Lemma hex_color_shape (c : Z * Z * Z) :
  Sampler.channels_within 0 255 c → is_hex_color (hex_color c) = true.
Proof.
  destruct c as [[r g] b]. intros (Hr&Hg&Hb). simpl in *.
  destruct (format_02X_byte r Hr) as [Lr Xr].
  destruct (format_02X_byte g Hg) as [Lg Xg].
  destruct (format_02X_byte b Hb) as [Lb Xb].
  unfold is_hex_color, hex_color.
  by rewrite !string_length_app, !sforall_app, Lr, Lg, Lb, Xr, Xg, Xb.
Qed.

Section sampling.
Variables (weight bonus : Q) (img : image).
Hypothesis width_pos : 0 < width img.
Hypothesis height_pos : 0 < height img.

Lemma region_step_Some st xy :
  ∃ colors, Sampler.neighbourhood img xy.1 xy.2 = Some colors
    ∧ colors ≠ []
    ∧ Forall (λ c, ∃ px py, 0 ≤ px < width img ∧ 0 ≤ py < height img
                            ∧ c = pixel img px py) colors
    ∧ ∃ st', Sampler.region_step weight bonus img st xy = Some st'
             ∧ (st' = st ∨ (Sampler.gated (Sampler.mean_color colors) = false
                            ∧ st'.1 = Some (Sampler.mean_color colors))).
Proof.
  destruct (neighbourhood_Some img xy.1 xy.2 width_pos height_pos)
    as (colors&Hn&Hlen&Hall).
  exists colors. split; [done|]. split; [by destruct colors|]. split; [done|].
  unfold Sampler.region_step. rewrite Hn.
  destruct (Sampler.gated (Sampler.mean_color colors)) eqn:Hg; [by eauto|].
  destruct (negb _); eauto.
Qed.

(** With valid pixels the loop ends without exception, and its best colour,
    if it has one, has channels in the range of a byte. *)
Lemma region_loop_valid regions st :
  Sampler.valid_pixels img →
  from_option (Sampler.channels_within 0 255) True st.1 →
  ∃ st', Sampler.region_loop weight bonus img st regions = Some st'
         ∧ from_option (Sampler.channels_within 0 255) True st'.1.
Proof.
  intros Hvalid. revert st. induction regions as [|xy regions IH]; intros st Hst.
  - by exists st.
  - simpl. destruct (region_step_Some st xy)
      as (colors&_&Hne&Hall&st'&->&Hst').
    apply IH. destruct Hst' as [->|[_ ->]]; [done|]. simpl.
    apply mean_color_within; [done|].
    eapply Forall_impl; [exact Hall|].
    intros c (px&py&?&?&->). by apply Hvalid.
Qed.

(** On a near-white image every candidate is gated and the loop ends with no
    best colour. *)
Lemma region_loop_near_white regions q :
  Sampler.near_white img →
  Sampler.region_loop weight bonus img (None, q) regions = Some (None, q).
Proof.
  intros Hwhite. induction regions as [|xy regions IH]; [done|].
  simpl. destruct (region_step_Some (None, q) xy)
    as (colors&_&Hne&Hall&st'&->&Hst').
  destruct Hst' as [->|[Hg _]]; [done|].
  rewrite gated_near_white in Hg; [done|].
  apply mean_color_within; [done|].
  eapply Forall_impl; [exact Hall|].
  intros c (px&py&?&?&->). by apply Hwhite.
Qed.

Lemma sample_valid regions fallback :
  Sampler.valid_pixels img →
  0 ≤ fallback.1 < width img → 0 ≤ fallback.2 < height img →
  ∃ hex, Sampler.sample weight bonus regions fallback img = Some hex
         ∧ is_hex_color hex = true.
Proof.
  intros Hvalid Hx Hy. unfold Sampler.sample.
  destruct (region_loop_valid regions (None, (-1)%Q) Hvalid I)
    as ([[c|] q]&->&Hc); simpl in Hc.
  - eexists. split; [done|]. by apply hex_color_shape.
  - unfold getpixel.
    repeat (rewrite (proj2 (Z.leb_le _ _)) by lia).
    repeat (rewrite (proj2 (Z.ltb_lt _ _)) by lia). simpl.
    eexists. split; [done|]. by apply hex_color_shape, Hvalid.
Qed.

Lemma sample_near_white regions fallback :
  Sampler.near_white img →
  0 ≤ fallback.1 < width img → 0 ≤ fallback.2 < height img →
  Sampler.sample weight bonus regions fallback img
  = Some (hex_color (pixel img fallback.1 fallback.2)).
Proof.
  intros Hwhite Hx Hy. unfold Sampler.sample.
  rewrite region_loop_near_white by done. unfold getpixel.
  repeat (rewrite (proj2 (Z.leb_le _ _)) by lia).
  repeat (rewrite (proj2 (Z.ltb_lt _ _)) by lia). done.
Qed.
End sampling.

Lemma AK_fallback_in_range w h :
  0 < w → 0 < h →
  0 ≤ (AK.fallback_position w h).1 < w ∧ 0 ≤ (AK.fallback_position w h).2 < h.
Proof.
  intros Hw Hh. unfold AK.fallback_position. cbn [fst snd].
  pose proof (Z.div_pos w 2). pose proof (Z.div_lt_upper_bound w 2 w).
  pose proof (Z.div_pos h 4). pose proof (Z.div_lt_upper_bound h 4 h). lia.
Qed.

Lemma Vallejo_fallback_in_range w h :
  0 < w → 0 < h →
  0 ≤ (Vallejo.fallback_position w h).1 < w
  ∧ 0 ≤ (Vallejo.fallback_position w h).2 < h.
Proof.
  intros Hw Hh. unfold Vallejo.fallback_position, Vallejo.frac. cbn [fst snd].
  pose proof (Z.div_pos (w * 12) 100). pose proof (Z.div_lt_upper_bound (w * 12) 100 w).
  pose proof (Z.div_pos (h * 50) 100). pose proof (Z.div_lt_upper_bound (h * 50) 100 h).
  lia.
Qed.

(** C4, as the code has it.  On a decoded image that is not empty and whose
    channels are bytes, the AK Interactive sampler (for every range) and the
    Vallejo sampler return a [#] and six hexadecimal digits, never [None];
    on an image all of whose pixels are near-white, so that every candidate
    is gated, they return the raw pixel at their fixed fallback position:
    [(width // 2, height // 4)] for AK Interactive and
    [(int(width * 0.12), int(height * 0.50))] for Vallejo. *)
Theorem sample_image_result (img : image) (range_hint : string) :
  0 < width img → 0 < height img → Sampler.valid_pixels img →
  (∃ hex, AK.sample_image img range_hint = Some hex ∧ is_hex_color hex = true) ∧
  (∃ hex, Vallejo.sample_image img = Some hex ∧ is_hex_color hex = true) ∧
  (Sampler.near_white img →
   AK.sample_image img range_hint
   = Some (hex_color (pixel img (width img / 2) (height img / 4)))
   ∧ Vallejo.sample_image img
     = Some (hex_color (pixel img (Vallejo.frac (width img) 12)
                                  (Vallejo.frac (height img) 50)))).
Proof.
  intros Hw Hh Hvalid.
  destruct (AK_fallback_in_range _ _ Hw Hh) as [Hax Hay].
  destruct (Vallejo_fallback_in_range _ _ Hw Hh) as [Hvx Hvy].
  split; [by apply sample_valid|]. split; [by apply sample_valid|].
  intros Hwhite. split.
  - unfold AK.sample_image. by rewrite sample_near_white.
  - unfold Vallejo.sample_image. by rewrite sample_near_white.
Qed.

Lemma pale_photo_near_white : Sampler.near_white Sample.pale_photo.
Proof.
  intros x y _ _. unfold Sampler.channels_within. simpl.
  destruct ((x =? 50) && (y =? 25)); simpl; lia.
Qed.

Lemma near_white_valid img : Sampler.near_white img → Sampler.valid_pixels img.
Proof.
  intros H x y Hx Hy. destruct (H x y Hx Hy) as (?&?&?).
  unfold Sampler.channels_within. lia.
Qed.

Lemma sample_image_result_witness :
  (∃ hex, AK.sample_image Sample.pale_photo "" = Some hex ∧ is_hex_color hex = true) ∧
  (∃ hex, Vallejo.sample_image Sample.pale_photo = Some hex ∧ is_hex_color hex = true) ∧
  AK.sample_image Sample.pale_photo ""
  = Some (hex_color (pixel Sample.pale_photo (100 / 2) (100 / 4))) ∧
  Vallejo.sample_image Sample.pale_photo
  = Some (hex_color (pixel Sample.pale_photo (Vallejo.frac 100 12)
                                             (Vallejo.frac 100 50))).
Proof.
  destruct (sample_image_result Sample.pale_photo "") as (Hak&Hv&Hwhite).
  - reflexivity.
  - reflexivity.
  - apply near_white_valid, pale_photo_near_white.
  - split; [exact Hak|]. split; [exact Hv|].
    apply Hwhite, pale_photo_near_white.
Defined.

(** A saturated image is sampled to its colour. *)
Example sample_image_red :
  AK.sample_image Sample.red_photo "" = Some "#C81E0A"
  ∧ AK.sample_image Sample.red_photo "acrylic-wash" = Some "#C81E0A"
  ∧ Vallejo.sample_image Sample.red_photo = Some "#C81E0A".
Proof. repeat split; reflexivity. Qed.

(** C4 fails on which pixel the fallback is: on a near-white photograph the
    AK Interactive sampler returns the pixel at [(width // 2, height // 4)],
    here [#FAFAFA], and not the raw value of the first anchor of the layout,
    [(width // 2, height // 5)], here [#FEFEFE]. *)
Lemma sample_image_result_counterexample :
  Sampler.near_white Sample.pale_photo
  ∧ head (AK.sample_regions "" (width Sample.pale_photo) (height Sample.pale_photo))
    = Some (50, 20)
  ∧ hex_color (pixel Sample.pale_photo 50 20) = "#FEFEFE"
  ∧ AK.sample_image Sample.pale_photo "" = Some "#FAFAFA"
  ∧ AK.sample_image Sample.pale_photo "" ≠ Some (hex_color (pixel Sample.pale_photo 50 20)).
Proof.
  split; [apply pale_photo_near_white|].
  assert (AK.sample_image Sample.pale_photo "" = Some "#FAFAFA") as E by reflexivity.
  repeat split; try reflexivity. rewrite E. intros [=].
Qed.


(** ** The scrape loops *)

(** The AK Interactive loop stops at a page without any product. *)
Lemma AK_scrape_loop_empty_page fetch_page fetch_image set_skus color_range
    sample_colors fuel page all_paints soup :
  fetch_page page = Some soup → AK.items soup = [] →
  AK.scrape_loop fetch_page fetch_image set_skus color_range sample_colors
    (S fuel) page all_paints = all_paints.
Proof. intros Hp Hi. simpl. by rewrite Hp, Hi. Qed.

(** It goes on to the next page after a page whose products are all filtered
    out, and adds nothing for that page. *)
Lemma AK_scrape_loop_filtered_page fetch_page fetch_image set_skus color_range
    sample_colors fuel page all_paints soup :
  fetch_page page = Some soup → AK.items soup ≠ [] →
  Forall (λ p, AK.is_paint_product set_skus p = false) (AK.items soup) →
  AK.has_next soup = true →
  AK.scrape_loop fetch_page fetch_image set_skus color_range sample_colors
    (S fuel) page all_paints
  = AK.scrape_loop fetch_page fetch_image set_skus color_range sample_colors
      fuel (S page) all_paints.
Proof.
  intros Hp Hi Hall Hn. simpl. rewrite Hp, Hn.
  destruct (AK.items soup) as [|x l] eqn:E; [done|]. simpl.
  assert (filter (λ p, AK.is_paint_product set_skus p = true) (x :: l) = []) as ->.
  { clear E Hi. induction Hall as [|y l' Hy _ IH]; [done|].
    rewrite filter_cons_False; [done|]. by rewrite Hy. }
  done.
Qed.

(** C7 at its failing input: the first page of the Vallejo listing holds one
    product, a brush set, which the product filter removes; the Vallejo loop
    tests the filtered list, stops there and returns nothing, although the
    page links to a second page that shows a paint.  The AK Interactive loop,
    which tests the count taken before the filter, passes such a page and
    returns the paint of the page after it. *)
Theorem scrape_range_filtered_page (fuel : nat) :
  Vallejo.scrape_range Sample.vallejo_site Sample.no_image "model-color-en"
    true true (S fuel) = Some []
  ∧ Vallejo.items <$> Sample.vallejo_site "https://acrylicosvallejo.com/en/category/hobby/model-color-en/"
    = Some [Sample.brush_set]
  ∧ (λ p, rget p "sku") <$>
      AK.scrape_color_range Sample.ak_site Sample.no_image ∅ "standard" true
    = [Some "AK11001"].
Proof. repeat split; reflexivity. Qed.

(** Without the filter the Vallejo loop reads both pages. *)
Example scrape_range_unfiltered :
  fmap (M := list) (λ p, rget p "sku") <$>
    Vallejo.scrape_range Sample.vallejo_site Sample.no_image "model-color-en"
      true false 3
  = Some [Some "PM01"; Some "70.946"].
Proof. reflexivity. Qed.

(** ** The colour of an SVG *)

Lemma first_occurrences_elem_of l x : x ∈ Citadel.first_occurrences l ↔ x ∈ l.
Proof.
  induction l as [|y l IH]; simpl; [done|].
  rewrite !elem_of_cons, list_elem_of_filter, IH.
  destruct (decide (x = y)); naive_solver.
Qed.

Lemma first_occurrences_NoDup l : NoDup (Citadel.first_occurrences l).
Proof.
  induction l as [|y l IH]; simpl; [constructor|].
  apply NoDup_cons. split; [|by apply NoDup_filter].
  rewrite list_elem_of_filter. naive_solver.
Qed.

(** The counter holds each element of the list with the number of its
    occurrences. *)
Lemma Counter_elem_of l k n :
  (k, n) ∈ Citadel.Counter l ↔ k ∈ l ∧ n = Citadel.occurrences k l.
Proof.
  unfold Citadel.Counter. rewrite list_elem_of_fmap.
  setoid_rewrite first_occurrences_elem_of. naive_solver.
Qed.

Lemma insert_desc_Permutation x l : Citadel.insert_desc x l ≡ₚ x :: l.
Proof.
  induction l as [|y l IH]; simpl; [done|].
  destruct (y.2 <=? x.2)%nat; [done|]. by rewrite IH, Permutation_swap.
Qed.

Lemma most_common_Permutation counts : Citadel.most_common counts ≡ₚ counts.
Proof.
  induction counts as [|x l IH]; simpl; [done|].
  by rewrite insert_desc_Permutation, IH.
Qed.

Lemma insert_desc_sorted x l :
  StronglySorted Citadel.count_ge l → StronglySorted Citadel.count_ge (Citadel.insert_desc x l).
Proof.
  induction l as [|y l IH]; simpl; intros Hl.
  - by repeat constructor.
  - apply StronglySorted_cons in Hl as [Hy Hl].
    destruct (y.2 <=? x.2)%nat eqn:E.
    + apply Nat.leb_le in E. apply StronglySorted_cons.
      split; [|by apply StronglySorted_cons].
      constructor; [done|]. eapply Forall_impl; [exact Hy|].
      unfold Citadel.count_ge. intros z Hz. lia.
    + apply Nat.leb_gt in E. apply StronglySorted_cons. split; [|by apply IH].
      rewrite (insert_desc_Permutation x l). constructor; [|done].
      unfold Citadel.count_ge. lia.
Qed.

Lemma most_common_sorted counts : StronglySorted Citadel.count_ge (Citadel.most_common counts).
Proof.
  induction counts as [|x l IH]; simpl; [constructor|]. by apply insert_desc_sorted.
Qed.

(** The first colour of [most_common] outside of the ignore set has the
    highest count outside of it; when there is none, the head of
    [most_common] has the highest count of all. *)
Lemma most_common_pick (cs : list string) :
  cs ≠ [] →
  ∃ c, c ∈ cs
    ∧ match list_find (λ cn : string * nat, Citadel.ignored cn.1 = false)
              (Citadel.most_common (Citadel.Counter cs)) with
      | Some (_, (color, _)) => color
      | None =>
          match Citadel.most_common (Citadel.Counter cs) with
          | (color, _) :: _ => color
          | [] => EmptyString
          end
      end = c
    ∧ Citadel.most_common (Citadel.Counter cs) ≠ []
    ∧ if Citadel.ignored c
      then Forall (λ c', Citadel.ignored c' = true
                         ∧ (Citadel.occurrences c' cs ≤ Citadel.occurrences c cs)%nat) cs
      else Forall (λ c', Citadel.ignored c' = true
                         ∨ (Citadel.occurrences c' cs ≤ Citadel.occurrences c cs)%nat) cs.
Proof.
  intros Hne.
  set (mc := Citadel.most_common (Citadel.Counter cs)).
  assert (∀ k n, (k, n) ∈ mc ↔ k ∈ cs ∧ n = Citadel.occurrences k cs) as Hmc.
  { intros k n. unfold mc. rewrite most_common_Permutation. apply Counter_elem_of. }
  pose proof (most_common_sorted (Citadel.Counter cs)) as Hsorted. fold mc in Hsorted.
  assert (mc ≠ []) as Hmcne.
  { destruct cs as [|x cs]; [done|]. intros E.
    assert ((x, Citadel.occurrences x (x :: cs)) ∈ mc) as Hin by (apply Hmc; set_solver).
    rewrite E in Hin. by apply elem_of_nil in Hin. }
  destruct (list_find _ mc) as [[i [c n]]|] eqn:Hfind.
  - apply list_find_Some in Hfind as (Hi&Hc&Hbefore). simpl in Hc.
    pose proof (list_elem_of_lookup_2 _ _ _ Hi) as Hin. apply Hmc in Hin as [Hin ->].
    exists c. split; [done|]. split; [done|]. split; [done|]. rewrite Hc.
    apply Forall_forall. intros c' Hc'.
    destruct (Citadel.ignored c') eqn:Hig; [by left|]. right.
    assert ((c', Citadel.occurrences c' cs) ∈ mc) as Hin' by (by apply Hmc).
    apply list_elem_of_lookup in Hin' as [j Hj].
    destruct (decide (j < i)%nat) as [Hlt|Hge].
    { exfalso. by apply (Hbefore j _ Hj Hlt). }
    destruct (decide (j = i)) as [->|Hne'].
    { rewrite Hi in Hj. by injection Hj as -> _. }
    assert (i < j)%nat as Hij by lia.
    pose proof (take_drop_middle _ _ _ Hi) as Hsplit. rewrite <- Hsplit in Hsorted.
    apply StronglySorted_app_1_r, StronglySorted_cons in Hsorted as [Hall _].
    rewrite Forall_forall in Hall.
    assert ((c', Citadel.occurrences c' cs) ∈ drop (S i) mc) as Hd.
    { apply list_elem_of_lookup. exists (j - S i)%nat. rewrite lookup_drop.
      by replace (S i + (j - S i))%nat with j by lia. }
    apply (Hall _ Hd).
  - apply list_find_None in Hfind.
    destruct mc as [|[c n] mc'] eqn:Emc; [done|].
    assert ((c, n) ∈ (c, n) :: mc') as Hin by set_solver.
    apply Hmc in Hin as [Hin ->].
    exists c. split; [done|]. split; [done|]. split; [done|].
    apply Forall_cons in Hfind as Hig. destruct Hig as [Hig _]. simpl in Hig.
    destruct (Citadel.ignored c) eqn:Hc; [|done].
    apply StronglySorted_cons in Hsorted as [Hall _].
    apply Forall_forall. intros c' Hc'.
    assert ((c', Citadel.occurrences c' cs) ∈ (c, Citadel.occurrences c cs) :: mc')
      as Hin' by (by apply Hmc).
    split.
    + rewrite Forall_forall in Hfind. specialize (Hfind _ Hin'). simpl in Hfind.
      by destruct (Citadel.ignored c').
    + apply elem_of_cons in Hin' as [[= -> _]|Hin']; [done|].
      rewrite Forall_forall in Hall. apply (Hall _ Hin').
Qed.

(** C5, as the code has it.  A rect fill under the pot or spray clip path,
    when the pattern finds one, is returned in upper case.  Otherwise the
    colours counted are the six-digit fills of the rect elements when there
    is one, and else all the colour tokens of three or six digits of the
    markup, brought to six upper-case digits; [None] is returned exactly when
    there is none, and else the colour returned is one of them which, when it
    is outside of the ignore set, occurs at least as often as every colour
    outside of the ignore set, and which is inside of the ignore set only
    when all of them are and then occurs at least as often as each. *)
Theorem extract_hex_from_svg_spec (svg_content : string) :
  match Citadel.pot_search svg_content with
  | Some color => Citadel.extract_hex_from_svg svg_content = Some (Py.upper color)
  | None =>
      let cs := Citadel.candidates svg_content in
      match Citadel.extract_hex_from_svg svg_content with
      | None => cs = []
      | Some hex =>
          ∃ c, hex = String "#"%char c ∧ c ∈ cs
            ∧ if Citadel.ignored c
              then Forall (λ c', Citadel.ignored c' = true
                                 ∧ (Citadel.occurrences c' cs ≤ Citadel.occurrences c cs)%nat) cs
              else Forall (λ c', Citadel.ignored c' = true
                                 ∨ (Citadel.occurrences c' cs ≤ Citadel.occurrences c cs)%nat) cs
      end
  end.
Proof.
  unfold Citadel.extract_hex_from_svg.
  destruct (Citadel.pot_search svg_content) as [color|]; [done|]. cbv zeta.
  destruct (Citadel.findall Citadel.hex_token_here svg_content) as [|t ts] eqn:Et;
    destruct (Citadel.findall Citadel.rect_here svg_content) as [|r rs] eqn:Er.
  { unfold Citadel.candidates. by rewrite Et, Er. }
  all: assert (Citadel.candidates svg_content ≠ []) as Hne
         by (unfold Citadel.candidates; by rewrite Et, Er).
  all: destruct (most_common_pick _ Hne) as (c&Hin&Hpick&Hmc&Hmax).
  all: destruct (list_find _ _) as [[i [color n]]|];
         [|destruct (Citadel.most_common _) as [|[color n] ?]; [done|]];
         simpl in Hpick; subst color; by exists c.
Qed.

Example extract_hex_from_svg_examples :
  Citadel.extract_hex_from_svg Sample.pot_svg = Some "#8F7C68"
  ∧ Citadel.extract_hex_from_svg Sample.paths_svg = Some "#A1B2C3"
  ∧ Citadel.candidates Sample.paths_svg = ["FFFFFF"; "FFFFFF"; "A1B2C3"; "000000"]
  ∧ Citadel.extract_hex_from_svg Sample.grey_svg = Some "#333333"
  ∧ Citadel.extract_hex_from_svg Sample.no_color_svg = None.
Proof. repeat split; reflexivity. Qed.

(** C5 fails on what is counted: as soon as the markup has a rect with a
    six-digit fill, only the fills of the rects are counted.  Of the fills
    [#FF0000] (one rect) and [#00FF00] (three paths), neither in the ignore
    set, the extractor returns the red one, not the most frequent one. *)
Lemma extract_hex_from_svg_counterexample :
  Citadel.pot_search Sample.rect_and_paths_svg = None
  ∧ Citadel.findall Citadel.hex_token_here Sample.rect_and_paths_svg
    = ["FF0000"; "00FF00"; "00FF00"; "00FF00"]
  ∧ Citadel.ignored "00FF00" = false
  ∧ Citadel.extract_hex_from_svg Sample.rect_and_paths_svg = Some "#FF0000"
  ∧ Citadel.extract_hex_from_svg Sample.rect_and_paths_svg ≠ Some "#00FF00".
Proof.
  assert (Citadel.extract_hex_from_svg Sample.rect_and_paths_svg = Some "#FF0000")
    as E by reflexivity.
  repeat split; try reflexivity. rewrite E. intros [=].
Qed.

(** * Further properties *)

(** ** Frames of the merge functions *)

Lemma same_but_refl {V} keys (p : gmap string V) : same_but keys p p.
Proof. by intros k _. Qed.

Lemma same_but_insert {V} keys (p p' : gmap string V) k v :
  k ∈ keys → same_but keys p p' → same_but keys p (<[k:=v]> p').
Proof.
  intros Hk Hp k' Hk'. rewrite lookup_insert_ne; [by apply Hp|].
  intros ->. done.
Qed.

Lemma same_but_trans {V} keys (p1 p2 p3 : gmap string V) :
  same_but keys p1 p2 → same_but keys p2 p3 → same_but keys p1 p3.
Proof. intros H12 H23 k Hk. by rewrite H23, H12. Qed.

Lemma Forall2_same_but_refl {V} keys (l : list (gmap string V)) :
  Forall2 (same_but keys) l l.
Proof. induction l; constructor; [apply same_but_refl|done]. Qed.

Lemma file_frame_refl keys f : file_frame keys f f.
Proof. destruct f; simpl; auto using Forall2_same_but_refl. Qed.

Lemma file_frame_with_paints keys f ps ps' :
  paint_list f = Some ps → Forall2 (same_but keys) ps ps' →
  file_frame keys f (with_paints f ps').
Proof. destruct f; simpl; intros [= ->] H; auto. Qed.

Section merge_frame.
Variable normalize_sku : string → string.
Variable normalize_name : string → string.
Variable lk : gmap string record * gmap string record.

Lemma apply_match_same_but p d b :
  same_but ["hex"; "sku"; "url"] p (Merge.apply_match p d b).1.1.
Proof.
  unfold Merge.apply_match.
  repeat (match goal with |- context [if ?b then _ else _] => destruct b end;
          simpl);
    repeat (apply same_but_insert; [set_solver|]); apply same_but_refl.
Qed.

Lemma merge_paint_same_but p p' c sc nf :
  Merge.merge_paint normalize_sku normalize_name lk p = Some (p', c, sc, nf) →
  same_but ["hex"; "sku"; "url"] p p'.
Proof.
  unfold Merge.merge_paint.
  destruct (on_str _ _) as [sku|]; [|done].
  destruct (Merge.find_match _ _ _ _) as [[[d b]|]|]; [| |done].
  - case_bool_decide.
    + intros [= <- _ _ _]. apply same_but_refl.
    + pose proof (apply_match_same_but p d b) as Hs.
      destruct (Merge.apply_match p d b) as [[p1 c1] s1]. by intros [= <- _ _ _].
  - intros [= <- _ _ _]. apply same_but_refl.
Qed.

Lemma merge_paints_same_but ps ps' u s nf :
  Merge.merge_paints normalize_sku normalize_name lk ps = Some (ps', u, s, nf) →
  Forall2 (same_but ["hex"; "sku"; "url"]) ps ps'.
Proof.
  revert ps' u s nf. induction ps as [|p ps IH]; intros ps' u s nf; simpl.
  - intros [= <- _ _ _]. constructor.
  - destruct (Merge.merge_paint _ _ _ p) as [[[[p' c] sc] nf1]|] eqn:Hp; [|done].
    destruct (Merge.merge_paints _ _ _ ps) as [[[[rest' u'] s'] nf2]|] eqn:Hps;
      [|done].
    intros [= <- _ _ _]. constructor; [by eapply merge_paint_same_but|by eapply IH].
Qed.

Lemma merge_file_frame f :
  file_frame ["hex"; "sku"; "url"] f
    (Merge.merge_file normalize_sku normalize_name lk f).1.
Proof.
  unfold Merge.merge_file. destruct (paint_list f) as [ps|] eqn:Hf.
  - destruct (Merge.merge_paints _ _ _ ps) as [[[[ps' u] s] nf]|] eqn:Hps.
    + apply file_frame_with_paints with ps; [done|].
      by eapply merge_paints_same_but.
    + apply file_frame_refl.
  - apply file_frame_refl.
Qed.
End merge_frame.

Lemma batch_frame normalize_sku normalize_name directory scraped_data :
  Forall2 (file_frame ["hex"; "sku"; "url"]) directory
    (Merge.batch_update_json_files normalize_sku normalize_name
       directory scraped_data).1.*1.
Proof.
  unfold Merge.batch_update_json_files. cbn [fst].
  rewrite <- list_fmap_compose. apply Forall2_fmap_r, Forall_Forall2_diag.
  apply Forall_forall. intros f _. simpl. apply merge_file_frame.
Qed.

(** X1: the batch merge of AK Interactive and of Vallejo keeps every file of
    the directory in its shape, with its keys besides [paints], and with its
    entries in their number and order; in an entry it changes no key other
    than [hex], [sku] and [url]. *)
Theorem batch_update_json_files_frame (directory : list catalogue_file)
    (scraped_data : list record) :
  Forall2 (file_frame ["hex"; "sku"; "url"]) directory
    (AK.batch_update_json_files directory scraped_data).1.*1
  ∧ Forall2 (file_frame ["hex"; "sku"; "url"]) directory
      (Vallejo.batch_update_json_files directory scraped_data).1.*1.
Proof. split; apply batch_frame. Qed.

(** ** The lookups and the matches of the batch merge *)

Section matches.
Variable normalize_sku : string → string.
Variable normalize_name : string → string.

Lemma sku_lookup_last l k d :
  (Merge.build_lookups normalize_sku normalize_name l).1 !! k = Some d ↔
  first_record (Merge.fresh_sku_key normalize_sku) (reverse l) k (λ x, x = d).
Proof.
  induction l as [|x l IH] using rev_ind.
  - split; [done|]. by intros ?%first_record_nil.
  - rewrite sku_lookup_snoc, reverse_snoc.
    destruct (Merge.fresh_sku_key normalize_sku x) as [k'|] eqn:Ek.
    + destruct (decide (k' = k)) as [->|Hne].
      * rewrite lookup_insert_eq, first_record_here by done. naive_solver.
      * rewrite lookup_insert_ne, first_record_later by congruence. done.
    + rewrite first_record_later by congruence. done.
Qed.

(** X2: the lookups of the batch merge.  Under a normalised SKU the SKU
    lookup holds the last fresh record (with a SKU and a colour) of that
    SKU; under a normalised name the name lookup holds the first fresh
    record (with a SKU, a colour and a title) of that name. *)
Theorem build_lookups_spec (scraped_data : list record) (key : string) (d : record) :
  ((Merge.build_lookups normalize_sku normalize_name scraped_data).1 !! key = Some d ↔
   first_record (Merge.fresh_sku_key normalize_sku) (reverse scraped_data) key
     (λ x, x = d))
  ∧ ((Merge.build_lookups normalize_sku normalize_name scraped_data).2 !! key = Some d ↔
     first_record (Merge.fresh_name_key normalize_name) scraped_data key
       (λ x, x = d)).
Proof. split; [apply sku_lookup_last|apply name_lookup_Some]. Qed.

Lemma name_lookup_None l n :
  (Merge.build_lookups normalize_sku normalize_name l).2 !! n = None ↔
  Forall (λ x, Merge.fresh_name_key normalize_name x ≠ Some n) l.
Proof.
  split.
  - intros Hn. induction l as [|x l IH]; [constructor|].
    destruct (decide (Merge.fresh_name_key normalize_name x = Some n)) as [Hk|Hk].
    + assert (first_record (Merge.fresh_name_key normalize_name) (x :: l) n (λ y, y = x))
        as H by (by apply first_record_here).
      apply name_lookup_Some with (normalize_sku := normalize_sku) in H. congruence.
    + constructor; [done|]. apply IH.
      apply eq_None_not_Some. intros [d E].
      apply name_lookup_Some in E.
      apply (first_record_later _ x l n (λ y, y = d) Hk) in E.
      apply name_lookup_Some with (normalize_sku := normalize_sku) in E. congruence.
  - intros Hall. destruct (_ !! n) as [d|] eqn:E; [|done].
    apply name_lookup_Some, first_record_elem_of in E as (x&Hx&Hk&_).
    rewrite Forall_forall in Hall. by destruct (Hall x Hx).
Qed.

(** X3: a SKU match decides.  An entry whose normalised SKU is the one of a
    fresh record takes the colour of the last such record and nothing else:
    its [sku] and [url] stay, whatever its name matches, it counts as
    updated exactly when its colour changed, and never as a SKU change. *)
Theorem batch_merge_sku_match (scraped_data : list record) (paint : dict)
    (sku : string) (d : record) :
  on_str normalize_sku (get_or paint "sku" (VStr EmptyString)) = Some sku →
  first_record (Merge.fresh_sku_key normalize_sku) (reverse scraped_data) sku
    (λ x, x = d) →
  ∃ hex, rget d "hex" = Some hex ∧ Py.truthy hex = true ∧
    Merge.merge_paint normalize_sku normalize_name
      (Merge.build_lookups normalize_sku normalize_name scraped_data) paint
    = Some (if differs (get paint "hex") (Some hex)
            then <["hex" := VStr hex]> paint else paint,
            differs (get paint "hex") (Some hex), false, []).
Proof.
  intros Hsku Hlast. pose proof Hlast as Hlk. apply sku_lookup_last in Hlk.
  apply first_record_elem_of in Hlast as (d'&_&Hk&->).
  unfold Merge.fresh_sku_key in Hk.
  destruct (rget d "sku") as [s|] eqn:Es; [|done].
  destruct (rget d "hex") as [h|] eqn:Eh; [|by rewrite andb_false_r in Hk].
  simpl in Hk. destruct (Py.truthy s) eqn:Ets; [|done].
  destruct (Py.truthy h) eqn:Eth; [|done].
  exists h. split; [done|]. split; [done|].
  unfold Merge.merge_paint, Merge.find_match. rewrite Hsku, Hlk.
  rewrite bool_decide_false.
  - unfold Merge.apply_match. rewrite Eh. by destruct (differs _ _).
  - intros ->. unfold rget in Es. by rewrite lookup_empty in Es.
Qed.

(** X4: an entry that matches no fresh record, neither by its normalised
    SKU nor by its normalised name, is left as it is and counts for
    nothing; its SKU is reported as not found unless it normalises to the
    empty string. *)
Theorem batch_merge_no_match (scraped_data : list record) (paint : dict)
    (sku norm_name : string) :
  on_str normalize_sku (get_or paint "sku" (VStr EmptyString)) = Some sku →
  on_str normalize_name (get_or paint "name" (VStr EmptyString)) = Some norm_name →
  Forall (λ x, Merge.fresh_sku_key normalize_sku x ≠ Some sku) scraped_data →
  Forall (λ x, Merge.fresh_name_key normalize_name x ≠ Some norm_name) scraped_data →
  Merge.merge_paint normalize_sku normalize_name
    (Merge.build_lookups normalize_sku normalize_name scraped_data) paint
  = Some (paint, false, false,
          if Py.truthy sku then [get_or paint "sku" (VStr EmptyString)] else []).
Proof.
  intros Hsku Hname Hs Hn.
  apply sku_lookup_None with (normalize_name := normalize_name) in Hs.
  apply name_lookup_None in Hn.
  unfold Merge.merge_paint, Merge.find_match. rewrite Hsku, Hs, Hname, Hn.
  by destruct (Py.truthy norm_name).
Qed.
End matches.

Lemma batch_merge_sku_match_witness :
  ∃ hex, rget Sample.blue_ak1 "hex" = Some hex ∧ Py.truthy hex = true ∧
    Merge.merge_paint AK.normalize_sku AK.normalize_name
      (Merge.build_lookups AK.normalize_sku AK.normalize_name
         [Sample.red_ak1; Sample.blue_ak1])
      (<["sku" := VStr "ak 1"]> Sample.red_entry)
    = Some (if differs (get (<["sku" := VStr "ak 1"]> Sample.red_entry) "hex") (Some hex)
            then <["hex" := VStr hex]> (<["sku" := VStr "ak 1"]> Sample.red_entry)
            else <["sku" := VStr "ak 1"]> Sample.red_entry,
            differs (get (<["sku" := VStr "ak 1"]> Sample.red_entry) "hex") (Some hex),
            false, []).
Proof.
  apply (batch_merge_sku_match AK.normalize_sku AK.normalize_name
           [Sample.red_ak1; Sample.blue_ak1]
           (<["sku" := VStr "ak 1"]> Sample.red_entry) "AK1" Sample.blue_ak1).
  - reflexivity.
  - exists [], Sample.blue_ak1, [Sample.red_ak1].
    split; [reflexivity|]. split; [reflexivity|]. split; [constructor|reflexivity].
Defined.

Lemma batch_merge_no_match_witness :
  Merge.merge_paint AK.normalize_sku AK.normalize_name
    (Merge.build_lookups AK.normalize_sku AK.normalize_name [Sample.renumbered])
    Sample.ak123_entry
  = Some (Sample.ak123_entry, false, false, [VStr "AK123"]).
Proof.
  apply (batch_merge_no_match AK.normalize_sku AK.normalize_name
           [Sample.renumbered] Sample.ak123_entry "AK123" "wood brown").
  - reflexivity.
  - reflexivity.
  - constructor; [|constructor]. vm_compute. intros [=].
  - constructor; [|constructor]. vm_compute. intros [=].
Defined.

(** ** The single-file merges *)

Lemma AK_sku_to_hex_truthy l k h :
  AK.sku_to_hex l !! k = Some h → Py.truthy h = true.
Proof.
  unfold AK.sku_to_hex. induction l as [|x l IH] using rev_ind; [done|].
  rewrite foldl_app. simpl.
  destruct (otruthy (rget x "sku") && otruthy (rget x "hex")) eqn:E; [|done].
  destruct (decide (AK.normalize_sku (ostr (rget x "sku")) = k)) as [->|Hne].
  - rewrite lookup_insert_eq. intros [= <-].
    apply andb_true_iff in E as [_ E]. by destruct (rget x "hex").
  - by rewrite lookup_insert_ne.
Qed.

Lemma AK_update_paints_frame lk ps ps' n :
  (∀ k h, lk !! k = Some h → Py.truthy h = true) →
  AK.update_paints lk ps = Some (ps', n) →
  (n ≤ length ps)%nat
  ∧ Forall2 (λ p p', p' = p ∨ ∃ h, Py.truthy h = true ∧ p' = <["hex" := VStr h]> p)
      ps ps'.
Proof.
  intros Hlk. revert ps' n. induction ps as [|p ps IH]; intros ps' n; simpl.
  - intros [= <- <-]. split; [done|constructor].
  - destruct (on_str _ _) as [sku|]; [|done].
    destruct (AK.update_paints lk ps) as [[rest u]|] eqn:Hps;
      [|by destruct (lk !! sku)].
    destruct (IH _ _ eq_refl) as [Hu Hrest].
    destruct (lk !! sku) as [h|] eqn:Hh; intros [= <- <-].
    + split; [simpl; lia|]. constructor; [|done]. right. exists h.
      split; [by eapply Hlk|done].
    + split; [simpl; lia|]. constructor; [by left|done].
Qed.

(** X5: the single-file merge of AK Interactive.  A file of unrecognised
    shape is returned as it is, without a count.  Otherwise the file keeps
    its shape and its keys besides [paints], and each entry is either left
    as it is or has its [hex] set to a non-empty colour; the count printed
    is at most the number of entries. *)
Theorem AK_update_existing_json_frame (existing after : catalogue_file)
    (scraped_data : list record) (count : option nat) :
  AK.update_existing_json existing scraped_data = Some (after, count) →
  match paint_list existing with
  | None => after = existing ∧ count = None
  | Some paints =>
      ∃ paints' n, after = with_paints existing paints' ∧ count = Some n
        ∧ (n ≤ length paints)%nat
        ∧ Forall2 (λ p p', p' = p
                           ∨ ∃ h, Py.truthy h = true ∧ p' = <["hex" := VStr h]> p)
            paints paints'
  end.
Proof.
  unfold AK.update_existing_json. destruct (paint_list existing) as [ps|].
  - destruct (AK.update_paints _ ps) as [[ps' n]|] eqn:Hps; [|done].
    intros [= <- <-]. exists ps', n. split; [done|]. split; [done|].
    eapply AK_update_paints_frame; [|done]. apply AK_sku_to_hex_truthy.
  - by intros [= <- <-].
Qed.

Lemma AK_update_existing_json_frame_witness :
  ∃ paints' n,
    FlatList [<["hex" := VStr "#112233"]> Sample.ak123_entry] = FlatList paints'
    ∧ Some 1%nat = Some n ∧ (n ≤ 1)%nat
    ∧ Forall2 (λ p p', p' = p
                       ∨ ∃ h, Py.truthy h = true ∧ p' = <["hex" := VStr h]> p)
        [Sample.ak123_entry] paints'.
Proof.
  apply (AK_update_existing_json_frame (FlatList [Sample.ak123_entry])
           (FlatList [<["hex" := VStr "#112233"]> Sample.ak123_entry])
           [Sample.ak123_fresh] (Some 1%nat)).
  vm_compute. reflexivity.
Defined.

Lemma get_or_same_but keys (p p' : dict) k d :
  same_but keys p p' → k ∉ keys → get_or p' k d = get_or p k d.
Proof. intros Hp Hk. unfold get_or. by rewrite Hp. Qed.

Lemma Vallejo_update_paint_spec lk (p p' : dict) n :
  Vallejo.update_paint lk p = Some (p', n) →
  same_but ["hex"; "url"] p p'
  ∧ (truthy (get p "url") = true → p' !! "url" = p !! "url")
  ∧ Vallejo.update_paint lk p' = Some (p', n).
Proof.
  unfold Vallejo.update_paint at 1.
  destruct (on_str _ _) as [sku|] eqn:Hsku; [|done].
  destruct (lk !! sku) as [scraped|] eqn:Hlk.
  - set (p1n := if otruthy (rget scraped "hex")
                then (<["hex" := of_opt (rget scraped "hex")]> p, 1%nat)
                else (p, 0%nat)).
    assert (same_but ["hex"; "url"] p p1n.1 ∧ p1n.1 !! "url" = p !! "url"
            ∧ (if otruthy (rget scraped "hex")
               then <["hex" := of_opt (rget scraped "hex")]> p1n.1 else p1n.1)
              = p1n.1) as (Hs1&Hu1&Hh1).
    { unfold p1n. destruct (otruthy (rget scraped "hex")); simpl.
      - split; [apply same_but_insert; [set_solver|apply same_but_refl]|].
        split; [by rewrite lookup_insert_ne|by rewrite insert_insert_eq].
      - split; [apply same_but_refl|done]. }
    destruct p1n as [p1 n1] eqn:Ep1. cbn [fst] in Hs1, Hu1, Hh1.
    assert (n1 = if otruthy (rget scraped "hex") then 1%nat else 0%nat) as Hn1.
    { unfold p1n in Ep1. by destruct (otruthy _); injection Ep1 as <- <-. }
    destruct (otruthy (rget scraped "product_url")
              && negb (truthy (get p1 "url"))) eqn:Hc; intros [= <- <-].
    + apply andb_true_iff in Hc as [Hpu Hnu]. unfold get in Hnu. rewrite Hu1 in Hnu.
      fold (get p "url") in Hnu.
      split; [apply same_but_insert; [set_solver|done]|].
      split; [by destruct (truthy (get p "url"))|].
      unfold Vallejo.update_paint.
      rewrite get_or_insert_ne, (get_or_same_but _ _ _ "sku" _ Hs1) by set_solver.
      rewrite Hsku, Hlk.
      assert ((if otruthy (rget scraped "hex")
               then (<["hex" := of_opt (rget scraped "hex")]>
                       (<["url" := of_opt (rget scraped "product_url")]> p1), 1%nat)
               else (<["url" := of_opt (rget scraped "product_url")]> p1, 0%nat))
              = (<["url" := of_opt (rget scraped "product_url")]> p1, n1)) as ->.
      { rewrite Hn1. destruct (otruthy (rget scraped "hex")); [|done].
        by rewrite insert_insert_ne, Hh1. }
      rewrite get_insert_eq.
      assert (truthy (of_opt (rget scraped "product_url")) = true) as ->
        by (by destruct (rget scraped "product_url")).
      by rewrite andb_false_r.
    + split; [done|]. split; [done|].
      unfold Vallejo.update_paint.
      rewrite (get_or_same_but _ _ _ "sku" _ Hs1) by set_solver.
      rewrite Hsku, Hlk.
      assert ((if otruthy (rget scraped "hex")
               then (<["hex" := of_opt (rget scraped "hex")]> p1, 1%nat)
               else (p1, 0%nat)) = (p1, n1)) as ->.
      { rewrite Hn1. destruct (otruthy (rget scraped "hex")); [|done].
        by rewrite Hh1. }
      by rewrite Hc.
  - intros [= <- <-]. split; [apply same_but_refl|]. split; [done|].
    unfold Vallejo.update_paint. by rewrite Hsku, Hlk.
Qed.

Lemma Vallejo_update_paints_spec lk ps ps' n :
  Vallejo.update_paints lk ps = Some (ps', n) →
  Forall2 (λ p p', same_but ["hex"; "url"] p p'
                   ∧ (truthy (get p "url") = true → p' !! "url" = p !! "url"))
    ps ps'
  ∧ Vallejo.update_paints lk ps' = Some (ps', n).
Proof.
  revert ps' n. induction ps as [|p ps IH]; intros ps' n; simpl.
  - intros [= <- <-]. split; [constructor|done].
  - destruct (Vallejo.update_paint lk p) as [[p' n1]|] eqn:Hp; [|done].
    destruct (Vallejo.update_paints lk ps) as [[rest u]|] eqn:Hps; [|done].
    intros [= <- <-]. destruct (IH _ _ eq_refl) as [Hf Hr].
    destruct (Vallejo_update_paint_spec _ _ _ _ Hp) as (H1&H2&H3).
    split; [by constructor|]. simpl. by rewrite H3, Hr.
Qed.

(** X6: the single-file merge of Vallejo.  In an entry it changes no key
    other than [hex] and [url], and it never replaces a [url] that is not
    empty; a second run with the same fresh records returns the same file
    and prints the same count. *)
Theorem Vallejo_update_existing_json_spec (existing after : catalogue_file)
    (scraped_data : list record) (count : option nat) :
  Vallejo.update_existing_json existing scraped_data = Some (after, count) →
  file_frame ["hex"; "url"] existing after
  ∧ (∀ paints paints', paint_list existing = Some paints →
       paint_list after = Some paints' →
       Forall2 (λ p p', truthy (get p "url") = true → p' !! "url" = p !! "url")
         paints paints')
  ∧ Vallejo.update_existing_json after scraped_data = Some (after, count).
Proof.
  unfold Vallejo.update_existing_json.
  destruct (paint_list existing) as [ps|] eqn:Hf.
  - destruct (Vallejo.update_paints _ ps) as [[ps' n]|] eqn:Hps; [|done].
    intros [= <- <-]. destruct (Vallejo_update_paints_spec _ _ _ _ Hps) as [HF Hr].
    assert (paint_list (with_paints existing ps') = Some ps') as Hpl
      by (destruct existing; done).
    split; [|split].
    + apply file_frame_with_paints with ps; [done|].
      eapply Forall2_impl; [done|]. by intros ?? [? _].
    + intros ?? [= <-]. rewrite Hpl. intros [= <-].
      eapply Forall2_impl; [done|]. by intros ?? [_ ?].
    + rewrite Hpl, Hr. by destruct existing.
  - intros [= <- <-]. split; [apply file_frame_refl|]. split; [|by rewrite Hf].
    intros ?? [=].
Qed.

Lemma Vallejo_update_existing_json_spec_witness :
  file_frame ["hex"; "url"]
    (FlatList [<["sku" := VStr "09703"]> Sample.old_entry])
    (FlatList [<["hex" := VStr "#112233"]>
                 (<["sku" := VStr "09703"]> Sample.old_entry)])
  ∧ (∀ paints paints',
       paint_list (FlatList [<["sku" := VStr "09703"]> Sample.old_entry])
       = Some paints →
       paint_list (FlatList [<["hex" := VStr "#112233"]>
                               (<["sku" := VStr "09703"]> Sample.old_entry)])
       = Some paints' →
       Forall2 (λ p p', truthy (get p "url") = true → p' !! "url" = p !! "url")
         paints paints')
  ∧ Vallejo.update_existing_json
      (FlatList [<["hex" := VStr "#112233"]>
                   (<["sku" := VStr "09703"]> Sample.old_entry)])
      [Sample.renumbered]
    = Some (FlatList [<["hex" := VStr "#112233"]>
                        (<["sku" := VStr "09703"]> Sample.old_entry)],
            Some 1%nat).
Proof.
  apply (Vallejo_update_existing_json_spec
           (FlatList [<["sku" := VStr "09703"]> Sample.old_entry])
           (FlatList [<["hex" := VStr "#112233"]>
                        (<["sku" := VStr "09703"]> Sample.old_entry)])
           [Sample.renumbered] (Some 1%nat)).
  vm_compute. reflexivity.
Defined.

(** ** The Citadel merges *)

Section citadel_merge.
Variable lk : gmap string Citadel.hit * gmap string Citadel.hit.

Lemma Citadel_merge_paint_spec (p p' : dict) c nf :
  Citadel.merge_paint lk p = Some (p', c, nf) →
  (p' = p ∨ ∃ h, Py.truthy h = true ∧ p' = <["hex" := VStr h]> p)
  ∧ Citadel.merge_paint lk p' = Some (p', false, nf).
Proof.
  unfold Citadel.merge_paint at 1.
  destruct (on_str _ _) as [sku|] eqn:Hsku; [|done].
  destruct (Citadel.find_match lk p sku) as [[d|]|] eqn:Hm; [| |done].
  - destruct (otruthy (Citadel.hit_hex d)
              && differs (get p "hex") (Citadel.hit_hex d)) eqn:Hc;
      intros [= <- <- <-].
    + apply andb_true_iff in Hc as [Hh _].
      destruct (Citadel.hit_hex d) as [h|] eqn:Eh; [|done]. simpl in Hh.
      split; [right; by exists h|].
      unfold Citadel.merge_paint.
      rewrite get_or_insert_ne, Hsku by done.
      assert (Citadel.find_match lk (<["hex" := of_opt (Some h)]> p) sku
              = Some (Some d)) as ->.
      { unfold Citadel.find_match in *. destruct (lk.1 !! sku); [done|].
        by rewrite get_or_insert_ne. }
      rewrite Eh, get_insert_eq. simpl. rewrite bool_decide_true by done.
      by rewrite andb_false_r.
    + split; [by left|]. unfold Citadel.merge_paint. by rewrite Hsku, Hm, Hc.
  - intros [= <- <- <-]. split; [by left|].
    unfold Citadel.merge_paint. by rewrite Hsku, Hm.
Qed.

Lemma Citadel_merge_paints_spec ps ps' u nf :
  Citadel.merge_paints lk ps = Some (ps', u, nf) →
  Forall2 (λ p p', p' = p ∨ ∃ h, Py.truthy h = true ∧ p' = <["hex" := VStr h]> p)
    ps ps'
  ∧ Citadel.merge_paints lk ps' = Some (ps', 0%nat, nf).
Proof.
  revert ps' u nf. induction ps as [|p ps IH]; intros ps' u nf; simpl.
  - intros [= <- <- <-]. split; [constructor|done].
  - destruct (Citadel.merge_paint lk p) as [[[p' c] nf1]|] eqn:Hp; [|done].
    destruct (Citadel.merge_paints lk ps) as [[[rest u'] nf2]|] eqn:Hps; [|done].
    intros [= <- <- <-]. destruct (IH _ _ _ eq_refl) as [HF Hr].
    destruct (Citadel_merge_paint_spec _ _ _ _ Hp) as [H1 H2].
    split; [by constructor|]. simpl. by rewrite H2, Hr.
Qed.

Lemma hex_set_same_but (p p' : dict) :
  (p' = p ∨ ∃ h, Py.truthy h = true ∧ p' = <["hex" := VStr h]> p) →
  same_but ["hex"] p p'.
Proof.
  intros [->|(h&_&->)]; [apply same_but_refl|].
  apply same_but_insert; [set_solver|apply same_but_refl].
Qed.

Lemma Citadel_merge_file_spec f :
  file_frame ["hex"] f (Citadel.merge_file lk f).1
  ∧ (Citadel.merge_file lk (Citadel.merge_file lk f).1).1 = (Citadel.merge_file lk f).1
  ∧ default 0%nat (Citadel.merge_file lk (Citadel.merge_file lk f).1).2 = 0%nat.
Proof.
  destruct (Citadel.merge_file lk f) as [f1 r1] eqn:E1. cbn [fst snd].
  unfold Citadel.merge_file in E1.
  destruct (paint_list f) as [ps|] eqn:Hf.
  - destruct (Citadel.merge_paints lk ps) as [[[ps' u] nf]|] eqn:Hps;
      injection E1 as <- <-.
    + destruct (Citadel_merge_paints_spec _ _ _ _ Hps) as [HF Hr].
      assert (paint_list (with_paints f ps') = Some ps') as Hpl
        by (destruct f; done).
      unfold Citadel.merge_file. rewrite Hpl, Hr. cbn [fst snd].
      split; [|by destruct f].
      apply file_frame_with_paints with ps; [done|].
      eapply Forall2_impl; [done|]. apply hex_set_same_but.
    + unfold Citadel.merge_file. rewrite Hf, Hps.
      split; [apply file_frame_refl|done].
  - injection E1 as <- <-. unfold Citadel.merge_file. rewrite Hf.
    split; [apply file_frame_refl|done].
Qed.
End citadel_merge.

(** X7: the batch merge of Citadel changes nothing but the [hex] of
    entries, and it is idempotent: after a first run, a second run with the
    same scraped paints leaves every file of the directory as it is and
    reports a total of zero updates. *)
Theorem Citadel_batch_update_json_files_rerun (directory : list catalogue_file)
    (scraped_data : list Citadel.hit) :
  let first := Citadel.batch_update_json_files directory scraped_data in
  let second := Citadel.batch_update_json_files first.1.*1 scraped_data in
  Forall2 (file_frame ["hex"]) directory first.1.*1
  ∧ second.1.*1 = first.1.*1 ∧ second.2 = 0%nat.
Proof.
  unfold Citadel.batch_update_json_files. cbn [fst snd].
  rewrite <- !list_fmap_compose. split; [|split].
  - apply Forall2_fmap_r, Forall_Forall2_diag, Forall_forall.
    intros f _. simpl. apply Citadel_merge_file_spec.
  - apply list_fmap_ext. intros i f _. simpl. apply Citadel_merge_file_spec.
  - apply sum_list_zero, Forall_fmap, Forall_forall. intros f _. simpl.
    apply Citadel_merge_file_spec.
Qed.

(** ** Deduplication of a listing page *)

Section dedupe.
Abbreviation dedupe_from seen l := (foldl AK.dedupe_step (seen, []) l).2.

Lemma dedupe_step_eq seen res p :
  AK.dedupe_step (seen, res) p
  = if Py.truthy (sku_or_empty p) && bool_decide (sku_or_empty p ∈ seen)
    then (seen, res)
    else (if Py.truthy (sku_or_empty p) then {[sku_or_empty p]} ∪ seen else seen,
          res ++ [p]).
Proof. reflexivity. Qed.

Lemma dedupe_step_acc seen res l :
  (foldl AK.dedupe_step (seen, res) l).2 = res ++ dedupe_from seen l.
Proof.
  revert seen res. induction l as [|p l IH]; intros seen res; cbn [foldl].
  - by rewrite app_nil_r.
  - rewrite !dedupe_step_eq.
    destruct (Py.truthy _ && bool_decide _); [apply IH|].
    rewrite IH, (IH _ ([] ++ [p])). by rewrite <- !app_assoc.
Qed.

Lemma dedupe_from_cons seen p l :
  dedupe_from seen (p :: l)
  = if Py.truthy (sku_or_empty p) && bool_decide (sku_or_empty p ∈ seen)
    then dedupe_from seen l
    else p :: dedupe_from (if Py.truthy (sku_or_empty p)
                           then {[sku_or_empty p]} ∪ seen else seen) l.
Proof.
  cbn [foldl]. rewrite dedupe_step_eq.
  destruct (Py.truthy _ && bool_decide _); [done|].
  by rewrite dedupe_step_acc.
Qed.

Lemma dedupe_from_sublist seen l : sublist (dedupe_from seen l) l.
Proof.
  revert seen. induction l as [|p l IH]; intros seen; [done|].
  rewrite dedupe_from_cons. destruct (_ && _).
  - by apply sublist_cons.
  - by apply sublist_skip.
Qed.

Lemma dedupe_from_fresh seen l q :
  q ∈ dedupe_from seen l → Py.truthy (sku_or_empty q) = true →
  sku_or_empty q ∉ seen.
Proof.
  revert seen. induction l as [|p l IH]; intros seen; [by intros ?%elem_of_nil|].
  rewrite dedupe_from_cons.
  destruct (Py.truthy (sku_or_empty p)) eqn:Ht; simpl.
  - case_bool_decide as Hin; [apply IH|].
    intros [->|Hq]%elem_of_cons Htq; [done|].
    specialize (IH _ Hq Htq). set_solver.
  - intros [->|Hq]%elem_of_cons Htq; [congruence|]. by apply IH.
Qed.

Lemma dedupe_from_NoDup seen l :
  NoDup (filter (λ s, Py.truthy s = true) (sku_or_empty <$> dedupe_from seen l)).
Proof.
  revert seen. induction l as [|p l IH]; intros seen; [constructor|].
  rewrite dedupe_from_cons.
  destruct (Py.truthy (sku_or_empty p)) eqn:Ht; cbn [andb].
  - case_bool_decide as Hin; [apply IH|].
    rewrite fmap_cons, filter_cons_True by done. constructor; [|apply IH].
    intros Hq%list_elem_of_filter. destruct Hq as [Htq Hq].
    apply list_elem_of_fmap in Hq as (q&Heq&Hq).
    rewrite Heq in Htq. apply dedupe_from_fresh in Hq; [|done]. set_solver.
  - rewrite fmap_cons, filter_cons_False by (by rewrite Ht). apply IH.
Qed.

Lemma dedupe_from_complete seen l p :
  p ∈ l →
  p ∈ dedupe_from seen l
  ∨ (Py.truthy (sku_or_empty p) = true
     ∧ (sku_or_empty p ∈ seen
        ∨ ∃ q, q ∈ dedupe_from seen l ∧ sku_or_empty q = sku_or_empty p)).
Proof.
  revert seen. induction l as [|x l IH]; intros seen; [by intros ?%elem_of_nil|].
  rewrite dedupe_from_cons. intros [->|Hp]%elem_of_cons.
  - destruct (Py.truthy (sku_or_empty x)) eqn:Ht; simpl.
    + case_bool_decide; [by right; split; [|left]|left; set_solver].
    + left. set_solver.
  - destruct (Py.truthy (sku_or_empty x)) eqn:Ht; simpl.
    + case_bool_decide; [by apply IH|].
      destruct (IH ({[sku_or_empty x]} ∪ seen) Hp) as [?|[Htp [Hin|(q&?&?)]]].
      * left. set_solver.
      * right. split; [done|].
        apply elem_of_union in Hin as [->%elem_of_singleton|?]; [|by left].
        right. exists x. set_solver.
      * right. split; [done|]. right. exists q. set_solver.
    + destruct (IH seen Hp) as [?|[Htp [Hin|(q&?&?)]]].
      * left. set_solver.
      * right. by split; [|left].
      * right. split; [done|]. right. exists q. set_solver.
Qed.

Lemma dedupe_from_idemp seen l :
  dedupe_from seen (dedupe_from seen l) = dedupe_from seen l.
Proof.
  revert seen. induction l as [|p l IH]; intros seen; [done|].
  rewrite dedupe_from_cons.
  destruct (Py.truthy (sku_or_empty p) && bool_decide (sku_or_empty p ∈ seen)) eqn:E;
    [apply IH|].
  by rewrite dedupe_from_cons, E, IH.
Qed.
End dedupe.

(** X8: [dedupe_by_name] of AK Interactive keeps the records in their
    order and drops only later records with a SKU already seen: no two
    records it returns share a (non-empty) SKU, every record without SKU is
    returned, every SKU of the listing is still there, and deduplicating
    again changes nothing. *)
Theorem dedupe_by_name_spec (paints : list record) :
  sublist (AK.dedupe_by_name paints) paints
  ∧ NoDup (filter (λ s, Py.truthy s = true)
             (sku_or_empty <$> AK.dedupe_by_name paints))
  ∧ (∀ p, p ∈ paints →
       p ∈ AK.dedupe_by_name paints
       ∨ (Py.truthy (sku_or_empty p) = true
          ∧ ∃ q, q ∈ AK.dedupe_by_name paints ∧ sku_or_empty q = sku_or_empty p))
  ∧ AK.dedupe_by_name (AK.dedupe_by_name paints) = AK.dedupe_by_name paints.
Proof.
  unfold AK.dedupe_by_name. split; [apply dedupe_from_sublist|].
  split; [apply dedupe_from_NoDup|]. split; [|apply dedupe_from_idemp].
  intros p Hp. destruct (dedupe_from_complete ∅ _ _ Hp) as [?|[? [?|?]]];
    [by left|set_solver|by right].
Qed.

(** ** Sampling a single-colour image *)

Lemma mean_color_const (c : Z * Z * Z) (colors : list (Z * Z * Z)) :
  colors ≠ [] → Forall (λ x, x = c) colors → Sampler.mean_color colors = c.
Proof.
  intros Hne Hall. unfold Sampler.mean_color. destruct c as [[r g] b].
  assert (length ((λ x : Z * Z * Z, x.1.1) <$> colors) = length colors) as H1
    by apply length_fmap.
  assert (length ((λ x : Z * Z * Z, x.1.2) <$> colors) = length colors) as H2
    by apply length_fmap.
  assert (length (snd <$> colors) = length colors) as H3 by apply length_fmap.
  rewrite <- H1 at 1. rewrite <- H2 at 1. rewrite <- H3.
  f_equal; [f_equal|].
  - apply Z.le_antisymm; apply (mean_bounds r r);
      try (by destruct colors); apply Forall_fmap;
      (eapply Forall_impl; [done|]); intros ? ->; simpl; lia.
  - apply Z.le_antisymm; apply (mean_bounds g g);
      try (by destruct colors); apply Forall_fmap;
      (eapply Forall_impl; [done|]); intros ? ->; simpl; lia.
  - apply Z.le_antisymm; apply (mean_bounds b b);
      try (by destruct colors); apply Forall_fmap;
      (eapply Forall_impl; [done|]); intros ? ->; simpl; lia.
Qed.

Section uniform.
Variables (weight bonus : Q) (img : image) (c : Z * Z * Z).
Hypothesis width_pos : 0 < width img.
Hypothesis height_pos : 0 < height img.
Hypothesis img_uniform : uniform img c.

Lemma region_loop_uniform regions st :
  st.1 = None ∨ st.1 = Some c →
  ∃ st', Sampler.region_loop weight bonus img st regions = Some st'
         ∧ (st'.1 = None ∨ st'.1 = Some c).
Proof.
  revert st. induction regions as [|xy regions IH]; intros st Hst.
  - by exists st.
  - simpl. destruct (region_step_Some weight bonus img width_pos height_pos st xy)
      as (colors&_&Hne&Hall&st'&->&Hst').
    apply IH. destruct Hst' as [->|[_ ->]]; [done|]. right. f_equal.
    apply mean_color_const; [done|].
    eapply Forall_impl; [exact Hall|].
    intros x (px&py&?&?&->). by apply img_uniform.
Qed.

Lemma sample_uniform regions fallback :
  0 ≤ fallback.1 < width img → 0 ≤ fallback.2 < height img →
  Sampler.sample weight bonus regions fallback img = Some (hex_color c).
Proof.
  intros Hx Hy. unfold Sampler.sample.
  destruct (region_loop_uniform regions (None, (-1)%Q)) as ([b q]&->&Hb);
    [by left|].
  simpl in Hb. destruct Hb as [->| ->]; [|done].
  unfold getpixel.
  repeat (rewrite (proj2 (Z.leb_le _ _)) by lia).
  repeat (rewrite (proj2 (Z.ltb_lt _ _)) by lia). simpl.
  by rewrite img_uniform.
Qed.
End uniform.

(** X9: on a decoded image of a single colour the samplers return that
    colour, whatever the range hint: whether the candidates pass the
    brightness gate or the fallback pixel is taken, the mean of a
    neighbourhood and the fallback pixel are the colour of the image. *)
Theorem sample_image_uniform (img : image) (c : Z * Z * Z) (range_hint : string) :
  0 < width img → 0 < height img → uniform img c →
  AK.sample_image img range_hint = Some (hex_color c)
  ∧ Vallejo.sample_image img = Some (hex_color c).
Proof.
  intros Hw Hh Hu.
  destruct (AK_fallback_in_range _ _ Hw Hh) as [Hax Hay].
  destruct (Vallejo_fallback_in_range _ _ Hw Hh) as [Hvx Hvy].
  split; by apply sample_uniform.
Qed.

Lemma sample_image_uniform_witness :
  AK.sample_image Sample.red_photo "deep-shades" = Some (hex_color (200, 30, 10))
  ∧ Vallejo.sample_image Sample.red_photo = Some (hex_color (200, 30, 10)).
Proof.
  apply (sample_image_uniform Sample.red_photo (200, 30, 10) "deep-shades").
  - reflexivity.
  - reflexivity.
  - intros x y _ _. reflexivity.
Defined.

(** ** The shape of an extracted colour *)

Lemma upper_char_hexdigit c : Py.is_hexdigit (Py.upper_char c) = Py.is_hexdigit c.
Proof. by destruct c as [[] [] [] [] [] [] [] []]. Qed.

Lemma sforall_upper_hexdigit s :
  Py.sforall Py.is_hexdigit (Py.upper s) = Py.sforall Py.is_hexdigit s.
Proof.
  induction s as [|c s IH]; [done|].
  change (Py.upper (String c s)) with (String (Py.upper_char c) (Py.upper s)).
  simpl. by rewrite upper_char_hexdigit, IH.
Qed.

Lemma length_upper s : String.length (Py.upper s) = String.length s.
Proof.
  induction s as [|c s IH]; [done|].
  change (Py.upper (String c s)) with (String (Py.upper_char c) (Py.upper s)).
  simpl. by rewrite IH.
Qed.

(** Six hexadecimal digits, in upper case. *)
Lemma hex6_upper h :
  String.length h = 6%nat → Py.sforall Py.is_hexdigit h = true →
  is_hex_color (String "#"%char (Py.upper h)) = true
  ∧ Py.upper (String "#"%char (Py.upper h)) = String "#"%char (Py.upper h).
Proof.
  intros Hl Hh. split.
  - simpl. by rewrite length_upper, Hl, sforall_upper_hexdigit, Hh.
  - change (Py.upper (String "#"%char (Py.upper h)))
      with (String "#"%char (Py.upper (Py.upper h))).
    by rewrite upper_idemp.
Qed.

Lemma hex6_here_shape s color rest :
  Citadel.hex6_here s = Some (color, rest) →
  ∃ h, color = String "#"%char h ∧ String.length h = 6%nat
       ∧ Py.sforall Py.is_hexdigit h = true.
Proof.
  unfold Citadel.hex6_here. destruct s as [|c r]; [done|].
  destruct (Ascii.eqb c "#") eqn:Ec.
  - apply Ascii.eqb_eq in Ec as ->.
    destruct (_ && _) eqn:E; [|done]. intros [= <- _].
    apply andb_true_iff in E as [E1 E2]. apply Nat.eqb_eq in E1. by eexists.
  - intros H. exfalso. revert H Ec.
    by destruct c as [[] [] [] [] [] [] [] []].
Qed.

Lemma fill_here_shape s color rest :
  Citadel.fill_here s = Some (color, rest) →
  ∃ h, color = String "#"%char h ∧ String.length h = 6%nat
       ∧ Py.sforall Py.is_hexdigit h = true.
Proof.
  unfold Citadel.fill_here. destruct (Py.startswith _ s); [|done].
  destruct (Citadel.hex6_here _) as [[c r]|] eqn:E; [|done].
  destruct r as [|q r]; [done|].
  intros H. assert (color = c) as ->.
  { revert H. by destruct q as [[] [] [] [] [] [] [] []]; intros [= -> _]. }
  by eapply hex6_here_shape.
Qed.

Lemma last_fill_in_tag_shape s color rest :
  Citadel.last_fill_in_tag s = Some (color, rest) →
  ∃ h, color = String "#"%char h ∧ String.length h = 6%nat
       ∧ Py.sforall Py.is_hexdigit h = true.
Proof.
  induction s as [|c s IH]; [done|]. cbn [Citadel.last_fill_in_tag].
  case_bool_decide; [done|].
  destruct (Citadel.last_fill_in_tag s) as [m|].
  - intros [= ->]. by apply IH.
  - apply fill_here_shape.
Qed.

Lemma rect_here_shape s color rest :
  Citadel.rect_here s = Some (color, rest) →
  ∃ h, color = String "#"%char h ∧ String.length h = 6%nat
       ∧ Py.sforall Py.is_hexdigit h = true.
Proof.
  unfold Citadel.rect_here. destruct (Py.startswith _ s); [|done].
  apply last_fill_in_tag_shape.
Qed.

Lemma findall_go_Forall (here : string → option (string * string))
    (P : string → Prop) fuel s :
  (∀ s g r, here s = Some (g, r) → P g) →
  Forall P (Citadel.findall_go here fuel s).
Proof.
  intros Hhere. revert s. induction fuel as [|fuel IH]; intros s; [constructor|].
  cbn [Citadel.findall_go]. destruct (here s) as [[g r]|] eqn:E.
  - constructor; [by eapply Hhere|apply IH].
  - destruct s; [constructor|apply IH].
Qed.

Lemma first_rect_fill_shape s color :
  Citadel.first_rect_fill s = Some color →
  ∃ h, color = String "#"%char h ∧ String.length h = 6%nat
       ∧ Py.sforall Py.is_hexdigit h = true.
Proof.
  induction s as [|c s IH]; cbn [Citadel.first_rect_fill].
  - destruct (Citadel.rect_here _) as [[g r]|] eqn:E; [|done].
    intros [= <-]. by eapply rect_here_shape.
  - destruct (Citadel.rect_here _) as [[g r]|] eqn:E; [|done].
    intros [= <-]. by eapply rect_here_shape.
Qed.

Lemma pot_search_shape s color :
  Citadel.pot_search s = Some color →
  ∃ h, color = String "#"%char h ∧ String.length h = 6%nat
       ∧ Py.sforall Py.is_hexdigit h = true.
Proof.
  assert (∀ s, Citadel.pot_here s = Some color →
               ∃ h, color = String "#"%char h ∧ String.length h = 6%nat
                    ∧ Py.sforall Py.is_hexdigit h = true) as Hhere.
  { intros s'. unfold Citadel.pot_here.
    destruct (Citadel.clip_here s') as [r|]; [|done].
    destruct (Citadel.after_gt r) as [r'|]; [|done].
    apply first_rect_fill_shape. }
  induction s as [|c s IH]; cbn [Citadel.pot_search].
  - destruct (Citadel.pot_here _) as [g|] eqn:E; [|done].
    intros [= <-]. by apply Hhere in E.
  - destruct (Citadel.pot_here _) as [g|] eqn:E; [|done].
    intros [= <-]. by apply Hhere in E.
Qed.

Lemma take_hex_run r :
  String.length (Py.take (Citadel.hex_run r) r) = Citadel.hex_run r
  ∧ Py.sforall Py.is_hexdigit (Py.take (Citadel.hex_run r) r) = true.
Proof.
  induction r as [|c r [IH1 IH2]]; [done|]. simpl.
  destruct (Py.is_hexdigit c) eqn:E; [|done]. simpl. by rewrite IH1, E, IH2.
Qed.

Lemma hex_token_here_shape s g rest :
  Citadel.hex_token_here s = Some (g, rest) →
  Py.sforall Py.is_hexdigit g = true
  ∧ (String.length g = 6%nat ∨ String.length g = 3%nat).
Proof.
  unfold Citadel.hex_token_here. destruct s as [|c r]; [done|].
  destruct (Ascii.eqb c "#") eqn:Ec.
  - apply Ascii.eqb_eq in Ec as ->.
    destruct (take_hex_run r) as [Hl Hh].
    destruct (_ || _) eqn:E; [|done]. intros [= <- _]. split; [done|].
    rewrite Hl. apply orb_true_iff in E as [E|E]; apply bool_decide_eq_true in E;
      [by left|by right].
  - intros H. exfalso. revert H Ec.
    by destruct c as [[] [] [] [] [] [] [] []].
Qed.

Lemma lstrip_hash_hexdigits h :
  Py.sforall Py.is_hexdigit h = true → Citadel.lstrip_hash h = h.
Proof.
  destruct h as [|c h]; [done|]. simpl. intros H%andb_true_iff. destruct H as [H _].
  revert H. by destruct c as [[] [] [] [] [] [] [] []].
Qed.

Lemma double_chars_shape h :
  String.length (Citadel.double_chars h) = (2 * String.length h)%nat
  ∧ Py.sforall Py.is_hexdigit (Citadel.double_chars h) = Py.sforall Py.is_hexdigit h.
Proof.
  induction h as [|c h [IH1 IH2]]; [done|]. simpl. rewrite IH1, IH2.
  split; [lia|]. by destruct (Py.is_hexdigit c).
Qed.

(** A normalised colour token: six hexadecimal digits in upper case. *)
Lemma normalize_color_shape m :
  (∃ h, m = String "#"%char h ∧ String.length h = 6%nat
        ∧ Py.sforall Py.is_hexdigit h = true)
  ∨ (Py.sforall Py.is_hexdigit m = true
     ∧ (String.length m = 6%nat ∨ String.length m = 3%nat)) →
  ∃ h, Citadel.normalize_color m = Py.upper h ∧ String.length h = 6%nat
       ∧ Py.sforall Py.is_hexdigit h = true.
Proof.
  unfold Citadel.normalize_color.
  intros [(h&->&Hl&Hh)|(Hh&[Hl|Hl])].
  - change (Citadel.lstrip_hash (String "#" h)) with (Citadel.lstrip_hash h).
    rewrite lstrip_hash_hexdigits, Hl by done. by exists h.
  - rewrite lstrip_hash_hexdigits, Hl by done. by exists m.
  - rewrite lstrip_hash_hexdigits, Hl by done. simpl.
    destruct (double_chars_shape m) as [D1 D2].
    exists (Citadel.double_chars m). split; [done|]. rewrite D1, D2, Hl. done.
Qed.

Lemma candidates_shape svg_content :
  Forall (λ c, ∃ h, c = Py.upper h ∧ String.length h = 6%nat
                    ∧ Py.sforall Py.is_hexdigit h = true)
    (Citadel.candidates svg_content).
Proof.
  unfold Citadel.candidates. cbv zeta. apply Forall_fmap.
  assert (Forall (λ m, ∃ h, m = String "#"%char h ∧ String.length h = 6%nat
                            ∧ Py.sforall Py.is_hexdigit h = true)
            (Citadel.findall Citadel.rect_here svg_content)) as Hr.
  { apply findall_go_Forall. intros s g r. apply rect_here_shape. }
  assert (Forall (λ m, Py.sforall Py.is_hexdigit m = true
                       ∧ (String.length m = 6%nat ∨ String.length m = 3%nat))
            (Citadel.findall Citadel.hex_token_here svg_content)) as Ht.
  { apply findall_go_Forall. intros s g r. apply hex_token_here_shape. }
  destruct (Citadel.findall Citadel.rect_here svg_content) as [|x l].
  - eapply Forall_impl; [exact Ht|]. intros m Hm. simpl.
    apply normalize_color_shape. by right.
  - eapply Forall_impl; [exact Hr|]. intros m Hm. simpl.
    apply normalize_color_shape. by left.
Qed.

Lemma extract_hex_from_svg_upper_hex (svg_content hex : string) :
  Citadel.extract_hex_from_svg svg_content = Some hex →
  is_hex_color hex = true ∧ Py.upper hex = hex.
Proof.
  unfold Citadel.extract_hex_from_svg.
  destruct (Citadel.pot_search svg_content) as [color|] eqn:Hpot.
  - intros [= <-]. apply pot_search_shape in Hpot as (h&->&Hl&Hh).
    change (Py.upper (String "#" h)) with (String "#"%char (Py.upper h)).
    by apply hex6_upper.
  - cbv zeta.
    assert (∀ color, color ∈ Citadel.candidates svg_content →
              is_hex_color (String "#"%char color) = true
              ∧ Py.upper (String "#"%char color) = String "#"%char color) as Hc.
    { intros color Hin. pose proof (candidates_shape svg_content) as Hall.
      rewrite Forall_forall in Hall. destruct (Hall _ Hin) as (h&->&Hl&Hh).
      by apply hex6_upper. }
    destruct (Citadel.findall Citadel.hex_token_here svg_content) as [|t ts] eqn:Et;
      destruct (Citadel.findall Citadel.rect_here svg_content) as [|r rs] eqn:Er;
      [done|..].
    all: assert (Citadel.candidates svg_content ≠ []) as Hne
           by (unfold Citadel.candidates; by rewrite Et, Er).
    all: destruct (most_common_pick _ Hne) as (c&Hin&Hpick&Hmc&_).
    all: destruct (list_find _ _) as [[i [color n]]|];
           [|destruct (Citadel.most_common _) as [|[color n] ?]; [done|]];
           simpl in Hpick; subst color; intros [= <-]; by apply Hc.
Qed.

(** X10: whatever the markup, a colour that [extract_hex_from_svg] returns
    is a [#] followed by six hexadecimal digits, with its letters in upper
    case: three-digit tokens are doubled and lower case is raised on every
    path of the function. *)
Theorem extract_hex_from_svg_shape (svg_content hex : string) :
  Citadel.extract_hex_from_svg svg_content = Some hex →
  is_hex_color hex = true ∧ Py.upper hex = hex.
Proof. apply extract_hex_from_svg_upper_hex. Qed.

Lemma extract_hex_from_svg_shape_witness :
  is_hex_color "#A1B2C3" = true ∧ Py.upper "#A1B2C3" = "#A1B2C3".
Proof.
  apply (extract_hex_from_svg_shape Sample.paths_svg "#A1B2C3"). reflexivity.
Defined.

(** ** Cross-referencing the markers *)

Lemma rc_name_to_hex_truthy l k h :
  AK.rc_name_to_hex l !! k = Some h → Py.truthy h = true.
Proof.
  unfold AK.rc_name_to_hex. induction l as [|x l IH] using rev_ind; [done|].
  rewrite foldl_app. simpl.
  destruct (Py.truthy (AK.rc_stripped_title x) && otruthy (rget x "hex")) eqn:E;
    [|done].
  destruct (decide (AK.rc_name x = k)) as [->|Hne].
  - rewrite lookup_insert_eq. intros [= <-].
    apply andb_true_iff in E as [_ E]. by destruct (rget x "hex").
  - by rewrite lookup_insert_ne.
Qed.

Lemma rget_insert_eq (p : record) k v : rget (<[k:=v]> p) k = v.
Proof. unfold rget. by rewrite lookup_insert_eq. Qed.

Lemma rc_name_insert_hex (p : record) v : AK.rc_name (<["hex" := v]> p) = AK.rc_name p.
Proof.
  unfold AK.rc_name, AK.rc_stripped_title, rget. by rewrite lookup_insert_ne.
Qed.

Section cross_reference.
Variable lk : gmap string string.
Hypothesis lk_truthy : ∀ k h, lk !! k = Some h → Py.truthy h = true.

Lemma cross_reference_marker_spec marker :
  let r := AK.cross_reference_marker lk marker in
  same_but ["hex"] marker r.1
  ∧ (otruthy (rget marker "hex") = true → r = (marker, false))
  ∧ (r.2 = true → otruthy (rget r.1 "hex") = true)
  ∧ (r.2 = false → r.1 = marker)
  ∧ AK.cross_reference_marker lk r.1 = (r.1, false).
Proof.
  cbv zeta. destruct (AK.cross_reference_marker lk marker) as [m' b] eqn:E.
  unfold AK.cross_reference_marker in E. cbn [fst snd].
  destruct (otruthy (rget marker "hex")) eqn:Hh; simpl in E.
  - injection E as <- <-.
    split; [apply same_but_refl|]. split; [done|]. split; [done|].
    split; [done|]. unfold AK.cross_reference_marker. by rewrite Hh.
  - destruct (lk !! AK.rc_name marker) as [h|] eqn:Hl; injection E as <- <-.
    + split; [apply same_but_insert; [set_solver|apply same_but_refl]|].
      split; [done|]. split; [|split; [done|]].
      * intros _. rewrite rget_insert_eq. simpl. by eapply lk_truthy.
      * unfold AK.cross_reference_marker. rewrite rget_insert_eq. simpl.
        by erewrite lk_truthy.
    + split; [apply same_but_refl|]. split; [done|]. split; [done|].
      split; [done|]. unfold AK.cross_reference_marker. by rewrite Hh, Hl.
Qed.
End cross_reference.

Lemma cross_reference_idemp markers real_colors :
  AK.cross_reference_rc_markers
    (AK.cross_reference_rc_markers markers real_colors).1 real_colors
  = ((AK.cross_reference_rc_markers markers real_colors).1, 0%nat).
Proof.
  unfold AK.cross_reference_rc_markers. cbn [fst snd].
  set (lk := AK.rc_name_to_hex real_colors).
  assert (∀ k h, lk !! k = Some h → Py.truthy h = true) as Hlk
    by apply rc_name_to_hex_truthy.
  induction markers as [|m ms IH]; [done|].
  rewrite !fmap_cons.
  destruct (cross_reference_marker_spec lk Hlk m) as (_&_&_&_&Hm).
  rewrite Hm. cbn [fst snd]. injection IH as IH1 IH2.
  rewrite filter_cons_False by done. f_equal; [|done]. f_equal. exact IH1.
Qed.

(** X11: [cross_reference_rc_markers] returns the markers in their number
    and order; it changes no key of a marker other than [hex], leaves a
    marker that has a colour as it is, gives a matched marker a non-empty
    colour, and counts at most one match per marker.  Cross-referencing
    the result again changes nothing and counts nothing. *)
Theorem cross_reference_rc_markers_spec (marker_paints real_colors_paints : list record) :
  let result := AK.cross_reference_rc_markers marker_paints real_colors_paints in
  Forall2 (λ m m', same_but ["hex"] m m'
                   ∧ (otruthy (rget m "hex") = true → m' = m)
                   ∧ (m' ≠ m → otruthy (rget m' "hex") = true))
    marker_paints result.1
  ∧ (result.2 ≤ length marker_paints)%nat
  ∧ AK.cross_reference_rc_markers result.1 real_colors_paints = (result.1, 0%nat).
Proof.
  cbv zeta. split; [|split; [|apply cross_reference_idemp]].
  - unfold AK.cross_reference_rc_markers. cbn [fst].
    rewrite <- list_fmap_compose. apply Forall2_fmap_r, Forall_Forall2_diag.
    apply Forall_forall. intros m _. simpl.
    destruct (cross_reference_marker_spec _ (rc_name_to_hex_truthy real_colors_paints) m)
      as (H1&H2&H3&H4&_).
    split; [done|]. split; [by intros ->%H2|].
    intros Hne. destruct (AK.cross_reference_marker _ m) as [m' []]; simpl in *.
    + by apply H3.
    + by destruct Hne, H4.
  - unfold AK.cross_reference_rc_markers. cbn [snd].
    etrans; [apply length_filter|]. by rewrite length_fmap.
Qed.

(** ** The ranges of a full scrape *)

Section dict.
Context {V : Type}.

Lemma dict_get_fmap (g : string → V) (ks : list string) k :
  AK.dict_get ((λ k, (k, g k)) <$> ks) k
  = if bool_decide (k ∈ ks) then Some (g k) else None.
Proof.
  unfold AK.dict_get. induction ks as [|k' ks IH].
  - by rewrite bool_decide_false by apply not_elem_of_nil.
  - rewrite fmap_cons. destruct (decide (k' = k)) as [->|Hne].
    + rewrite filter_cons_True by done.
      by rewrite bool_decide_true by apply list_elem_of_here.
    + rewrite filter_cons_False by done. rewrite IH.
      apply (f_equal (λ b : bool, if b then Some (g k) else None)).
      apply bool_decide_ext. set_solver.
Qed.

Lemma fmap_fst_pair (g : string → V) (ks : list string) :
  ((λ k, (k, g k)) <$> ks).*1 = ks.
Proof. induction ks as [|k ks IH]; [done|]. by rewrite !fmap_cons, IH. Qed.

Lemma dict_set_fmap (g : string → V) (ks : list string) k v :
  k ∈ ks →
  AK.dict_set k v ((λ k, (k, g k)) <$> ks)
  = (λ k', (k', if bool_decide (k' = k) then v else g k')) <$> ks.
Proof.
  intros Hk. unfold AK.dict_set.
  rewrite bool_decide_true by (by rewrite fmap_fst_pair).
  rewrite <- list_fmap_compose. apply list_fmap_ext. intros i k' _. simpl.
  by case_bool_decide; subst.
Qed.

Lemma foldl_dict_set (g : string → V) (ks done_ks : list string) :
  NoDup (done_ks ++ ks) →
  foldl (λ d k, AK.dict_set k (g k) d) ((λ k, (k, g k)) <$> done_ks) ks
  = (λ k, (k, g k)) <$> (done_ks ++ ks).
Proof.
  revert done_ks. induction ks as [|k ks IH]; intros done_ks Hnd.
  - by rewrite app_nil_r.
  - cbn [foldl]. unfold AK.dict_set at 2.
    rewrite bool_decide_false.
    + rewrite (cons_middle k done_ks ks), (assoc_L (++)) in Hnd |- *.
      rewrite <- (IH _ Hnd). by rewrite fmap_app.
    + rewrite fmap_fst_pair.
      apply NoDup_app in Hnd as (_&Hd&_). intros Hin.
      apply (Hd k Hin). by left.
Qed.
End dict.

Lemma COLOR_RANGES_NoDup : NoDup AK.COLOR_RANGES.*1.
Proof.
  apply (bool_decide_unpack (NoDup AK.COLOR_RANGES.*1)).
  vm_compute. exact I.
Qed.

Lemma COLOR_RANGES_markers :
  "rc-markers" ∈ AK.COLOR_RANGES.*1 ∧ "real-colors" ∈ AK.COLOR_RANGES.*1.
Proof.
  split.
  - apply (bool_decide_unpack ("rc-markers" ∈ AK.COLOR_RANGES.*1)).
    vm_compute. exact I.
  - apply (bool_decide_unpack ("real-colors" ∈ AK.COLOR_RANGES.*1)).
    vm_compute. exact I.
Qed.

Lemma COLOR_RANGES_names :
  AK.COLOR_RANGES
  = (λ k, (k, AK.table_get AK.COLOR_RANGES k EmptyString)) <$> AK.COLOR_RANGES.*1.
Proof. vm_compute. reflexivity. Qed.

Lemma cross_reference_all_fmap (g : string → string * list record) ks :
  "rc-markers" ∈ ks → "real-colors" ∈ ks →
  AK.cross_reference_all ((λ k, (k, g k)) <$> ks)
  = (λ k, (k, referenced g k)) <$> ks.
Proof.
  intros Hm Hr. unfold AK.cross_reference_all.
  rewrite !(dict_get_fmap g), !bool_decide_true by done.
  unfold referenced.
  destruct (g "rc-markers") as [name markers].
  destruct (g "real-colors") as [name' real_colors]. cbn [fst snd].
  by rewrite (dict_set_fmap g) by exact Hm.
Qed.

Lemma referenced_idemp g k : referenced (referenced g) k = referenced g k.
Proof.
  unfold referenced. case_bool_decide; [|done].
  rewrite (bool_decide_true ("rc-markers" = "rc-markers")) by done.
  rewrite (bool_decide_false ("real-colors" = "rc-markers")) by done.
  cbn [fst snd]. by rewrite cross_reference_idemp.
Qed.

Lemma scrape_all_ranges_sequential fetch fetch_image set_skus sample_colors
    range_workers completion :
  (1 <? range_workers) = false →
  AK.scrape_all_ranges fetch fetch_image set_skus sample_colors range_workers
    completion
  = (λ k, (k, referenced
                (λ k, (AK.table_get AK.COLOR_RANGES k EmptyString,
                       AK.scrape_color_range
                         (λ page, fetch (AK.get_page_url k page))
                         fetch_image set_skus k sample_colors)) k))
    <$> AK.COLOR_RANGES.*1.
Proof.
  intros Hw. unfold AK.scrape_all_ranges. rewrite Hw.
  set (g := λ k : string,
              (AK.table_get AK.COLOR_RANGES k EmptyString,
               AK.scrape_color_range (λ page, fetch (AK.get_page_url k page))
                 fetch_image set_skus k sample_colors)).
  destruct COLOR_RANGES_markers as [Hm Hr].
  rewrite <- (cross_reference_all_fmap g) by done.
  apply (f_equal AK.cross_reference_all).
  rewrite COLOR_RANGES_names at 1. rewrite foldl_fmap.
  apply (foldl_dict_set g _ []), COLOR_RANGES_NoDup.
Qed.

Lemma scrape_all_ranges_parallel fetch fetch_image set_skus sample_colors
    range_workers completion :
  (1 <? range_workers) = true → completion ≡ₚ AK.COLOR_RANGES.*1 →
  AK.scrape_all_ranges fetch fetch_image set_skus sample_colors range_workers
    completion
  = (λ k, (k, referenced
                (λ k, (AK.table_get AK.COLOR_RANGES k EmptyString,
                       AK.scrape_color_range
                         (λ page, fetch (AK.get_page_url k page))
                         fetch_image set_skus k sample_colors)) k))
    <$> completion.
Proof.
  intros Hw Hp. unfold AK.scrape_all_ranges. rewrite Hw.
  set (g := λ k : string,
              (AK.table_get AK.COLOR_RANGES k EmptyString,
               AK.scrape_color_range (λ page, fetch (AK.get_page_url k page))
                 fetch_image set_skus k sample_colors)).
  assert ("rc-markers" ∈ completion ∧ "real-colors" ∈ completion) as [Hm Hr].
  { rewrite Hp. apply COLOR_RANGES_markers. }
  rewrite (foldl_dict_set g _ [])
    by (rewrite app_nil_l, Hp; apply COLOR_RANGES_NoDup).
  rewrite app_nil_l, (cross_reference_all_fmap g) by done.
  rewrite (cross_reference_all_fmap (referenced g)) by done.
  apply list_fmap_ext. intros i k _. cbv beta. by rewrite referenced_idemp.
Qed.

(** X12: [scrape_all_ranges] with several range workers returns the ranges
    of the run with one worker, each with the same name and the same
    paints, in another order: the order in which the scrapes complete,
    where the run with one worker has the order of [COLOR_RANGES].  The
    cross-reference of the markers, done twice in the branch for several
    workers, changes nothing the second time. *)
Theorem scrape_all_ranges_workers (fetch : string → option AK.listing)
    (fetch_image : string → option image) (set_skus : gset string)
    (sample_colors : bool) (range_workers range_workers' : Z)
    (completion completion' : list string) :
  completion ≡ₚ AK.COLOR_RANGES.*1 → 1 < range_workers → range_workers' ≤ 1 →
  (AK.scrape_all_ranges fetch fetch_image set_skus sample_colors range_workers
     completion).*1 = completion
  ∧ (AK.scrape_all_ranges fetch fetch_image set_skus sample_colors range_workers'
       completion').*1 = AK.COLOR_RANGES.*1
  ∧ AK.scrape_all_ranges fetch fetch_image set_skus sample_colors range_workers
      completion
    ≡ₚ AK.scrape_all_ranges fetch fetch_image set_skus sample_colors
         range_workers' completion'.
Proof.
  intros Hp Hw Hw'.
  rewrite (scrape_all_ranges_parallel _ _ _ _ range_workers completion)
    by (exact Hp || by apply Z.ltb_lt).
  rewrite (scrape_all_ranges_sequential _ _ _ _ range_workers' completion')
    by (by apply Z.ltb_ge).
  rewrite !fmap_fst_pair. split; [done|]. split; [done|].
  by rewrite Hp.
Qed.

Lemma scrape_all_ranges_workers_witness :
  (AK.scrape_all_ranges (λ _, None) (λ _, None) ∅ true 4
     (reverse AK.COLOR_RANGES.*1)).*1 = reverse AK.COLOR_RANGES.*1
  ∧ (AK.scrape_all_ranges (λ _, None) (λ _, None) ∅ true 1 []).*1
    = AK.COLOR_RANGES.*1
  ∧ AK.scrape_all_ranges (λ _, None) (λ _, None) ∅ true 4
      (reverse AK.COLOR_RANGES.*1)
    ≡ₚ AK.scrape_all_ranges (λ _, None) (λ _, None) ∅ true 1 [].
Proof.
  apply (scrape_all_ranges_workers (λ _, None) (λ _, None) ∅ true 4 1
           (reverse AK.COLOR_RANGES.*1) []).
  - apply reverse_Permutation.
  - lia.
  - lia.
Defined.

(** ** The shape of a normalised SKU *)

Lemma sforall_impl (p q : ascii → bool) s :
  (∀ c, p c = true → q c = true) → Py.sforall p s = true → Py.sforall q s = true.
Proof.
  intros Hpq. induction s as [|c s IH]; [done|]. simpl.
  intros [Hc Hs]%andb_true_iff. by rewrite (Hpq c Hc), IH.
Qed.

Lemma digits_no_space s : Py.sforall Py.is_digit s = true → no_space s = true.
Proof.
  apply sforall_impl. intros c. by destruct c as [[] [] [] [] [] [] [] []].
Qed.

(** X13: what normalisation guarantees of a SKU.  No normalised SKU holds
    whitespace.  An AK Interactive one has no lower-case letter; a Vallejo
    one is never five bare digits; a Citadel one is the eleven-digit product
    code whenever the SKU holds one. *)
Theorem normalize_sku_shape (s : string) :
  (no_space (AK.normalize_sku s) = true
   ∧ Py.upper (AK.normalize_sku s) = AK.normalize_sku s)
  ∧ (no_space (Vallejo.normalize_sku s) = true
     ∧ Vallejo.match_five_digits (Vallejo.normalize_sku s) = false)
  ∧ (no_space (Citadel.normalize_sku s) = true
     ∧ ∀ m, Citadel.search_eleven_digits s = Some m →
            Citadel.normalize_sku s = m ∧ String.length m = 11%nat
            ∧ Py.sforall Py.is_digit m = true).
Proof.
  split; [|split].
  - unfold AK.normalize_sku. destruct (negb (Py.truthy s)); [done|].
    split; [apply no_space_remove_ws|].
    by rewrite upper_remove_ws, upper_idemp.
  - unfold Vallejo.normalize_sku. destruct (negb (Py.truthy s)); [done|].
    cbv zeta. rewrite (strip_id (Py.remove_ws s)) by apply no_space_remove_ws.
    destruct (Vallejo.match_five_digits (Py.remove_ws s)) eqn:E.
    + split; [apply no_space_dotted, no_space_remove_ws|].
      by apply match_five_digits_dotted.
    + split; [apply no_space_remove_ws|done].
  - assert (∀ m, Citadel.search_eleven_digits s = Some m →
                 String.length m = 11%nat ∧ Py.sforall Py.is_digit m = true) as Hm.
    { intros m [Hh Ht]%search_eleven_digits_Some.
      unfold Citadel.eleven_digits_here in Hh. rewrite Ht in Hh.
      apply andb_true_iff in Hh as [H1 H2]. by apply Nat.eqb_eq in H2. }
    unfold Citadel.normalize_sku. destruct s as [|c0 s0].
    { split; [done|]. intros m H. by vm_compute in H. }
    cbn [Py.truthy negb]. set (s := String c0 s0) in *.
    destruct (Citadel.search_eleven_digits s) as [m|] eqn:Es.
    + destruct (Hm m eq_refl) as [Hl Hd].
      split; [by apply digits_no_space|]. by intros ? [= <-].
    + split; [|done].
      by rewrite (strip_id (Py.remove_ws s)) by apply no_space_remove_ws;
        apply no_space_remove_ws.
Qed.

(** ** The SKUs and the ids of a catalogue *)

Lemma upper_lower s : Py.upper (Py.lower s) = Py.upper s.
Proof.
  induction s as [|c s IH]; [done|].
  change (Py.upper (Py.lower (String c s)))
    with (String (Py.upper_char (Py.lower_char c)) (Py.upper (Py.lower s))).
  change (Py.upper (String c s)) with (String (Py.upper_char c) (Py.upper s)).
  rewrite IH. f_equal. by destruct c as [[] [] [] [] [] [] [] []].
Qed.

Lemma append_inj_r (p a b : string) : p +:+ a = p +:+ b → a = b.
Proof.
  induction p as [|c p IH]; [done|].
  change (String c p +:+ a) with (String c (p +:+ a)).
  change (String c p +:+ b) with (String c (p +:+ b)).
  intros [= H]. by apply IH.
Qed.

Lemma AK_normalized_upper k : AK.normalize_sku k = k → Py.upper k = k.
Proof.
  intros <-. unfold AK.normalize_sku. destruct (negb (Py.truthy k)); [done|].
  by rewrite upper_remove_ws, upper_idemp.
Qed.

Lemma first_seen_elem_of_keys {A} (key : A → option string) (l : list A) k :
  k ∈ (first_seen key ∅ l).*2 ↔ ∃ x, x ∈ l ∧ key x = Some k.
Proof.
  split.
  - intros ([x k']&->&Hin)%list_elem_of_fmap.
    apply first_seen_keys in Hin as (?&?&_). by exists x.
  - intros (x&Hx&Hk). eapply first_seen_complete; [done..|set_solver].
Qed.

Lemma sort_by_elem_of {A} (key : A → string) (l : list A) x :
  x ∈ sort_by key l ↔ x ∈ l.
Proof. by rewrite sort_by_Permutation. Qed.

(** X14: the SKUs of an assembled catalogue are exactly the normalised
    SKUs of the records that have one: no SKU is lost and none is made up
    (for AK Interactive and Vallejo a record has a SKU when its [sku] is not
    empty, for Citadel when its normalised [sku] is not empty). *)
Theorem generate_catalogue_skus (l : list record) (hits : list Citadel.hit)
    (rn : string) (category : option string) (k : string) :
  (k ∈ entry_str "sku" <$> AK.generate_catalogue l rn
   ↔ ∃ x, x ∈ l ∧ AK.sku_key x = Some k)
  ∧ (k ∈ entry_str "sku" <$> Vallejo.generate_catalogue l rn
     ↔ ∃ x, x ∈ l ∧ Vallejo.sku_key x = Some k)
  ∧ (k ∈ entry_str "sku" <$> Citadel.generate_catalogue hits category
     ↔ ∃ x, x ∈ hits ∧ Citadel.sku_key x = Some k).
Proof.
  split; [|split].
  - rewrite AK_generate_catalogue_skus, sort_by_elem_of.
    apply first_seen_elem_of_keys.
  - rewrite Vallejo_generate_catalogue_skus, sort_by_elem_of.
    apply first_seen_elem_of_keys.
  - rewrite Citadel_generate_catalogue_spec.
    rewrite <- (first_seen_elem_of_keys Citadel.sku_key hits k).
    rewrite !list_elem_of_fmap. split.
    + intros (e&->&He). apply sort_by_elem_of, list_elem_of_fmap in He
        as ([x k']&->&Hin). exists (x, k'). split; [|done].
      by rewrite Citadel_make_entry_sku.
    + intros ([x k']&->&Hin). exists (Citadel.make_entry category x k').
      split; [by rewrite Citadel_make_entry_sku|].
      apply sort_by_elem_of, list_elem_of_fmap. by exists (x, k').
Qed.

Lemma AK_generate_catalogue_ids l rn :
  entry_str "id" <$> AK.generate_catalogue l rn
  = (λ k, "ak-interactive-" +:+ Py.lower k)
      <$> (entry_str "sku" <$> AK.generate_catalogue l rn).
Proof.
  rewrite <- list_fmap_compose. apply Forall_fmap_ext.
  eapply Forall_impl; [apply (AK_generate_catalogue_first l rn)|].
  intros e [_ (l1&x&l2&_&_&_&Hsame)]. simpl.
  unfold entry_str at 1. by rewrite (Hsame "id").
Qed.

Lemma Citadel_generate_catalogue_ids hits c :
  entry_str "id" <$> Citadel.generate_catalogue hits c
  = (λ k, "citadel-" +:+ k) <$> (entry_str "sku" <$> Citadel.generate_catalogue hits c).
Proof.
  rewrite <- list_fmap_compose. apply Forall_fmap_ext, Forall_forall.
  intros e He. rewrite Citadel_generate_catalogue_spec in He.
  apply sort_by_elem_of, list_elem_of_fmap in He as ([x k]&->&_). done.
Qed.

Lemma Citadel_generate_catalogue_NoDup hits c :
  NoDup (entry_str "sku" <$> Citadel.generate_catalogue hits c).
Proof.
  rewrite Citadel_generate_catalogue_spec, sort_by_Permutation.
  rewrite <- list_fmap_compose.
  assert ((entry_str "sku" ∘ (λ xk, Citadel.make_entry c xk.1 xk.2))
            <$> first_seen Citadel.sku_key ∅ hits
          = (first_seen Citadel.sku_key ∅ hits).*2) as ->.
  { apply list_fmap_ext. intros i [x k] _. simpl. by rewrite Citadel_make_entry_sku. }
  apply first_seen_NoDup.
Qed.

(** X15: the [id] of an entry is made from its SKU, [ak-interactive-] and
    the SKU in lower case for AK Interactive and [citadel-] and the SKU for
    Citadel, and within one assembled catalogue of these brands no two
    entries have the same [id].  For AK Interactive this is said of records
    whose SKUs are ASCII text: lower case is one-to-one on the upper-case
    ASCII SKUs, and is not on all of Unicode. *)
Theorem generate_catalogue_ids (l : list record) (hits : list Citadel.hit)
    (rn : string) (category : option string) :
  Forall (λ x, ascii_only (ostr (rget_or x "sku" (Some EmptyString))) = true) l →
  (entry_str "id" <$> AK.generate_catalogue l rn
   = (λ e, "ak-interactive-" +:+ Py.lower (entry_str "sku" e))
       <$> AK.generate_catalogue l rn
   ∧ NoDup (entry_str "id" <$> AK.generate_catalogue l rn))
  ∧ (entry_str "id" <$> Citadel.generate_catalogue hits category
     = (λ e, "citadel-" +:+ entry_str "sku" e)
         <$> Citadel.generate_catalogue hits category
     ∧ NoDup (entry_str "id" <$> Citadel.generate_catalogue hits category)).
Proof.
  intros _. split; split.
  - by rewrite AK_generate_catalogue_ids, <- list_fmap_compose.
  - rewrite AK_generate_catalogue_ids. apply NoDup_fmap_2_strong.
    + intros k1 k2 H1 H2 Heq%append_inj_r.
      apply list_elem_of_fmap in H1 as (e1&->&He1).
      apply list_elem_of_fmap in H2 as (e2&->&He2).
      pose proof (AK_generate_catalogue_first l rn) as Hall.
      rewrite Forall_forall in Hall.
      destruct (Hall _ He1) as [N1 _]. destruct (Hall _ He2) as [N2 _].
      apply AK_normalized_upper in N1, N2.
      by rewrite <- N1, <- N2, <- upper_lower, Heq, upper_lower.
    + rewrite AK_generate_catalogue_skus, sort_by_Permutation.
      apply first_seen_NoDup.
  - by rewrite Citadel_generate_catalogue_ids, <- list_fmap_compose.
  - rewrite Citadel_generate_catalogue_ids. apply NoDup_fmap_2_strong.
    + intros k1 k2 _ _ Heq. by apply append_inj_r in Heq.
    + apply Citadel_generate_catalogue_NoDup.
Qed.

Lemma generate_catalogue_ids_witness :
  (entry_str "id" <$> AK.generate_catalogue [Sample.wood_brown; Sample.ivory]
                        "3rd Generation"
   = (λ e, "ak-interactive-" +:+ Py.lower (entry_str "sku" e))
       <$> AK.generate_catalogue [Sample.wood_brown; Sample.ivory] "3rd Generation"
   ∧ NoDup (entry_str "id" <$> AK.generate_catalogue [Sample.wood_brown; Sample.ivory]
                                 "3rd Generation"))
  ∧ (entry_str "id" <$> Citadel.generate_catalogue [Sample.zandri_dust] None
     = (λ e, "citadel-" +:+ entry_str "sku" e)
         <$> Citadel.generate_catalogue [Sample.zandri_dust] None
     ∧ NoDup (entry_str "id" <$> Citadel.generate_catalogue [Sample.zandri_dust] None)).
Proof.
  apply (generate_catalogue_ids [Sample.wood_brown; Sample.ivory]
           [Sample.zandri_dust] "3rd Generation" None).
  repeat constructor.
Defined.

(** The ids of a Vallejo catalogue can collide: the SKUs [70.946] and
    [70-946] differ and give the same id. *)
Example Vallejo_generate_catalogue_id_collision :
  (λ e, (entry_str "sku" e, entry_str "id" e)) <$>
    Vallejo.generate_catalogue
      [list_to_map [("sku", Some "70.946")]; list_to_map [("sku", Some "70-946")]]
      "Model Color"
  = [("70-946", "vallejo-70-946"); ("70.946", "vallejo-70-946")].
Proof. reflexivity. Qed.

(** ** What the scrape loops return *)

Lemma rget_insert_ne (p : record) k k' v : k ≠ k' → rget (<[k:=v]> p) k' = rget p k'.
Proof. intros. unfold rget. by rewrite lookup_insert_ne. Qed.

Lemma Vallejo_is_paint_product_insert (p : record) k v :
  k ≠ "title" → k ≠ "product_url" →
  Vallejo.is_paint_product (<[k:=v]> p) = Vallejo.is_paint_product p.
Proof. intros. unfold Vallejo.is_paint_product. by rewrite !rget_insert_ne. Qed.

Section vallejo_scrape.
Variables (fetch_page : string → option Vallejo.listing)
          (fetch_image : string → option image)
          (range_key default_type range : string)
          (sample_colors filter_products : bool).

(** What holds of every paint the loop returns. *)
Let scraped (p : record) : Prop :=
  (filter_products = true → Vallejo.is_paint_product p = true)
  ∧ (rget p "sku" ∉ (Some <$> Vallejo.excluded_skus range_key))
  ∧ (otruthy (rget p "sku") = true →
     Vallejo.normalize_sku (ostr (rget p "sku")) = ostr (rget p "sku"))
  ∧ (∃ t, p !! "paint_type" = Some (Some t))
  ∧ p !! "range_name" = Some (Some range).

Lemma Vallejo_annotate_scraped paints paints' :
  Forall (λ p, (filter_products = true → Vallejo.is_paint_product p = true)
               ∧ (rget p "sku" ∉ (Some <$> Vallejo.excluded_skus range_key))
               ∧ (otruthy (rget p "sku") = true →
                  Vallejo.normalize_sku (ostr (rget p "sku")) = ostr (rget p "sku")))
    paints →
  Vallejo.annotate default_type range paints = Some paints' →
  Forall scraped paints'.
Proof.
  intros Hall. revert paints'. induction Hall as [|p paints (H1&H2&H3) _ IH];
    intros paints'; unfold Vallejo.annotate; simpl.
  - intros [= <-]. constructor.
  - destruct (Vallejo.get_paint_type p default_type) as [t|]; [|done]. simpl.
    fold (Vallejo.annotate default_type range paints).
    destruct (Vallejo.annotate default_type range paints) as [rest|]; [|done].
    simpl. intros [= <-]. constructor; [|by apply IH].
    unfold scraped. rewrite !Vallejo_is_paint_product_insert by done.
    rewrite !(rget_insert_ne _ _ "sku") by done.
    split; [done|]. split; [done|]. split; [done|]. split.
    + exists t. by rewrite lookup_insert_ne, lookup_insert_eq.
    + by rewrite lookup_insert_eq.
Qed.

Lemma Vallejo_scrape_loop_scraped fuel current_url all_paints result :
  Forall scraped all_paints →
  Vallejo.scrape_loop fetch_page fetch_image range_key default_type range
    sample_colors filter_products fuel current_url all_paints = Some result →
  Forall scraped result.
Proof.
  revert current_url all_paints.
  induction fuel as [|fuel IH]; intros current_url all_paints Hacc; [done|].
  cbn [Vallejo.scrape_loop].
  destruct (fetch_page current_url) as [soup|]; [|by intros [= <-]].
  cbv zeta.
  set (normalized := (λ paint : record, if otruthy (rget paint "sku")
         then <["sku" := Some (Vallejo.normalize_sku (ostr (rget paint "sku")))]> paint
         else paint) <$> Vallejo.items soup).
  set (filtered := if filter_products
                   then filter (λ p, Vallejo.is_paint_product p = true) normalized
                   else normalized).
  set (kept := match Vallejo.excluded_skus range_key with
               | [] => filtered
               | e :: es => filter (λ p, rget p "sku" ∉ (Some <$> e :: es)) filtered
               end).
  assert (Forall (λ p, otruthy (rget p "sku") = true →
                       Vallejo.normalize_sku (ostr (rget p "sku")) = ostr (rget p "sku"))
            normalized) as Hn.
  { unfold normalized. apply Forall_fmap, Forall_forall. intros p _. simpl.
    destruct (otruthy (rget p "sku")) eqn:E; [|congruence].
    intros _. rewrite rget_insert_eq. simpl. apply Vallejo_normalize_sku_idemp. }
  assert (Forall (λ p, (filter_products = true → Vallejo.is_paint_product p = true)
                       ∧ (otruthy (rget p "sku") = true →
                          Vallejo.normalize_sku (ostr (rget p "sku"))
                          = ostr (rget p "sku")))
            filtered) as Hf.
  { unfold filtered. destruct filter_products.
    - apply Forall_forall. intros p [Hp Hin]%list_elem_of_filter.
      split; [done|]. rewrite Forall_forall in Hn. by apply Hn.
    - eapply Forall_impl; [exact Hn|]. by intros p Hp. }
  assert (Forall (λ p, (filter_products = true → Vallejo.is_paint_product p = true)
                       ∧ (rget p "sku" ∉ (Some <$> Vallejo.excluded_skus range_key))
                       ∧ (otruthy (rget p "sku") = true →
                          Vallejo.normalize_sku (ostr (rget p "sku"))
                          = ostr (rget p "sku")))
            kept) as Hk.
  { unfold kept. destruct (Vallejo.excluded_skus range_key) as [|e es] eqn:Ee.
    - eapply Forall_impl; [exact Hf|]. intros p [? ?].
      split; [done|]. split; [|done]. by intros ?%elem_of_nil.
    - apply Forall_forall. intros p [Hp Hin]%list_elem_of_filter.
      rewrite Forall_forall in Hf. destruct (Hf p Hin). done. }
  clearbody kept. clear Hf Hn filtered normalized.
  destruct kept as [|k0 kept'] eqn:Ek; [by intros [= <-]|].
  rewrite <- Ek in *. clear Ek.
  set (sampled := if sample_colors
                  then Vallejo.sample_paint_color fetch_image <$> kept else kept).
  assert (Forall (λ p, (filter_products = true → Vallejo.is_paint_product p = true)
                       ∧ (rget p "sku" ∉ (Some <$> Vallejo.excluded_skus range_key))
                       ∧ (otruthy (rget p "sku") = true →
                          Vallejo.normalize_sku (ostr (rget p "sku"))
                          = ostr (rget p "sku")))
            sampled) as Hs.
  { unfold sampled. destruct sample_colors; [|done].
    apply Forall_fmap. eapply Forall_impl; [exact Hk|]. intros p Hp. simpl.
    unfold Vallejo.sample_paint_color. destruct (otruthy (rget p "img_url")); [|done].
    rewrite Vallejo_is_paint_product_insert, (rget_insert_ne _ _ "sku") by done.
    done. }
  destruct (Vallejo.annotate default_type range sampled) as [annotated|] eqn:Ea;
    [|by intros [= <-]].
  pose proof (Vallejo_annotate_scraped _ _ Hs Ea) as Hann.
  assert (Forall scraped (all_paints ++ annotated)) as Hacc'
    by (by apply Forall_app).
  destruct (otruthy (Vallejo.next_url soup)); [by apply IH|by intros [= <-]].
Qed.
End vallejo_scrape.

(** X16: what [scrape_range] of Vallejo returns.  Every paint it returns
    for a known range has passed the product filter (when filtering is on),
    has a SKU outside of the exclusion list of the range, has its SKU in
    normal form, and carries a paint type and the name of the range. *)
Theorem scrape_range_paints (fetch_page : string → option Vallejo.listing)
    (fetch_image : string → option image) (range_key : string)
    (sample_colors filter_products : bool) (fuel : nat) (paints : list record)
    (range default_type base_url : string) :
  (range_key, (range, default_type, base_url)) ∈ Vallejo.VALLEJO_RANGES →
  Vallejo.scrape_range fetch_page fetch_image range_key sample_colors
    filter_products fuel = Some paints →
  Forall (λ p, (filter_products = true → Vallejo.is_paint_product p = true)
               ∧ (rget p "sku" ∉ (Some <$> Vallejo.excluded_skus range_key))
               ∧ (otruthy (rget p "sku") = true →
                  Vallejo.normalize_sku (ostr (rget p "sku")) = ostr (rget p "sku"))
               ∧ (∃ t, p !! "paint_type" = Some (Some t))
               ∧ p !! "range_name" = Some (Some range))
    paints.
Proof.
  intros Hin. unfold Vallejo.scrape_range.
  assert (list_find (λ kv, kv.1 = range_key) Vallejo.VALLEJO_RANGES
          = list_find (λ kv, kv.1 = range_key) Vallejo.VALLEJO_RANGES) as _ by done.
  destruct (list_find _ _) as [[i [k [[r t] u]]]|] eqn:Ef.
  - apply list_find_Some in Ef as (Hi&Hk&Hfirst). simpl in Hk. subst k.
    assert (r = range) as ->.
    { revert Hin Hi. unfold Vallejo.VALLEJO_RANGES.
      rewrite !elem_of_cons, elem_of_nil.
      intros Hin Hi.
      repeat (destruct i as [|i]; [simpl in Hi; injection Hi as <- <- <- <-;
                naive_solver|]).
      done. }
    by apply Vallejo_scrape_loop_scraped.
  - apply list_find_None in Ef. rewrite Forall_forall in Ef.
    by destruct (Ef _ Hin).
Qed.

Lemma scrape_range_paints_witness :
  Forall (λ p, (false = true → Vallejo.is_paint_product p = true)
               ∧ (rget p "sku" ∉ (Some <$> Vallejo.excluded_skus "model-color-en"))
               ∧ (otruthy (rget p "sku") = true →
                  Vallejo.normalize_sku (ostr (rget p "sku")) = ostr (rget p "sku"))
               ∧ (∃ t, p !! "paint_type" = Some (Some t))
               ∧ p !! "range_name" = Some (Some "Model Color"))
    (default [] (Vallejo.scrape_range Sample.vallejo_site Sample.no_image
                   "model-color-en" true false 3)).
Proof.
  apply (scrape_range_paints Sample.vallejo_site Sample.no_image "model-color-en"
           true false 3 _ "Model Color" "opaque"
           "https://acrylicosvallejo.com/en/category/hobby/model-color-en/").
  - apply list_elem_of_here.
  - vm_compute. reflexivity.
Defined.

Lemma AK_is_paint_product_insert set_skus (p : record) k v :
  k ≠ "sku" → AK.is_paint_product set_skus (<[k:=v]> p) = AK.is_paint_product set_skus p.
Proof. intros. unfold AK.is_paint_product. by rewrite !rget_insert_ne. Qed.

Section ak_scrape.
Variables (fetch_image : string → option image) (set_skus : gset string)
          (color_range : string) (sample_colors : bool).

Lemma AK_annotate_scraped paints :
  Forall (λ p, AK.is_paint_product set_skus p = true) paints →
  Forall (λ p, AK.is_paint_product set_skus p = true
               ∧ p !! "category" = Some (Some (AK.get_category color_range))
               ∧ ∃ t, p !! "paint_type" = Some (Some t))
    (AK.annotate fetch_image color_range sample_colors paints).
Proof.
  intros Hall. unfold AK.annotate. apply Forall_fmap.
  assert (Forall (λ p, AK.is_paint_product set_skus p = true)
            (if sample_colors
             then AK.sample_paint_color fetch_image color_range <$> paints
             else paints)) as Hs.
  { destruct sample_colors; [|done]. apply Forall_fmap.
    eapply Forall_impl; [exact Hall|]. intros p Hp. simpl.
    unfold AK.sample_paint_color. destruct (otruthy _); [|done].
    by rewrite AK_is_paint_product_insert. }
  eapply Forall_impl; [exact Hs|]. intros p Hp. simpl.
  rewrite !AK_is_paint_product_insert by done. split; [done|]. split.
  - by rewrite lookup_insert_ne, lookup_insert_eq.
  - eexists. by rewrite lookup_insert_eq.
Qed.

Lemma AK_scrape_loop_scraped fetch_page fuel page all_paints :
  Forall (λ p, AK.is_paint_product set_skus p = true
               ∧ p !! "category" = Some (Some (AK.get_category color_range))
               ∧ ∃ t, p !! "paint_type" = Some (Some t)) all_paints →
  Forall (λ p, AK.is_paint_product set_skus p = true
               ∧ p !! "category" = Some (Some (AK.get_category color_range))
               ∧ ∃ t, p !! "paint_type" = Some (Some t))
    (AK.scrape_loop fetch_page fetch_image set_skus color_range sample_colors
       fuel page all_paints).
Proof.
  revert page all_paints. induction fuel as [|fuel IH]; intros page all_paints Hacc;
    [done|].
  cbn [AK.scrape_loop]. destruct (fetch_page page) as [soup|]; [|done].
  cbv zeta. destruct (length (AK.items soup) =? 0)%nat; [done|].
  set (paints := AK.dedupe_by_name
                   (filter (λ p, AK.is_paint_product set_skus p = true) (AK.items soup))).
  assert (Forall (λ p, AK.is_paint_product set_skus p = true) paints) as Hp.
  { apply Forall_forall. intros p Hin.
    pose proof (dedupe_from_sublist ∅
                  (filter (λ p, AK.is_paint_product set_skus p = true) (AK.items soup)))
      as Hsub.
    apply (sublist_submseteq) in Hsub.
    by apply (elem_of_submseteq _ _ _ Hin), list_elem_of_filter in Hsub as [? _]. }
  clearbody paints.
  assert (Forall (λ p, AK.is_paint_product set_skus p = true
                       ∧ p !! "category" = Some (Some (AK.get_category color_range))
                       ∧ ∃ t, p !! "paint_type" = Some (Some t))
            match paints with
            | [] => all_paints
            | _ :: _ => all_paints
                        ++ AK.annotate fetch_image color_range sample_colors paints
            end) as Hacc'.
  { destruct paints as [|p0 ps] eqn:E; [done|]. rewrite <- E in *.
    apply Forall_app. split; [done|]. by apply AK_annotate_scraped. }
  destruct (negb (AK.has_next soup)); [done|]. by apply IH.
Qed.

Lemma AK_scrape_loop_pages fetch_page fetch_page' fuel page all_paints :
  (∀ q, (page ≤ q < page + fuel)%nat → fetch_page' q = fetch_page q) →
  AK.scrape_loop fetch_page' fetch_image set_skus color_range sample_colors
    fuel page all_paints
  = AK.scrape_loop fetch_page fetch_image set_skus color_range sample_colors
      fuel page all_paints.
Proof.
  revert page all_paints. induction fuel as [|fuel IH]; intros page all_paints Hq;
    [done|].
  cbn [AK.scrape_loop]. rewrite Hq by lia.
  destruct (fetch_page page) as [soup|]; [|done]. cbv zeta.
  destruct (length (AK.items soup) =? 0)%nat; [done|].
  destruct (negb (AK.has_next soup)); [done|]. apply IH. intros q ?. apply Hq. lia.
Qed.
End ak_scrape.

(** X17: what [scrape_color_range] of AK Interactive returns and reads.
    Every paint it returns has passed the product filter and carries the
    category of the range and a paint type; and the loop reads no page
    beyond the fiftieth: two sites that agree on pages 1 to 50 give the same
    result. *)
Theorem scrape_color_range_paints (fetch_page fetch_page' : nat → option AK.listing)
    (fetch_image : string → option image) (set_skus : gset string)
    (color_range : string) (sample_colors : bool) :
  Forall (λ p, AK.is_paint_product set_skus p = true
               ∧ p !! "category" = Some (Some (AK.get_category color_range))
               ∧ ∃ t, p !! "paint_type" = Some (Some t))
    (AK.scrape_color_range fetch_page fetch_image set_skus color_range sample_colors)
  ∧ ((∀ page, (1 ≤ page ≤ 50)%nat → fetch_page' page = fetch_page page) →
     AK.scrape_color_range fetch_page' fetch_image set_skus color_range sample_colors
     = AK.scrape_color_range fetch_page fetch_image set_skus color_range sample_colors).
Proof.
  unfold AK.scrape_color_range. split.
  - by apply AK_scrape_loop_scraped.
  - intros Hq. apply AK_scrape_loop_pages. intros q ?. apply Hq. lia.
Qed.

(** ** What the batch merge counts *)

Lemma differs_lookup (p : dict) k o :
  differs (get p k) o = true → p !! k ≠ Some (of_opt o).
Proof.
  unfold get. intros Hd Hp. rewrite Hp in Hd. simpl in Hd.
  destruct o as [s|]; simpl in Hd; [|done].
  by rewrite bool_decide_true in Hd.
Qed.

Lemma differs_get_or_lookup (p : dict) k s :
  differs (get_or p k (VStr EmptyString)) (Some s) = true →
  p !! k ≠ Some (VStr s).
Proof.
  unfold get_or. intros Hd Hp. rewrite Hp in Hd. simpl in Hd.
  by rewrite bool_decide_true in Hd.
Qed.

Lemma insert_ne_lookup (p : dict) k v : p !! k ≠ Some v → <[k:=v]> p ≠ p.
Proof. intros Hne Heq. apply Hne. by rewrite <- Heq, lookup_insert_eq. Qed.

Lemma apply_match_counts (p : dict) d by_sku :
  let r := Merge.apply_match p d by_sku in
  (r.1.2 = true ↔ r.1.1 ≠ p) ∧ (r.2 = true ↔ r.1.1 !! "sku" ≠ p !! "sku").
Proof.
  cbv zeta. unfold Merge.apply_match.
  set (p1 := if differs (get p "hex") (rget d "hex")
             then <["hex" := of_opt (rget d "hex")]> p else p).
  assert ((differs (get p "hex") (rget d "hex") = true ↔ p1 ≠ p)
          ∧ p1 !! "sku" = p !! "sku") as [Hc Hs].
  { unfold p1. destruct (differs (get p "hex") (rget d "hex")) eqn:E.
    - split; [|by rewrite lookup_insert_ne].
      split; [intros _; by apply insert_ne_lookup, differs_lookup|done].
    - split; [|done]. split; [done|]. by intros []. }
  assert (get_or p1 "sku" (VStr EmptyString) = get_or p "sku" (VStr EmptyString)) as Hg
    by (unfold get_or; by rewrite Hs).
  destruct by_sku; cbn [fst snd].
  { split; [done|]. rewrite Hs. split; [done|]. by intros []. }
  destruct (differs (get_or p1 "sku" (VStr EmptyString))
              (rget_or d "sku" (Some EmptyString))
            && otruthy (rget_or d "sku" (Some EmptyString))) eqn:E; cbn [fst snd].
  - apply andb_true_iff in E as [Ed Et].
    destruct (rget_or d "sku" (Some EmptyString)) as [s|] eqn:Es; [|done].
    rewrite Hg in Ed. apply differs_get_or_lookup in Ed.
    assert (∀ p3 : dict, p3 !! "sku" = Some (VStr s) →
              (true = true ↔ p3 ≠ p) ∧ (true = true ↔ p3 !! "sku" ≠ p !! "sku"))
      as Hfin.
    { intros p3 H3. split; (split; [intros _|done]).
      - intros ->. congruence.
      - congruence. }
    destruct (otruthy (rget d "product_url")); apply Hfin.
    + by rewrite lookup_insert_ne, lookup_insert_eq.
    + by rewrite lookup_insert_eq.
  - split; [done|]. rewrite Hs. split; [done|]. by intros [].
Qed.

(** X18: the batch merge of AK Interactive and of Vallejo counts what it
    changes.  An entry adds one to the count of updates exactly when the
    merge changed the entry, and one to the count of SKU changes exactly
    when its [sku] is not what it was. *)
Theorem batch_merge_counts (normalize_sku normalize_name : string → string)
    (lk : gmap string record * gmap string record)
    (paint paint' : dict) (changed sku_changed : bool) (not_found : list value) :
  Merge.merge_paint normalize_sku normalize_name lk paint
  = Some (paint', changed, sku_changed, not_found) →
  (changed = true ↔ paint' ≠ paint)
  ∧ (sku_changed = true ↔ paint' !! "sku" ≠ paint !! "sku").
Proof.
  unfold Merge.merge_paint.
  destruct (on_str _ _) as [sku|]; [|done].
  destruct (Merge.find_match _ _ _ _) as [[[d b]|]|]; [| |done].
  - case_bool_decide.
    + intros [= <- <- <- _]. split; (split; [done|by intros []]).
    + pose proof (apply_match_counts paint d b) as Hc. cbv zeta in Hc.
      destruct (Merge.apply_match paint d b) as [[p1 c1] s1].
      by intros [= <- <- <- _].
  - intros [= <- <- <- _]. split; (split; [done|by intros []]).
Qed.

Lemma batch_merge_counts_witness :
  (true = true ↔
   <["url" := VStr "https://example.com/new"]>
     (<["sku" := VStr "09703"]> (<["hex" := VStr "#112233"]> Sample.old_entry))
   ≠ Sample.old_entry)
  ∧ (true = true ↔
     <["url" := VStr "https://example.com/new"]>
       (<["sku" := VStr "09703"]> (<["hex" := VStr "#112233"]> Sample.old_entry))
       !! "sku"
     ≠ Sample.old_entry !! "sku").
Proof.
  apply (batch_merge_counts AK.normalize_sku AK.normalize_name
           (Merge.build_lookups AK.normalize_sku AK.normalize_name [Sample.renumbered])
           Sample.old_entry _ true true []).
  vm_compute. reflexivity.
Defined.

(** ** The URLs of the listing pages *)

Lemma append_cons c (a b : string) : String c a +:+ b = String c (a +:+ b).
Proof. reflexivity. Qed.

Lemma append_inj_l (a b u : string) : a +:+ u = b +:+ u → a = b.
Proof.
  intros H. assert (String.length a = String.length b) as Hl.
  { apply (f_equal String.length) in H. rewrite !string_length_app in H. lia. }
  revert b H Hl. induction a as [|c a IH]; intros [|d b] H Hl; try done.
  rewrite !append_cons in H. injection H as -> H. f_equal. apply IH; [done|].
  simpl in Hl. lia.
Qed.

Lemma append_not_self (s t : string) : t ≠ EmptyString → s ≠ s +:+ t.
Proof.
  intros Ht H. apply (f_equal String.length) in H.
  rewrite string_length_app in H. destruct t; [done|]. simpl in H. lia.
Qed.

Lemma get_page_url_eq (color_range : string) (page page' : nat) :
  AK.get_page_url color_range page = AK.get_page_url color_range page' →
  page = page'.
Proof.
  unfold AK.get_page_url.
  destruct (list_find _ AK.OTHER_PRODUCTS) as [[i [k [name base]]]|].
  - destruct (page =? 1)%nat eqn:E1, (page' =? 1)%nat eqn:E2;
      try apply Nat.eqb_eq in E1; try apply Nat.eqb_eq in E2.
    + congruence.
    + intros H. by apply append_not_self in H.
    + intros H. symmetry in H. by apply append_not_self in H.
    + intros H%append_inj_r%append_inj_r%append_inj_l. by apply (inj pretty).
  - destruct (page =? 1)%nat eqn:E1, (page' =? 1)%nat eqn:E2;
      try apply Nat.eqb_eq in E1; try apply Nat.eqb_eq in E2.
    + congruence.
    + intros H%append_inj_r. rewrite !append_cons in H. discriminate H.
    + intros H%append_inj_r. rewrite !append_cons in H. discriminate H.
    + intros H%append_inj_r%append_inj_r%append_inj_l. by apply (inj pretty).
Qed.

(** X19: for one colour range, [get_page_url] gives different pages
    different URLs: the first page is the address of the range and every
    other page carries its number. *)
Theorem get_page_url_distinct (color_range : string) (page page' : nat) :
  page ≠ page' →
  AK.get_page_url color_range page ≠ AK.get_page_url color_range page'.
Proof. intros Hne H. by apply Hne, (get_page_url_eq color_range). Qed.

Lemma get_page_url_distinct_witness :
  AK.get_page_url "standard" 1 ≠ AK.get_page_url "standard" 2.
Proof. apply (get_page_url_distinct "standard" 1 2). lia. Defined.

Example get_page_url_examples :
  AK.get_page_url "standard" 1
  = "https://ak-interactive.com/product-category/paints/paints-acrylics/3rd-acrylics/?pa_3rd-color-range=standard"
  ∧ AK.get_page_url "standard" 12
    = "https://ak-interactive.com/product-category/paints/paints-acrylics/3rd-acrylics/page/12/?pa_3rd-color-range=standard"
  ∧ AK.get_page_url "the-inks" 3
    = "https://ak-interactive.com/product-category/paints/paints-acrylics-paints-for-modeling/paint-acrylic-inks/page/3/".
Proof. repeat split; reflexivity. Qed.

(** ** Sentence case *)

Lemma append_nil_r (s : string) : s +:+ EmptyString = s.
Proof.
  induction s as [|c s IH]; [done|].
  change (String c s +:+ EmptyString) with (String c (s +:+ EmptyString)).
  by rewrite IH.
Qed.

Lemma rev_app_rev_app (w a b : string) :
  String.rev_app (String.rev_app w a) b = String.rev_app a (w +:+ b).
Proof.
  revert a. induction w as [|c w IH]; intros a; [done|].
  simpl. rewrite IH. done.
Qed.

Lemma rev_rev_app (w : string) : String.rev (String.rev_app w EmptyString) = w.
Proof. unfold String.rev. by rewrite rev_app_rev_app, append_nil_r. Qed.

Lemma sforall_rev_app p (a b : string) :
  Py.sforall p (String.rev_app a b) = Py.sforall p a && Py.sforall p b.
Proof.
  revert b. induction a as [|c a IH]; intros b; [done|].
  simpl. rewrite IH. simpl. by destruct (p c), (Py.sforall p a).
Qed.

Lemma rev_app_nonempty (a b : string) :
  a ≠ EmptyString → String.rev_app a b ≠ EmptyString.
Proof.
  revert b. induction a as [|c a IH]; intros b Ha; [done|].
  simpl. destruct a as [|d a]; [done|]. by apply IH.
Qed.

(** A word of [str.split]: not empty and without whitespace. *)
Lemma split_go_words cur s :
  no_space cur = true →
  Forall (λ w, w ≠ EmptyString ∧ no_space w = true) (Py.split_go cur s).
Proof.
  assert (∀ cur, cur ≠ EmptyString → no_space cur = true →
                 String.rev cur ≠ EmptyString ∧ no_space (String.rev cur) = true)
    as Hrev.
  { intros c Hc Hn. split; [by apply rev_app_nonempty|].
    unfold no_space, String.rev in *. rewrite sforall_rev_app.
    by rewrite Hn. }
  revert cur. induction s as [|c s IH]; intros cur Hcur; simpl.
  - destruct cur as [|d cur]; [constructor|].
    constructor; [by apply Hrev|constructor].
  - destruct (Py.is_space c) eqn:Ec.
    + destruct cur as [|d cur]; [by apply IH|].
      constructor; [by apply Hrev|by apply IH].
    + apply IH. unfold no_space in *. simpl. by rewrite Ec.
Qed.

Lemma split_go_word cur w s :
  no_space w = true →
  Py.split_go cur (w +:+ s) = Py.split_go (String.rev_app w cur) s.
Proof.
  revert cur. induction w as [|c w IH]; intros cur Hw; [done|].
  rewrite (@eq_refl _ (String c w +:+ s) : String c w +:+ s = String c (w +:+ s)).
  unfold no_space in Hw. simpl in Hw. apply andb_true_iff in Hw as [Hc Hw].
  simpl. apply negb_true_iff in Hc. rewrite Hc. by apply IH.
Qed.

Lemma split_join ws :
  Forall (λ w, w ≠ EmptyString ∧ no_space w = true) ws →
  Py.split (Py.join " " ws) = ws.
Proof.
  unfold Py.split. induction 1 as [|w ws [Hne Hw] Hws IH]; [done|].
  destruct ws as [|w2 ws].
  - simpl. rewrite <- (append_nil_r w) at 1. rewrite split_go_word by done.
    simpl. destruct (String.rev_app w "") eqn:E.
    + by apply rev_app_nonempty in E.
    + by rewrite <- E, rev_rev_app.
  - change (Py.join " " (w :: w2 :: ws))
      with (w +:+ " " +:+ Py.join " " (w2 :: ws)).
    rewrite split_go_word by done.
    rewrite (@eq_refl _ (" " +:+ Py.join " " (w2 :: ws))
             : " " +:+ Py.join " " (w2 :: ws)
               = String " " (Py.join " " (w2 :: ws))).
    cbn [Py.split_go]. change (Py.is_space " ") with true. cbv iota.
    destruct (String.rev_app w "") eqn:E.
    + by apply rev_app_nonempty in E.
    + rewrite <- E, rev_rev_app. by rewrite IH.
Qed.

Lemma lower_char_space c : Py.is_space (Py.lower_char c) = Py.is_space c.
Proof. by destruct c as [[] [] [] [] [] [] [] []]. Qed.

Lemma title_go_no_space b w : no_space (Py.title_go b w) = no_space w.
Proof.
  revert b. unfold no_space. induction w as [|c w IH]; intros b; [done|].
  simpl. destruct (Py.is_alpha c); simpl; rewrite IH; [|done].
  destruct b; by rewrite ?lower_char_space, ?upper_char_space.
Qed.

Lemma title_go_nonempty b w : w ≠ EmptyString → Py.title_go b w ≠ EmptyString.
Proof. destruct w; [done|]. simpl. by destruct (Py.is_alpha _). Qed.

Lemma title_go_idemp b w : Py.title_go b (Py.title_go b w) = Py.title_go b w.
Proof.
  revert b. induction w as [|c w IH]; intros b; [done|].
  simpl. destruct (Py.is_alpha c) eqn:Ea.
  - simpl.
    assert (Py.is_alpha (if b then Py.lower_char c else Py.upper_char c) = true) as ->.
    { revert Ea. by destruct b, c as [[] [] [] [] [] [] [] []]. }
    rewrite IH. f_equal.
    by destruct b, c as [[] [] [] [] [] [] [] []].
  - simpl. by rewrite Ea, IH.
Qed.

(** What [to_sentence_case] does to one word. *)
Lemma sentence_word_idemp (f : string → string) :
  (∀ word, f word = if bool_decide (Py.upper word = word)
                       || bool_decide (Py.lower word = word)
                    then Py.title word else word) →
  ∀ word, f (f word) = f word.
Proof.
  intros Hf word. rewrite (Hf word).
  destruct (bool_decide (Py.upper word = word) || bool_decide (Py.lower word = word))
    eqn:E.
  - rewrite Hf. unfold Py.title. rewrite title_go_idemp.
    match goal with |- (if ?c then _ else _) = _ => destruct c end; reflexivity.
  - by rewrite Hf, E.
Qed.

Lemma to_sentence_case_idemp name :
  AK.to_sentence_case (AK.to_sentence_case name) = AK.to_sentence_case name.
Proof.
  unfold AK.to_sentence_case at 2 3.
  destruct name as [|c0 n0]; [done|]. cbn [Py.truthy negb].
  set (name := String c0 n0).
  set (f := λ word, if bool_decide (Py.upper word = word)
                       || bool_decide (Py.lower word = word)
                    then Py.title word else word).
  assert (Forall (λ w, w ≠ EmptyString ∧ no_space w = true) (map f (Py.split name)))
    as Hwords.
  { apply Forall_fmap. eapply Forall_impl; [by apply (split_go_words "" name)|].
    intros w [Hne Hw]. simpl. unfold f. destruct (_ || _); [|done].
    split; [by apply title_go_nonempty|]. unfold Py.title.
    by rewrite title_go_no_space. }
  unfold AK.to_sentence_case.
  destruct (Py.join " " (map f (Py.split name))) as [|c1 r1] eqn:Ej; [done|].
  cbn [Py.truthy negb]. rewrite <- Ej. rewrite split_join by done.
  fold f. rewrite map_map. f_equal. apply map_ext. intros w.
  by apply sentence_word_idemp.
Qed.

(** X20: [to_sentence_case] is idempotent, for AK Interactive and for
    Vallejo: the words of its result are the cased words of the name joined
    by single spaces, and casing a cased word again leaves it as it is. *)
Theorem to_sentence_case_idempotent (name : string) :
  AK.to_sentence_case (AK.to_sentence_case name) = AK.to_sentence_case name
  ∧ Vallejo.to_sentence_case (Vallejo.to_sentence_case name)
    = Vallejo.to_sentence_case name.
Proof. split; apply to_sentence_case_idemp. Qed.

Example to_sentence_case_examples :
  AK.to_sentence_case "WOOD  BROWN – ink mcDonald" = "Wood Brown – Ink mcDonald"
  ∧ AK.to_sentence_case "   " = "".
Proof. split; reflexivity. Qed.

(** ** The names of a catalogue *)

Lemma rstrip_cons c s :
  Py.rstrip (String c s)
  = match Py.rstrip s with
    | EmptyString => if Py.is_space c then EmptyString else String c EmptyString
    | r => String c r
    end.
Proof. reflexivity. Qed.

Lemma rstrip_idemp s : Py.rstrip (Py.rstrip s) = Py.rstrip s.
Proof.
  induction s as [|c s IH]; [done|]. rewrite rstrip_cons.
  destruct (Py.rstrip s) as [|d r] eqn:E.
  - destruct (Py.is_space c) eqn:Ec; [done|]. simpl. by rewrite Ec.
  - by rewrite rstrip_cons, IH.
Qed.

Lemma lstrip_idemp s : Py.lstrip (Py.lstrip s) = Py.lstrip s.
Proof.
  induction s as [|c s IH]; [done|]. simpl.
  destruct (Py.is_space c) eqn:Ec; [done|]. simpl. by rewrite Ec.
Qed.

Lemma rstrip_lstrip s : Py.rstrip s = s → Py.rstrip (Py.lstrip s) = Py.lstrip s.
Proof.
  induction s as [|c s IH]; [done|]. intros Hs. cbn [Py.lstrip].
  destruct (Py.is_space c) eqn:Ec; [|done].
  apply IH. rewrite rstrip_cons in Hs. destruct (Py.rstrip s) as [|d r] eqn:E.
  - rewrite Ec in Hs. done.
  - by injection Hs.
Qed.

Lemma strip_idemp s : Py.strip (Py.strip s) = Py.strip s.
Proof.
  unfold Py.strip.
  by rewrite (rstrip_lstrip (Py.rstrip s)), lstrip_idemp by apply rstrip_idemp.
Qed.

Lemma AK_clean_paint_name_stripped name :
  Py.strip (AK.clean_paint_name name) = AK.clean_paint_name name.
Proof.
  unfold AK.clean_paint_name. destruct name; [done|]. cbn [Py.truthy negb].
  cbv zeta. apply strip_idemp.
Qed.

Lemma Vallejo_clean_paint_name_stripped name :
  Py.strip (Vallejo.clean_paint_name name) = Vallejo.clean_paint_name name.
Proof.
  unfold Vallejo.clean_paint_name. destruct name; [done|]. cbn [Py.truthy negb].
  cbv zeta. apply strip_idemp.
Qed.

Lemma AK_display_name_stripped paint :
  Py.strip (ostr (AK.display_name paint)) = ostr (AK.display_name paint).
Proof.
  unfold AK.display_name. cbv zeta.
  match goal with |- context [if otruthy ?n then _ else _] => destruct (otruthy n) eqn:E end.
  - apply AK_clean_paint_name_stripped.
  - match type of E with otruthy ?n = false => destruct n as [[|]|] end; done.
Qed.

Lemma Vallejo_display_name_stripped paint :
  Py.strip (ostr (Vallejo.display_name paint)) = ostr (Vallejo.display_name paint).
Proof.
  unfold Vallejo.display_name. cbv zeta.
  match goal with |- context [if otruthy ?n then _ else _] => destruct (otruthy n) eqn:E end.
  - apply Vallejo_clean_paint_name_stripped.
  - match type of E with otruthy ?n = false => destruct n as [[|]|] end; done.
Qed.

Lemma entry_str_of_opt (e : dict) k o :
  e !! k = Some (of_opt o) → entry_str k e = ostr o.
Proof. unfold entry_str. intros ->. by destruct o. Qed.

(** X21: the name of an entry of an assembled catalogue (AK Interactive or
    Vallejo) neither begins nor ends with whitespace. *)
Theorem generate_catalogue_names_stripped (l : list record) (rn : string) :
  Forall (λ e, Py.strip (entry_str "name" e) = entry_str "name" e)
    (AK.generate_catalogue l rn)
  ∧ Forall (λ e, Py.strip (entry_str "name" e) = entry_str "name" e)
      (Vallejo.generate_catalogue l rn).
Proof.
  split.
  - eapply Forall_impl; [apply (AK_generate_catalogue_first l rn)|].
    intros e [_ (l1&x&l2&_&_&_&Hsame)]. simpl.
    rewrite (entry_str_of_opt e "name" (AK.display_name x));
      [apply AK_display_name_stripped|].
    by rewrite (Hsame "name").
  - eapply Forall_impl; [apply (Vallejo_generate_catalogue_first l rn)|].
    intros e [_ (l1&x&l2&_&_&_&->)]. simpl.
    rewrite (entry_str_of_opt _ "name" (Vallejo.display_name x)); [|done].
    apply Vallejo_display_name_stripped.
Qed.

(** ** The metallic guard of Vallejo *)

Lemma override_loop_metallic name default_type overrides :
  default_type ≠ "metallic" →
  Vallejo.override_loop name default_type overrides = "metallic" →
  existsb (λ m, Py.contains m name)
    ["metallic"; "metal color"; "liquid metal"; "chrome"] = true.
Proof.
  intros Hd Hres.
  destruct (existsb (λ m, Py.contains m name)
              ["metallic"; "metal color"; "liquid metal"; "chrome"]) eqn:E; [done|].
  exfalso. revert Hres.
  induction overrides as [|[keyword paint_type] rest IH]; simpl; [done|].
  destruct (Py.contains keyword name); [|done].
  case_bool_decide as Hm; simpl.
  - rewrite bool_decide_false by done. simpl. simpl in E. by rewrite E.
  - intros ->. done.
Qed.

(** X22: outside of the metallic ranges, Vallejo types a paint as metallic
    only when its name says so: a name with none of the words [metallic],
    [metal color], [liquid metal] and [chrome] (a colour called Gold, say)
    keeps another type. *)
Theorem Vallejo_get_paint_type_metallic (paint : record) (default_type : string) :
  default_type ≠ "metallic" →
  Vallejo.get_paint_type paint default_type = Some "metallic" →
  ∃ name, (if otruthy (rget paint "title") then rget paint "title"
           else rget_or paint "name" (Some EmptyString)) = Some name
    ∧ existsb (λ m, Py.contains m (Py.lower name))
        ["metallic"; "metal color"; "liquid metal"; "chrome"] = true.
Proof.
  intros Hd. unfold Vallejo.get_paint_type. cbv zeta.
  destruct (if otruthy (rget paint "title") then rget paint "title"
            else rget_or paint "name" (Some EmptyString)) as [name|]; [|done].
  intros H. exists name. split; [done|].
  apply (override_loop_metallic _ default_type Vallejo.TYPE_OVERRIDES Hd).
  congruence.
Qed.

Lemma Vallejo_get_paint_type_metallic_witness :
  ∃ name, (if otruthy (rget ({["title" := Some "Liquid Metal Gold"]} : record) "title")
           then rget ({["title" := Some "Liquid Metal Gold"]} : record) "title"
           else rget_or ({["title" := Some "Liquid Metal Gold"]} : record) "name"
                  (Some EmptyString)) = Some name
    ∧ existsb (λ m, Py.contains m (Py.lower name))
        ["metallic"; "metal color"; "liquid metal"; "chrome"] = true.
Proof.
  apply (Vallejo_get_paint_type_metallic {["title" := Some "Liquid Metal Gold"]} "opaque").
  - discriminate.
  - reflexivity.
Defined.

Example Vallejo_get_paint_type_gold :
  Vallejo.get_paint_type {["title" := Some "Old Gold"]} "opaque" = Some "opaque"
  ∧ Vallejo.get_paint_type {["title" := Some "Old Gold"]} "metallic" = Some "metallic"
  ∧ Vallejo.get_paint_type {["title" := Some "Metallic Red Ink"]} "opaque" = Some "ink".
Proof. repeat split; reflexivity. Qed.

(** ** The single-file merge of Citadel *)

Lemma Citadel_update_paints_spec lk ps ps' n :
  Citadel.update_paints lk ps = Some (ps', n) →
  (n ≤ length ps)%nat
  ∧ Forall2 (λ p p', p' = p ∨ ∃ h, Py.truthy h = true ∧ p' = <["hex" := VStr h]> p)
      ps ps'
  ∧ Citadel.update_paints lk ps' = Some (ps', n).
Proof.
  revert ps' n. induction ps as [|p ps IH]; intros ps' n; simpl.
  - intros [= <- <-]. split; [done|]. split; [constructor|done].
  - destruct (on_str _ _) as [sku|] eqn:Hsku; [|done].
    destruct (Citadel.update_paints lk ps) as [[rest u]|] eqn:Hps;
      [|by destruct (lk !! sku) as [d|]; [destruct (otruthy _)|]].
    destruct (IH _ _ eq_refl) as (Hu&Hrest&Hre).
    destruct (lk !! sku) as [d|] eqn:Hd.
    + destruct (Citadel.hit_hex d) as [h|] eqn:Eh; simpl.
      * destruct (Py.truthy h) eqn:Eth; intros [= <- <-].
        -- split; [simpl; lia|]. split; [constructor; [right; by exists h|done]|].
           simpl. rewrite get_or_insert_ne, Hsku, Hd, Eh by done. simpl.
           by rewrite Eth, Hre, insert_insert_eq.
        -- split; [simpl; lia|]. split; [constructor; [by left|done]|].
           simpl. rewrite Hsku, Hd, Eh. simpl. by rewrite Eth, Hre.
      * intros [= <- <-]. split; [simpl; lia|].
        split; [constructor; [by left|done]|].
        simpl. rewrite Hsku, Hd, Eh. simpl. by rewrite Hre.
    + intros [= <- <-]. split; [simpl; lia|].
      split; [constructor; [by left|done]|].
      simpl. by rewrite Hsku, Hd, Hre.
Qed.

(** X23: the single-file merge of Citadel.  A file of unrecognised shape
    is returned as it is, without a count.  Otherwise each entry is left as
    it is or has its [hex] set to a non-empty colour, the count printed is
    at most the number of entries, and a second run with the same scraped
    paints returns the same file and prints the same count. *)
Theorem Citadel_update_existing_json_spec (existing after : catalogue_file)
    (scraped_data : list Citadel.hit) (count : option nat) :
  Citadel.update_existing_json existing scraped_data = Some (after, count) →
  match paint_list existing with
  | None => after = existing ∧ count = None
  | Some paints =>
      ∃ paints' n, after = with_paints existing paints' ∧ count = Some n
        ∧ (n ≤ length paints)%nat
        ∧ Forall2 (λ p p', p' = p
                           ∨ ∃ h, Py.truthy h = true ∧ p' = <["hex" := VStr h]> p)
            paints paints'
  end
  ∧ Citadel.update_existing_json after scraped_data = Some (after, count).
Proof.
  unfold Citadel.update_existing_json.
  destruct (paint_list existing) as [ps|] eqn:Hf.
  - destruct (Citadel.update_paints _ ps) as [[ps' n]|] eqn:Hps; [|done].
    intros [= <- <-].
    destruct (Citadel_update_paints_spec _ _ _ _ Hps) as (Hn&HF&Hre).
    split; [by exists ps', n|].
    assert (paint_list (with_paints existing ps') = Some ps') as ->
      by (destruct existing; done).
    rewrite Hre. by destruct existing.
  - intros [= <- <-]. split; [done|]. by rewrite Hf.
Qed.

Lemma Citadel_update_existing_json_spec_witness :
  (∃ paints' n,
     FlatList [<["hex" := VStr "#9E915C"]>
                 ({["sku" := VStr "99189950001"]} : dict)]
     = with_paints (FlatList [({["sku" := VStr "99189950001"]} : dict)]) paints'
     ∧ Some 1%nat = Some n ∧ (n ≤ 1)%nat
     ∧ Forall2 (λ p p', p' = p
                        ∨ ∃ h, Py.truthy h = true ∧ p' = <["hex" := VStr h]> p)
         [({["sku" := VStr "99189950001"]} : dict)] paints')
  ∧ Citadel.update_existing_json
      (FlatList [<["hex" := VStr "#9E915C"]>
                   ({["sku" := VStr "99189950001"]} : dict)])
      [Sample.zandri_dust]
    = Some (FlatList [<["hex" := VStr "#9E915C"]>
                        ({["sku" := VStr "99189950001"]} : dict)], Some 1%nat).
Proof.
  apply (Citadel_update_existing_json_spec
           (FlatList [({["sku" := VStr "99189950001"]} : dict)])
           (FlatList [<["hex" := VStr "#9E915C"]>
                        ({["sku" := VStr "99189950001"]} : dict)])
           [Sample.zandri_dust] (Some 1%nat)).
  vm_compute. reflexivity.
Defined.

(** ** Colours as hexadecimal strings *)

Lemma format_02X_inj n m :
  0 ≤ n ≤ 255 → 0 ≤ m ≤ 255 → format_02X n = format_02X m → n = m.
Proof.
  intros Hn Hm.
  assert (forallb (λ a, forallb (λ b, implb (String.eqb (format_02X a) (format_02X b))
                                        (a =? b)) (seqZ 0 256)) (seqZ 0 256) = true)
    as Hall by (vm_compute; reflexivity).
  rewrite forallb_forall in Hall.
  assert (n ∈ seqZ 0 256) as Hin by (apply elem_of_seqZ; lia).
  apply list_elem_of_In, Hall in Hin. rewrite forallb_forall in Hin.
  assert (m ∈ seqZ 0 256) as Him by (apply elem_of_seqZ; lia).
  apply list_elem_of_In, Hin in Him. intros Heq.
  rewrite Heq, String.eqb_refl in Him. simpl in Him. by apply Z.eqb_eq.
Qed.

Lemma append_length_inj (a b x y : string) :
  String.length a = String.length b → a +:+ x = b +:+ y → a = b ∧ x = y.
Proof.
  revert b. induction a as [|c a IH]; intros [|d b] Hl; try done.
  rewrite !append_cons. intros [= -> H]. simpl in Hl.
  destruct (IH b) as [-> ->]; [lia|done|done].
Qed.

Lemma hex_color_eq (c c' : Z * Z * Z) :
  Sampler.channels_within 0 255 c → Sampler.channels_within 0 255 c' →
  hex_color c = hex_color c' → c = c'.
Proof.
  destruct c as [[r g] b], c' as [[r' g'] b']. intros (Hr&Hg&Hb) (Hr'&Hg'&Hb').
  simpl in *. intros [= H].
  destruct (format_02X_byte r Hr) as [Lr _]. destruct (format_02X_byte r' Hr') as [Lr' _].
  destruct (format_02X_byte g Hg) as [Lg _]. destruct (format_02X_byte g' Hg') as [Lg' _].
  apply append_length_inj in H as [H1 H]; [|congruence].
  apply append_length_inj in H as [H2 H3]; [|congruence].
  by rewrite (format_02X_inj _ _ Hr Hr' H1), (format_02X_inj _ _ Hg Hg' H2),
    (format_02X_inj _ _ Hb Hb' H3).
Qed.

(** X24: the hexadecimal form of a sampled colour determines the colour:
    two different colours with channels in the range of a byte are never
    written the same. *)
Theorem hex_color_distinct (c c' : Z * Z * Z) :
  Sampler.channels_within 0 255 c → Sampler.channels_within 0 255 c' →
  c ≠ c' → hex_color c ≠ hex_color c'.
Proof. intros Hc Hc' Hne H. by apply Hne, hex_color_eq. Qed.

Lemma hex_color_distinct_witness :
  hex_color (200, 30, 10) ≠ hex_color (200, 30, 11).
Proof.
  apply (hex_color_distinct (200, 30, 10) (200, 30, 11)).
  - unfold Sampler.channels_within. simpl. lia.
  - unfold Sampler.channels_within. simpl. lia.
  - intros [= ?].
Defined.

(** ** Names in normal form *)

Lemma app_assoc_s (a b c : string) : (a +:+ b) +:+ c = a +:+ (b +:+ c).
Proof.
  induction a as [|x a IH]; [done|]. rewrite !append_cons. by rewrite IH.
Qed.

Lemma rev_app_app (a b : string) :
  String.rev_app a b = String.rev_app a EmptyString +:+ b.
Proof.
  revert b. induction a as [|c a IH]; intros b; [done|]. simpl.
  rewrite (IH (String c b)), (IH (String c EmptyString)).
  by rewrite app_assoc_s.
Qed.

Lemma rev_empty (a : string) : String.rev a = EmptyString → a = EmptyString.
Proof.
  intros H. destruct a as [|c a]; [done|].
  by apply (rev_app_nonempty (String c a) EmptyString) in H.
Qed.

Lemma split_go_scan cur s :
  Py.split_go cur s
  = cons_word (String.rev cur +:+ (scan_words s).1) (scan_words s).2.
Proof.
  revert cur. induction s as [|c s IH]; intros cur.
  - simpl. rewrite append_nil_r. destruct cur as [|d cur]; [done|].
    unfold cons_word. destruct (String.rev (String d cur)) eqn:E; [|done].
    by apply rev_empty in E.
  - simpl. destruct (Py.is_space c) eqn:Ec; simpl.
    + rewrite append_nil_r. rewrite (IH EmptyString).
      change (String.rev EmptyString +:+ (scan_words s).1) with (scan_words s).1.
      destruct cur as [|d cur]; [done|].
      unfold cons_word at 2. destruct (String.rev (String d cur)) eqn:E; [|done].
      by apply rev_empty in E.
    + rewrite IH. unfold String.rev. simpl.
      by rewrite (rev_app_app cur (String c EmptyString)), app_assoc_s.
Qed.

Lemma split_scan s : Py.split s = cons_word (scan_words s).1 (scan_words s).2.
Proof. unfold Py.split. by rewrite split_go_scan. Qed.

Lemma scan_words_sforall p s :
  Py.sforall p s = true →
  Py.sforall p (scan_words s).1 = true
  ∧ Forall (λ w, Py.sforall p w = true) (scan_words s).2.
Proof.
  induction s as [|c s IH]; [done|]. simpl.
  intros [Hc Hs]%andb_true_iff. destruct (IH Hs) as [Hw Hl].
  destruct (Py.is_space c); simpl.
  - split; [done|]. unfold cons_word. destruct (Py.truthy _); [|done].
    by constructor.
  - by rewrite Hc, Hw.
Qed.

Lemma scan_words_words s :
  no_space (scan_words s).1 = true
  ∧ Forall (λ w, w ≠ EmptyString ∧ no_space w = true) (scan_words s).2.
Proof.
  induction s as [|c s [Hw Hl]]; [done|]. simpl.
  destruct (Py.is_space c) eqn:Ec; simpl.
  - split; [done|]. unfold cons_word.
    destruct (scan_words s).1 as [|d w] eqn:E; [done|].
    constructor; [|done]. by split.
  - split; [|done]. unfold no_space in *. simpl. by rewrite Ec, Hw.
Qed.

Lemma cons_word_words w l :
  no_space w = true →
  Forall (λ w, w ≠ EmptyString ∧ no_space w = true) l →
  Forall (λ w, w ≠ EmptyString ∧ no_space w = true) (cons_word w l).
Proof.
  intros Hw Hl. unfold cons_word. destruct w as [|c w]; [done|].
  constructor; [|done]. by split.
Qed.

Lemma join_empty ws :
  Forall (λ w, w ≠ EmptyString ∧ no_space w = true) ws →
  Py.join " " ws = EmptyString → ws = [].
Proof.
  destruct 1 as [|w ws [Hw _] Hws]; [done|]. intros H. exfalso.
  destruct ws as [|w2 ws]; [done|].
  change (Py.join " " (w :: w2 :: ws)) with (w +:+ " " +:+ Py.join " " (w2 :: ws)) in H.
  by destruct w.
Qed.

Lemma join_cons w ws :
  Py.join " " (w :: ws)
  = w +:+ match ws with [] => EmptyString | _ => " " +:+ Py.join " " ws end.
Proof. destruct ws; [by rewrite append_nil_r|done]. Qed.

Lemma join_no_lead ws :
  Forall (λ w, w ≠ EmptyString ∧ no_space w = true) ws →
  Py.lstrip (Py.join " " ws) = Py.join " " ws.
Proof.
  destruct 1 as [|w ws [Hw Hn] Hws]; [done|]. rewrite join_cons.
  destruct w as [|c w]; [done|]. rewrite append_cons.
  unfold no_space in Hn. simpl in Hn. apply andb_true_iff in Hn as [Hc _].
  simpl. by destruct (Py.is_space c).
Qed.

Lemma collapse_go_cons b c s :
  Py.collapse_go b (String c s)
  = if Py.is_space c
    then (if b then Py.collapse_go true s else String " " (Py.collapse_go true s))
    else String c (Py.collapse_go false s).
Proof. reflexivity. Qed.

Lemma scan_words_cons c s :
  scan_words (String c s)
  = if Py.is_space c
    then (EmptyString, cons_word (scan_words s).1 (scan_words s).2)
    else (String c (scan_words s).1, (scan_words s).2).
Proof. reflexivity. Qed.

Lemma rstrip_cons_word c s :
  Py.is_space c = false → Py.rstrip (String c s) = String c (Py.rstrip s).
Proof.
  intros Ec. rewrite rstrip_cons. destruct (Py.rstrip s); [|reflexivity].
  rewrite Ec. reflexivity.
Qed.

(** The two states of the scan of [re.sub(r'\s+', ' ', s)], with the
    whitespace at the end taken off. *)
Lemma rstrip_collapse_go s :
  Py.rstrip (Py.collapse_go false s)
  = (scan_words s).1
    +:+ match (scan_words s).2 with
        | [] => EmptyString
        | l => " " +:+ Py.join " " l
        end
  ∧ Py.rstrip (Py.collapse_go true s)
    = Py.join " " (cons_word (scan_words s).1 (scan_words s).2).
Proof.
  induction s as [|c s [IHf IHt]]; [done|].
  pose proof (scan_words_words s) as [Hw Hl].
  pose proof (cons_word_words _ _ Hw Hl) as Hcw.
  rewrite !collapse_go_cons, scan_words_cons.
  destruct (Py.is_space c) eqn:Ec; cbn [fst snd].
  - split; [|done]. rewrite rstrip_cons, IHt.
    destruct (cons_word _ _) as [|w l] eqn:E; [done|].
    destruct (Py.join " " (w :: l)) eqn:Ej; [|done].
    by apply join_empty in Ej.
  - rewrite (rstrip_cons_word c) by done. rewrite IHf. split; [done|].
    unfold cons_word. cbn [Py.truthy]. rewrite join_cons, append_cons.
    by destruct (scan_words s).2.
Qed.

(** [re.sub(r'\s+', ' ', s).strip()] is the words of [s] joined by single
    spaces. *)
Lemma strip_collapse_ws s :
  Py.strip (Py.collapse_ws s) = Py.join " " (Py.split s).
Proof.
  unfold Py.strip, Py.collapse_ws. rewrite split_scan.
  destruct (rstrip_collapse_go s) as [-> _].
  pose proof (scan_words_words s) as [Hw Hl].
  destruct (scan_words s).1 as [|c w] eqn:E.
  - unfold cons_word. cbn [Py.truthy].
    destruct (scan_words s).2 as [|w l] eqn:El; [done|].
    transitivity (Py.lstrip (Py.join " " (w :: l))); [reflexivity|].
    by apply join_no_lead.
  - unfold cons_word. cbn [Py.truthy]. rewrite join_cons, append_cons.
    unfold no_space in Hw. cbn [Py.sforall] in Hw.
    apply andb_true_iff in Hw as [Hc _]. cbn [Py.lstrip].
    destruct (Py.is_space c); [done|]. by destruct (scan_words s).2.
Qed.

Lemma word_not_space c : Py.is_word c = true → Py.is_space c = false.
Proof. by destruct c as [[] [] [] [] [] [] [] []]. Qed.

Lemma clean_cases c :
  Py.is_word c || Py.is_space c = true →
  (Py.is_space c = true ∧ Py.is_word c = false)
  ∨ (Py.is_space c = false ∧ Py.is_word c = true).
Proof.
  destruct (Py.is_word c) eqn:Ew; [right|left].
  - split; [by apply word_not_space|done].
  - by destruct (Py.is_space c).
Qed.

Lemma boundary_scan s :
  Py.sforall (λ c, Py.is_word c || Py.is_space c) s = true →
  Py.boundary_after s = negb (Py.truthy (scan_words s).1).
Proof.
  destruct s as [|c s]; [done|]. cbn [Py.sforall].
  intros [Hc _]%andb_true_iff. unfold Py.boundary_after.
  rewrite scan_words_cons.
  by destruct (clean_cases c Hc) as [[-> ->]|[-> ->]].
Qed.

Lemma match_scan word s :
  Py.sforall Py.is_word word = true →
  Py.sforall (λ c, Py.is_word c || Py.is_space c) s = true →
  Py.startswith word s && Py.boundary_after (Py.drop (String.length word) s)
  = bool_decide ((scan_words s).1 = word).
Proof.
  revert s. induction word as [|a word IH]; intros s Hword Hs.
  - assert (Py.startswith EmptyString s = true) as -> by by destruct s.
    assert (Py.drop (String.length EmptyString) s = s) as -> by by destruct s.
    rewrite boundary_scan by done. by destruct (scan_words s).1.
  - cbn [Py.sforall] in Hword. apply andb_true_iff in Hword as [Ha Hword].
    destruct s as [|c s]; [done|].
    cbn [Py.sforall] in Hs. apply andb_true_iff in Hs as [Hc Hs].
    cbn [Py.startswith String.length Py.drop]. rewrite scan_words_cons.
    destruct (clean_cases c Hc) as [[Ec Ew]|[Ec Ew]]; rewrite Ec; cbn [fst].
    + rewrite (bool_decide_eq_false_2 (a = c)) by congruence. done.
    + rewrite <- andb_assoc, IH by done.
      repeat case_bool_decide; simplify_eq; done.
Qed.

Lemma scan_drop s :
  scan_words (Py.drop (String.length (scan_words s).1) s)
  = (EmptyString, (scan_words s).2).
Proof.
  induction s as [|c s IH]; [done|]. rewrite scan_words_cons.
  destruct (Py.is_space c) eqn:Ec; cbn [fst snd String.length Py.drop].
  - by rewrite scan_words_cons, Ec.
  - apply IH.
Qed.

Lemma length_drop n s : String.length (Py.drop n s) = (String.length s - n)%nat.
Proof.
  revert s. induction n as [|n IH]; intros [|c s]; simpl; done.
Qed.

Lemma filter_cons_word (word w : string) (l : list string) :
  word ≠ EmptyString →
  cons_word (if bool_decide (w = word) then EmptyString else w)
    (filter (λ x, x ≠ word) l)
  = filter (λ x, x ≠ word) (cons_word w l).
Proof.
  intros Hword. destruct w as [|c w].
  - by destruct (bool_decide _).
  - unfold cons_word at 2. cbn [Py.truthy]. case_bool_decide as E.
    + by rewrite filter_cons_False by (by intros ?).
    + by rewrite filter_cons_True by done.
Qed.

Lemma remove_word_go_S word fuel prev s :
  Py.remove_word_go word (S fuel) prev s
  = if negb (match prev with Some c => Py.is_word c | None => false end)
       && Py.startswith word s
       && Py.boundary_after (Py.drop (String.length word) s)
       && Py.truthy word
    then Py.remove_word_go word fuel (Py.last_char prev word)
           (Py.drop (String.length word) s)
    else match s with
         | EmptyString => EmptyString
         | String c s' => String c (Py.remove_word_go word fuel (Some c) s')
         end.
Proof. reflexivity. Qed.

Lemma last_char_word prev word :
  word ≠ EmptyString → Py.sforall Py.is_word word = true →
  ∃ c, Py.last_char prev word = Some c ∧ Py.is_word c = true.
Proof.
  intros Hne Hw. unfold Py.last_char.
  assert (Py.sforall Py.is_word (String.rev word) = true) as Hr.
  { unfold String.rev. by rewrite sforall_rev_app, Hw. }
  destruct (String.rev word) as [|c r] eqn:E; [by apply rev_empty in E|].
  exists c. split; [done|]. cbn [Py.sforall] in Hr.
  by apply andb_true_iff in Hr as [? _].
Qed.

Lemma remove_word_go_sforall p word fuel prev s :
  Py.sforall p s = true → Py.sforall p (Py.remove_word_go word fuel prev s) = true.
Proof.
  revert prev s. induction fuel as [|fuel IH]; intros prev s Hs; [done|].
  rewrite remove_word_go_S. destruct (_ && _).
  - by apply IH, sforall_drop.
  - destruct s as [|c s]; [done|]. cbn [Py.sforall] in *.
    apply andb_true_iff in Hs as [-> Hs]. by rewrite IH.
Qed.

(** The scan of [re.sub(rf'\b{word}\b', '', s)] over a text of word
    characters and whitespace deletes the words equal to [word] and no
    other character. *)
Lemma remove_word_go_scan word fuel prev s :
  word ≠ EmptyString → Py.sforall Py.is_word word = true →
  Py.sforall (λ c, Py.is_word c || Py.is_space c) s = true →
  (String.length s < fuel)%nat →
  scan_words (Py.remove_word_go word fuel prev s)
  = (if match prev with Some c => Py.is_word c | None => false end
     then (scan_words s).1
     else if bool_decide ((scan_words s).1 = word) then EmptyString
          else (scan_words s).1,
     filter (λ w, w ≠ word) (scan_words s).2).
Proof.
  intros Hne Hword. revert prev s.
  induction fuel as [|fuel IH]; intros prev s Hs Hlen; [lia|].
  rewrite remove_word_go_S.
  assert (Py.truthy word = true) as -> by by destruct word.
  rewrite andb_true_r, <- andb_assoc, match_scan by done.
  set (pw := match prev with Some c => Py.is_word c | None => false end).
  assert (∀ c s', s = String c s' →
            scan_words (String c (Py.remove_word_go word fuel (Some c) s'))
            = (if Py.is_space c then EmptyString else String c (scan_words s').1,
               filter (λ w, w ≠ word) (scan_words s).2)) as Hstep.
  { intros c s' ->. cbn [Py.sforall] in Hs. apply andb_true_iff in Hs as [Hc Hs].
    simpl in Hlen. rewrite !scan_words_cons, IH by (done || lia).
    destruct (clean_cases c Hc) as [[Ec Ew]|[Ec Ew]]; rewrite Ec, Ew; cbn [fst snd].
    - by rewrite filter_cons_word.
    - done. }
  destruct pw eqn:Epw; cbn [negb andb].
  - destruct s as [|c s']; [done|]. rewrite (Hstep c s' eq_refl).
    rewrite scan_words_cons. by destruct (Py.is_space c).
  - case_bool_decide as E.
    + destruct (last_char_word prev word Hne Hword) as (c&->&Hc).
      assert (s ≠ EmptyString) as Hs0 by (intros ->; by rewrite <- E in Hne).
      rewrite IH.
      * rewrite Hc, <- E, scan_drop. done.
      * by apply sforall_drop.
      * rewrite length_drop. destruct word; [done|]. destruct s; [done|].
        simpl in *. lia.
    + destruct s as [|c s']; [done|]. rewrite (Hstep c s' eq_refl).
      rewrite scan_words_cons in E |- *.
      destruct (Py.is_space c); [done|]. done.
Qed.

Lemma split_remove_word word s :
  word ≠ EmptyString → Py.sforall Py.is_word word = true →
  Py.sforall (λ c, Py.is_word c || Py.is_space c) s = true →
  Py.split (Py.remove_word word s) = filter (λ w, w ≠ word) (Py.split s).
Proof.
  intros Hne Hword Hs. rewrite !split_scan. unfold Py.remove_word.
  rewrite remove_word_go_scan by (done || lia). cbn [fst snd].
  by apply filter_cons_word.
Qed.

Lemma filter_notin_nil (l : list string) : filter (λ w, w ∉ ([] : list string)) l = l.
Proof.
  induction l as [|x l IH]; [done|].
  rewrite filter_cons_True by apply not_elem_of_nil. by rewrite IH.
Qed.

Lemma filter_notin_cons (a : string) (fillers l : list string) :
  filter (λ w, w ∉ fillers) (filter (λ w, w ≠ a) l) = filter (λ w, w ∉ a :: fillers) l.
Proof.
  rewrite list_filter_filter. apply list_filter_iff. intros x.
  rewrite not_elem_of_cons. tauto.
Qed.

Lemma fold_remove_words (fillers : list string) (s : string) :
  Forall (λ w, w ≠ EmptyString ∧ Py.sforall Py.is_word w = true) fillers →
  Py.sforall (λ c, Py.is_word c || Py.is_space c) s = true →
  Py.sforall (λ c, Py.is_word c || Py.is_space c)
    (foldl (λ name word, Py.remove_word word name) s fillers) = true
  ∧ Py.split (foldl (λ name word, Py.remove_word word name) s fillers)
    = filter (λ w, w ∉ fillers) (Py.split s).
Proof.
  intros Hf. revert s. induction Hf as [|a fillers [Ha Hw] Hf IH]; intros s Hs.
  - by rewrite filter_notin_nil.
  - cbn [foldl].
    destruct (IH (Py.remove_word a s)) as [Hc Hsplit].
    { by apply remove_word_go_sforall. }
    split; [done|]. by rewrite Hsplit, split_remove_word, filter_notin_cons.
Qed.

Lemma split_Forall p s :
  Py.sforall p s = true → Forall (λ w, Py.sforall p w = true) (Py.split s).
Proof.
  intros Hs. rewrite split_scan. destruct (scan_words_sforall p s Hs) as [Hw Hl].
  unfold cons_word. destruct (Py.truthy _); [by constructor|done].
Qed.

Lemma split_words s :
  Forall (λ w, w ≠ EmptyString ∧ no_space w = true) (Py.split s).
Proof. by apply split_go_words. Qed.

Lemma sforall_join p ws :
  p " "%char = true → Forall (λ w, Py.sforall p w = true) ws →
  Py.sforall p (Py.join " " ws) = true.
Proof.
  intros Hp. induction 1 as [|w ws Hw Hws IH]; [done|].
  rewrite join_cons, sforall_app, Hw. destruct ws as [|w2 ws]; [done|].
  change (" " +:+ Py.join " " (w2 :: ws)) with (String " " (Py.join " " (w2 :: ws))).
  cbn [Py.sforall andb]. by rewrite Hp, IH.
Qed.

Lemma sforall_sfilter_keep p q s :
  Py.sforall q s = true → Py.sforall q (Py.sfilter p s) = true.
Proof.
  induction s as [|c s IH]; [done|]. cbn [Py.sforall Py.sfilter].
  intros [Hc Hs]%andb_true_iff. destruct (p c); [|by apply IH].
  cbn [Py.sforall]. by rewrite Hc, IH.
Qed.

Lemma smap_fixed f s :
  Py.sforall (λ c, bool_decide (f c = c)) s = true → Py.smap f s = s.
Proof.
  induction s as [|c s IH]; [done|]. cbn [Py.sforall Py.smap].
  intros [Hc%bool_decide_eq_true Hs]%andb_true_iff. by rewrite Hc, IH.
Qed.

Lemma lower_fixed s :
  Py.sforall (λ c, bool_decide (Py.lower_char c = c)) (Py.lower s) = true.
Proof.
  induction s as [|c s IH]; [done|].
  change (Py.lower (String c s)) with (String (Py.lower_char c) (Py.lower s)).
  cbn [Py.sforall]. rewrite IH, andb_true_r. apply bool_decide_eq_true.
  by destruct c as [[] [] [] [] [] [] [] []].
Qed.

Section normal_form.
Variable fillers : list string.
Hypothesis fillers_words :
  Forall (λ w, w ≠ EmptyString ∧ Py.sforall Py.is_word w = true) fillers.

(** The body that the normalisers of AK Interactive and Vallejo share. *)
Lemma normalize_name_body (name : string) :
  (if negb (Py.truthy name) then EmptyString
   else Py.strip (Py.collapse_ws
          (foldl (λ name word, Py.remove_word word name)
             (Py.strip (Py.collapse_ws
                (Py.sfilter (λ c, Py.is_word c || Py.is_space c) (Py.lower name))))
             fillers)))
  = Py.join " " (name_words fillers name).
Proof.
  unfold name_words. destruct name as [|c name]; [done|]. cbn [Py.truthy negb].
  set (n2 := Py.sfilter _ (Py.lower (String c name))).
  rewrite (strip_collapse_ws n2), strip_collapse_ws.
  destruct (fold_remove_words fillers (Py.join " " (Py.split n2)) fillers_words)
    as [_ ->].
  - apply sforall_join; [done|]. apply split_Forall, sforall_sfilter.
  - by rewrite split_join by apply split_words.
Qed.

Lemma name_words_fixed (name : string) :
  name_words fillers (Py.join " " (name_words fillers name))
  = name_words fillers name.
Proof.
  set (W := name_words fillers name).
  assert (Forall (λ w, (w ≠ EmptyString ∧ no_space w = true)
                       ∧ Py.sforall (λ c, Py.is_word c || Py.is_space c) w = true
                       ∧ Py.sforall (λ c, bool_decide (Py.lower_char c = c)) w = true)
            W) as HW.
  { unfold W, name_words. apply Forall_forall.
    intros w [_ Hin]%list_elem_of_filter. repeat split.
    - pose proof (split_words (Py.sfilter (λ c, Py.is_word c || Py.is_space c)
                                 (Py.lower name))) as H.
      rewrite Forall_forall in H. by apply H.
    - pose proof (split_words (Py.sfilter (λ c, Py.is_word c || Py.is_space c)
                                 (Py.lower name))) as H.
      rewrite Forall_forall in H. by apply H.
    - pose proof (split_Forall _ _ (sforall_sfilter
                    (λ c, Py.is_word c || Py.is_space c) (Py.lower name))) as H.
      rewrite Forall_forall in H. by apply H.
    - pose proof (split_Forall _ _ (sforall_sfilter_keep
                    (λ c, Py.is_word c || Py.is_space c) _ _ (lower_fixed name))) as H.
      rewrite Forall_forall in H. by apply H. }
  unfold name_words at 1.
  assert (Py.lower (Py.join " " W) = Py.join " " W) as ->.
  { apply smap_fixed, sforall_join; [done|].
    eapply Forall_impl; [apply HW|]. by intros w (_&_&?). }
  rewrite sfilter_id.
  - rewrite split_join.
    + unfold W, name_words. rewrite list_filter_filter.
      apply list_filter_iff. tauto.
    + eapply Forall_impl; [apply HW|]. by intros w (?&_&_).
  - apply sforall_join; [done|].
    eapply Forall_impl; [apply HW|]. by intros w (_&?&_).
Qed.
End normal_form.

(** X25: [normalize_name] of AK Interactive and of Vallejo, said without
    regular expressions: the name is put in lower case, every character
    that is neither a word character nor whitespace is deleted, the text is
    cut into words, the filler words are dropped and the words left are
    joined by single spaces.  Hence a normalised name is in normal form:
    normalising it again changes nothing. *)
Theorem normalize_name_words (name : string) :
  (AK.normalize_name name = Py.join " " (name_words AK.filler_words name)
   ∧ AK.normalize_name (AK.normalize_name name) = AK.normalize_name name)
  ∧ (Vallejo.normalize_name name
     = Py.join " " (name_words Vallejo.filler_words name)
     ∧ Vallejo.normalize_name (Vallejo.normalize_name name)
       = Vallejo.normalize_name name).
Proof.
  assert (Forall (λ w, w ≠ EmptyString ∧ Py.sforall Py.is_word w = true)
            AK.filler_words) as HA by (repeat constructor; done).
  assert (Forall (λ w, w ≠ EmptyString ∧ Py.sforall Py.is_word w = true)
            Vallejo.filler_words) as HV by (repeat constructor; done).
  assert (∀ n, AK.normalize_name n = Py.join " " (name_words AK.filler_words n))
    as EA by (intros n; by apply normalize_name_body).
  assert (∀ n, Vallejo.normalize_name n
               = Py.join " " (name_words Vallejo.filler_words n))
    as EV by (intros n; by apply normalize_name_body).
  split; (split; [done|]).
  - by rewrite !EA, name_words_fixed.
  - by rewrite !EV, name_words_fixed.
Qed.

(** The normaliser of Citadel has a filler of two words, [games workshop],
    and is not idempotent: deleting [paint] first leaves two spaces between
    the two words, which become one only after the fillers are deleted. *)
Example Citadel_normalize_name_twice :
  Citadel.normalize_name "Games Paint Workshop" = "games workshop"
  ∧ Citadel.normalize_name "games workshop" = EmptyString.
Proof. split; reflexivity. Qed.

(** ** The paints of the HAR file *)

Section har.
Abbreviation har_from seen l := (foldl Citadel.har_step ([], seen) l).1.
Abbreviation is_paint h := (Citadel.hh_productType h = Some "paint").
Abbreviation raw_sku h := (Citadel.hit_sku (Citadel.hh_hit h)).

Lemma har_step_eq seen res h :
  Citadel.har_step (res, seen) h
  = if negb (bool_decide (is_paint h)) then (res, seen)
    else if bool_decide (raw_sku h ∈ seen) then (res, seen)
         else (res ++ [h], {[raw_sku h]} ∪ seen).
Proof. reflexivity. Qed.

Lemma har_step_acc seen res l :
  foldl Citadel.har_step (res, seen) l
  = (res ++ (foldl Citadel.har_step ([], seen) l).1,
     (foldl Citadel.har_step ([], seen) l).2).
Proof.
  revert seen res. induction l as [|h l IH]; intros seen res; cbn [foldl].
  - by rewrite app_nil_r.
  - rewrite !har_step_eq.
    destruct (negb _); [apply IH|]. destruct (bool_decide (_ ∈ _)); [apply IH|].
    rewrite IH, (IH _ ([] ++ [h])). cbn [fst snd]. by rewrite <- !app_assoc.
Qed.

Lemma har_from_cons seen h l :
  har_from seen (h :: l)
  = if bool_decide (is_paint h) && negb (bool_decide (raw_sku h ∈ seen))
    then h :: har_from ({[raw_sku h]} ∪ seen) l
    else har_from seen l.
Proof.
  cbn [foldl]. rewrite har_step_eq.
  destruct (bool_decide (is_paint h)); [|done]. cbn [negb andb].
  destruct (bool_decide (_ ∈ _)); [done|]. cbn [negb].
  by rewrite har_step_acc.
Qed.

Lemma har_from_sublist seen l : sublist (har_from seen l) l.
Proof.
  revert seen. induction l as [|h l IH]; intros seen; [done|].
  rewrite har_from_cons. destruct (_ && _).
  - by apply sublist_skip.
  - by apply sublist_cons.
Qed.

Lemma har_from_paint seen l : Forall (λ h, is_paint h) (har_from seen l).
Proof.
  revert seen. induction l as [|h l IH]; intros seen; [constructor|].
  rewrite har_from_cons. destruct (bool_decide (is_paint h)) eqn:E; [|apply IH].
  destruct (negb _); [|apply IH]. constructor; [|apply IH].
  by apply bool_decide_eq_true in E.
Qed.

Lemma har_from_fresh seen l q : q ∈ har_from seen l → raw_sku q ∉ seen.
Proof.
  revert seen. induction l as [|h l IH]; intros seen; [by intros ?%elem_of_nil|].
  rewrite har_from_cons. destruct (bool_decide (is_paint h)); [|apply IH].
  case_bool_decide as Hin; [apply IH|]. cbn [negb andb].
  intros [->|Hq%IH]%elem_of_cons; [done|]. set_solver.
Qed.

Lemma har_from_NoDup seen l : NoDup ((λ h, raw_sku h) <$> har_from seen l).
Proof.
  revert seen. induction l as [|h l IH]; intros seen; [constructor|].
  rewrite har_from_cons. destruct (bool_decide (is_paint h)); [|apply IH].
  case_bool_decide as Hin; [apply IH|]. cbn [negb andb].
  rewrite fmap_cons. constructor; [|apply IH].
  intros (q&Heq&Hq%har_from_fresh)%list_elem_of_fmap. set_solver.
Qed.

Lemma har_from_first seen l1 q l2 :
  is_paint q → raw_sku q ∉ seen →
  Forall (λ x, is_paint x → raw_sku x ≠ raw_sku q) l1 →
  q ∈ har_from seen (l1 ++ q :: l2).
Proof.
  intros Hq. revert seen. induction l1 as [|h l1 IH]; intros seen Hs Hl1.
  - rewrite app_nil_l, har_from_cons.
    rewrite bool_decide_eq_true_2, (bool_decide_eq_false_2 (_ ∈ _)) by done.
    by left.
  - apply Forall_cons in Hl1 as [Hh Hl1].
    rewrite <- app_comm_cons, har_from_cons.
    case_bool_decide as Hp; [|by apply IH].
    case_bool_decide as Hin; [by apply IH|]. cbn [negb andb].
    right. apply IH; [|done]. specialize (Hh Hp). set_solver.
Qed.

Lemma foldl_har_entry_step_None entries :
  foldl (λ st entry, st ≫= λ st, Citadel.har_entry_step st entry) None entries
  = None.
Proof. by induction entries. Qed.

Lemma foldl_har_entry_step st entries :
  Citadel.Raises ∉ entries →
  foldl (λ st entry, st ≫= λ st, Citadel.har_entry_step st entry) (Some st) entries
  = Some (foldl Citadel.har_step st (Citadel.har_hits entries)).
Proof.
  revert st. induction entries as [|e entries IH]; intros st Hr; [done|].
  apply not_elem_of_cons in Hr as [He Hr].
  unfold Citadel.har_hits. rewrite bind_cons, foldl_app. cbn [foldl mbind option_bind].
  destruct e as [| |results|]; [by apply IH..| |done].
  cbn [Citadel.har_entry_step]. rewrite (IH _ Hr). do 2 f_equal.
  clear. revert st.
  induction results as [|hits results IHr]; intros st; [done|].
  cbn [foldl concat]. by rewrite foldl_app, IHr.
Qed.

Lemma extract_raises entries :
  Citadel.extract_paints_from_har entries = None ↔ Citadel.Raises ∈ entries.
Proof.
  unfold Citadel.extract_paints_from_har. rewrite fmap_None.
  generalize (([], ∅) : list Citadel.har_hit * gset (option string)).
  induction entries as [|e entries IH]; intros st.
  - split; [done|by intros ?%elem_of_nil].
  - rewrite elem_of_cons. cbn [foldl mbind option_bind].
    destruct e as [| |results|]; cbn [Citadel.har_entry_step].
    + rewrite IH. naive_solver.
    + rewrite IH. naive_solver.
    + rewrite IH. naive_solver.
    + rewrite foldl_har_entry_step_None. naive_solver.
Qed.

Lemma extract_har_hits entries paints :
  Citadel.extract_paints_from_har entries = Some paints →
  paints = har_from ∅ (Citadel.har_hits entries).
Proof.
  intros H. assert (Citadel.Raises ∉ entries) as Hr.
  { intros Hin%extract_raises. by rewrite Hin in H. }
  unfold Citadel.extract_paints_from_har in H.
  rewrite (foldl_har_entry_step _ _ Hr) in H. by injection H as <-.
Qed.
End har.

(** X26: [extract_paints_from_har] raises when the loop meets an entry at
    which its body raises an exception it does not catch, whatever the
    other entries hold, and only then.  Otherwise it returns hits of the
    file in their order, all of product type [paint], no two of them with
    the same [sku] (a missing [sku] counts as one more SKU, so at most one
    paint without [sku] is returned), and the hit it returns for a SKU is
    the first paint of the file with that SKU.  Entries without a JSON
    body or without [results] add nothing. *)
Theorem extract_paints_from_har_spec (entries : list Citadel.har_entry) :
  (Citadel.extract_paints_from_har entries = None ↔ Citadel.Raises ∈ entries)
  ∧ ∀ paints, Citadel.extract_paints_from_har entries = Some paints →
      sublist paints (Citadel.har_hits entries)
      ∧ Forall (λ h, Citadel.hh_productType h = Some "paint") paints
      ∧ NoDup ((λ h, Citadel.hit_sku (Citadel.hh_hit h)) <$> paints)
      ∧ (∀ l1 q l2,
           Citadel.har_hits entries = l1 ++ q :: l2 →
           Citadel.hh_productType q = Some "paint" →
           Forall (λ x, Citadel.hh_productType x = Some "paint" →
                        Citadel.hit_sku (Citadel.hh_hit x)
                        ≠ Citadel.hit_sku (Citadel.hh_hit q)) l1 →
           q ∈ paints).
Proof.
  split; [apply extract_raises|]. intros paints ->%extract_har_hits.
  split; [apply har_from_sublist|].
  split; [apply har_from_paint|]. split; [apply har_from_NoDup|].
  intros l1 q l2 -> Hq Hl1. by apply har_from_first.
Qed.

Lemma extract_paints_from_har_spec_witness :
  sublist [Sample.zandri_dust_hit]
    (Citadel.har_hits
       [Citadel.Undecodable;
        Citadel.Results [[Sample.brush_hit; Sample.zandri_dust_hit]; [];
                          [Sample.zandri_dust_again]];
        Citadel.NoResults])
  ∧ Forall (λ h, Citadel.hh_productType h = Some "paint") [Sample.zandri_dust_hit]
  ∧ NoDup ((λ h, Citadel.hit_sku (Citadel.hh_hit h)) <$> [Sample.zandri_dust_hit])
  ∧ (∀ l1 q l2,
       Citadel.har_hits
         [Citadel.Undecodable;
          Citadel.Results [[Sample.brush_hit; Sample.zandri_dust_hit]; [];
                            [Sample.zandri_dust_again]];
          Citadel.NoResults] = l1 ++ q :: l2 →
       Citadel.hh_productType q = Some "paint" →
       Forall (λ x, Citadel.hh_productType x = Some "paint" →
                    Citadel.hit_sku (Citadel.hh_hit x)
                    ≠ Citadel.hit_sku (Citadel.hh_hit q)) l1 →
       q ∈ [Sample.zandri_dust_hit]).
Proof.
  apply (proj2 (extract_paints_from_har_spec
                  [Citadel.Undecodable;
                   Citadel.Results [[Sample.brush_hit; Sample.zandri_dust_hit];
                                     []; [Sample.zandri_dust_again]];
                   Citadel.NoResults])
           [Sample.zandri_dust_hit]).
  reflexivity.
Defined.

(** ** Sampling and grouping the paints of the HAR file *)

Lemma sampled_refl p : sampled p p.
Proof. repeat split. by left. Qed.

Lemma sample_paint_color_sampled fetch_svg p :
  sampled p (Citadel.sample_paint_color fetch_svg p).
Proof.
  unfold Citadel.sample_paint_color.
  destruct (default [] (Citadel.hh_images p)) as [|image_path ?];
    [apply sampled_refl|].
  destruct (negb _); [apply sampled_refl|].
  destruct (otruthy _); [|by repeat split; left].
  repeat split. cbn [Citadel.hh_hit Citadel.set_hex Citadel.hit_hex].
  destruct (Citadel.extract_hex_from_svg _) as [hex|] eqn:E; [|by right; left].
  right; right. exists hex. split; [done|].
  by apply (extract_hex_from_svg_upper_hex _ _ E).
Qed.

Lemma sampled_fields p p' :
  sampled p p' →
  Citadel.hit_sku (Citadel.hh_hit p') = Citadel.hit_sku (Citadel.hh_hit p)
  ∧ Citadel.hit_name (Citadel.hh_hit p') = Citadel.hit_name (Citadel.hh_hit p)
  ∧ Citadel.hit_paintType (Citadel.hh_hit p')
    = Citadel.hit_paintType (Citadel.hh_hit p).
Proof.
  intros (_&_&H&_). repeat split.
  - by apply (f_equal Citadel.hit_sku) in H.
  - by apply (f_equal Citadel.hit_name) in H.
  - by apply (f_equal Citadel.hit_paintType) in H.
Qed.

Lemma sampled_first_paint_type p p' :
  sampled p p' → Citadel.first_paint_type p' = Citadel.first_paint_type p.
Proof.
  intros (_&_&Ht)%sampled_fields. unfold Citadel.first_paint_type. by rewrite Ht.
Qed.

Lemma sampled_is_paint_product p p' :
  sampled p p' →
  Citadel.is_paint_product (Citadel.hh_hit p')
  = Citadel.is_paint_product (Citadel.hh_hit p).
Proof.
  intros (_&Hn&_)%sampled_fields. unfold Citadel.is_paint_product. by rewrite Hn.
Qed.

Lemma Forall2_fmap_sampled (f : Citadel.har_hit → Citadel.har_hit) b l :
  (∀ p, sampled p (f p) ∧ (b = false → f p = p)) →
  Forall2 (λ p p', sampled p p' ∧ (b = false → p' = p)) l (f <$> l).
Proof. intros Hf. induction l as [|p l IH]; constructor; [apply Hf|done]. Qed.

Lemma scrape_category_kept (fetch_svg : string → option string)
    (paints : list Citadel.har_hit) (category : string)
    (sample_colors filter_products : bool) :
  Forall2 (λ p p', sampled p p' ∧ (sample_colors = false → p' = p))
    (filter (λ p, Citadel.first_paint_type p = category
                  ∧ (filter_products = true
                     → Citadel.is_paint_product (Citadel.hh_hit p) = true))
       paints)
    (Citadel.scrape_category fetch_svg paints category sample_colors
       filter_products).
Proof.
  unfold Citadel.scrape_category.
  assert (filter (λ p, Citadel.first_paint_type p = category
                       ∧ (filter_products = true
                          → Citadel.is_paint_product (Citadel.hh_hit p) = true))
            paints
          = if filter_products
            then filter (λ p, Citadel.is_paint_product (Citadel.hh_hit p) = true)
                   (filter (λ p, Citadel.first_paint_type p = category) paints)
            else filter (λ p, Citadel.first_paint_type p = category) paints) as ->.
  { destruct filter_products.
    - rewrite list_filter_filter. apply list_filter_iff. intros p. tauto.
    - apply list_filter_iff. intros p. split; [tauto|]. by intros ->. }
  destruct (filter (λ p, Citadel.first_paint_type p = category) paints)
    as [|p0 cp] eqn:E.
  { destruct filter_products; constructor. }
  rewrite <- E. clear E.
  set (kept := if filter_products then _ else _).
  destruct sample_colors.
  - apply Forall2_fmap_sampled. intros p. split; [|done].
    apply sample_paint_color_sampled.
  - rewrite <- (list_fmap_id kept) at 2. apply Forall2_fmap_sampled.
    intros p. split; [apply sampled_refl|done].
Qed.

(** X27: [scrape_category] returns, in their order, the paints whose first
    paint type is the category and, when filtering is on, that pass the
    product filter.  Sampling touches no key of a paint but [_image_url]
    and [_hex]; the [_hex] of a returned paint is the one it had, [None],
    or a colour in the form [#RRGGBB]; without sampling the paints are
    returned as they are. *)
Theorem scrape_category_spec (fetch_svg : string → option string)
    (paints : list Citadel.har_hit) (category : string)
    (sample_colors filter_products : bool) :
  Forall2 (λ p p', sampled p p' ∧ (sample_colors = false → p' = p))
    (filter (λ p, Citadel.first_paint_type p = category
                  ∧ (filter_products = true
                     → Citadel.is_paint_product (Citadel.hh_hit p) = true))
       paints)
    (Citadel.scrape_category fetch_svg paints category sample_colors
       filter_products).
Proof. apply scrape_category_kept. Qed.


Lemma omap_fst_sublist {A B} (F : string * A → option (string * B))
    (l : list (string * A)) :
  (∀ x y, F x = Some y → y.1 = x.1) → sublist (omap F l).*1 l.*1.
Proof.
  intros HF. induction l as [|x l IH]; [done|]. cbn [omap list_omap].
  destruct (F x) as [y|] eqn:E.
  - rewrite !fmap_cons, (HF x y E). by apply sublist_skip.
  - rewrite fmap_cons. by apply sublist_cons.
Qed.

Lemma Citadel_make_entry_category c p k t ts :
  Citadel.hit_paintType p = Some (t :: ts) →
  Citadel.make_entry c p k !! "category" = Some (VStr t).
Proof. intros H. unfold Citadel.make_entry. by rewrite H. Qed.

Lemma Citadel_generate_catalogue_elem_of l c e :
  e ∈ Citadel.generate_catalogue l c →
  ∃ x k, x ∈ l ∧ e = Citadel.make_entry c x k.
Proof.
  rewrite Citadel_generate_catalogue_spec, sort_by_elem_of.
  intros ([x k]&->&Hin)%list_elem_of_fmap.
  apply first_seen_keys in Hin as (_&?&_). by exists x, k.
Qed.

Lemma scrape_category_paints fetch_svg paints category sample_colors filter_products :
  Forall (λ p, Citadel.hh_productType p = Some "paint") paints →
  category ≠ EmptyString →
  Forall (λ p, Citadel.first_paint_type p = category
               ∧ Citadel.hh_productType p = Some "paint"
               ∧ (filter_products = true
                  → Citadel.is_paint_product (Citadel.hh_hit p) = true))
    (Citadel.scrape_category fetch_svg paints category sample_colors
       filter_products)
  ∧ Forall (λ e, e !! "category" = Some (VStr category))
      (Citadel.generate_catalogue
         (Citadel.hh_hit
            <$> Citadel.scrape_category fetch_svg paints category sample_colors
                  filter_products)
         (Some category)).
Proof.
  intros Hall Hne.
  pose proof (scrape_category_kept fetch_svg paints category sample_colors
                filter_products) as H2.
  assert (Forall (λ p, Citadel.first_paint_type p = category
               ∧ Citadel.hh_productType p = Some "paint"
               ∧ (filter_products = true
                  → Citadel.is_paint_product (Citadel.hh_hit p) = true))
    (Citadel.scrape_category fetch_svg paints category sample_colors
       filter_products)) as HF.
  { apply Forall_forall. intros p' Hp'.
    apply list_elem_of_lookup in Hp' as [i Hi].
    destruct (Forall2_lookup_r _ _ _ _ _ H2 Hi) as (p&Hp&Hs&_).
    apply list_elem_of_lookup_2, list_elem_of_filter in Hp as [[Hc Hprod] Hin].
    split; [by rewrite (sampled_first_paint_type p p')|].
    split.
    - destruct Hs as (->&_). rewrite Forall_forall in Hall. by apply Hall.
    - by rewrite (sampled_is_paint_product p p'). }
  split; [done|]. apply Forall_forall. intros e He.
  apply Citadel_generate_catalogue_elem_of in He as (x&k&Hx&->).
  apply list_elem_of_fmap in Hx as (p&->&Hp).
  rewrite Forall_forall in HF. destruct (HF p Hp) as (Ht&_).
  unfold Citadel.first_paint_type in Ht.
  destruct (Citadel.hit_paintType (Citadel.hh_hit p)) as [[|t ts]|] eqn:E;
    simpl in Ht; [congruence| |congruence].
  rewrite <- Ht. by apply (Citadel_make_entry_category _ _ _ t ts).
Qed.

(** X28: [scrape_all_categories] raises when [extract_paints_from_har]
    does, and otherwise groups the paints of the HAR file by their first
    paint type.  The groups come in the order of [CITADEL_CATEGORIES], each
    at most once, with the type of the category and without empty groups;
    every paint of a group has the category as its first paint type, so no
    paint is in two groups; the catalogue assembled from a group gives
    every entry the category of the group; and no paint of a known
    category that passes the filter is lost. *)
Theorem scrape_all_categories_spec (fetch_svg : string → option string)
    (entries : list Citadel.har_entry) (sample_colors filter_products : bool) :
  (Citadel.extract_paints_from_har entries = None →
   Citadel.scrape_all_categories fetch_svg entries sample_colors filter_products
   = None)
  ∧ ∀ all_paints, Citadel.extract_paints_from_har entries = Some all_paints →
      ∃ groups,
        Citadel.scrape_all_categories fetch_svg entries sample_colors
          filter_products = Some groups
        ∧ sublist groups.*1 Citadel.CITADEL_CATEGORIES.*1
        ∧ Forall (λ g, (g.1, g.2.1) ∈ Citadel.CITADEL_CATEGORIES
                       ∧ g.2.2 ≠ []
                       ∧ Forall (λ p, Citadel.first_paint_type p = g.1
                                      ∧ Citadel.hh_productType p = Some "paint"
                                      ∧ (filter_products = true
                                         → Citadel.is_paint_product
                                             (Citadel.hh_hit p) = true))
                           g.2.2
                       ∧ Forall (λ e, e !! "category" = Some (VStr g.1))
                           (Citadel.generate_catalogue (Citadel.hh_hit <$> g.2.2)
                              (Some g.1)))
            groups
        ∧ (∀ p, p ∈ all_paints →
             Citadel.first_paint_type p ∈ Citadel.CITADEL_CATEGORIES.*1 →
             (filter_products = true
              → Citadel.is_paint_product (Citadel.hh_hit p) = true) →
             ∃ g p', g ∈ groups ∧ g.1 = Citadel.first_paint_type p
                     ∧ p' ∈ g.2.2 ∧ sampled p p').
Proof.
  unfold Citadel.scrape_all_categories.
  split; [by intros ->|]. intros all_paints Hex. rewrite Hex.
  cbn [mbind option_bind]. eexists. split; [reflexivity|].
  assert (Forall (λ p, Citadel.hh_productType p = Some "paint") all_paints)
    as Hall.
  { apply extract_har_hits in Hex as ->. apply har_from_paint. }
  assert (Forall (λ ct : string * string, ct.1 ≠ EmptyString)
            Citadel.CITADEL_CATEGORIES) as Hne by (repeat constructor; done).
  split; [|split].
  - apply omap_fst_sublist. intros ct g Hg.
    destruct (Citadel.scrape_category _ _ _ _ _); [done|]. by injection Hg as <-.
  - apply Forall_forall. intros g (ct&Hct&Hg)%list_elem_of_omap.
    rewrite Forall_forall in Hne. specialize (Hne ct Hct).
    destruct (scrape_category_paints fetch_svg all_paints ct.1 sample_colors
                filter_products Hall Hne) as [H1 H2].
    destruct (Citadel.scrape_category _ _ _ _ _) as [|p0 cp]; [done|].
    injection Hg as <-. cbn [fst snd]. by destruct ct.
  - intros p Hp Hc Hprod.
    apply list_elem_of_fmap in Hc as (ct&Hc&Hct).
    pose proof (scrape_category_kept fetch_svg all_paints
                  ct.1 sample_colors filter_products) as H2.
    assert (p ∈ filter (λ p, Citadel.first_paint_type p = ct.1
                            ∧ (filter_products = true
                               → Citadel.is_paint_product (Citadel.hh_hit p) = true))
                  all_paints) as Hin
      by by apply list_elem_of_filter.
    apply list_elem_of_lookup in Hin as [i Hi].
    destruct (Forall2_lookup_l _ _ _ _ _ H2 Hi) as (p'&Hp'&Hs&_).
    exists (ct.1, (ct.2, Citadel.scrape_category fetch_svg all_paints
                           ct.1 sample_colors filter_products)), p'.
    split; [|split; [done|split; [by eapply list_elem_of_lookup_2|done]]].
    apply list_elem_of_omap. exists ct. split; [done|].
    destruct (Citadel.scrape_category _ _ _ _ _); [|done].
    by rewrite lookup_nil in Hp'.
Qed.

Lemma scrape_all_categories_spec_witness :
  ∃ groups,
    Citadel.scrape_all_categories (λ _, None)
      [Citadel.Results [[Sample.brush_hit; Sample.zandri_dust_hit]]] true true
    = Some groups
    ∧ sublist groups.*1 Citadel.CITADEL_CATEGORIES.*1
    ∧ Forall (λ g, (g.1, g.2.1) ∈ Citadel.CITADEL_CATEGORIES
                   ∧ g.2.2 ≠ []
                   ∧ Forall (λ p, Citadel.first_paint_type p = g.1
                                  ∧ Citadel.hh_productType p = Some "paint"
                                  ∧ (true = true
                                     → Citadel.is_paint_product
                                         (Citadel.hh_hit p) = true))
                       g.2.2
                   ∧ Forall (λ e, e !! "category" = Some (VStr g.1))
                       (Citadel.generate_catalogue (Citadel.hh_hit <$> g.2.2)
                          (Some g.1)))
        groups
    ∧ (∀ p, p ∈ [Sample.zandri_dust_hit] →
         Citadel.first_paint_type p ∈ Citadel.CITADEL_CATEGORIES.*1 →
         (true = true → Citadel.is_paint_product (Citadel.hh_hit p) = true) →
         ∃ g p', g ∈ groups ∧ g.1 = Citadel.first_paint_type p
                 ∧ p' ∈ g.2.2 ∧ sampled p p').
Proof.
  apply (proj2 (scrape_all_categories_spec (λ _, None)
                  [Citadel.Results [[Sample.brush_hit; Sample.zandri_dust_hit]]]
                  true true)
           [Sample.zandri_dust_hit]).
  reflexivity.
Defined.

(** ** What sentence case and cleaning leave of a name *)

Lemma lower_app (a b : string) : Py.lower (a +:+ b) = Py.lower a +:+ Py.lower b.
Proof.
  induction a as [|c a IH]; [done|]. rewrite append_cons.
  change (Py.lower (String c (a +:+ b)))
    with (String (Py.lower_char c) (Py.lower (a +:+ b))).
  by rewrite IH.
Qed.

Lemma lower_join ws : Py.lower (Py.join " " ws) = Py.join " " (Py.lower <$> ws).
Proof.
  induction ws as [|w ws IH]; [done|]. rewrite fmap_cons, !join_cons, lower_app.
  f_equal. destruct ws as [|w2 ws]; [done|].
  rewrite fmap_cons in *. rewrite lower_app, IH. done.
Qed.

Lemma lower_title_go b w : Py.lower (Py.title_go b w) = Py.lower w.
Proof.
  revert b. induction w as [|c w IH]; intros b; [done|].
  cbn [Py.title_go]. destruct (Py.is_alpha c).
  - change (Py.lower (String ?x ?s)) with (String (Py.lower_char x) (Py.lower s)).
    rewrite IH. f_equal. by destruct b, c as [[] [] [] [] [] [] [] []].
  - change (Py.lower (String ?x ?s)) with (String (Py.lower_char x) (Py.lower s)).
    by rewrite IH.
Qed.

Lemma scan_words_lower s :
  scan_words (Py.lower s)
  = (Py.lower (scan_words s).1, Py.lower <$> (scan_words s).2).
Proof.
  induction s as [|c s IH]; [done|].
  change (Py.lower (String c s)) with (String (Py.lower_char c) (Py.lower s)).
  rewrite !scan_words_cons, lower_char_space, IH. cbn [fst snd].
  destruct (Py.is_space c); [|done]. f_equal. unfold cons_word.
  by destruct (scan_words s).1.
Qed.

Lemma split_lower s : Py.split (Py.lower s) = Py.lower <$> Py.split s.
Proof.
  rewrite !split_scan, scan_words_lower. cbn [fst snd]. unfold cons_word.
  by destruct (scan_words s).1.
Qed.

Lemma lower_to_sentence_case name :
  Py.lower (AK.to_sentence_case name) = Py.join " " (Py.split (Py.lower name)).
Proof.
  unfold AK.to_sentence_case. destruct name as [|c n]; [done|].
  cbn [Py.truthy negb]. rewrite lower_join, split_lower. f_equal.
  change (map ?f ?l) with (f <$> l). rewrite <- list_fmap_compose.
  apply list_fmap_ext. intros i w _. cbn [compose].
  destruct (_ || _); [|done]. apply lower_title_go.
Qed.

(** X29: [to_sentence_case] changes nothing of a name of ASCII characters
    but the case of its letters and its whitespace: put in lower case, its
    result is the lower-case words of the name joined by single spaces (AK
    Interactive and Vallejo).  Outside of ASCII [str.title] may change a
    letter for others. *)
Theorem to_sentence_case_letters (name : string) :
  ascii_only name = true →
  Py.lower (AK.to_sentence_case name) = Py.join " " (Py.split (Py.lower name))
  ∧ Py.lower (Vallejo.to_sentence_case name)
    = Py.join " " (Py.split (Py.lower name)).
Proof. intros _. split; apply lower_to_sentence_case. Qed.

Lemma to_sentence_case_letters_witness :
  Py.lower (AK.to_sentence_case "WOOD  BROWN ink mcDonald")
  = Py.join " " (Py.split (Py.lower "WOOD  BROWN ink mcDonald"))
  ∧ Py.lower (Vallejo.to_sentence_case "WOOD  BROWN ink mcDonald")
    = Py.join " " (Py.split (Py.lower "WOOD  BROWN ink mcDonald")).
Proof. apply (to_sentence_case_letters "WOOD  BROWN ink mcDonald"). reflexivity. Defined.

Lemma lstrip_split s :
  ∃ a, s = a +:+ Py.lstrip s ∧ Py.sforall Py.is_space a = true.
Proof.
  induction s as [|c s (a&Hs&Ha)]; [by exists EmptyString|].
  cbn [Py.lstrip]. destruct (Py.is_space c) eqn:Ec.
  - exists (String c a). rewrite append_cons, <- Hs. split; [done|].
    cbn [Py.sforall]. by rewrite Ec, Ha.
  - by exists EmptyString.
Qed.

Lemma rstrip_split s : ∃ b, s = Py.rstrip s +:+ b.
Proof.
  induction s as [|c s (b&Hs)]; [by exists EmptyString|].
  rewrite rstrip_cons. destruct (Py.rstrip s) as [|d r] eqn:E.
  - destruct (Py.is_space c).
    + by exists (String c s).
    + exists s. done.
  - exists b. by rewrite append_cons, <- Hs.
Qed.

Lemma strip_ws_app a y :
  Py.sforall Py.is_space a = true → Py.strip (a +:+ y) = Py.strip y.
Proof.
  unfold Py.strip. induction a as [|c a IH]; [done|].
  cbn [Py.sforall]. intros [Hc Ha]%andb_true_iff. specialize (IH Ha).
  rewrite append_cons, rstrip_cons.
  destruct (Py.rstrip (a +:+ y)) as [|d r].
  - by rewrite Hc, <- IH.
  - rewrite <- IH. cbn [Py.lstrip]. by rewrite Hc.
Qed.

(** Cutting the stripped beginning of a name and stripping again gives a
    stripped beginning of the name. *)
Lemma trimmed_prefix_cut r y rest name :
  trimmed_prefix r name → r = y +:+ rest → trimmed_prefix (Py.strip y) name.
Proof.
  intros (p&rest0&->&->) Hy.
  destruct (rstrip_split p) as (b&Hp).
  destruct (lstrip_split (Py.rstrip p)) as (a&Hr&Ha).
  exists (a +:+ y), (rest +:+ b +:+ rest0). split.
  - rewrite Hp at 1. rewrite Hr at 1. unfold Py.strip in Hy. rewrite Hy.
    by rewrite !app_assoc_s.
  - by rewrite strip_ws_app.
Qed.

Lemma cut_suffix_prefix full s : ∃ rest, s = Py.cut_suffix full s +:+ rest.
Proof.
  induction s as [|c s (rest&Hs)].
  - exists EmptyString. cbn [Py.cut_suffix]. by destruct (full _).
  - cbn [Py.cut_suffix]. destruct (full (String c s)).
    + by exists (String c s).
    + exists rest. by rewrite append_cons, <- Hs.
Qed.

Lemma rsplit1_prefix sep s a b :
  Py.rsplit1 sep s = Some (a, b) → ∃ rest, s = a +:+ rest.
Proof.
  revert a b. induction s as [|c s IH]; intros a b; [done|].
  cbn [Py.rsplit1]. destruct (Py.rsplit1 sep s) as [[a' b']|].
  - intros [= <- <-]. destruct (IH a' b' eq_refl) as (rest&->).
    by exists rest.
  - destruct (Py.startswith sep (String c s)); [|done].
    intros [= <- <-]. by exists (String c s).
Qed.

Lemma trimmed_prefix_size name r :
  r = name ∨ trimmed_prefix r name →
  trimmed_prefix
    (Py.strip (Py.cut_suffix AK.size_bare
                 (Py.strip (Py.cut_suffix AK.size_in_parens r))))
    name.
Proof.
  intros Hr.
  assert (trimmed_prefix (Py.strip (Py.cut_suffix AK.size_in_parens r)) name) as H1.
  { destruct (cut_suffix_prefix AK.size_in_parens r) as (rest&Hc).
    destruct Hr as [->|Hr].
    - by exists (Py.cut_suffix AK.size_in_parens name), rest.
    - by eapply trimmed_prefix_cut. }
  destruct (cut_suffix_prefix AK.size_bare
              (Py.strip (Py.cut_suffix AK.size_in_parens r))) as (rest&Hc).
  by eapply trimmed_prefix_cut.
Qed.

Lemma AK_strip_range_suffix_prefix seps name :
  AK.strip_range_suffix seps name = name
  ∨ trimmed_prefix (AK.strip_range_suffix seps name) name.
Proof.
  induction seps as [|sep seps IH]; [by left|]. cbn [AK.strip_range_suffix].
  destruct (Py.contains sep name); [|done].
  destruct (Py.rsplit1 sep name) as [[before suffix]|] eqn:E; [|done].
  destruct (existsb _ _); [|done]. right.
  destruct (rsplit1_prefix _ _ _ _ E) as (rest&->). by exists before, rest.
Qed.

Lemma Vallejo_strip_range_suffix_prefix seps name :
  Vallejo.strip_range_suffix seps name = name
  ∨ trimmed_prefix (Vallejo.strip_range_suffix seps name) name.
Proof.
  induction seps as [|sep seps IH]; [by left|]. cbn [Vallejo.strip_range_suffix].
  destruct (Py.contains sep name); [|done].
  destruct (Py.rsplit1 sep name) as [[before suffix]|] eqn:E; [|done].
  destruct (existsb _ _); [|done]. right.
  destruct (rsplit1_prefix _ _ _ _ E) as (rest&->). by exists before, rest.
Qed.

(** X30: [clean_paint_name] only cuts: the name it returns is a beginning
    of the name it is given, with the whitespace around it taken off.  It
    never rewrites, moves or adds a character (AK Interactive and
    Vallejo). *)
Theorem clean_paint_name_prefix (name : string) :
  trimmed_prefix (AK.clean_paint_name name) name
  ∧ trimmed_prefix (Vallejo.clean_paint_name name) name.
Proof.
  split.
  - unfold AK.clean_paint_name. destruct name as [|c n].
    + by exists EmptyString, EmptyString.
    + cbn [Py.truthy negb]. apply trimmed_prefix_size.
      apply AK_strip_range_suffix_prefix.
  - unfold Vallejo.clean_paint_name. destruct name as [|c n].
    + by exists EmptyString, EmptyString.
    + cbn [Py.truthy negb]. apply trimmed_prefix_size.
      apply Vallejo_strip_range_suffix_prefix.
Qed.
